(** * Stock valuation engine of coplacont-backend

    A shallow embedding of the stock calculation service
    ([StockCalculationService]), the lot creation service
    ([LoteCreationService]), the Kardex calculation service
    ([KardexCalculationService]) and the initial-balance seeding of
    [InventarioService.create], followed by the properties of the
    specification that concern them.

    Conventions of the embedding.
    - A JavaScript [number] holding a quantity, a unit cost or a value is a
      rational of [Q]; the arithmetic is exact. [Math.max] and [Math.min]
      are [Qmax] and [Qmin]. Where the source computes an expression the
      embedding computes the same expression, so balances are compared with
      Leibniz equality when they are copied and with [==] when they are
      recomputed. The numbers of the program are binary64: its sums and
      differences are rounded, which moves a value in its last place and,
      in the loop of [calcularConsumoFIFO], can also move the remainder
      across the zero that decides the [throw]. That loop and the tests
      that compare a stock with a quantity are therefore given a second
      time, on [PrimFloat.float], in the module [Doble].
    - A [Date] is its [getTime()] value, a [Z] of milliseconds. The process
      time zone is taken to be UTC, so that [new Date(y, m, d)] built from
      the local fields of a date is the start of its UTC day.
    - A table of the relational store is the list of its rows in the order
      in which the store scans them. A query with [ORDER BY] is a stable
      sort of the scanned rows; [Array.prototype.sort] is a stable sort.
    - [async] functions run to completion one after the other; a function
      that reads or writes the stock cache is a state transformer, and one
      that can [throw] returns a sum. *)

From Stdlib Require Import ZArith QArith Qminmax Lqa Lia List String Bool Sorted.
From Stdlib Require PrimFloat.
From stdpp Require Import base gmap.
Import ListNotations.

Local Open Scope Q_scope.

(** ** Numbers and dates *)

(** [x > 0] and friends on JavaScript numbers. *)
Definition Qgtb (x y : Q) : bool := negb (Qle_bool x y).
Definition Qleb (x y : Q) : bool := Qle_bool x y.

Definition Fecha := Z.

Definition msPorDia : Z := 86400000.

(** [new Date(f.getFullYear(), f.getMonth(), f.getDate()).getTime()]. *)
Definition inicioDelDia (f : Fecha) : Fecha := (f / msPorDia * msPorDia)%Z.

(** [d.setDate(d.getDate() - 1); d.setHours(23, 59, 59, 999)]. *)
Definition finDelDiaAnterior (f : Fecha) : Fecha := (inicioDelDia f - 1)%Z.

(** The SQL fragment [fechaHasta ? 'm.fecha <= :fechaHasta' : '1=1']. *)
Definition hastaFecha (fechaHasta : option Fecha) (f : Fecha) : bool :=
  match fechaHasta with
  | Some h => (f <=? h)%Z
  | None => true
  end.

(** ** Stable sorting

    [ordenar cmp l] is [l.sort(cmp)] for a comparator that returns a number:
    [a] stays before [b] when [cmp a b <= 0]. *)

Section Ordenar.
Context {A : Type} (cmp : A -> A -> Z).

Fixpoint insertar (x : A) (l : list A) : list A :=
  match l with
  | [] => [x]
  | y :: l' => if (cmp x y <=? 0)%Z then x :: y :: l' else y :: insertar x l'
  end.

Fixpoint ordenar (l : list A) : list A :=
  match l with
  | [] => []
  | x :: l' => insertar x (ordenar l')
  end.
End Ordenar.

(** Sum of a column over the selected rows: [COALESCE(SUM(col), 0)]. *)
Definition sumaQ {A : Type} (col : A -> Q) (filas : list A) : Q :=
  fold_right (fun fila acc => col fila + acc) 0 filas.

(** ** Entities *)

Inductive TipoMovimiento := ENTRADA | SALIDA | AJUSTE.

(** Modelled from the spec: the enum [EstadoMovimiento] is not among the
    sources; the specification gives its states as PROCESADO and others, and
    only PROCESADO movements count toward stock. *)
Inductive EstadoMovimiento := PROCESADO | NO_PROCESADO.

Inductive MetodoValoracion := PROMEDIO | FIFO.

Definition TipoMovimiento_eqb (a b : TipoMovimiento) : bool :=
  match a, b with
  | ENTRADA, ENTRADA | SALIDA, SALIDA | AJUSTE, AJUSTE => true
  | _, _ => false
  end.

Definition esProcesado (e : EstadoMovimiento) : bool :=
  match e with PROCESADO => true | NO_PROCESADO => false end.

(** Row of [inventario]: one product in one warehouse. *)
Record Inventario := {
  inv_id : Z;
  inv_idAlmacen : Z;
  inv_idProducto : Z
}.

(** Row of [inventario_lote]. *)
Record InventarioLote := {
  lote_id : Z;
  lote_idInventario : Z;
  lote_numeroLote : string;
  lote_cantidadInicial : Q;
  lote_costoUnitario : Q;
  lote_fechaIngreso : Fecha
}.

(** Row of [movimientos]. [mov_tipoOperacion] is the description of the
    operation type of the related voucher ([to.descripcion] of the left
    joins), absent when the movement has no voucher. *)
Record Movimiento := {
  mov_id : Z;
  mov_tipo : TipoMovimiento;
  mov_fecha : Fecha;
  mov_numeroDocumento : option string;
  mov_estado : EstadoMovimiento;
  mov_tipoOperacion : option string
}.

(** Row of [detalle_salida]: quantity drawn from one lot by an exit line. *)
Record DetalleSalida := {
  ds_idLote : Z;
  ds_costoUnitarioDeLote : Q;
  ds_cantidad : Q
}.

(** Row of [movimiento_detalle] together with the rows its foreign keys
    reach: its movement ([md.movimiento]) and the exit allocations that
    point to it ([ds.id_movimiento_detalle = md.id]). *)
Record MovimientoDetalle := {
  md_id : Z;
  md_movimiento : Movimiento;
  md_idInventario : Z;
  md_idLote : option Z;
  md_cantidad : Q;
  md_detallesSalida : list DetalleSalida
}.

(** The relational store. *)
Record BaseDatos := {
  bd_almacenes : list Z;
  bd_productos : list Z;
  bd_inventarios : list Inventario;
  bd_lotes : list InventarioLote;
  bd_detalles : list MovimientoDetalle
}.

(** ** Results of the stock calculation *)

Record LoteStockResult := {
  idLote : Z;
  cantidadActual : Q;
  cantidadInicial : Q;
  costoUnitario : Q;
  fechaIngreso : Fecha;
  numeroLote : string
}.

Record InventarioStockResult := {
  idInventario : Z;
  stockActual : Q;
  costoPromedioActual : Q;
  lotes : list LoteStockResult
}.

Record LoteDisponible := {
  ld_idLote : Z;
  ld_cantidadDisponible : Q;
  ld_costoUnitario : Q;
  ld_fechaIngreso : Fecha
}.

Record ConsumoLote := {
  cl_idLote : Z;
  cl_cantidad : Q;
  cl_costoUnitario : Q
}.

(** ** Stock cache

    Modelled from the spec: [StockCacheService] is not among the sources.
    The specification describes an in-memory cache of computed stock
    results keyed by lot id or inventory id, populated by the bare query
    (the one without a cutoff date) and cleared by explicit invalidation.
    Expiry by age is not modelled: an entry stays until it is invalidated. *)

Record InventarioStockCacheado := {
  ic_stockActual : Q;
  ic_costoPromedioActual : Q;
  ic_valorTotal : Q
}.

Record StockCache := {
  cacheLotes : gmap Z LoteStockResult;
  cacheInventarios : gmap Z InventarioStockCacheado
}.

Definition cacheVacia : StockCache :=
  {| cacheLotes := ∅; cacheInventarios := ∅ |}.

Definition getLoteStock (c : StockCache) (id : Z) (fechaHasta : option Fecha)
  : option LoteStockResult :=
  match fechaHasta with
  | None => cacheLotes c !! id
  | Some _ => None
  end.

Definition setLoteStock (c : StockCache) (id : Z) (fechaHasta : option Fecha)
    (r : LoteStockResult) : StockCache :=
  match fechaHasta with
  | None => {| cacheLotes := <[id := r]> (cacheLotes c);
               cacheInventarios := cacheInventarios c |}
  | Some _ => c
  end.

Definition getInventarioStock (c : StockCache) (id : Z)
    (fechaHasta : option Fecha) : option InventarioStockCacheado :=
  match fechaHasta with
  | None => cacheInventarios c !! id
  | Some _ => None
  end.

Definition setInventarioStock (c : StockCache) (id : Z)
    (fechaHasta : option Fecha) (r : InventarioStockCacheado) : StockCache :=
  match fechaHasta with
  | None => {| cacheLotes := cacheLotes c;
               cacheInventarios := <[id := r]> (cacheInventarios c) |}
  | Some _ => c
  end.

Definition invalidateInventario (c : StockCache) (id : Z) : StockCache :=
  {| cacheLotes := cacheLotes c;
     cacheInventarios := delete id (cacheInventarios c) |}.

(** ** State and effects *)

Record Estado := {
  bd : BaseDatos;
  cache : StockCache
}.

Definition conCache (st : Estado) (c : StockCache) : Estado :=
  {| bd := bd st; cache := c |}.

Definition conBd (st : Estado) (b : BaseDatos) : Estado :=
  {| bd := b; cache := cache st |}.

(** A thrown [Error] carries its message. *)
Inductive Resultado (A : Type) :=
| Exito (a : A)
| Fallo (mensaje : string).
Arguments Exito {A} a.
Arguments Fallo {A} mensaje.

(** Computations that read and write the state and may throw. *)
Definition M (A : Type) : Type := Estado -> Resultado A * Estado.

Definition retornar {A} (a : A) : M A := fun st => (Exito a, st).

Definition lanzar {A} (mensaje : string) : M A := fun st => (Fallo mensaje, st).

Definition ligar {A B} (m : M A) (k : A -> M B) : M B :=
  fun st =>
    match m st with
    | (Exito a, st') => k a st'
    | (Fallo e, st') => (Fallo e, st')
    end.

(** A computation that cannot throw. *)
Definition elevar {A} (f : Estado -> A * Estado) : M A :=
  fun st => let '(a, st') := f st in (Exito a, st').

Notation "'sea' x '<-' m 'en' k" := (ligar m (fun x => k))
  (at level 10, x name, m at level 100, k at level 200).

(** ** StockCalculationService *)

(** Repository lookups. *)
Definition buscarLote (b : BaseDatos) (id : Z) : option InventarioLote :=
  List.find (fun l => (lote_id l =? id)%Z) (bd_lotes b).

Definition buscarInventario (b : BaseDatos) (id : Z) : option Inventario :=
  List.find (fun i => (inv_id i =? id)%Z) (bd_inventarios b).

Definition esDelLote (id : Z) (d : MovimientoDetalle) : bool :=
  match md_idLote d with
  | Some l => (l =? id)%Z
  | None => false
  end.

(** The [WHERE] clause shared by the three sums over the rows of a lot:
    [m.estado = 'PROCESADO'], [m.tipo = :tipo] and the optional cutoff. *)
Definition movimientoCuenta (tipo : TipoMovimiento) (fechaHasta : option Fecha)
    (d : MovimientoDetalle) : bool :=
  esProcesado (mov_estado (md_movimiento d))
  && TipoMovimiento_eqb (mov_tipo (md_movimiento d)) tipo
  && hastaFecha fechaHasta (mov_fecha (md_movimiento d)).

(** [entradasRow] and [ajustesRow]: sum of [md.cantidad] over the rows with
    [md.idLote = :idLote]. *)
Definition sumaDetallesLote (b : BaseDatos) (id : Z) (tipo : TipoMovimiento)
    (fechaHasta : option Fecha) : Q :=
  sumaQ md_cantidad
    (List.filter (fun d => esDelLote id d && movimientoCuenta tipo fechaHasta d)
       (bd_detalles b)).

(** [salidasRow]: sum of [ds.cantidad] over the join of the exit lines with
    their allocations, for the allocations with [ds.id_lote = :idLote]. *)
Definition sumaSalidasLote (b : BaseDatos) (id : Z) (fechaHasta : option Fecha)
  : Q :=
  sumaQ ds_cantidad
    (List.flat_map
       (fun d => List.filter (fun ds => (ds_idLote ds =? id)%Z)
                   (md_detallesSalida d))
       (List.filter (movimientoCuenta SALIDA fechaHasta) (bd_detalles b))).

(** The [INV-INIT] query of [calcularStockLote]: first processed row of the
    lot whose movement carries the reserved document number. *)
Definition buscarInvInit (b : BaseDatos) (id : Z) : option MovimientoDetalle :=
  List.find
    (fun d => esDelLote id d
              && esProcesado (mov_estado (md_movimiento d))
              && match mov_numeroDocumento (md_movimiento d) with
                 | Some doc => String.eqb doc "INV-INIT"
                 | None => false
                 end)
    (bd_detalles b).

Definition tieneMovimientos (entradas salidas ajustes : Q) : bool :=
  Qgtb entradas 0 || Qgtb salidas 0 || Qgtb ajustes 0.

(** The quantity of a lot before the floor at zero. *)
Definition cantidadSinPiso (b : BaseDatos) (lote : InventarioLote)
    (fechaHasta : option Fecha) : Q :=
  let entradas := sumaDetallesLote b (lote_id lote) ENTRADA fechaHasta in
  let salidas := sumaSalidasLote b (lote_id lote) fechaHasta in
  let ajustes := sumaDetallesLote b (lote_id lote) AJUSTE fechaHasta in
  if tieneMovimientos entradas salidas ajustes then
    entradas - salidas + ajustes
  else
    match fechaHasta with
    | None => lote_cantidadInicial lote
    | Some hasta =>
        let hastaYmd := inicioDelDia hasta in
        match buscarInvInit b (lote_id lote) with
        | Some invInit =>
            let initYmd := inicioDelDia (mov_fecha (md_movimiento invInit)) in
            if (initYmd <=? hastaYmd)%Z then lote_cantidadInicial lote else 0
        | None =>
            let ingresoYmd := inicioDelDia (lote_fechaIngreso lote) in
            if (ingresoYmd <=? hastaYmd)%Z then lote_cantidadInicial lote else 0
        end
    end.

(** The result that [calcularStockLote] builds for a lot found in the store. *)
Definition resultadoLote (b : BaseDatos) (fechaHasta : option Fecha)
    (lote : InventarioLote) : LoteStockResult :=
  {| idLote := lote_id lote;
     cantidadActual := Qmax 0 (cantidadSinPiso b lote fechaHasta);
     cantidadInicial := lote_cantidadInicial lote;
     costoUnitario := lote_costoUnitario lote;
     fechaIngreso := lote_fechaIngreso lote;
     numeroLote := lote_numeroLote lote |}.

Definition calcularStockLote (id : Z) (fechaHasta : option Fecha)
    (st : Estado) : option LoteStockResult * Estado :=
  match getLoteStock (cache st) id fechaHasta, fechaHasta with
  | Some cachedResult, None => (Some cachedResult, st)
  | _, _ =>
      match buscarLote (bd st) id with
      | None => (None, st)
      | Some lote =>
          let result := resultadoLote (bd st) fechaHasta lote in
          (Some result, conCache st (setLoteStock (cache st) id fechaHasta result))
      end
  end.

(** [loteRepository.find({ where: { inventario: { id } },
    order: { fechaIngreso: 'ASC' } })]. *)
Definition lotesDeInventario (b : BaseDatos) (id : Z) : list InventarioLote :=
  ordenar (fun x y => (lote_fechaIngreso x - lote_fechaIngreso y)%Z)
    (List.filter (fun l => (lote_idInventario l =? id)%Z) (bd_lotes b)).

(** Accumulators of the loop over the lots of [calcularStockInventario]. *)
Record AcumuladoStock := {
  lotesConStock : list LoteStockResult;
  stockTotal : Q;
  valorTotal : Q
}.

Fixpoint acumularLotes (lotesInv : list InventarioLote)
    (fechaHasta : option Fecha) (acc : AcumuladoStock) (st : Estado)
  : AcumuladoStock * Estado :=
  match lotesInv with
  | [] => (acc, st)
  | lote :: resto =>
      let '(stockLote, st') := calcularStockLote (lote_id lote) fechaHasta st in
      let acc' :=
        match stockLote with
        | Some sl =>
            if Qgtb (cantidadActual sl) 0 then
              {| lotesConStock := lotesConStock acc ++ [sl];
                 stockTotal := stockTotal acc + cantidadActual sl;
                 valorTotal := valorTotal acc
                               + cantidadActual sl * costoUnitario sl |}
            else acc
        | None => acc
        end in
      acumularLotes resto fechaHasta acc' st'
  end.

(** [salidasFicticiasRow]: exits recorded against lot id zero. *)
Definition salidasSinLote (b : BaseDatos) (id : Z) (fechaHasta : option Fecha)
  : Q :=
  sumaQ ds_cantidad
    (List.flat_map
       (fun d => List.filter (fun ds => (ds_idLote ds =? 0)%Z)
                   (md_detallesSalida d))
       (List.filter
          (fun d => (md_idInventario d =? id)%Z
                    && movimientoCuenta SALIDA fechaHasta d)
          (bd_detalles b))).

(** The part of [calcularStockInventario] that follows the cache check:
    the stock of the position computed from its lots. *)
Definition calcularStockDesdeLotes (id : Z) (fechaHasta : option Fecha)
    (st : Estado) : option InventarioStockResult * Estado :=
  match buscarInventario (bd st) id with
  | None => (None, st)
  | Some _ =>
      let '(acc, st') :=
        acumularLotes (lotesDeInventario (bd st) id) fechaHasta
          {| lotesConStock := []; stockTotal := 0; valorTotal := 0 |} st in
      let salidasFicticias := salidasSinLote (bd st') id fechaHasta in
      let stockTotalAjustado := Qmax 0 (stockTotal acc - salidasFicticias) in
      let costoPromedio :=
        if Qgtb stockTotalAjustado 0
        then valorTotal acc / stockTotalAjustado else 0 in
      let result :=
        {| idInventario := id;
           stockActual := stockTotalAjustado;
           costoPromedioActual := costoPromedio;
           lotes := lotesConStock acc |} in
      (Some result,
       conCache st'
         (setInventarioStock (cache st') id fechaHasta
            {| ic_stockActual := stockTotalAjustado;
               ic_costoPromedioActual := costoPromedio;
               ic_valorTotal := stockTotalAjustado * costoPromedio |}))
  end.

Definition calcularStockInventario (id : Z) (fechaHasta : option Fecha)
    (st : Estado) : option InventarioStockResult * Estado :=
  match getInventarioStock (cache st) id fechaHasta, fechaHasta with
  | Some cachedResult, None =>
      match buscarInventario (bd st) id with
      | None => (None, st)
      | Some _ =>
          (Some {| idInventario := id;
                   stockActual := ic_stockActual cachedResult;
                   costoPromedioActual := ic_costoPromedioActual cachedResult;
                   lotes := [] |}, st)
      end
  | _, _ => calcularStockDesdeLotes id fechaHasta st
  end.

Definition obtenerLotesDisponiblesFIFO (id : Z) (fechaHasta : option Fecha)
    (st : Estado) : list LoteDisponible * Estado :=
  match calcularStockInventario id fechaHasta st with
  | (None, st') => ([], st')
  | (Some stockInventario, st') =>
      (ordenar (fun a b => (ld_fechaIngreso a - ld_fechaIngreso b)%Z)
         (List.map
            (fun lote => {| ld_idLote := idLote lote;
                            ld_cantidadDisponible := cantidadActual lote;
                            ld_costoUnitario := costoUnitario lote;
                            ld_fechaIngreso := fechaIngreso lote |})
            (List.filter (fun lote => Qgtb (cantidadActual lote) 0)
               (lotes stockInventario))),
       st')
  end.

Definition calcularCostoPromedio (id : Z) (fechaHasta : option Fecha)
    (st : Estado) : Q * Estado :=
  match calcularStockInventario id fechaHasta st with
  | (Some stockInventario, st') => (costoPromedioActual stockInventario, st')
  | (None, st') => (0, st')
  end.

(** The loop of [calcularConsumoFIFO], in exact arithmetic: returns the
    allocations appended to [consumo] and the quantity still missing.
    [Doble.consumirLotes] is the same loop on the numbers of the program. *)
Fixpoint consumirLotes (lotesDisponibles : list LoteDisponible)
    (consumo : list ConsumoLote) (cantidadRestante : Q)
  : list ConsumoLote * Q :=
  match lotesDisponibles with
  | [] => (consumo, cantidadRestante)
  | lote :: resto =>
      if Qleb cantidadRestante 0 then (consumo, cantidadRestante)
      else
        let cantidadDelLote := Qmin cantidadRestante (ld_cantidadDisponible lote) in
        consumirLotes resto
          (consumo ++ [{| cl_idLote := ld_idLote lote;
                          cl_cantidad := cantidadDelLote;
                          cl_costoUnitario := ld_costoUnitario lote |}])
          (cantidadRestante - cantidadDelLote)
  end.

(** The message of the error thrown by [calcularConsumoFIFO], without the
    missing quantity that the source appends to it. *)
Definition mensajeStockInsuficiente : string := "Stock insuficiente".

Definition calcularConsumoFIFO (id : Z) (cantidadAConsumir : Q)
    (fechaHasta : option Fecha) : M (list ConsumoLote) :=
  sea lotesDisponibles <- elevar (obtenerLotesDisponiblesFIFO id fechaHasta) en
  let '(consumo, cantidadRestante) :=
    consumirLotes lotesDisponibles [] cantidadAConsumir in
  if Qgtb cantidadRestante 0 then lanzar mensajeStockInsuficiente
  else retornar consumo.

(** The loop of the FIFO branch of [calcularCostoUnitarioVenta]. *)
Definition costoDeConsumo (consumo : list ConsumoLote) : Q :=
  let costoTotal :=
    fold_left (fun acc item => acc + cl_cantidad item * cl_costoUnitario item)
      consumo 0 in
  let cantidadTotal :=
    fold_left (fun acc item => acc + cl_cantidad item) consumo 0 in
  if Qgtb cantidadTotal 0 then costoTotal / cantidadTotal else 0.

Definition calcularCostoUnitarioVenta (id : Z) (cantidadVenta : Q)
    (metodoValoracion : MetodoValoracion) (fechaHasta : option Fecha) : M Q :=
  match metodoValoracion with
  | PROMEDIO => elevar (calcularCostoPromedio id fechaHasta)
  | FIFO =>
      sea consumo <- calcularConsumoFIFO id cantidadVenta fechaHasta en
      retornar (costoDeConsumo consumo)
  end.

(** ** LoteCreationService *)

(** Line of a voucher. [cd_inventario] is [detalle.inventario.id], absent
    when the line has no inventory. *)
Record ComprobanteDetalle := {
  cd_inventario : option Z;
  cd_cantidad : Q;
  cd_precioUnitario : Q
}.

Record LoteUsado := {
  lu_idLote : Z;
  lu_costoUnitarioDeLote : Q;
  lu_cantidad : Q
}.

Record LotesProcesados := {
  lp_costoUnitario : list Q;
  lp_lotes : list LoteUsado
}.

(** Identity given by the store to a new row: above every identity in use. *)
Definition nuevoId (enUso : list Z) : Z :=
  (1 + fold_right Z.max 0 enUso)%Z.

Definition guardarLote (b : BaseDatos) (lote : InventarioLote) : BaseDatos :=
  {| bd_almacenes := bd_almacenes b;
     bd_productos := bd_productos b;
     bd_inventarios := bd_inventarios b;
     bd_lotes := bd_lotes b ++ [lote];
     bd_detalles := bd_detalles b |}.

Definition contiene (ids : list Z) (id : Z) : bool :=
  List.existsb (fun x => (x =? id)%Z) ids.

(** [registrarLoteCompra]. [ahora] is the reading of the clock, used when
    the voucher has no issue date; the lot label, built in the source from
    the clock and the identities, is the constant ["LOTE"]. *)
Definition registrarLoteCompra (ahora : Fecha) (detalle : ComprobanteDetalle)
    (fechaEmision : option Fecha) : M InventarioLote :=
  fun st =>
    match cd_inventario detalle with
    | None => (Fallo "El detalle debe tener un inventario valido", st)
    | Some idInv =>
        if (idInv =? 0)%Z
        then (Fallo "El detalle debe tener un inventario valido", st)
        else
          match buscarInventario (bd st) idInv with
          | None => (Fallo "Inventario no encontrado", st)
          | Some inventario =>
              if negb (contiene (bd_productos (bd st)) (inv_idProducto inventario))
              then (Fallo "El inventario no tiene un producto asociado", st)
              else if negb (contiene (bd_almacenes (bd st)) (inv_idAlmacen inventario))
              then (Fallo "El inventario no tiene un almacen asociado", st)
              else if Qleb (cd_cantidad detalle) 0
              then (Fallo "La cantidad debe ser mayor a 0", st)
              else if negb (Qleb 0 (cd_precioUnitario detalle))
              then (Fallo "El precio unitario no puede ser negativo", st)
              else
                let lote :=
                  {| lote_id := nuevoId (List.map lote_id (bd_lotes (bd st)));
                     lote_idInventario := inv_id inventario;
                     lote_numeroLote := "LOTE";
                     lote_cantidadInicial := 0;
                     lote_costoUnitario := cd_precioUnitario detalle;
                     lote_fechaIngreso :=
                       match fechaEmision with Some f => f | None => ahora end |} in
                (Exito lote,
                 {| bd := guardarLote (bd st) lote;
                    cache := invalidateInventario (cache st) (inv_id inventario) |})
          end
    end.

Definition loteUsadoDeConsumo (consumo : ConsumoLote) : LoteUsado :=
  {| lu_idLote := cl_idLote consumo;
     lu_costoUnitarioDeLote := cl_costoUnitario consumo;
     lu_cantidad := cl_cantidad consumo |}.

(** The body of the loop of [procesarLotesComprobante], from line [i] on,
    with the two arrays filled so far. *)
Fixpoint procesarDetalles (ahora : Fecha) (detalles : list ComprobanteDetalle)
    (tipoOperacion : string) (metodoValoracion : MetodoValoracion)
    (fechaEmision : option Fecha)
    (costosUnitariosDeDetalles : list Q) (lotesUsados : list LoteUsado)
  : M LotesProcesados :=
  match detalles with
  | [] => retornar {| lp_costoUnitario := costosUnitariosDeDetalles;
                      lp_lotes := lotesUsados |}
  | detalle :: resto =>
      if String.eqb tipoOperacion "COMPRA" then
        sea loteCreado <- registrarLoteCompra ahora detalle fechaEmision en
        procesarDetalles ahora resto tipoOperacion metodoValoracion fechaEmision
          (costosUnitariosDeDetalles ++ [cd_precioUnitario detalle])
          (lotesUsados ++ [{| lu_idLote := lote_id loteCreado;
                              lu_costoUnitarioDeLote := cd_precioUnitario detalle;
                              lu_cantidad := cd_cantidad detalle |}])
      else
        match cd_inventario detalle with
        | None => lanzar "TypeError: detalle.inventario"
        | Some idInv =>
            sea costo <- calcularCostoUnitarioVenta idInv (cd_cantidad detalle)
                           metodoValoracion fechaEmision en
            sea consumoFIFO <- calcularConsumoFIFO idInv (cd_cantidad detalle)
                                 fechaEmision en
            sea _x <- (fun st => (Exito tt,
                                  conCache st (invalidateInventario (cache st) idInv))) en
            procesarDetalles ahora resto tipoOperacion metodoValoracion fechaEmision
              (costosUnitariosDeDetalles ++ [costo])
              (lotesUsados ++ List.map loteUsadoDeConsumo consumoFIFO)
        end
  end.

Definition procesarLotesComprobante (ahora : Fecha)
    (detalles : list ComprobanteDetalle) (tipoOperacion : string)
    (metodoValoracion : MetodoValoracion) (fechaEmision : option Fecha)
  : M LotesProcesados :=
  procesarDetalles ahora detalles tipoOperacion metodoValoracion fechaEmision [] [].

(** ** KardexCalculationService *)

Record DetalleSalidaCalculado := {
  dsc_idLote : Z;
  dsc_cantidad : Q;
  dsc_costoUnitarioDeLote : Q;
  dsc_costoTotal : Q
}.

(** A line of the report. The labels copied from the voucher (codes of the
    operation and of the voucher type, voucher number) are left out. *)
Record KardexMovement := {
  km_fecha : Fecha;
  km_tipoOperacion : option string;
  km_tipoMovimiento : TipoMovimiento;
  km_cantidad : Q;
  km_costoUnitario : Q;
  km_costoTotal : Q;
  km_cantidadSaldo : Q;
  km_costoUnitarioSaldo : Q;
  km_valorTotalSaldo : Q;
  km_idInventario : Z;
  km_idMovimiento : Z;
  km_idMovimientoDetalle : Z;
  km_detallesSalida : list DetalleSalidaCalculado
}.

(** The running balance [{ cantidad, costoUnitario, valorTotal }]. *)
Record Saldo := {
  s_cantidad : Q;
  s_costoUnitario : Q;
  s_valorTotal : Q
}.

Record KardexResult := {
  kr_idInventario : Z;
  kr_idProducto : Z;
  kr_idAlmacen : Z;
  kr_saldoInicial : Saldo;
  kr_movimientos : list KardexMovement;
  kr_stockFinal : Q;
  kr_costoUnitarioFinal : Q;
  kr_valorTotalFinal : Q
}.

(** Entry of [lotesDisponiblesTemporales]. *)
Record LoteTemporal := {
  lt_cantidadDisponible : Q;
  lt_costoUnitario : Q;
  lt_fechaIngreso : Fecha
}.

(** A JavaScript [Map] keyed by lot id: its entries in insertion order. *)
Definition MapaLotes := list (Z * LoteTemporal).

Fixpoint mapaGet (m : MapaLotes) (k : Z) : option LoteTemporal :=
  match m with
  | [] => None
  | (k', v) :: m' => if (k' =? k)%Z then Some v else mapaGet m' k
  end.

(** [Map.prototype.set]: an existing key keeps its place. *)
Fixpoint mapaSet (m : MapaLotes) (k : Z) (v : LoteTemporal) : MapaLotes :=
  match m with
  | [] => [(k, v)]
  | (k', v') :: m' =>
      if (k' =? k)%Z then (k, v) :: m' else (k', v') :: mapaSet m' k v
  end.

(** [loteTemp.cantidadDisponible = f(loteTemp.cantidadDisponible)] on the
    object stored under [k], when there is one. *)
Definition mapaCambiarCantidad (m : MapaLotes) (k : Z) (f : Q -> Q) : MapaLotes :=
  match mapaGet m k with
  | Some v =>
      mapaSet m k {| lt_cantidadDisponible := f (lt_cantidadDisponible v);
                     lt_costoUnitario := lt_costoUnitario v;
                     lt_fechaIngreso := lt_fechaIngreso v |}
  | None => m
  end.

(** [ORDER BY m.fecha ASC, m.id ASC]; also the shape of the comparator of
    [calcularCostoFIFO]. *)
Definition compararFechaLuegoId (f1 : Fecha) (id1 : Z) (f2 : Fecha) (id2 : Z) : Z :=
  let fechaDiff := (f1 - f2)%Z in
  if negb (fechaDiff =? 0)%Z then fechaDiff else (id1 - id2)%Z.

Definition obtenerMovimientosInventario (b : BaseDatos) (id : Z)
    (fechaDesde fechaHasta : Fecha) : list MovimientoDetalle :=
  ordenar
    (fun x y => compararFechaLuegoId
                  (mov_fecha (md_movimiento x)) (mov_id (md_movimiento x))
                  (mov_fecha (md_movimiento y)) (mov_id (md_movimiento y)))
    (List.filter
       (fun d => (md_idInventario d =? id)%Z
                 && (fechaDesde <=? mov_fecha (md_movimiento d))%Z
                 && (mov_fecha (md_movimiento d) <=? fechaHasta)%Z
                 && esProcesado (mov_estado (md_movimiento d)))
       (bd_detalles b)).

Definition saldoCero : Saldo :=
  {| s_cantidad := 0; s_costoUnitario := 0; s_valorTotal := 0 |}.

Definition calcularSaldoInicial (id : Z) (fechaDesde : Fecha) (st : Estado)
  : Saldo * Estado :=
  let fechaAnterior := finDelDiaAnterior fechaDesde in
  match calcularStockInventario id (Some fechaAnterior) st with
  | (None, st') => (saldoCero, st')
  | (Some stockInventario, st') =>
      if Qleb (stockActual stockInventario) 0 then (saldoCero, st')
      else
        let cantidad := stockActual stockInventario in
        let costo := costoPromedioActual stockInventario in
        ({| s_cantidad := cantidad;
            s_costoUnitario := costo;
            s_valorTotal := cantidad * costo |}, st')
  end.

Definition esMovimientoEntrada (tipoMovimiento : TipoMovimiento)
    (tipoOperacion : option string) : bool :=
  match tipoOperacion with
  | Some op => if String.eqb op "COMPRA" then true
               else TipoMovimiento_eqb tipoMovimiento ENTRADA
  | None => TipoMovimiento_eqb tipoMovimiento ENTRADA
  end.

(** [!idLote] holds for an absent lot reference and for lot id zero. *)
Definition loteReferido (idLote : option Z) : option Z :=
  match idLote with
  | Some l => if (l =? 0)%Z then None else Some l
  | None => None
  end.

Definition obtenerCostoUnitarioEntrada (b : BaseDatos) (idLote : option Z) : Q :=
  match loteReferido idLote with
  | None => 0
  | Some l =>
      match buscarLote b l with
      | Some lote => lote_costoUnitario lote
      | None => 0
      end
  end.

Definition saldoDeFila (fila : KardexMovement) : Saldo :=
  {| s_cantidad := km_cantidadSaldo fila;
     s_costoUnitario := km_costoUnitarioSaldo fila;
     s_valorTotal := km_valorTotalSaldo fila |}.

Definition procesarEntrada (b : BaseDatos) (mov : MovimientoDetalle)
    (saldoAnterior : Saldo) : KardexMovement :=
  let cantidad := md_cantidad mov in
  let costo := obtenerCostoUnitarioEntrada b (md_idLote mov) in
  let costoTotal := cantidad * costo in
  let nuevaCantidad := s_cantidad saldoAnterior + cantidad in
  let nuevoValorTotal := s_valorTotal saldoAnterior + costoTotal in
  let nuevoCostoUnitario :=
    if Qgtb nuevaCantidad 0 then nuevoValorTotal / nuevaCantidad else 0 in
  {| km_fecha := mov_fecha (md_movimiento mov);
     km_tipoOperacion := mov_tipoOperacion (md_movimiento mov);
     km_tipoMovimiento := mov_tipo (md_movimiento mov);
     km_cantidad := cantidad;
     km_costoUnitario := costo;
     km_costoTotal := costoTotal;
     km_cantidadSaldo := nuevaCantidad;
     km_costoUnitarioSaldo := nuevoCostoUnitario;
     km_valorTotalSaldo := nuevoValorTotal;
     km_idInventario := md_idInventario mov;
     km_idMovimiento := mov_id (md_movimiento mov);
     km_idMovimientoDetalle := md_id mov;
     km_detallesSalida := [] |}.

Definition inicializarLotesTemporales (id : Z) (fechaInicio : Fecha)
    (st : Estado) : MapaLotes * Estado :=
  let fechaEstadoInicial := finDelDiaAnterior fechaInicio in
  let '(lotesDisponibles, st') :=
    obtenerLotesDisponiblesFIFO id (Some fechaEstadoInicial) st in
  (fold_left
     (fun m lote =>
        mapaSet m (ld_idLote lote)
          {| lt_cantidadDisponible := ld_cantidadDisponible lote;
             lt_costoUnitario := ld_costoUnitario lote;
             lt_fechaIngreso := ld_fechaIngreso lote |})
     lotesDisponibles [],
   st').

Definition actualizarLoteTemporalEntrada (m : MapaLotes) (idLote : Z)
    (cantidad costo : Q) (fechaIngreso : Fecha) : MapaLotes :=
  match mapaGet m idLote with
  | Some _ => mapaCambiarCantidad m idLote (fun c => c + cantidad)
  | None =>
      mapaSet m idLote {| lt_cantidadDisponible := cantidad;
                          lt_costoUnitario := costo;
                          lt_fechaIngreso := fechaIngreso |}
  end.

(** The lots that [calcularCostoFIFO] walks: the entries of the working set
    with a positive quantity, by ingress date and then by lot id. *)
Definition lotesTemporalesOrdenados (m : MapaLotes) : list LoteDisponible :=
  ordenar
    (fun a b => compararFechaLuegoId (ld_fechaIngreso a) (ld_idLote a)
                  (ld_fechaIngreso b) (ld_idLote b))
    (List.map
       (fun entry => {| ld_idLote := fst entry;
                        ld_cantidadDisponible := lt_cantidadDisponible (snd entry);
                        ld_costoUnitario := lt_costoUnitario (snd entry);
                        ld_fechaIngreso := lt_fechaIngreso (snd entry) |})
       (List.filter (fun entry => Qgtb (lt_cantidadDisponible (snd entry)) 0) m)).

(** The loop of [calcularCostoFIFO] over the sorted lots. *)
Fixpoint consumirTemporales (lotesDisponibles : list LoteDisponible)
    (m : MapaLotes) (detallesSalida : list DetalleSalidaCalculado)
    (cantidadRestante costoTotalSalida : Q)
  : list DetalleSalidaCalculado * Q * MapaLotes :=
  match lotesDisponibles with
  | [] => (detallesSalida, costoTotalSalida, m)
  | lote :: resto =>
      if Qleb cantidadRestante 0 then (detallesSalida, costoTotalSalida, m)
      else
        let cantidadDelLote := Qmin cantidadRestante (ld_cantidadDisponible lote) in
        let costoDelLote := cantidadDelLote * ld_costoUnitario lote in
        consumirTemporales resto
          (mapaCambiarCantidad m (ld_idLote lote) (fun c => c - cantidadDelLote))
          (detallesSalida ++ [{| dsc_idLote := ld_idLote lote;
                                 dsc_cantidad := cantidadDelLote;
                                 dsc_costoUnitarioDeLote := ld_costoUnitario lote;
                                 dsc_costoTotal := costoDelLote |}])
          (cantidadRestante - cantidadDelLote)
          (costoTotalSalida + costoDelLote)
  end.

Record CostoFIFO := {
  costoUnitarioPromedio : Q;
  detallesSalida : list DetalleSalidaCalculado
}.

Definition calcularCostoFIFO (m : MapaLotes) (cantidadSalida : Q)
  : CostoFIFO * MapaLotes :=
  let '(detalles, costoTotalSalida, m') :=
    consumirTemporales (lotesTemporalesOrdenados m) m [] cantidadSalida 0 in
  ({| costoUnitarioPromedio :=
        if Qgtb cantidadSalida 0 then costoTotalSalida / cantidadSalida else 0;
      detallesSalida := detalles |}, m').

(** The balance after drawing [cantidad] worth [costoTotal] from [saldo]. *)
Definition saldoTrasSalida (saldo : Saldo) (cantidad costoTotal : Q) : Saldo :=
  let nuevaCantidad := Qmax 0 (s_cantidad saldo - cantidad) in
  let nuevoValorTotal := Qmax 0 (s_valorTotal saldo - costoTotal) in
  {| s_cantidad := nuevaCantidad;
     s_costoUnitario :=
       if Qgtb nuevaCantidad 0 then nuevoValorTotal / nuevaCantidad else 0;
     s_valorTotal := nuevoValorTotal |}.

Definition filaSalida (mov : MovimientoDetalle) (cantidad costo costoTotal : Q)
    (nuevo : Saldo) (detalles : list DetalleSalidaCalculado) : KardexMovement :=
  {| km_fecha := mov_fecha (md_movimiento mov);
     km_tipoOperacion := mov_tipoOperacion (md_movimiento mov);
     km_tipoMovimiento := mov_tipo (md_movimiento mov);
     km_cantidad := cantidad;
     km_costoUnitario := costo;
     km_costoTotal := costoTotal;
     km_cantidadSaldo := s_cantidad nuevo;
     km_costoUnitarioSaldo := s_costoUnitario nuevo;
     km_valorTotalSaldo := s_valorTotal nuevo;
     km_idInventario := md_idInventario mov;
     km_idMovimiento := mov_id (md_movimiento mov);
     km_idMovimientoDetalle := md_id mov;
     km_detallesSalida := detalles |}.

(** The loop of the FIFO branch of [procesarSalida]: one line per lot
    consumed, each computed from the balance left by the previous one. *)
Fixpoint movimientosPorLote (mov : MovimientoDetalle)
    (detalles : list DetalleSalidaCalculado) (saldoActualizado : Saldo)
  : list KardexMovement :=
  match detalles with
  | [] => []
  | detalle :: resto =>
      let cantidadLote := dsc_cantidad detalle in
      let costoUnitarioLote := dsc_costoUnitarioDeLote detalle in
      let costoTotalLote := dsc_costoTotal detalle in
      let nuevo := saldoTrasSalida saldoActualizado cantidadLote costoTotalLote in
      filaSalida mov cantidadLote costoUnitarioLote costoTotalLote nuevo
        [{| dsc_idLote := dsc_idLote detalle;
            dsc_cantidad := cantidadLote;
            dsc_costoUnitarioDeLote := costoUnitarioLote;
            dsc_costoTotal := costoTotalLote |}]
      :: movimientosPorLote mov resto nuevo
  end.

(** [procesarSalida] returns one line under PROMEDIO ([inl]) and an array
    of lines under FIFO ([inr]). *)
Definition procesarSalida (mov : MovimientoDetalle) (saldoAnterior : Saldo)
    (metodoValoracion : MetodoValoracion) (m : MapaLotes)
  : (KardexMovement + list KardexMovement) * MapaLotes :=
  let cantidad := md_cantidad mov in
  match metodoValoracion with
  | PROMEDIO =>
      let costo := s_costoUnitario saldoAnterior in
      let costoTotal := cantidad * costo in
      (inl (filaSalida mov cantidad costo costoTotal
              (saldoTrasSalida saldoAnterior cantidad costoTotal) []), m)
  | FIFO =>
      let '(resultadoFIFO, m') := calcularCostoFIFO m cantidad in
      (inr (movimientosPorLote mov (detallesSalida resultadoFIFO) saldoAnterior), m')
  end.

Definition esFIFO (metodo : MetodoValoracion) : bool :=
  match metodo with FIFO => true | PROMEDIO => false end.

(** The [for] loop of [procesarMovimientos]. A row is classified with
    [mov.c_tipoOperacion], the key under which the query of
    [obtenerMovimientosInventario] selects [to.descripcion]; the embedding
    reads it from the movement of the row. The query writes that alias
    unquoted: a store that folds unquoted aliases to lower case returns the
    column under another key, and the replay then reads nothing under
    [c_tipoOperacion], which is the case [mov_tipoOperacion = None]. *)
Fixpoint replicarMovimientos (b : BaseDatos) (movimientos : list MovimientoDetalle)
    (metodoValoracion : MetodoValoracion) (saldoActual : Saldo) (m : MapaLotes)
  : list KardexMovement :=
  match movimientos with
  | [] => []
  | mov :: resto =>
      if esMovimientoEntrada (mov_tipo (md_movimiento mov))
           (mov_tipoOperacion (md_movimiento mov))
      then
        let movimientoKardex := procesarEntrada b mov saldoActual in
        let m' :=
          match loteReferido (md_idLote mov) with
          | Some l =>
              if esFIFO metodoValoracion
              then actualizarLoteTemporalEntrada m l
                     (km_cantidad movimientoKardex)
                     (km_costoUnitario movimientoKardex)
                     (km_fecha movimientoKardex)
              else m
          | None => m
          end in
        movimientoKardex
        :: replicarMovimientos b resto metodoValoracion
             (saldoDeFila movimientoKardex) m'
      else
        match procesarSalida mov saldoActual metodoValoracion m with
        | (inr resultado, m') =>
            resultado
            ++ replicarMovimientos b resto metodoValoracion
                 (match last resultado with
                  | Some ultimoMovimiento => saldoDeFila ultimoMovimiento
                  | None => saldoActual
                  end) m'
        | (inl movimientoKardex, m') =>
            movimientoKardex
            :: replicarMovimientos b resto metodoValoracion
                 (saldoDeFila movimientoKardex) m'
        end
  end.

Definition procesarMovimientos (movimientos : list MovimientoDetalle)
    (saldoInicial : Saldo) (metodoValoracion : MetodoValoracion) (id : Z)
    (fechaDesde : Fecha) (st : Estado) : list KardexMovement * Estado :=
  let '(m, st') :=
    match metodoValoracion with
    | FIFO => inicializarLotesTemporales id fechaDesde st
    | PROMEDIO => ([], st)
    end in
  (replicarMovimientos (bd st') movimientos metodoValoracion saldoInicial m, st').

(** [a || b] on numbers: [b] when [a] is zero. *)
Definition oNumero (a b : Q) : Q := if Qeq_bool a 0 then b else a.

Definition generarKardex (id : Z) (fechaDesde fechaHasta : Fecha)
    (metodoValoracion : MetodoValoracion) (st : Estado)
  : option KardexResult * Estado :=
  match buscarInventario (bd st) id with
  | None => (None, st)
  | Some inventario =>
      let movimientos :=
        obtenerMovimientosInventario (bd st) id fechaDesde fechaHasta in
      let '(saldoInicial, st1) := calcularSaldoInicial id fechaDesde st in
      let '(movimientosKardex, st2) :=
        procesarMovimientos movimientos saldoInicial metodoValoracion id
          fechaDesde st1 in
      let ultimoMovimiento := last movimientosKardex in
      let stockFinal :=
        match ultimoMovimiento with
        | Some u => oNumero (km_cantidadSaldo u) (s_cantidad saldoInicial)
        | None => s_cantidad saldoInicial
        end in
      let costoUnitarioFinal :=
        match ultimoMovimiento with
        | Some u => oNumero (km_costoUnitarioSaldo u) (s_costoUnitario saldoInicial)
        | None => s_costoUnitario saldoInicial
        end in
      (Some {| kr_idInventario := id;
               kr_idProducto := inv_idProducto inventario;
               kr_idAlmacen := inv_idAlmacen inventario;
               kr_saldoInicial := saldoInicial;
               kr_movimientos := movimientosKardex;
               kr_stockFinal := stockFinal;
               kr_costoUnitarioFinal := costoUnitarioFinal;
               kr_valorTotalFinal := stockFinal * costoUnitarioFinal |}, st2)
  end.

(** ** InventarioService.create *)

Record CreateInventarioDto := {
  dto_idAlmacen : Z;
  dto_idProducto : Z;
  dto_stockInicial : option Q;
  dto_precioUnitario : option Q
}.

(** Modelled from the spec: [InventarioLoteService.create] is not among the
    sources. The specification has it create a lot with the given initial
    quantity, unit cost and ingress date for the inventory position. *)
Definition crearLote (b : BaseDatos) (idInv : Z) (fechaIngresoLote : Fecha)
    (cantidad costo : Q) : InventarioLote * BaseDatos :=
  let lote :=
    {| lote_id := nuevoId (List.map lote_id (bd_lotes b));
       lote_idInventario := idInv;
       lote_numeroLote := "";
       lote_cantidadInicial := cantidad;
       lote_costoUnitario := costo;
       lote_fechaIngreso := fechaIngresoLote |} in
  (lote, guardarLote b lote).

Definition guardarInventario (b : BaseDatos) (i : Inventario) : BaseDatos :=
  {| bd_almacenes := bd_almacenes b;
     bd_productos := bd_productos b;
     bd_inventarios := bd_inventarios b ++ [i];
     bd_lotes := bd_lotes b;
     bd_detalles := bd_detalles b |}.

Definition guardarDetalle (b : BaseDatos) (d : MovimientoDetalle) : BaseDatos :=
  {| bd_almacenes := bd_almacenes b;
     bd_productos := bd_productos b;
     bd_inventarios := bd_inventarios b;
     bd_lotes := bd_lotes b;
     bd_detalles := bd_detalles b ++ [d] |}.

(** [stockInicial && precioUnitario && stockInicial > 0 && precioUnitario > 0]. *)
Definition semillaValida (dto : CreateInventarioDto) : option (Q * Q) :=
  match dto_stockInicial dto, dto_precioUnitario dto with
  | Some stockInicial, Some precioUnitario =>
      if Qgtb stockInicial 0 && Qgtb precioUnitario 0
      then Some (stockInicial, precioUnitario) else None
  | _, _ => None
  end.

(** [create]. [ahora] is the reading of the clock; [inicioPeriodo] is the
    first instant of the year of the active accounting period, present when
    the caller names a company and the period service answers. The ingress
    date of the lot is the day of the movement date. *)
Definition create (ahora : Fecha) (inicioPeriodo : option Fecha)
    (dto : CreateInventarioDto) : M Inventario :=
  fun st =>
    if negb (contiene (bd_almacenes (bd st)) (dto_idAlmacen dto))
    then (Fallo "Almacen no encontrado o inactivo", st)
    else if negb (contiene (bd_productos (bd st)) (dto_idProducto dto))
    then (Fallo "Producto no encontrado o inactivo", st)
    else if List.existsb
              (fun i => (inv_idAlmacen i =? dto_idAlmacen dto)%Z
                        && (inv_idProducto i =? dto_idProducto dto)%Z)
              (bd_inventarios (bd st))
    then (Fallo "Ya existe un registro de inventario", st)
    else
      let inventario :=
        {| inv_id := nuevoId (List.map inv_id (bd_inventarios (bd st)));
           inv_idAlmacen := dto_idAlmacen dto;
           inv_idProducto := dto_idProducto dto |} in
      let b1 := guardarInventario (bd st) inventario in
      match semillaValida dto with
      | None => (Exito inventario, conBd st b1)
      | Some (stockInicial, precioUnitario) =>
          let fechaMovimientoDate :=
            match inicioPeriodo with Some f => f | None => ahora end in
          let '(lote, b2) :=
            crearLote b1 (inv_id inventario) (inicioDelDia fechaMovimientoDate)
              stockInicial precioUnitario in
          let savedMovimiento :=
            {| mov_id := nuevoId (List.map (fun d => mov_id (md_movimiento d))
                                    (bd_detalles b2));
               mov_tipo := ENTRADA;
               mov_fecha := fechaMovimientoDate;
               mov_numeroDocumento := Some "INV-INIT"%string;
               mov_estado := PROCESADO;
               mov_tipoOperacion := None |} in
          let detalle :=
            {| md_id := nuevoId (List.map md_id (bd_detalles b2));
               md_movimiento := savedMovimiento;
               md_idInventario := inv_id inventario;
               md_idLote := Some (lote_id lote);
               md_cantidad := stockInicial;
               md_detallesSalida := [] |} in
          (Exito inventario, conBd st (guardarDetalle b2 detalle))
      end.

(** ** StockCalculationService, continued *)

Definition Qgeb (x y : Q) : bool := Qle_bool y x.

Definition verificarStockSuficiente (id : Z) (cantidadRequerida : Q)
    (fechaHasta : option Fecha) (st : Estado) : bool * Estado :=
  match calcularStockInventario id fechaHasta st with
  | (Some stockInventario, st') =>
      (Qgeb (stockActual stockInventario) cantidadRequerida, st')
  | (None, st') => (false, st')
  end.

(** ** LoteCreationService, continued *)

(** [loteRepository.findOne({ where: { inventario: { id } },
    order: { id: 'DESC' } })]. *)
Definition loteMasReciente (b : BaseDatos) (idInventario : Z)
  : option InventarioLote :=
  head (ordenar (fun x y => (lote_id y - lote_id x)%Z)
          (List.filter (fun l => (lote_idInventario l =? idInventario)%Z)
             (bd_lotes b))).

(** The loop of [validarLotesCompra]. A line without inventory makes the
    source raise a [TypeError], which its [catch] turns into [false]. *)
Fixpoint validarDetalles (b : BaseDatos) (detalles : list ComprobanteDetalle)
  : bool :=
  match detalles with
  | [] => true
  | detalle :: resto =>
      match cd_inventario detalle with
      | None => false
      | Some idInv =>
          match loteMasReciente b idInv with
          | None => false
          | Some loteReciente =>
              let cantidadInicialValida :=
                Qeq_bool (lote_cantidadInicial loteReciente) (cd_cantidad detalle)
                || Qeq_bool (lote_cantidadInicial loteReciente) 0 in
              let costoUnitarioValido :=
                Qeq_bool (lote_costoUnitario loteReciente)
                  (cd_precioUnitario detalle) in
              if negb cantidadInicialValida || negb costoUnitarioValido
              then false
              else validarDetalles b resto
          end
      end
  end.

Definition validarLotesCompra (detalles : list ComprobanteDetalle)
    (st : Estado) : bool * Estado :=
  (validarDetalles (bd st) detalles, st).

(** ** MovimientoFactory

    Strings are compared as the source compares them for text made of
    ASCII characters: [toUpperCase] maps the letters [a] to [z] and leaves
    every other character as it is. *)

Definition mayuscula (c : Ascii.ascii) : Ascii.ascii :=
  let n := Ascii.nat_of_ascii c in
  if ((97 <=? n) && (n <=? 122))%nat then Ascii.ascii_of_nat (n - 32) else c.

Fixpoint toUpperCase (s : string) : string :=
  match s with
  | EmptyString => EmptyString
  | String c r => String (mayuscula c) (toUpperCase r)
  end.

(** [s.includes(sub)]. *)
Fixpoint includes (s sub : string) : bool :=
  if String.prefix sub s then true
  else match s with
       | EmptyString => false
       | String _ r => includes r sub
       end.

(** [CreateMovimientoDetalleDto]. Its exit allocations
    ([CreateDetalleSalidaDto]) have the fields of the rows of
    [detalle_salida] and are written as such. *)
Record CreateMovimientoDetalleDto := {
  cmd_idInventario : Z;
  cmd_cantidad : Q;
  cmd_idLote : option Z;
  cmd_detallesSalida : option (list DetalleSalida)
}.

(** The [while] loop of [createMovimientosDetallesFromDetallesComprobante].
    [lotes] is [precioYcantidadPorLote] from [indiceLote] on: the loop
    either moves the index forward or lowers, in place, the quantity of the
    entry at the index. [turnos] bounds the number of turns. *)
Fixpoint tomarDeLotes (turnos : nat) (lotes : list LoteUsado)
    (cantidadRestante : Q) (lotesParaEsteDetalle : list DetalleSalida)
  : list DetalleSalida * list LoteUsado :=
  match turnos with
  | O => (lotesParaEsteDetalle, lotes)
  | S turnos' =>
      match lotes with
      | [] => (lotesParaEsteDetalle, lotes)
      | lote :: resto =>
          if Qgtb cantidadRestante 0 then
            let cantidadAUsar := Qmin cantidadRestante (lu_cantidad lote) in
            let lotesParaEsteDetalle' :=
              lotesParaEsteDetalle
              ++ [{| ds_idLote := lu_idLote lote;
                     ds_costoUnitarioDeLote := lu_costoUnitarioDeLote lote;
                     ds_cantidad := cantidadAUsar |}] in
            if Qeq_bool cantidadAUsar (lu_cantidad lote) then
              tomarDeLotes turnos' resto (cantidadRestante - cantidadAUsar)
                lotesParaEsteDetalle'
            else
              tomarDeLotes turnos'
                ({| lu_idLote := lu_idLote lote;
                    lu_costoUnitarioDeLote := lu_costoUnitarioDeLote lote;
                    lu_cantidad := lu_cantidad lote - cantidadAUsar |} :: resto)
                (cantidadRestante - cantidadAUsar) lotesParaEsteDetalle'
          else (lotesParaEsteDetalle, lotes)
      end
  end.

(** Turns that the loop can take over [lotes]: one for each entry, one
    for an entry left partly used and one for the test that ends it. *)
Definition turnosDe (lotes : list LoteUsado) : nat := S (S (length lotes)).

(** The loop over the lines of the voucher, from a line on; [lotes] is
    [precioYcantidadPorLote] from [indiceLote] on. *)
Fixpoint crearDetallesDesde (detalles : list ComprobanteDetalle)
    (tipoOperacion : string) (lotes : list LoteUsado)
    (movimientoDetalles : list CreateMovimientoDetalleDto)
  : list CreateMovimientoDetalleDto :=
  match detalles with
  | [] => movimientoDetalles
  | detalle :: resto =>
      match cd_inventario detalle with
      | None => crearDetallesDesde resto tipoOperacion lotes movimientoDetalles
      | Some idInv =>
          if (idInv =? 0)%Z
          then crearDetallesDesde resto tipoOperacion lotes movimientoDetalles
          else
            let op := toUpperCase tipoOperacion in
            let '(detallesSalida, lotes1) :=
              if negb (String.eqb op "COMPRA" || includes op "ENTRADA") then
                let '(lotesParaEsteDetalle, lotes') :=
                  tomarDeLotes (turnosDe lotes) lotes (cd_cantidad detalle) [] in
                (match lotesParaEsteDetalle with
                 | [] => None
                 | _ :: _ => Some lotesParaEsteDetalle
                 end, lotes')
              else (None, lotes) in
            let '(idLoteCompra, lotes2) :=
              if String.eqb op "COMPRA" || includes op "ENTRADA"
                 || includes op "INGRESO"
              then
                match lotes1 with
                | loteCompra :: resto1 => (Some (lu_idLote loteCompra), resto1)
                | [] => (None, lotes1)
                end
              else (None, lotes1) in
            crearDetallesDesde resto tipoOperacion lotes2
              (movimientoDetalles
               ++ [{| cmd_idInventario := idInv;
                      cmd_cantidad := cd_cantidad detalle;
                      cmd_idLote := idLoteCompra;
                      cmd_detallesSalida := detallesSalida |}])
      end
  end.

(** [createMovimientosDetallesFromDetallesComprobante]; the unit costs,
    which the source does not read, are kept as an argument. *)
Definition createMovimientosDetallesFromDetallesComprobante
    (detalles : list ComprobanteDetalle) (tipoOperacion : string)
    (_costosUnitarios : list Q) (precioYcantidadPorLote : list LoteUsado)
  : list CreateMovimientoDetalleDto :=
  crearDetallesDesde detalles tipoOperacion precioYcantidadPorLote [].

(** ** MovimientosRepository *)

(** The voucher that [idComprobante] names, with what the movement takes
    from it: the description of its operation type, its series and its
    number. *)
Record ComprobanteRelacionado := {
  cr_tipoOperacion : option string;
  cr_serie : option string;
  cr_numero : option string
}.

Record CreateMovimientoDto := {
  cm_numeroDocumento : option string;
  cm_tipo : TipoMovimiento;
  cm_fecha : Fecha;
  cm_estado : EstadoMovimiento;
  cm_detalles : list CreateMovimientoDetalleDto
}.

(** A string that is neither absent nor empty. *)
Definition cadenaCierta (s : option string) : bool :=
  match s with
  | Some t => negb (String.eqb t "")
  | None => false
  end.

(** The loop of [createWithManager] over the lines of the movement: each
    line is saved with its exit allocations. *)
Fixpoint guardarDetalles (savedMovimiento : Movimiento)
    (detalles : list CreateMovimientoDetalleDto) (b : BaseDatos) : BaseDatos :=
  match detalles with
  | [] => b
  | detalle :: resto =>
      guardarDetalles savedMovimiento resto
        (guardarDetalle b
           {| md_id := nuevoId (List.map md_id (bd_detalles b));
              md_movimiento := savedMovimiento;
              md_idInventario := cmd_idInventario detalle;
              md_idLote := cmd_idLote detalle;
              md_cantidad := cmd_cantidad detalle;
              md_detallesSalida :=
                match cmd_detallesSalida detalle with
                | Some salidas => salidas
                | None => []
                end |})
  end.

(** [createWithManager]. [comprobante] is the voucher that the store holds
    for the [idComprobante] of the request, if any. The store accepts every
    row: its foreign keys are not checked. The stock cache is not
    touched. *)
Definition createWithManager (createMovimientoDto : CreateMovimientoDto)
    (comprobante : option ComprobanteRelacionado) : M Movimiento :=
  fun st =>
    let numeroDocumento :=
      match comprobante with
      | Some c =>
          if negb (cadenaCierta (cm_numeroDocumento createMovimientoDto))
             && cadenaCierta (cr_serie c) && cadenaCierta (cr_numero c)
          then
            match cr_serie c, cr_numero c with
            | Some serie, Some numero => Some (serie ++ "-" ++ numero)%string
            | _, _ => cm_numeroDocumento createMovimientoDto
            end
          else cm_numeroDocumento createMovimientoDto
      | None => cm_numeroDocumento createMovimientoDto
      end in
    let savedMovimiento :=
      {| mov_id := nuevoId (List.map (fun d => mov_id (md_movimiento d))
                              (bd_detalles (bd st)));
         mov_tipo := cm_tipo createMovimientoDto;
         mov_fecha := cm_fecha createMovimientoDto;
         mov_numeroDocumento := numeroDocumento;
         mov_estado := cm_estado createMovimientoDto;
         mov_tipoOperacion :=
           match comprobante with
           | Some c => cr_tipoOperacion c
           | None => None
           end |} in
    (Exito savedMovimiento,
     conBd st (guardarDetalles savedMovimiento (cm_detalles createMovimientoDto)
                 (bd st))).

(** ** KardexService *)

(** The opening balance that [generateKardexReport] shows, quantity and
    value, before they are formatted: computed backwards from the first
    line of the Kardex, zero when there is none. *)
Definition saldoInicialDelReporte (movimientos : list KardexMovement) : Q * Q :=
  match movimientos with
  | [] => (0, 0)
  | primerMovimiento :: _ =>
      if TipoMovimiento_eqb (km_tipoMovimiento primerMovimiento) ENTRADA
      then (km_cantidadSaldo primerMovimiento - km_cantidad primerMovimiento,
            km_valorTotalSaldo primerMovimiento - km_costoTotal primerMovimiento)
      else (km_cantidadSaldo primerMovimiento + km_cantidad primerMovimiento,
            km_valorTotalSaldo primerMovimiento + km_costoTotal primerMovimiento)
  end.

(** ** KardexCalculationService, continued *)

(** The loop of [generarKardexMultiple], from an id on. *)
Fixpoint generarKardexDesde (idsInventario : list Z)
    (fechaDesde fechaHasta : Fecha) (metodoValoracion : MetodoValoracion)
    (resultados : list KardexResult) (st : Estado)
  : list KardexResult * Estado :=
  match idsInventario with
  | [] => (resultados, st)
  | idInventario :: resto =>
      let '(kardex, st') :=
        generarKardex idInventario fechaDesde fechaHasta metodoValoracion st in
      generarKardexDesde resto fechaDesde fechaHasta metodoValoracion
        (match kardex with
         | Some k => resultados ++ [k]
         | None => resultados
         end) st'
  end.

Definition generarKardexMultiple (idsInventario : list Z)
    (fechaDesde fechaHasta : Fecha) (metodoValoracion : MetodoValoracion)
    (st : Estado) : list KardexResult * Estado :=
  generarKardexDesde idsInventario fechaDesde fechaHasta metodoValoracion [] st.

Record ResumenStock := {
  rs_idInventario : Z;
  rs_stockActual : Q;
  rs_costoUnitario : Q;
  rs_valorTotal : Q
}.

(** The loop of [obtenerResumenStock], from an id on. *)
Fixpoint resumirStockDesde (idsInventario : list Z) (fechaHasta : option Fecha)
    (resumen : list ResumenStock) (st : Estado) : list ResumenStock * Estado :=
  match idsInventario with
  | [] => (resumen, st)
  | idInventario :: resto =>
      let '(stock, st') := calcularStockInventario idInventario fechaHasta st in
      resumirStockDesde resto fechaHasta
        (match stock with
         | Some s =>
             resumen
             ++ [{| rs_idInventario := idInventario;
                    rs_stockActual := stockActual s;
                    rs_costoUnitario := costoPromedioActual s;
                    rs_valorTotal := stockActual s * costoPromedioActual s |}]
         | None => resumen
         end) st'
  end.

Definition obtenerResumenStock (idsInventario : list Z)
    (fechaHasta : option Fecha) (st : Estado) : list ResumenStock * Estado :=
  resumirStockDesde idsInventario fechaHasta [] st.

(** ** The consumption loop on binary64

    The quantities that reach [calcularConsumoFIFO] are IEEE 754 binary64
    numbers: the decimal totals of the store read with [parseFloat], and
    the quantity of the request. [Doble] gives, on [PrimFloat.float] and
    with the operations of the processor, the loop of
    [calcularConsumoFIFO] with its final test, the accumulation
    [stockTotal += stockLote.cantidadActual] of [calcularStockInventario]
    and the comparison of [verificarStockSuficiente]. The lots are the
    list that [obtenerLotesDisponiblesFIFO] returned. *)

Module Doble.
Import PrimFloat.
Local Open Scope float_scope.
Local Set Warnings "-inexact-float".

Record LoteDisponible := {
  ld_idLote : Z;
  ld_cantidadDisponible : float;
  ld_costoUnitario : float
}.

Record ConsumoLote := {
  cl_idLote : Z;
  cl_cantidad : float;
  cl_costoUnitario : float
}.

(** [Math.min] and [Math.max] of two numbers: [NaN] when one of them is,
    and the negative zero below the positive one. *)
Definition min (x y : float) : float :=
  if is_nan x || is_nan y then nan
  else if x <? y then x
  else if y <? x then y
  else if get_sign x then x else y.

Definition max (x y : float) : float :=
  if is_nan x || is_nan y then nan
  else if x <? y then y
  else if y <? x then x
  else if get_sign x then y else x.

(** The [for] loop of [calcularConsumoFIFO]. *)
Fixpoint consumirLotes (lotesDisponibles : list LoteDisponible)
    (consumo : list ConsumoLote) (cantidadRestante : float)
  : list ConsumoLote * float :=
  match lotesDisponibles with
  | [] => (consumo, cantidadRestante)
  | lote :: resto =>
      if cantidadRestante <=? 0 then (consumo, cantidadRestante)
      else
        let cantidadDelLote := min cantidadRestante (ld_cantidadDisponible lote) in
        consumirLotes resto
          (consumo ++ [{| cl_idLote := ld_idLote lote;
                          cl_cantidad := cantidadDelLote;
                          cl_costoUnitario := ld_costoUnitario lote |}])
          (cantidadRestante - cantidadDelLote)
  end.

(** [calcularConsumoFIFO] from the list of lots on: the [throw] is taken
    when [cantidadRestante > 0]. *)
Definition calcularConsumoFIFO (lotesDisponibles : list LoteDisponible)
    (cantidadAConsumir : float) : Resultado (list ConsumoLote) :=
  let '(consumo, cantidadRestante) :=
    consumirLotes lotesDisponibles [] cantidadAConsumir in
  if 0 <? cantidadRestante then Fallo mensajeStockInsuficiente
  else Exito consumo.

(** [stockTotal] of [calcularStockInventario]: [stockTotal += cantidadActual]
    over the lots with a positive quantity, from zero. *)
Definition stockTotal (lotes : list LoteDisponible) : float :=
  fold_left (fun acc lote => acc + ld_cantidadDisponible lote) lotes 0.

(** [stockActual]: [Math.max(0, stockTotal - salidasFicticias)]. *)
Definition stockActual (lotes : list LoteDisponible) (salidasFicticias : float)
  : float :=
  max 0 (stockTotal lotes - salidasFicticias).

(** [verificarStockSuficiente] for a position that exists:
    [stockInventario.stockActual >= cantidadRequerida]. *)
Definition verificarStockSuficiente (lotes : list LoteDisponible)
    (salidasFicticias cantidadRequerida : float) : bool :=
  cantidadRequerida <=? stockActual lotes salidasFicticias.

(** Two lots that hold 0.1 and 0.3 units at cost 5, and a request for 0.4
    units. *)
Definition lotesDecimales : list LoteDisponible :=
  [{| ld_idLote := 1; ld_cantidadDisponible := 0.1; ld_costoUnitario := 5 |};
   {| ld_idLote := 2; ld_cantidadDisponible := 0.3; ld_costoUnitario := 5 |}].

Definition cuatroDecimos : float := 0.4.

(** [5.551115123125783e-17], the quantity reported missing. *)
Definition faltante : float := 0x1p-54.

End Doble.

(** * Properties *)

(** ** Predicates used in the statements *)

(** Every lot result held by the cache has a non-negative quantity. *)
Definition cacheSana (c : StockCache) : Prop :=
  forall id r, cacheLotes c !! id = Some r -> 0 <= cantidadActual r.

(** A computation threw. *)
Definition fallo {A} (r : Resultado A) : Prop :=
  match r with Fallo _ => True | Exito _ => False end.

(** Total quantity offered by a list of available lots. *)
Definition totalDisponible (l : list LoteDisponible) : Q :=
  sumaQ ld_cantidadDisponible l.

(** The stock of a lot as the ledger gives it, without the cache. *)
Definition stockDeLote (b : BaseDatos) (fechaHasta : option Fecha) (id : Z)
  : option LoteStockResult :=
  option_map (resultadoLote b fechaHasta) (buscarLote b id).

(** The lot entries of the cache agree with the ledger. *)
Definition cacheCoherente (st : Estado) : Prop :=
  forall id r, cacheLotes (cache st) !! id = Some r ->
               stockDeLote (bd st) None id = Some r.

(** The lots of a position that have a positive remaining quantity, in the
    order of their ingress dates. *)
Definition stocksDeLotes (b : BaseDatos) (fechaHasta : option Fecha)
    (ls : list InventarioLote) : list LoteStockResult :=
  List.filter (fun sl => Qgtb (cantidadActual sl) 0)
    (List.flat_map
       (fun l => match stockDeLote b fechaHasta (lote_id l) with
                 | Some sl => [sl]
                 | None => []
                 end) ls).

Definition lotesConSaldo (b : BaseDatos) (id : Z) (fechaHasta : option Fecha)
  : list LoteStockResult :=
  stocksDeLotes b fechaHasta (lotesDeInventario b id).

Definition cantidadTotal (ls : list LoteStockResult) : Q :=
  sumaQ cantidadActual ls.

Definition valorTotalLotes (ls : list LoteStockResult) : Q :=
  sumaQ (fun l => cantidadActual l * costoUnitario l) ls.

(** Weighted average as the specification words it: total value over total
    quantity, zero when the total quantity is zero. *)
Definition promedioPonderado (ls : list LoteStockResult) : Q :=
  if Qgtb (cantidadTotal ls) 0 then valorTotalLotes ls / cantidadTotal ls else 0.

(** ** Example data *)

Definition dia (n : Z) : Fecha := (n * msPorDia)%Z.

Definition movimientoEj (id : Z) (tipo : TipoMovimiento) (f : Fecha)
    (doc : option string) : Movimiento :=
  {| mov_id := id; mov_tipo := tipo; mov_fecha := f;
     mov_numeroDocumento := doc; mov_estado := PROCESADO;
     mov_tipoOperacion := None |}.

Definition loteEj (id : Z) (inicial costo : Q) (f : Fecha) : InventarioLote :=
  {| lote_id := id; lote_idInventario := 1; lote_numeroLote := "";
     lote_cantidadInicial := inicial; lote_costoUnitario := costo;
     lote_fechaIngreso := f |}.

Definition entradaEj (id lote : Z) (q : Q) (f : Fecha) : MovimientoDetalle :=
  {| md_id := id; md_movimiento := movimientoEj id ENTRADA f None;
     md_idInventario := 1; md_idLote := Some lote; md_cantidad := q;
     md_detallesSalida := [] |}.

Definition bdEj (ls : list InventarioLote) (ds : list MovimientoDetalle)
  : BaseDatos :=
  {| bd_almacenes := [1%Z]; bd_productos := [1%Z];
     bd_inventarios := [{| inv_id := 1; inv_idAlmacen := 1; inv_idProducto := 1 |}];
     bd_lotes := ls; bd_detalles := ds |}.

Definition estadoEj (ls : list InventarioLote) (ds : list MovimientoDetalle)
  : Estado :=
  {| bd := bdEj ls ds; cache := cacheVacia |}.

(** One lot of 10 units at cost 5 and an exit of 4 units recorded against
    lot id zero. *)
Definition estadoSalidaSinLote : Estado :=
  estadoEj [loteEj 1 0 5 (dia 1)]
    [entradaEj 1 1 10 (dia 1);
     {| md_id := 2; md_movimiento := movimientoEj 2 SALIDA (dia 2) None;
        md_idInventario := 1; md_idLote := None; md_cantidad := 4;
        md_detallesSalida :=
          [{| ds_idLote := 0; ds_costoUnitarioDeLote := 5; ds_cantidad := 4 |}] |}].

(** The line item belongs to the lot or one of its exit allocations draws
    from the lot. *)
Definition referenciaLote (id : Z) (d : MovimientoDetalle) : bool :=
  esDelLote id d
  || List.existsb (fun ds => (ds_idLote ds =? id)%Z) (md_detallesSalida d).

(** No processed movement dated on or before [hasta] references the lot. *)
Definition sinMovimientosHasta (b : BaseDatos) (id : Z) (hasta : Fecha) : Prop :=
  forall d, In d (bd_detalles b) ->
            esProcesado (mov_estado (md_movimiento d)) = true ->
            (mov_fecha (md_movimiento d) <= hasta)%Z ->
            referenciaLote id d = false.

(** The date on which the lot entered: that of its initial-balance
    movement when there is one, its ingress date otherwise. *)
Definition fechaDeEntrada (b : BaseDatos) (lote : InventarioLote) : Fecha :=
  match buscarInvInit b (lote_id lote) with
  | Some invInit => mov_fecha (md_movimiento invInit)
  | None => lote_fechaIngreso lote
  end.

(** A day, in the same time zone as [inicioDelDia], is on or before another. *)
Definition diaNoPosterior (f hasta : Fecha) : bool :=
  (inicioDelDia f <=? inicioDelDia hasta)%Z.

Definition horas (n : Z) : Z := (n * 3600000)%Z.

Definition dia5ALas9 : Fecha := (dia 5 + horas 9)%Z.
Definition dia5ALas10 : Fecha := (dia 5 + horas 10)%Z.

(** A seeded lot of 10 units whose initial-balance movement is dated at ten
    o'clock of day 5. *)
Definition estadoSemilla : Estado :=
  estadoEj [loteEj 1 10 5 (dia 5)]
    [{| md_id := 1;
        md_movimiento := movimientoEj 1 ENTRADA dia5ALas10
                           (Some "INV-INIT"%string);
        md_idInventario := 1; md_idLote := Some 1%Z; md_cantidad := 10;
        md_detallesSalida := [] |}].

(** A lot of 10 units that no entry references, with one processed
    adjustment of -3 units. *)
Definition estadoAjusteNegativo : Estado :=
  estadoEj [loteEj 1 10 5 (dia 1)]
    [{| md_id := 1; md_movimiento := movimientoEj 1 AJUSTE (dia 2) None;
        md_idInventario := 1; md_idLote := Some 1%Z; md_cantidad := -3;
        md_detallesSalida := [] |}].

(** A lot with 5 units entered and 10 units drawn. *)
Definition estadoSobregirado : Estado :=
  estadoEj [loteEj 1 0 5 (dia 1)]
    [entradaEj 1 1 5 (dia 1);
     {| md_id := 2; md_movimiento := movimientoEj 2 SALIDA (dia 2) None;
        md_idInventario := 1; md_idLote := None; md_cantidad := 10;
        md_detallesSalida :=
          [{| ds_idLote := 1; ds_costoUnitarioDeLote := 5; ds_cantidad := 10 |}] |}].


Definition noDespuesPorFecha (a b : LoteDisponible) : Prop :=
  (ld_fechaIngreso a <= ld_fechaIngreso b)%Z.

(** Two lots that entered on the same day, both with 10 units; the store
    scans lot 2 before lot 1. *)
Definition estadoEmpate : Estado :=
  estadoEj [loteEj 2 0 8 (dia 1); loteEj 1 0 5 (dia 1)]
    [entradaEj 1 1 10 (dia 1); entradaEj 2 2 10 (dia 1)].

(** The line was computed from the balance [antes]: by addition for an
    entry, by subtraction floored at zero for an exit, with the line's own
    quantity and total cost. *)
Definition filaContinua (antes : Saldo) (fila : KardexMovement) : Prop :=
  (if esMovimientoEntrada (km_tipoMovimiento fila) (km_tipoOperacion fila)
   then km_cantidadSaldo fila = s_cantidad antes + km_cantidad fila
        /\ km_valorTotalSaldo fila = s_valorTotal antes + km_costoTotal fila
   else km_cantidadSaldo fila = Qmax 0 (s_cantidad antes - km_cantidad fila)
        /\ km_valorTotalSaldo fila
           = Qmax 0 (s_valorTotal antes - km_costoTotal fila))
  /\ km_costoUnitarioSaldo fila
     = (if Qgtb (km_cantidadSaldo fila) 0
        then km_valorTotalSaldo fila / km_cantidadSaldo fila else 0).

(** Every line is computed from the balance that the line before it left,
    the first one from [antes]. *)
Fixpoint saldoContinuo (antes : Saldo) (filas : list KardexMovement) : Prop :=
  match filas with
  | [] => True
  | fila :: resto => filaContinua antes fila /\ saldoContinuo (saldoDeFila fila) resto
  end.

(** The balance after the lines [filas], [antes] when there is none. *)
Definition saldoFinal (antes : Saldo) (filas : list KardexMovement) : Saldo :=
  match last filas with
  | Some ultimo => saldoDeFila ultimo
  | None => antes
  end.


(** The lot offered is an entry of the working set. *)
Definition esEntradaDelMapa (m : MapaLotes) (lote : LoteDisponible) : Prop :=
  exists lt, In (ld_idLote lote, lt) m
             /\ ld_cantidadDisponible lote = lt_cantidadDisponible lt
             /\ ld_costoUnitario lote = lt_costoUnitario lt
             /\ ld_fechaIngreso lote = lt_fechaIngreso lt.

(** The allocation recorded for a lot offered by the working set. *)
Definition detalleDeLote (lote : LoteDisponible) (d : DetalleSalidaCalculado)
  : Prop :=
  dsc_idLote d = ld_idLote lote
  /\ dsc_costoUnitarioDeLote d = ld_costoUnitario lote
  /\ 0 < dsc_cantidad d
  /\ dsc_cantidad d <= ld_cantidadDisponible lote
  /\ dsc_costoTotal d = dsc_cantidad d * ld_costoUnitario lote.

(** The working set after the quantities [qs] were drawn from the lots [ls]. *)
Definition descontarLotes (m : MapaLotes) (ls : list LoteDisponible)
    (qs : list Q) : MapaLotes :=
  fold_left
    (fun acc p => mapaCambiarCantidad acc (ld_idLote (fst p)) (fun c => c - snd p))
    (combine ls qs) m.

(** The scenario of the specification: lot 1 of 10 units at cost 5 entered
    on day 1, lot 2 of 10 units at cost 8 entered on day 10, and a sale of
    15 units on day 15. *)
Definition ventaEj : MovimientoDetalle :=
  {| md_id := 3; md_movimiento := movimientoEj 3 SALIDA (dia 15) None;
     md_idInventario := 1; md_idLote := None; md_cantidad := 15;
     md_detallesSalida :=
       [{| ds_idLote := 1; ds_costoUnitarioDeLote := 5; ds_cantidad := 10 |};
        {| ds_idLote := 2; ds_costoUnitarioDeLote := 8; ds_cantidad := 5 |}] |}.

Definition estadoVenta : Estado :=
  estadoEj [loteEj 1 0 5 (dia 1); loteEj 2 0 8 (dia 10)]
    [entradaEj 1 1 10 (dia 1); entradaEj 2 2 10 (dia 10); ventaEj].

Definition mapaEj : MapaLotes :=
  [(2%Z, {| lt_cantidadDisponible := 10; lt_costoUnitario := 8;
            lt_fechaIngreso := dia 10 |});
   (1%Z, {| lt_cantidadDisponible := 10; lt_costoUnitario := 5;
            lt_fechaIngreso := dia 1 |})].

(** The lines of a voucher that is not a purchase, as the specification has
    them: for each line the unit cost is what [calcularCostoUnitarioVenta]
    returns under the configured method, and the lots used are what
    [calcularConsumoFIFO], which takes no method, returns next; the cache
    entry of the position is invalidated after each line. *)
Inductive lineasVenta (metodo : MetodoValoracion) (fecha : option Fecha)
  : Estado -> list ComprobanteDetalle -> list Q -> list LoteUsado -> Estado -> Prop :=
| lineasVenta_nil st : lineasVenta metodo fecha st [] [] [] st
| lineasVenta_cons st detalle resto idInv costo st1 consumo st2 costos usados st' :
    cd_inventario detalle = Some idInv ->
    calcularCostoUnitarioVenta idInv (cd_cantidad detalle) metodo fecha st
      = (Exito costo, st1) ->
    calcularConsumoFIFO idInv (cd_cantidad detalle) fecha st1
      = (Exito consumo, st2) ->
    lineasVenta metodo fecha
      (conCache st2 (invalidateInventario (cache st2) idInv))
      resto costos usados st' ->
    lineasVenta metodo fecha st (detalle :: resto) (costo :: costos)
      (List.map loteUsadoDeConsumo consumo ++ usados) st'.

(** The two lots of the scenario, before the sale. *)
Definition estadoDosLotes : Estado :=
  estadoEj [loteEj 1 0 5 (dia 1); loteEj 2 0 8 (dia 10)]
    [entradaEj 1 1 10 (dia 1); entradaEj 2 2 10 (dia 10)].

Definition lineaVentaEj : ComprobanteDetalle :=
  {| cd_inventario := Some 1%Z; cd_cantidad := 15; cd_precioUnitario := 9 |}.

(** Foreign keys of the store: every lot belongs to an inventory position
    of the store; every line item names a position of the store and, when
    it names a lot, a lot of the store; every exit allocation names a lot
    of the store or lot id zero. *)
Definition integridadReferencial (b : BaseDatos) : Prop :=
  Forall (fun l => In (lote_idInventario l) (List.map inv_id (bd_inventarios b)))
    (bd_lotes b)
  /\ Forall
       (fun d =>
          In (md_idInventario d) (List.map inv_id (bd_inventarios b))
          /\ (forall l, md_idLote d = Some l ->
                        In l (List.map lote_id (bd_lotes b)))
          /\ Forall (fun ds => ds_idLote ds = 0%Z
                               \/ In (ds_idLote ds) (List.map lote_id (bd_lotes b)))
               (md_detallesSalida d))
       (bd_detalles b).

(** The request that seeds a position with [cantidad] units at [costo]. *)
Definition dtoSemilla (idAlmacen idProducto : Z) (cantidad costo : Q)
  : CreateInventarioDto :=
  {| dto_idAlmacen := idAlmacen; dto_idProducto := idProducto;
     dto_stockInicial := Some cantidad; dto_precioUnitario := Some costo |}.

(** The date of the seeding movement. *)
Definition fechaSiembra (ahora : Fecha) (inicioPeriodo : option Fecha) : Fecha :=
  match inicioPeriodo with Some f => f | None => ahora end.

(** A store with one warehouse and one product and nothing else. *)
Definition estadoInicial : Estado :=
  {| bd := {| bd_almacenes := [1%Z]; bd_productos := [1%Z];
              bd_inventarios := []; bd_lotes := []; bd_detalles := [] |};
     cache := cacheVacia |}.

(** ** Further predicates *)

(** The allocation drawn from an available lot. *)
Definition consumoDeLote (lote : LoteDisponible) (c : ConsumoLote) : Prop :=
  cl_idLote c = ld_idLote lote
  /\ cl_costoUnitario c = ld_costoUnitario lote
  /\ 0 < cl_cantidad c
  /\ cl_cantidad c <= ld_cantidadDisponible lote.

Definition cantidadConsumida (consumo : list ConsumoLote) : Q :=
  sumaQ cl_cantidad consumo.

Definition costoConsumido (consumo : list ConsumoLote) : Q :=
  sumaQ (fun c => cl_cantidad c * cl_costoUnitario c) consumo.

(** A lot that no entry references, with a stored initial quantity of 10
    units, from which an exit drew 3 units. *)
Definition estadoLoteVirgen : Estado :=
  estadoEj [loteEj 1 10 5 (dia 1)]
    [{| md_id := 1; md_movimiento := movimientoEj 1 SALIDA (dia 2) None;
        md_idInventario := 1; md_idLote := None; md_cantidad := 3;
        md_detallesSalida :=
          [{| ds_idLote := 1; ds_costoUnitarioDeLote := 5; ds_cantidad := 3 |}] |}].

(** A balance whose value is its quantity at its unit cost, none of them
    negative. *)
Definition saldoBienFormado (s : Saldo) : Prop :=
  0 <= s_cantidad s
  /\ 0 <= s_costoUnitario s
  /\ 0 <= s_valorTotal s
  /\ s_valorTotal s == s_cantidad s * s_costoUnitario s.

(** No line item of the store has a negative quantity and no lot has a
    negative unit cost. *)
Definition sinNegativos (b : BaseDatos) : Prop :=
  Forall (fun d => 0 <= md_cantidad d) (bd_detalles b)
  /\ Forall (fun l => 0 <= lote_costoUnitario l) (bd_lotes b).

(** The balance of a line has no negative component. *)
Definition saldoNoNegativo (fila : KardexMovement) : Prop :=
  0 <= km_cantidadSaldo fila
  /\ 0 <= km_costoUnitarioSaldo fila
  /\ 0 <= km_valorTotalSaldo fila.

(** Order of the ledger rows of a Kardex: movement date, then movement id. *)
Definition antesEnLibro (x y : MovimientoDetalle) : Prop :=
  (mov_fecha (md_movimiento x) < mov_fecha (md_movimiento y))%Z
  \/ (mov_fecha (md_movimiento x) = mov_fecha (md_movimiento y)
      /\ (mov_id (md_movimiento x) <= mov_id (md_movimiento y))%Z).

Definition saldoEj : Saldo :=
  {| s_cantidad := 20; s_costoUnitario := 6.5; s_valorTotal := 130 |}.

(** The lot that a purchase line creates: no stored initial quantity, the
    price of the line as unit cost, the date of the voucher as ingress
    date. *)
Definition loteDeCompra (fecha : Fecha) (d : ComprobanteDetalle)
    (l : InventarioLote) : Prop :=
  cd_inventario d = Some (lote_idInventario l)
  /\ lote_cantidadInicial l = 0
  /\ lote_costoUnitario l = cd_precioUnitario d
  /\ lote_fechaIngreso l = fecha.

(** The entry of the list of lots used that a purchase line gets. *)
Definition usoDeCompra (dl : ComprobanteDetalle * InventarioLote) : LoteUsado :=
  {| lu_idLote := lote_id (snd dl);
     lu_costoUnitarioDeLote := cd_precioUnitario (fst dl);
     lu_cantidad := cd_cantidad (fst dl) |}.

(** A line that [registrarLoteCompra] accepts in the store. *)
Definition lineaDeCompraValida (b : BaseDatos) (d : ComprobanteDetalle) : Prop :=
  0 < cd_cantidad d
  /\ 0 <= cd_precioUnitario d
  /\ exists idInv, cd_inventario d = Some idInv
                   /\ idInv <> 0%Z
                   /\ In idInv (List.map inv_id (bd_inventarios b)).

(** Price of the last line of the voucher for an inventory position. *)
Fixpoint ultimoPrecio (detalles : list ComprobanteDetalle) (idInv : Z)
  : option Q :=
  match detalles with
  | [] => None
  | d :: resto =>
      match ultimoPrecio resto idInv with
      | Some p => Some p
      | None =>
          match cd_inventario d with
          | Some j => if (j =? idInv)%Z then Some (cd_precioUnitario d) else None
          | None => None
          end
      end
  end.

Definition lineaCompraEj (cantidad precio : Q) : ComprobanteDetalle :=
  {| cd_inventario := Some 1%Z; cd_cantidad := cantidad;
     cd_precioUnitario := precio |}.

(** The lot has one of the given ids. *)
Definition esLoteDe (ids : list Z) (l : InventarioLote) : bool :=
  contiene ids (lote_id l).

(** One turn of the loop of [calcularStockInventario] for a lot with a
    positive quantity. *)
Definition acumularLote (acc : AcumuladoStock) (sl : LoteStockResult)
  : AcumuladoStock :=
  {| lotesConStock := lotesConStock acc ++ [sl];
     stockTotal := stockTotal acc + cantidadActual sl;
     valorTotal := valorTotal acc + cantidadActual sl * costoUnitario sl |}.

(** The exit allocation written for an allocation of the FIFO
    consumption. *)
Definition salidaDeConsumo (c : ConsumoLote) (s : DetalleSalida) : Prop :=
  ds_idLote s = cl_idLote c
  /\ ds_costoUnitarioDeLote s = cl_costoUnitario c
  /\ ds_cantidad s == cl_cantidad c.

(** The movement line of a sale line: position and quantity of the line,
    no lot of its own, and as exit allocations those of the FIFO
    consumption of the line, computed in the state [st] for the date
    [fecha]; none when the consumption is empty. *)
Definition detalleDeVenta (fecha : Fecha) (st : Estado)
    (d : ComprobanteDetalle) (dto : CreateMovimientoDetalleDto) : Prop :=
  cd_inventario d = Some (cmd_idInventario dto)
  /\ cmd_cantidad dto = cd_cantidad d
  /\ cmd_idLote dto = None
  /\ exists consumo,
       fst (calcularConsumoFIFO (cmd_idInventario dto) (cd_cantidad d)
              (Some fecha) st) = Exito consumo
       /\ match cmd_detallesSalida dto with
          | Some salidas => consumo <> [] /\ Forall2 salidaDeConsumo consumo salidas
          | None => consumo = []
          end.

(** The movement line of a purchase line and of the lot created for it. *)
Definition detalleDeCompra (dl : ComprobanteDetalle * InventarioLote)
  : CreateMovimientoDetalleDto :=
  {| cmd_idInventario := lote_idInventario (snd dl);
     cmd_cantidad := cd_cantidad (fst dl);
     cmd_idLote := Some (lote_id (snd dl));
     cmd_detallesSalida := None |}.

(** The row of [movimiento_detalle] written for a line of a movement. *)
Definition filaEscrita (mov : Movimiento) (dto : CreateMovimientoDetalleDto)
    (fila : MovimientoDetalle) : Prop :=
  md_movimiento fila = mov
  /\ md_idInventario fila = cmd_idInventario dto
  /\ md_idLote fila = cmd_idLote dto
  /\ md_cantidad fila = cmd_cantidad dto
  /\ md_detallesSalida fila
     = match cmd_detallesSalida dto with
       | Some salidas => salidas
       | None => []
       end.

(** The request for the movement of a purchase or of a sale, with the
    lines that the factory built. *)
Definition movimientoDe (tipo : TipoMovimiento) (fecha : Fecha)
    (detalles : list CreateMovimientoDetalleDto) : CreateMovimientoDto :=
  {| cm_numeroDocumento := Some "F001-1"%string;
     cm_tipo := tipo;
     cm_fecha := fecha;
     cm_estado := PROCESADO;
     cm_detalles := detalles |}.

(** What the lines of a movement allocate to a lot. *)
Definition asignadoALote (idLote : Z)
    (detalles : list CreateMovimientoDetalleDto) : Q :=
  sumaQ ds_cantidad
    (List.flat_map
       (fun d => List.filter (fun ds => (ds_idLote ds =? idLote)%Z)
                   match cmd_detallesSalida d with
                   | Some salidas => salidas
                   | None => []
                   end)
       detalles).

(** A sale of 15 units, 10 of them drawn from lot 1 and 5 from lot 2. *)
Definition salidaEj : CreateMovimientoDetalleDto :=
  {| cmd_idInventario := 1; cmd_cantidad := 15; cmd_idLote := None;
     cmd_detallesSalida :=
       Some [{| ds_idLote := 1; ds_costoUnitarioDeLote := 5; ds_cantidad := 10 |};
             {| ds_idLote := 2; ds_costoUnitarioDeLote := 8; ds_cantidad := 5 |}] |}.

(** No two inventory positions of the store are for the same product in
    the same warehouse. *)
Definition sinPosicionesRepetidas (b : BaseDatos) : Prop :=
  List.NoDup (List.map (fun i => (inv_idAlmacen i, inv_idProducto i))
           (bd_inventarios b)).

(** The two lots of the scenario and an exit of their 20 units. *)
Definition estadoAgotado : Estado :=
  estadoEj [loteEj 1 0 5 (dia 1); loteEj 2 0 8 (dia 10)]
    [entradaEj 1 1 10 (dia 1); entradaEj 2 2 10 (dia 10);
     {| md_id := 3; md_movimiento := movimientoEj 3 SALIDA (dia 15) None;
        md_idInventario := 1; md_idLote := None; md_cantidad := 20;
        md_detallesSalida :=
          [{| ds_idLote := 1; ds_costoUnitarioDeLote := 5; ds_cantidad := 10 |};
           {| ds_idLote := 2; ds_costoUnitarioDeLote := 8; ds_cantidad := 10 |}] |}].

(** The line of a voucher is for the inventory position [id]. *)
Definition lineaDe (id : Z) (d : ComprobanteDetalle) : bool :=
  match cd_inventario d with
  | Some j => (j =? id)%Z
  | None => false
  end.

(** What a lot adds to a total over the lots with a positive quantity. *)
Definition aporteDeLote (col : LoteStockResult -> Q) (b : BaseDatos)
    (fechaHasta : option Fecha) (l : InventarioLote) : Q :=
  match stockDeLote b fechaHasta (lote_id l) with
  | Some sl => if Qgtb (cantidadActual sl) 0 then col sl else 0
  | None => 0
  end.

(** The entry of the summary for a position with the given stock. *)
Definition resumenDe (id : Z) (s : InventarioStockResult) : ResumenStock :=
  {| rs_idInventario := id;
     rs_stockActual := stockActual s;
     rs_costoUnitario := costoPromedioActual s;
     rs_valorTotal := stockActual s * costoPromedioActual s |}.

(** The working set of lots holds one entry for each lot id, as a
    JavaScript [Map] does. *)
Definition clavesUnicas (m : MapaLotes) : Prop :=
  List.NoDup (List.map fst m).

(** What the working set offers to a FIFO exit: the total of its positive
    quantities. *)
Definition ofrecido (m : MapaLotes) : Q :=
  totalDisponible (lotesTemporalesOrdenados m).

(** No entry of the working set has a negative quantity. *)
Definition sinFaltantes (m : MapaLotes) : Prop :=
  Forall (fun entry => 0 <= lt_cantidadDisponible (snd entry)) m.

(** The positive part of the quantity of an entry of the working set. *)
Definition parteOfrecida (entry : Z * LoteTemporal) : Q :=
  Qmax 0 (lt_cantidadDisponible (snd entry)).

(** A purchase line that [registrarLoteCompra] accepts: it names, by a
    non-zero id, a position of the store whose product and warehouse the
    store holds, and has a positive quantity and a price that is not
    negative. *)
Definition lineaDeCompraAceptable (b : BaseDatos) (d : ComprobanteDetalle)
  : Prop :=
  0 < cd_cantidad d
  /\ 0 <= cd_precioUnitario d
  /\ exists idInv inventario,
       cd_inventario d = Some idInv
       /\ idInv <> 0%Z
       /\ buscarInventario b idInv = Some inventario
       /\ In (inv_idProducto inventario) (bd_productos b)
       /\ In (inv_idAlmacen inventario) (bd_almacenes b).

(** A line of a voucher that is not a purchase and that
    [calcularConsumoFIFO], called for this line alone in the state [st],
    serves at the date [fecha]. *)
Definition lineaAceptada (fecha : Fecha) (st : Estado) (d : ComprobanteDetalle)
  : Prop :=
  exists idInv consumo,
    cd_inventario d = Some idInv
    /\ fst (calcularConsumoFIFO idInv (cd_cantidad d) (Some fecha) st)
       = Exito consumo.

(** A line of a voucher that is not a purchase and that the lots of its
    position cover, in exact arithmetic, at the date [fecha]. *)
Definition lineaCubierta (fecha : Fecha) (st : Estado) (d : ComprobanteDetalle)
  : Prop :=
  exists idInv,
    cd_inventario d = Some idInv
    /\ ~ totalDisponible (fst (obtenerLotesDisponiblesFIFO idInv (Some fecha) st))
         < cd_cantidad d.

(** The line of a Kardex reports a row of the ledger of the position [id]
    dated within the window. *)
Definition filaDeLaVentana (id : Z) (fechaDesde fechaHasta : Fecha)
    (fila : KardexMovement) : Prop :=
  km_idInventario fila = id
  /\ (fechaDesde <= km_fecha fila <= fechaHasta)%Z.

(** What a FIFO consumption draws from a lot. *)
Definition consumidoDe (idLote : Z) (consumo : list ConsumoLote) : Q :=
  sumaQ cl_cantidad
    (List.filter (fun c => (cl_idLote c =? idLote)%Z) consumo).

(** Every lot of the position has received an entry by the date. *)
Definition lotesConEntrada (b : BaseDatos) (id : Z) (fecha : Fecha) : Prop :=
  Forall (fun l => lote_idInventario l = id ->
                   0 < sumaDetallesLote b (lote_id l) ENTRADA (Some fecha))
    (bd_lotes b).

(** The FIFO consumption computed for a line of a sale; nothing when the
    line names no position or the stock does not cover it. *)
Definition consumoDeLinea (fecha : Fecha) (st : Estado) (d : ComprobanteDetalle)
  : list ConsumoLote :=
  match cd_inventario d with
  | Some idInv =>
      match fst (calcularConsumoFIFO idInv (cd_cantidad d) (Some fecha) st) with
      | Exito consumo => consumo
      | Fallo _ => []
      end
  | None => []
  end.

(** The cost of the sale of a position as [procesarLotesComprobante]
    returns it: over the lines for the position, the quantity at the unit
    cost returned for the line. *)
Definition costoDeVenta (id : Z) (detalles : list ComprobanteDetalle)
    (costos : list Q) : Q :=
  sumaQ (fun p => cd_cantidad (fst p) * snd p)
    (List.filter (fun p => lineaDe id (fst p)) (List.combine detalles costos)).

(** The lots of [Doble.lotesDecimales] in the store: 0.1 and 0.3 units
    entered on day 1, as exact decimals. *)
Definition estadoDecimales : Estado :=
  estadoEj [loteEj 1 0 5 (dia 1); loteEj 2 0 5 (dia 1)]
    [entradaEj 1 1 (1 # 10) (dia 1); entradaEj 2 2 (3 # 10) (dia 1)].






(** ** Comparisons on numbers *)

Lemma Qgtb_true x y : Qgtb x y = true <-> y < x.
Proof.
  unfold Qgtb. rewrite negb_true_iff, <- not_true_iff_false, Qle_bool_iff.
  split; [apply Qnot_le_lt | apply Qlt_not_le].
Qed.

Lemma Qgtb_false x y : Qgtb x y = false <-> x <= y.
Proof.
  unfold Qgtb. rewrite negb_false_iff. apply Qle_bool_iff.
Qed.

Lemma Qleb_true x y : Qleb x y = true <-> x <= y.
Proof. apply Qle_bool_iff. Qed.

Lemma Qleb_false x y : Qleb x y = false <-> y < x.
Proof.
  unfold Qleb. rewrite <- not_true_iff_false, Qle_bool_iff.
  split; [apply Qnot_le_lt | apply Qlt_not_le].
Qed.

Lemma Qmax_0_nonneg x : 0 <= Qmax 0 x.
Proof. apply Q.le_max_l. Qed.

Lemma Qmax_0_cases x : (x <= 0 /\ Qmax 0 x == 0) \/ (0 < x /\ Qmax 0 x == x).
Proof.
  destruct (Qlt_le_dec 0 x) as [H | H].
  - right. split; [exact H |]. apply Q.max_r. lra.
  - left. split; [exact H |]. apply Q.max_l. exact H.
Qed.

Lemma Qmin_cases x y : (x <= y /\ Qmin x y == x) \/ (y < x /\ Qmin x y == y).
Proof.
  destruct (Qlt_le_dec y x) as [H | H].
  - right. split; [exact H |]. apply Q.min_r. lra.
  - left. split; [exact H |]. apply Q.min_l. exact H.
Qed.

(** ** The quantity of a lot is never negative *)

(** C10. Whatever the ledger holds, also when the raw total of entries,
    exits and adjustments of the lot is negative, [calcularStockLote]
    returns a quantity that is not negative; results served from the cache
    are covered because the cache only ever holds such results, an
    invariant that the call preserves. *)
Theorem calcularStockLote_no_negativo id fechaHasta st r st' :
  cacheSana (cache st) ->
  calcularStockLote id fechaHasta st = (Some r, st') ->
  0 <= cantidadActual r /\ cacheSana (cache st').
Proof.
  intros Hsana. unfold calcularStockLote.
  destruct fechaHasta as [hasta |]; simpl.
  - destruct (buscarLote (bd st) id) as [lote |]; [| discriminate].
    intros [= <- <-]. simpl. split; [apply Qmax_0_nonneg | exact Hsana].
  - destruct (cacheLotes (cache st) !! id) as [cached |] eqn:Hc.
    + intros [= <- <-]. split; [eapply Hsana; eauto | exact Hsana].
    + destruct (buscarLote (bd st) id) as [lote |]; [| discriminate].
      intros [= <- <-]. simpl. split; [apply Qmax_0_nonneg |].
      intros id' r'. simpl. rewrite lookup_insert.
      destruct (decide (id = id')) as [-> | Hne].
      * intros [= <-]. simpl. apply Qmax_0_nonneg.
      * apply Hsana.
Qed.

(** ** Sorting keeps the elements *)

Section OrdenarHechos.
Context {A : Type} (cmp : A -> A -> Z).

Lemma insertar_Forall (P : A -> Prop) x l :
  P x -> Forall P l -> Forall P (insertar cmp x l).
Proof.
  intros Hx Hl. induction Hl as [| y l Hy Hl IH]; simpl.
  - constructor; [exact Hx | constructor].
  - destruct (cmp x y <=? 0)%Z.
    + constructor; [exact Hx |]. constructor; assumption.
    + constructor; assumption.
Qed.

Lemma ordenar_Forall (P : A -> Prop) l :
  Forall P l -> Forall P (ordenar cmp l).
Proof.
  induction 1 as [| x l Hx Hl IH]; simpl.
  - constructor.
  - apply insertar_Forall; assumption.
Qed.
End OrdenarHechos.

(** ** The stock calculation never writes to the store *)

Lemma calcularStockLote_bd id fechaHasta st :
  bd (snd (calcularStockLote id fechaHasta st)) = bd st.
Proof.
  unfold calcularStockLote.
  destruct (getLoteStock (cache st) id fechaHasta), fechaHasta;
    try reflexivity; destruct (buscarLote (bd st) id); reflexivity.
Qed.

Lemma acumularLotes_bd lotesInv fechaHasta acc st :
  bd (snd (acumularLotes lotesInv fechaHasta acc st)) = bd st.
Proof.
  revert acc st. induction lotesInv as [| lote resto IH]; intros acc st; simpl.
  - reflexivity.
  - pose proof (calcularStockLote_bd (lote_id lote) fechaHasta st) as Hbd.
    destruct (calcularStockLote (lote_id lote) fechaHasta st) as [sl st1].
    simpl in Hbd. rewrite IH. exact Hbd.
Qed.

Lemma calcularStockDesdeLotes_bd id fechaHasta st :
  bd (snd (calcularStockDesdeLotes id fechaHasta st)) = bd st.
Proof.
  unfold calcularStockDesdeLotes.
  destruct (buscarInventario (bd st) id); [| reflexivity].
  pose proof (acumularLotes_bd (lotesDeInventario (bd st) id) fechaHasta
                {| lotesConStock := []; stockTotal := 0; valorTotal := 0 |} st) as Hbd.
  destruct (acumularLotes _ _ _ st) as [acc st1]. exact Hbd.
Qed.

Lemma calcularStockInventario_bd id fechaHasta st :
  bd (snd (calcularStockInventario id fechaHasta st)) = bd st.
Proof.
  unfold calcularStockInventario.
  destruct (getInventarioStock (cache st) id fechaHasta), fechaHasta;
    try apply calcularStockDesdeLotes_bd.
  destruct (buscarInventario (bd st) id); reflexivity.
Qed.

Lemma obtenerLotesDisponiblesFIFO_bd id fechaHasta st :
  bd (snd (obtenerLotesDisponiblesFIFO id fechaHasta st)) = bd st.
Proof.
  unfold obtenerLotesDisponiblesFIFO.
  pose proof (calcularStockInventario_bd id fechaHasta st) as Hbd.
  destruct (calcularStockInventario id fechaHasta st) as [[r |] st1]; exact Hbd.
Qed.

(** ** FIFO consumption *)

Lemma obtenerLotesDisponiblesFIFO_positivos id fechaHasta st :
  Forall (fun l => 0 < ld_cantidadDisponible l)
    (fst (obtenerLotesDisponiblesFIFO id fechaHasta st)).
Proof.
  unfold obtenerLotesDisponiblesFIFO.
  destruct (calcularStockInventario id fechaHasta st) as [[r |] st1]; simpl.
  - apply ordenar_Forall. apply List.Forall_forall. intros l Hl.
    apply in_map_iff in Hl as (sl & <- & Hsl).
    apply filter_In in Hsl as [_ Hpos]. simpl. apply Qgtb_true, Hpos.
  - constructor.
Qed.

Lemma totalDisponible_nonneg l :
  Forall (fun x => 0 < ld_cantidadDisponible x) l -> 0 <= totalDisponible l.
Proof.
  unfold totalDisponible.
  induction 1 as [| x l Hx Hl IH]; simpl; [lra | lra].
Qed.

(** What is still missing after the loop is positive exactly when the lots
    offer less than what was asked. *)
Lemma consumirLotes_restante l consumo q :
  Forall (fun x => 0 < ld_cantidadDisponible x) l ->
  (0 < snd (consumirLotes l consumo q) <-> totalDisponible l < q).
Proof.
  intros Hl. revert consumo q.
  induction Hl as [| x l Hx Hl IH]; intros consumo q; simpl.
  - unfold totalDisponible. simpl. reflexivity.
  - pose proof (totalDisponible_nonneg l Hl) as Hnn.
    unfold totalDisponible in *. simpl.
    destruct (Qleb q 0) eqn:Hq.
    + apply Qleb_true in Hq. simpl. split; intros H; lra.
    + apply Qleb_false in Hq. rewrite IH.
      destruct (Qmin_cases q (ld_cantidadDisponible x)) as [[Hle Hm] | [Hlt Hm]];
        rewrite Hm; split; intros H; lra.
Qed.

Lemma calcularConsumoFIFO_eq id q fechaHasta st :
  calcularConsumoFIFO id q fechaHasta st =
  let '(lotesDisponibles, st') := obtenerLotesDisponiblesFIFO id fechaHasta st in
  let '(consumo, cantidadRestante) := consumirLotes lotesDisponibles [] q in
  if Qgtb cantidadRestante 0 then (Fallo mensajeStockInsuficiente, st')
  else (Exito consumo, st').
Proof.
  unfold calcularConsumoFIFO, ligar, elevar, lanzar, retornar.
  destruct (obtenerLotesDisponiblesFIFO id fechaHasta st) as [l st1].
  destruct (consumirLotes l [] q) as [consumo restante].
  destruct (Qgtb restante 0); reflexivity.
Qed.

(** In exact arithmetic, [calcularConsumoFIFO] throws the insufficient-stock
    error exactly when the lots listed by [obtenerLotesDisponiblesFIFO] for
    the position offer, in total, less than the quantity asked; and
    whether it throws or not, the store (lots, movements, exit
    allocations) is left as it was. *)
Lemma calcularConsumoFIFO_falla_sii id q fechaHasta st :
  (fst (calcularConsumoFIFO id q fechaHasta st) = Fallo mensajeStockInsuficiente
   <-> totalDisponible (fst (obtenerLotesDisponiblesFIFO id fechaHasta st)) < q)
  /\ (fallo (fst (calcularConsumoFIFO id q fechaHasta st))
      -> fst (calcularConsumoFIFO id q fechaHasta st) = Fallo mensajeStockInsuficiente)
  /\ bd (snd (calcularConsumoFIFO id q fechaHasta st)) = bd st.
Proof.
  rewrite calcularConsumoFIFO_eq.
  pose proof (obtenerLotesDisponiblesFIFO_positivos id fechaHasta st) as Hpos.
  pose proof (obtenerLotesDisponiblesFIFO_bd id fechaHasta st) as Hbd.
  destruct (obtenerLotesDisponiblesFIFO id fechaHasta st) as [l st1].
  simpl in Hpos, Hbd |- *.
  pose proof (consumirLotes_restante l [] q Hpos) as Hrest.
  destruct (consumirLotes l [] q) as [consumo restante]. simpl in Hrest.
  destruct (Qgtb restante 0) eqn:Hg; simpl.
  - apply Qgtb_true in Hg. repeat split; auto. intros _. apply Hrest, Hg.
  - apply Qgtb_false in Hg. repeat split; auto.
    + discriminate.
    + intros H. apply Hrest in H. lra.
    + intros [].
Qed.

(** C1 at its failing input. Two lots hold 0.1 and 0.3 units and 0.4 units
    are asked. On the numbers of the program the lots add up to 0.4, which
    is not less than the quantity asked, and [verificarStockSuficiente]
    answers that the stock suffices; yet the loop of [calcularConsumoFIFO]
    is left with [0.4 - 0.1 - 0.3], which the subtractions round to
    [5.551115123125783e-17], and the function throws. In exact arithmetic
    the same request is served with 0.1 units of lot 1 and 0.3 units of
    lot 2. *)
Theorem calcularConsumoFIFO_decimales :
  PrimFloat.eqb (Doble.stockTotal Doble.lotesDecimales) Doble.cuatroDecimos = true
  /\ PrimFloat.ltb (Doble.stockTotal Doble.lotesDecimales) Doble.cuatroDecimos
     = false
  /\ Doble.verificarStockSuficiente Doble.lotesDecimales PrimFloat.zero
       Doble.cuatroDecimos = true
  /\ Doble.calcularConsumoFIFO Doble.lotesDecimales Doble.cuatroDecimos
     = Fallo mensajeStockInsuficiente
  /\ snd (Doble.consumirLotes Doble.lotesDecimales [] Doble.cuatroDecimos)
     = Doble.faltante
  /\ totalDisponible
       (fst (obtenerLotesDisponiblesFIFO 1 (Some (dia 2)) estadoDecimales))
     == 4 # 10
  /\ exists consumo,
       fst (calcularConsumoFIFO 1 (4 # 10) (Some (dia 2)) estadoDecimales)
       = Exito consumo
       /\ List.map cl_idLote consumo = [1%Z; 2%Z]
       /\ Forall2 Qeq (List.map cl_cantidad consumo) [1 # 10; 3 # 10].
Proof.
  repeat split; try (vm_compute; reflexivity).
  eexists. split; [vm_compute; reflexivity |].
  split; [reflexivity |].
  repeat constructor.
Qed.

(** ** Bare queries served from the cache *)

(** A bare query that finds the position leaves an entry for it in the
    cache, holding the quantity and the cost it returned. *)
Lemma calcularStockInventario_deja_entrada id st r st1 :
  calcularStockInventario id None st = (Some r, st1) ->
  (exists c, cacheInventarios (cache st1) !! id = Some c
             /\ ic_stockActual c = stockActual r
             /\ ic_costoPromedioActual c = costoPromedioActual r)
  /\ (exists inventario, buscarInventario (bd st1) id = Some inventario).
Proof.
  unfold calcularStockInventario. simpl.
  destruct (cacheInventarios (cache st) !! id) as [c |] eqn:Hc.
  - destruct (buscarInventario (bd st) id) as [inventario |] eqn:Hinv;
      [| discriminate].
    intros [= <- <-]. split; [exists c | exists inventario]; auto.
  - unfold calcularStockDesdeLotes.
    destruct (buscarInventario (bd st) id) as [inventario |] eqn:Hinv;
      [| discriminate].
    pose proof (acumularLotes_bd (lotesDeInventario (bd st) id) None
                  {| lotesConStock := []; stockTotal := 0; valorTotal := 0 |} st) as Hbd.
    destruct (acumularLotes _ _ _ st) as [acc st']. simpl in Hbd.
    intros [= <- <-]. simpl. split.
    + eexists. rewrite lookup_insert_eq. split; [reflexivity |]. simpl. auto.
    + exists inventario. rewrite Hbd. exact Hinv.
Qed.

(** C4. Once a bare query of a position has gone through, the next bare
    query is served from the cache: it returns the same quantity and
    average cost with an empty list of lots, so that
    [obtenerLotesDisponiblesFIFO] lists no lot and [calcularConsumoFIFO]
    without cutoff date throws for every positive quantity. Invalidating
    the position removes the entry, which ends this. *)
Theorem calcularStockInventario_cache_sin_lotes id st r st1 :
  calcularStockInventario id None st = (Some r, st1) ->
  calcularStockInventario id None st1 =
    (Some {| idInventario := id;
             stockActual := stockActual r;
             costoPromedioActual := costoPromedioActual r;
             lotes := [] |}, st1)
  /\ obtenerLotesDisponiblesFIFO id None st1 = ([], st1)
  /\ (forall q, 0 < q ->
        calcularConsumoFIFO id q None st1 = (Fallo mensajeStockInsuficiente, st1))
  /\ getInventarioStock (invalidateInventario (cache st1) id) id None = None.
Proof.
  intros Hprimera.
  apply calcularStockInventario_deja_entrada in Hprimera
    as [(c & Hc & Hstock & Hcosto) [inventario Hinv]].
  assert (Hsegunda :
    calcularStockInventario id None st1 =
      (Some {| idInventario := id;
               stockActual := stockActual r;
               costoPromedioActual := costoPromedioActual r;
               lotes := [] |}, st1)).
  { unfold calcularStockInventario. simpl. rewrite Hc, Hinv, Hstock, Hcosto.
    reflexivity. }
  assert (Hlotes : obtenerLotesDisponiblesFIFO id None st1 = ([], st1)).
  { unfold obtenerLotesDisponiblesFIFO. rewrite Hsegunda. reflexivity. }
  repeat split.
  - exact Hsegunda.
  - exact Hlotes.
  - intros q Hq. rewrite calcularConsumoFIFO_eq, Hlotes. simpl.
    apply Qgtb_true in Hq. rewrite Hq. reflexivity.
  - simpl. apply lookup_delete_eq.
Qed.

Lemma calcularStockInventario_cache_sin_lotes_witness :
  exists r st1,
    calcularStockInventario 1 None estadoDosLotes = (Some r, st1)
    /\ List.map idLote (lotes r) = [1%Z; 2%Z]
    /\ obtenerLotesDisponiblesFIFO 1 None st1 = ([], st1)
    /\ calcularConsumoFIFO 1 15 None st1 = (Fallo mensajeStockInsuficiente, st1).
Proof.
  destruct (calcularStockInventario 1 None estadoDosLotes) as [r st1] eqn:Hcall.
  destruct r as [r |]; [| vm_compute in Hcall; discriminate Hcall].
  exists r, st1. split; [reflexivity |]. split.
  - vm_compute in Hcall. injection Hcall as <- _. reflexivity.
  - destruct (calcularStockInventario_cache_sin_lotes 1 estadoDosLotes r st1 Hcall)
      as (_ & Hlotes & Hconsumo & _).
    split; [exact Hlotes |]. apply Hconsumo. lra.
Defined.

(** With no issue date, the cost of the line is asked first and fills the
    cache, so that the consumption that follows finds no lot: the sale of
    15 units out of 20 throws under both methods. *)
Example procesarLotesComprobante_sin_fecha :
  fst (procesarLotesComprobante (dia 15) [lineaVentaEj] "VENTA" PROMEDIO None
         estadoDosLotes) = Fallo mensajeStockInsuficiente
  /\ fst (procesarLotesComprobante (dia 15) [lineaVentaEj] "VENTA" FIFO None
            estadoDosLotes) = Fallo mensajeStockInsuficiente.
Proof. split; vm_compute; reflexivity. Qed.

(** ** The stock of a position from its lots *)

(** With a cutoff date, or with a coherent cache, [calcularStockLote]
    returns what the ledger gives and keeps the cache coherent. *)
Lemma calcularStockLote_puro id fechaHasta st :
  (fechaHasta = None -> cacheCoherente st) ->
  fst (calcularStockLote id fechaHasta st) = stockDeLote (bd st) fechaHasta id
  /\ (fechaHasta = None -> cacheCoherente (snd (calcularStockLote id fechaHasta st))).
Proof.
  intros Hcoh. unfold calcularStockLote, stockDeLote.
  destruct fechaHasta as [hasta |]; simpl.
  - destruct (buscarLote (bd st) id); simpl; split; auto; discriminate.
  - specialize (Hcoh eq_refl).
    destruct (cacheLotes (cache st) !! id) as [cached |] eqn:Hc; simpl.
    + split; [| auto]. symmetry. apply (Hcoh _ _ Hc).
    + destruct (buscarLote (bd st) id) as [lote |] eqn:Hl; simpl; split; auto.
      intros _ id' r'. simpl. rewrite lookup_insert.
      destruct (decide (id = id')) as [<- | Hne].
      * intros [= <-]. unfold stockDeLote. rewrite Hl. reflexivity.
      * apply Hcoh.
Qed.

Lemma stocksDeLotes_cons b fechaHasta l ls :
  stocksDeLotes b fechaHasta (l :: ls) =
  match stockDeLote b fechaHasta (lote_id l) with
  | Some sl => if Qgtb (cantidadActual sl) 0 then [sl] else []
  | None => []
  end ++ stocksDeLotes b fechaHasta ls.
Proof.
  unfold stocksDeLotes. simpl. rewrite List.filter_app.
  destruct (stockDeLote b fechaHasta (lote_id l)) as [sl |]; simpl; [| reflexivity].
  destruct (Qgtb (cantidadActual sl) 0); reflexivity.
Qed.

Lemma acumularLotes_puro ls fechaHasta acc st :
  (fechaHasta = None -> cacheCoherente st) ->
  let r := acumularLotes ls fechaHasta acc st in
  lotesConStock (fst r) = lotesConStock acc ++ stocksDeLotes (bd st) fechaHasta ls
  /\ stockTotal (fst r)
     == stockTotal acc + cantidadTotal (stocksDeLotes (bd st) fechaHasta ls)
  /\ valorTotal (fst r)
     == valorTotal acc + valorTotalLotes (stocksDeLotes (bd st) fechaHasta ls).
Proof.
  revert acc st. induction ls as [| l ls IH]; intros acc st Hcoh; simpl.
  - unfold cantidadTotal, valorTotalLotes, stocksDeLotes. simpl.
    rewrite app_nil_r. repeat split; lra.
  - destruct (calcularStockLote_puro (lote_id l) fechaHasta st Hcoh) as [Hres Hcoh'].
    pose proof (calcularStockLote_bd (lote_id l) fechaHasta st) as Hbd.
    destruct (calcularStockLote (lote_id l) fechaHasta st) as [sl st1].
    simpl in Hres, Hcoh', Hbd. subst sl.
    rewrite stocksDeLotes_cons.
    match goal with
    | |- context [acumularLotes ls fechaHasta ?a st1] =>
        destruct (IH a st1 Hcoh') as (Hl & Hs & Hv)
    end.
    rewrite Hbd in Hl, Hs, Hv. rewrite Hl, Hs, Hv. clear Hl Hs Hv IH.
    unfold cantidadTotal, valorTotalLotes.
    destruct (stockDeLote (bd st) fechaHasta (lote_id l)) as [sl |]; simpl.
    + destruct (Qgtb (cantidadActual sl) 0); simpl.
      * rewrite <- app_assoc. repeat split; lra.
      * repeat split; lra.
    + repeat split; lra.
Qed.

Lemma calcularStockDesdeLotes_puro id fechaHasta st r st' :
  (fechaHasta = None -> cacheCoherente st) ->
  calcularStockDesdeLotes id fechaHasta st = (Some r, st') ->
  lotes r = lotesConSaldo (bd st) id fechaHasta
  /\ stockActual r
     == Qmax 0 (cantidadTotal (lotes r) - salidasSinLote (bd st) id fechaHasta)
  /\ costoPromedioActual r
     == (if Qgtb (stockActual r) 0
         then valorTotalLotes (lotes r) / stockActual r else 0).
Proof.
  intros Hcoh. unfold calcularStockDesdeLotes.
  destruct (buscarInventario (bd st) id) as [inventario |]; [| discriminate].
  pose proof (acumularLotes_puro (lotesDeInventario (bd st) id) fechaHasta
                {| lotesConStock := []; stockTotal := 0; valorTotal := 0 |}
                st Hcoh) as (Hl & Hs & Hv).
  pose proof (acumularLotes_bd (lotesDeInventario (bd st) id) fechaHasta
                {| lotesConStock := []; stockTotal := 0; valorTotal := 0 |} st) as Hbd.
  destruct (acumularLotes _ _ _ st) as [acc st1].
  simpl in Hl, Hs, Hv, Hbd. intros [= <- <-]. simpl.
  rewrite Hbd. fold (lotesConSaldo (bd st) id fechaHasta) in Hl, Hs, Hv.
  rewrite Hl. split; [reflexivity |].
  assert (Hstock : stockTotal acc == cantidadTotal (lotesConSaldo (bd st) id fechaHasta))
    by lra.
  assert (Hvalor : valorTotal acc == valorTotalLotes (lotesConSaldo (bd st) id fechaHasta))
    by lra.
  split.
  - destruct (Qmax_0_cases (stockTotal acc - salidasSinLote (bd st) id fechaHasta))
      as [[H1 H2] | [H1 H2]];
    destruct (Qmax_0_cases (cantidadTotal (lotesConSaldo (bd st) id fechaHasta)
                            - salidasSinLote (bd st) id fechaHasta))
      as [[H3 H4] | [H3 H4]]; rewrite H2, H4; lra.
  - destruct (Qgtb _ 0); [| reflexivity]. rewrite Hvalor. reflexivity.
Qed.

(** What the code computes. A query that is not served from the cache
    returns the lots of the position with a positive remaining quantity;
    its quantity is the total of these lots minus the exits recorded
    against lot id zero, floored at zero; its unit cost is the total value
    of these lots divided by the quantity it returns (zero when that
    quantity is zero). When no exit is recorded against lot id zero the
    unit cost is the total value over the total quantity. *)
Lemma calcularStockInventario_desde_lotes id fechaHasta st r st' :
  (fechaHasta = None ->
   cacheCoherente st /\ cacheInventarios (cache st) !! id = None) ->
  calcularStockInventario id fechaHasta st = (Some r, st') ->
  lotes r = lotesConSaldo (bd st) id fechaHasta
  /\ stockActual r
     == Qmax 0 (cantidadTotal (lotes r) - salidasSinLote (bd st) id fechaHasta)
  /\ costoPromedioActual r
     == (if Qgtb (stockActual r) 0
         then valorTotalLotes (lotes r) / stockActual r else 0)
  /\ (salidasSinLote (bd st) id fechaHasta == 0 ->
      costoPromedioActual r == promedioPonderado (lotes r)).
Proof.
  intros Hpre Hcall.
  assert (Hdesde : calcularStockDesdeLotes id fechaHasta st = (Some r, st')).
  { revert Hcall. unfold calcularStockInventario.
    destruct fechaHasta as [hasta |]; simpl; [auto |].
    destruct (Hpre eq_refl) as [_ ->]. auto. }
  assert (Hcoh : fechaHasta = None -> cacheCoherente st) by (intros H; apply Hpre, H).
  destruct (calcularStockDesdeLotes_puro id fechaHasta st r st' Hcoh Hdesde)
    as (Hl & Hs & Hc).
  repeat split; auto.
  intros Hcero. rewrite Hc. unfold promedioPonderado.
  assert (Hnn : 0 <= cantidadTotal (lotes r)).
  { rewrite Hl. unfold cantidadTotal, lotesConSaldo, stocksDeLotes.
    generalize (flat_map
       (fun l => match stockDeLote (bd st) fechaHasta (lote_id l) with
                 | Some sl => [sl]
                 | None => []
                 end) (lotesDeInventario (bd st) id)).
    intros l. induction l as [| x l IH]; simpl; [lra |].
    destruct (Qgtb (cantidadActual x) 0) eqn:Hx; simpl; [| exact IH].
    apply Qgtb_true in Hx. lra. }
  assert (Heq : stockActual r == cantidadTotal (lotes r)).
  { rewrite Hs.
    destruct (Qmax_0_cases (cantidadTotal (lotes r)
                            - salidasSinLote (bd st) id fechaHasta))
      as [[H1 H2] | [H1 H2]]; rewrite H2; lra. }
  destruct (Qgtb (stockActual r) 0) eqn:H1;
    destruct (Qgtb (cantidadTotal (lotes r)) 0) eqn:H2.
  - rewrite Heq. reflexivity.
  - apply Qgtb_true in H1. apply Qgtb_false in H2. lra.
  - apply Qgtb_false in H1. apply Qgtb_true in H2. lra.
  - reflexivity.
Qed.

(** C3 at its failing input. With 10 units at cost 5 in the lots and 4
    units of exits recorded against lot id zero, the quantity returned is
    6 and the unit cost returned is 50/6: the value of the lots divided by
    the quantity left after the adjustment. It is not the weighted average
    50/10 of the lots, which [costoPromedioActual] and the documentation of
    [calcularCostoPromedio] announce, and it is above the unit cost of
    every lot. *)
Theorem calcularStockInventario_costo_no_es_promedio :
  exists r,
    fst (calcularStockInventario 1 None estadoSalidaSinLote) = Some r
    /\ cantidadTotal (lotes r) == 10
    /\ valorTotalLotes (lotes r) == 50
    /\ stockActual r == 6
    /\ costoPromedioActual r == 50 / 6
    /\ ~ costoPromedioActual r == promedioPonderado (lotes r)
    /\ Forall (fun lote => costoUnitario lote < costoPromedioActual r) (lotes r).
Proof.
  eexists. split; [vm_compute; reflexivity |].
  repeat split; try (vm_compute; reflexivity).
  - vm_compute. discriminate.
  - repeat constructor.
Qed.

Lemma cacheVacia_coherente b : cacheCoherente {| bd := b; cache := cacheVacia |}.
Proof. intros id r. simpl. rewrite lookup_empty. discriminate. Qed.

Lemma calcularStockLote_no_negativo_witness :
  cacheSana (cache estadoSobregirado)
  /\ exists r st',
       calcularStockLote 1 None estadoSobregirado = (Some r, st')
       /\ cantidadSinPiso (bd estadoSobregirado) (loteEj 1 0 5 (dia 1)) None == -5
       /\ 0 <= cantidadActual r.
Proof.
  assert (Hsana : cacheSana (cache estadoSobregirado)).
  { intros id r. simpl. rewrite lookup_empty. discriminate. }
  split; [exact Hsana |].
  destruct (calcularStockLote 1 None estadoSobregirado) as [r st'] eqn:Hcall.
  destruct r as [r |]; [| vm_compute in Hcall; discriminate Hcall].
  exists r, st'. split; [reflexivity |]. split; [vm_compute; reflexivity |].
  apply (calcularStockLote_no_negativo 1 None estadoSobregirado r st' Hsana Hcall).
Defined.

(** ** The fallback to the stored initial quantity *)

Lemma filter_todo_falso {A} (f : A -> bool) l :
  (forall x, In x l -> f x = false) -> List.filter f l = [].
Proof.
  induction l as [| x l IH]; intros H; simpl; [reflexivity |].
  rewrite (H x (or_introl eq_refl)). apply IH. intros y Hy. apply H. right. exact Hy.
Qed.

Lemma flat_map_todo_nil {A B} (f : A -> list B) l :
  (forall x, In x l -> f x = []) -> List.flat_map f l = [].
Proof.
  induction l as [| x l IH]; intros H; simpl; [reflexivity |].
  rewrite (H x (or_introl eq_refl)). apply IH. intros y Hy. apply H. right. exact Hy.
Qed.

Lemma hastaFecha_Some h f : hastaFecha (Some h) f = true <-> (f <= h)%Z.
Proof. simpl. apply Z.leb_le. Qed.

Lemma sinMovimientos_detalles b id hasta tipo :
  sinMovimientosHasta b id hasta ->
  sumaDetallesLote b id tipo (Some hasta) = 0.
Proof.
  intros Hsin. unfold sumaDetallesLote. rewrite filter_todo_falso; [reflexivity |].
  intros d Hd. unfold movimientoCuenta.
  destruct (esProcesado (mov_estado (md_movimiento d))) eqn:Hp;
    [| simpl; apply andb_false_r].
  destruct (hastaFecha (Some hasta) (mov_fecha (md_movimiento d))) eqn:Hf;
    [| rewrite andb_false_r; apply andb_false_r].
  apply hastaFecha_Some in Hf. specialize (Hsin d Hd Hp Hf).
  unfold referenciaLote in Hsin. apply orb_false_iff in Hsin as [-> _]. reflexivity.
Qed.

Lemma sinMovimientos_salidas b id hasta :
  sinMovimientosHasta b id hasta ->
  sumaSalidasLote b id (Some hasta) = 0.
Proof.
  intros Hsin. unfold sumaSalidasLote. rewrite flat_map_todo_nil; [reflexivity |].
  intros d Hd. apply filter_In in Hd as [Hd Hcuenta].
  unfold movimientoCuenta in Hcuenta.
  apply andb_true_iff in Hcuenta as [Hcuenta Hf].
  apply andb_true_iff in Hcuenta as [Hp _].
  apply hastaFecha_Some in Hf. specialize (Hsin d Hd Hp Hf).
  unfold referenciaLote in Hsin. apply orb_false_iff in Hsin as [_ Hex].
  apply filter_todo_falso. intros ds Hds.
  destruct (ds_idLote ds =? id)%Z eqn:Heq; [| reflexivity].
  rewrite <- Hex. symmetry. apply existsb_exists. exists ds. auto.
Qed.

Lemma buscarLote_id b id lote : buscarLote b id = Some lote -> lote_id lote = id.
Proof.
  unfold buscarLote. intros H. apply find_some in H as [_ H].
  apply Z.eqb_eq, H.
Qed.

(** C5, as the code has it. With a cutoff date, for a lot found in the
    store: when no processed movement dated on or before the cutoff
    references the lot, the quantity returned is the stored initial
    quantity if the lot entered (day of its initial-balance movement when
    there is one, day of its ingress date otherwise) on or before the day
    of the cutoff, and zero if it entered later; and when the total of
    entries, of exits or of adjustments up to the cutoff is positive, the
    quantity returned is the replayed total floored at zero, without any
    use of the stored initial quantity. *)
Theorem calcularStockLote_respaldo id hasta st lote :
  buscarLote (bd st) id = Some lote ->
  0 <= lote_cantidadInicial lote ->
  exists r,
    fst (calcularStockLote id (Some hasta) st) = Some r
    /\ (sinMovimientosHasta (bd st) id hasta ->
        cantidadActual r
        == (if diaNoPosterior (fechaDeEntrada (bd st) lote) hasta
            then lote_cantidadInicial lote else 0))
    /\ (let entradas := sumaDetallesLote (bd st) id ENTRADA (Some hasta) in
        let salidas := sumaSalidasLote (bd st) id (Some hasta) in
        let ajustes := sumaDetallesLote (bd st) id AJUSTE (Some hasta) in
        tieneMovimientos entradas salidas ajustes = true ->
        cantidadActual r = Qmax 0 (entradas - salidas + ajustes)).
Proof.
  intros Hlote Hinicial. pose proof (buscarLote_id _ _ _ Hlote) as Hid.
  unfold calcularStockLote. simpl. rewrite Hlote. simpl.
  eexists. split; [reflexivity |]. simpl. unfold cantidadSinPiso. rewrite Hid.
  split.
  - intros Hsin.
    rewrite !sinMovimientos_detalles, sinMovimientos_salidas by exact Hsin.
    change (tieneMovimientos 0 0 0) with false. cbv iota.
    unfold diaNoPosterior, fechaDeEntrada. rewrite Hid.
    destruct (buscarInvInit (bd st) id) as [invInit |].
    + destruct (_ <=? _)%Z; [apply Q.max_r; exact Hinicial | reflexivity].
    + destruct (_ <=? _)%Z; [apply Q.max_r; exact Hinicial | reflexivity].
  - cbv zeta. intros Htiene. rewrite Htiene. reflexivity.
Qed.

Lemma calcularStockLote_respaldo_witness :
  buscarLote (bd estadoSemilla) 1 = Some (loteEj 1 10 5 (dia 5))
  /\ 0 <= lote_cantidadInicial (loteEj 1 10 5 (dia 5))
  /\ exists r,
       fst (calcularStockLote 1 (Some dia5ALas9) estadoSemilla) = Some r
       /\ (sinMovimientosHasta (bd estadoSemilla) 1 dia5ALas9 ->
           cantidadActual r
           == (if diaNoPosterior
                    (fechaDeEntrada (bd estadoSemilla) (loteEj 1 10 5 (dia 5)))
                    dia5ALas9
               then lote_cantidadInicial (loteEj 1 10 5 (dia 5)) else 0)).
Proof.
  assert (H1 : buscarLote (bd estadoSemilla) 1 = Some (loteEj 1 10 5 (dia 5)))
    by reflexivity.
  assert (H2 : 0 <= lote_cantidadInicial (loteEj 1 10 5 (dia 5)))
    by (simpl; lra).
  split; [exact H1 |]. split; [exact H2 |].
  destruct (calcularStockLote_respaldo 1 dia5ALas9 estadoSemilla
              (loteEj 1 10 5 (dia 5)) H1 H2) as (r & Hr & Hsin & _).
  exists r. split; assumption.
Defined.

(** C5, as the specification has it, fails: the seeded lot is referenced
    by its initial-balance movement, dated at ten o'clock of day 5; for a
    cutoff at nine o'clock of the same day no total is positive, and the
    quantity returned is the stored initial quantity of 10 units. *)
Lemma respaldo_con_movimiento_que_refiere_al_lote :
  tieneMovimientos
    (sumaDetallesLote (bd estadoSemilla) 1 ENTRADA (Some dia5ALas9))
    (sumaSalidasLote (bd estadoSemilla) 1 (Some dia5ALas9))
    (sumaDetallesLote (bd estadoSemilla) 1 AJUSTE (Some dia5ALas9))
  = false
  /\ (exists r,
        fst (calcularStockLote 1 (Some dia5ALas9) estadoSemilla) = Some r
        /\ cantidadActual r == lote_cantidadInicial (loteEj 1 10 5 (dia 5)))
  /\ (exists d,
        In d (bd_detalles (bd estadoSemilla))
        /\ esProcesado (mov_estado (md_movimiento d)) = true
        /\ referenciaLote 1 d = true).
Proof.
  split; [vm_compute; reflexivity |]. split.
  - eexists. split; [vm_compute; reflexivity |]. vm_compute. reflexivity.
  - eexists. split; [left; reflexivity |]. split; reflexivity.
Qed.

(** A processed adjustment of -3 units dated before the cutoff references
    the lot, yet no total is positive and the quantity returned is the
    stored initial quantity of 10 units: the adjustment is not counted. *)
Example respaldo_con_ajuste_negativo :
  (exists d,
     In d (bd_detalles (bd estadoAjusteNegativo))
     /\ esProcesado (mov_estado (md_movimiento d)) = true
     /\ (mov_fecha (md_movimiento d) <= dia 3)%Z
     /\ referenciaLote 1 d = true)
  /\ exists r,
       fst (calcularStockLote 1 (Some (dia 3)) estadoAjusteNegativo) = Some r
       /\ cantidadActual r == 10.
Proof.
  split.
  - eexists. split; [left; reflexivity |].
    repeat split; try reflexivity. vm_compute. discriminate.
  - eexists. split; [vm_compute; reflexivity |]. vm_compute. reflexivity.
Qed.

(** ** Sorting sorts *)

Section OrdenarOrdena.
Context {A : Type} (cmp : A -> A -> Z) (R : A -> A -> Prop).
Hypothesis cmp_R : forall a b, (cmp a b <= 0)%Z -> R a b.
Hypothesis cmp_total : forall a b, ~ (cmp a b <= 0)%Z -> R b a.
Hypothesis R_trans : forall a b c, R a b -> R b c -> R a c.

Lemma insertar_ordenada x l :
  StronglySorted R l -> StronglySorted R (insertar cmp x l).
Proof.
  induction 1 as [| y l Hl IH Hy]; simpl.
  - constructor; constructor.
  - destruct (cmp x y <=? 0)%Z eqn:Hc.
    + apply Z.leb_le in Hc. constructor.
      * constructor; assumption.
      * constructor; [apply cmp_R, Hc |].
        eapply List.Forall_impl; [| exact Hy]. simpl. intros z Hz.
        eapply R_trans; [apply cmp_R, Hc | exact Hz].
    + apply Z.leb_gt in Hc. constructor; [exact IH |].
      apply insertar_Forall; [| exact Hy]. apply cmp_total. lia.
Qed.

Lemma ordenar_ordenada l : StronglySorted R (ordenar cmp l).
Proof.
  induction l as [| x l IH]; simpl; [constructor | apply insertar_ordenada, IH].
Qed.
End OrdenarOrdena.

Lemma compararFechaLuegoId_le f1 i1 f2 i2 :
  (compararFechaLuegoId f1 i1 f2 i2 <= 0)%Z
  <-> ((f1 < f2)%Z \/ (f1 = f2 /\ (i1 <= i2)%Z)).
Proof.
  unfold compararFechaLuegoId.
  destruct (f1 - f2 =? 0)%Z eqn:H; simpl.
  - apply Z.eqb_eq in H. lia.
  - apply Z.eqb_neq in H. lia.
Qed.


(** The list of available lots is ascending by ingress date. *)
Lemma obtenerLotesDisponiblesFIFO_por_fecha id fechaHasta st :
  StronglySorted noDespuesPorFecha
    (fst (obtenerLotesDisponiblesFIFO id fechaHasta st)).
Proof.
  unfold obtenerLotesDisponiblesFIFO.
  destruct (calcularStockInventario id fechaHasta st) as [[r |] st1]; simpl;
    [| constructor].
  apply ordenar_ordenada; unfold noDespuesPorFecha.
  - intros a b H. lia.
  - intros a b H. lia.
  - intros a b c H1 H2. lia.
Qed.

(** ** Lots that entered on the same date *)

(** C2 at its failing input. The two lots entered on the same date and the
    store scans lot 2 first: [obtenerLotesDisponiblesFIFO] lists lot 2
    before lot 1 and [calcularConsumoFIFO] draws 5 units from lot 2, while
    the working set of the Kardex, loaded from the same list, is walked by
    [calcularCostoFIFO] with lot 1 first. *)
Theorem obtenerLotesDisponiblesFIFO_empate_sin_desempate :
  List.map ld_idLote (fst (obtenerLotesDisponiblesFIFO 1 (Some (dia 2)) estadoEmpate))
  = [2%Z; 1%Z]
  /\ List.map ld_fechaIngreso
       (fst (obtenerLotesDisponiblesFIFO 1 (Some (dia 2)) estadoEmpate))
     = [dia 1; dia 1]
  /\ (exists consumo,
        fst (calcularConsumoFIFO 1 5 (Some (dia 2)) estadoEmpate) = Exito consumo
        /\ List.map cl_idLote consumo = [2%Z])
  /\ List.map ld_idLote
       (lotesTemporalesOrdenados
          (fst (inicializarLotesTemporales 1 (dia 3) estadoEmpate)))
     = [1%Z; 2%Z].
Proof.
  split; [vm_compute; reflexivity |]. split; [vm_compute; reflexivity |]. split.
  - eexists. split; vm_compute; reflexivity.
  - vm_compute. reflexivity.
Qed.

(** ** The running balance of the Kardex *)

Lemma saldoFinal_cons antes fila filas :
  saldoFinal antes (fila :: filas) = saldoFinal (saldoDeFila fila) filas.
Proof.
  unfold saldoFinal. rewrite last_cons. destruct (last filas); reflexivity.
Qed.

Lemma saldoContinuo_app antes l1 l2 :
  saldoContinuo antes (l1 ++ l2)
  <-> saldoContinuo antes l1 /\ saldoContinuo (saldoFinal antes l1) l2.
Proof.
  revert antes. induction l1 as [| fila l1 IH]; intros antes.
  - simpl. unfold saldoFinal. simpl. tauto.
  - rewrite saldoFinal_cons. simpl. rewrite IH. tauto.
Qed.

Lemma procesarEntrada_continua b mov antes :
  esMovimientoEntrada (mov_tipo (md_movimiento mov))
    (mov_tipoOperacion (md_movimiento mov)) = true ->
  filaContinua antes (procesarEntrada b mov antes).
Proof.
  intros He. unfold filaContinua, procesarEntrada. simpl. rewrite He.
  repeat split.
Qed.

Lemma filaSalida_continua mov antes cantidad costo costoTotal detalles :
  esMovimientoEntrada (mov_tipo (md_movimiento mov))
    (mov_tipoOperacion (md_movimiento mov)) = false ->
  filaContinua antes
    (filaSalida mov cantidad costo costoTotal
       (saldoTrasSalida antes cantidad costoTotal) detalles).
Proof.
  intros He. unfold filaContinua, filaSalida, saldoTrasSalida. simpl. rewrite He.
  repeat split.
Qed.

Lemma movimientosPorLote_continuo mov detalles antes :
  esMovimientoEntrada (mov_tipo (md_movimiento mov))
    (mov_tipoOperacion (md_movimiento mov)) = false ->
  saldoContinuo antes (movimientosPorLote mov detalles antes).
Proof.
  intros He. revert antes.
  induction detalles as [| detalle resto IH]; intros antes; simpl; [exact I |].
  split; [apply filaSalida_continua, He | apply IH].
Qed.

Lemma replicarMovimientos_continuo b movimientos metodo antes m :
  saldoContinuo antes (replicarMovimientos b movimientos metodo antes m).
Proof.
  revert antes m.
  induction movimientos as [| mov resto IH]; intros antes m; simpl; [exact I |].
  destruct (esMovimientoEntrada _ _) eqn:He.
  - simpl. split; [apply procesarEntrada_continua, He | apply IH].
  - destruct metodo; simpl.
    + split; [apply filaSalida_continua, He | apply IH].
    + destruct (calcularCostoFIFO m (md_cantidad mov)) as [resultadoFIFO m'].
      apply saldoContinuo_app. split.
      * apply movimientosPorLote_continuo, He.
      * apply IH.
Qed.

(** C6. In every generated Kardex, under PROMEDIO and under FIFO, each
    line is computed from the balance left by the line before it, and the
    first line from the opening balance: the balance before a line is the
    balance after the previous one, in quantity and in value. *)
Theorem generarKardex_saldo_continuo id fechaDesde fechaHasta metodo st k st' :
  generarKardex id fechaDesde fechaHasta metodo st = (Some k, st') ->
  saldoContinuo (kr_saldoInicial k) (kr_movimientos k).
Proof.
  unfold generarKardex.
  destruct (buscarInventario (bd st) id) as [inventario |]; [| discriminate].
  destruct (calcularSaldoInicial id fechaDesde st) as [saldoInicial st1].
  unfold procesarMovimientos.
  destruct (match metodo with
            | PROMEDIO => ([], st1)
            | FIFO => inicializarLotesTemporales id fechaDesde st1
            end) as [m st2].
  intros [= <- <-]. simpl. apply replicarMovimientos_continuo.
Qed.

Lemma generarKardex_saldo_continuo_witness :
  exists k st',
    generarKardex 1 (dia 1) (dia 20) FIFO estadoVenta = (Some k, st')
    /\ List.map km_cantidad (kr_movimientos k) = [10; 10; 10; 5]
    /\ saldoContinuo (kr_saldoInicial k) (kr_movimientos k).
Proof.
  destruct (generarKardex 1 (dia 1) (dia 20) FIFO estadoVenta) as [k st'] eqn:Hk.
  destruct k as [k |]; [| vm_compute in Hk; discriminate Hk].
  exists k, st'. split; [reflexivity |]. split.
  - vm_compute in Hk. injection Hk as <- _. reflexivity.
  - exact (generarKardex_saldo_continuo 1 (dia 1) (dia 20) FIFO estadoVenta k st' Hk).
Defined.

(** ** FIFO exits in the Kardex *)

Lemma lotesTemporalesOrdenados_del_mapa m :
  Forall (fun lote => esEntradaDelMapa m lote /\ 0 < ld_cantidadDisponible lote)
    (lotesTemporalesOrdenados m).
Proof.
  unfold lotesTemporalesOrdenados. apply ordenar_Forall.
  apply List.Forall_forall. intros lote Hl.
  apply in_map_iff in Hl as ([k lt] & <- & Hin).
  apply filter_In in Hin as [Hin Hpos]. simpl in *. split.
  - exists lt. simpl. auto.
  - apply Qgtb_true, Hpos.
Qed.

(** The loop of [calcularCostoFIFO] appends one allocation for each lot of
    an initial segment of the lots it walks, and draws it from the set. *)
Lemma consumirTemporales_por_lote l m detalles q costo :
  Forall (fun x => 0 < ld_cantidadDisponible x) l ->
  exists n nuevos,
    fst (fst (consumirTemporales l m detalles q costo)) = detalles ++ nuevos
    /\ Forall2 detalleDeLote (firstn n l) nuevos
    /\ snd (consumirTemporales l m detalles q costo)
       = descontarLotes m (firstn n l) (List.map dsc_cantidad nuevos).
Proof.
  intros Hl. revert m detalles q costo.
  induction Hl as [| x l Hx Hl IH]; intros m detalles q costo; simpl.
  - exists 0%nat, []. rewrite app_nil_r. repeat split. constructor.
  - destruct (Qleb q 0) eqn:Hq.
    + exists 0%nat, []. rewrite app_nil_r. repeat split. constructor.
    + apply Qleb_false in Hq.
      match goal with
      | |- context [consumirTemporales l ?m1 (detalles ++ [?d]) ?q1 ?c1] =>
          destruct (IH m1 (detalles ++ [d]) q1 c1) as (n & nuevos & Hd & Hf & Hm);
          exists (S n), (d :: nuevos)
      end.
      rewrite Hd, Hm, <- app_assoc. simpl. repeat split.
      constructor; [| exact Hf].
      unfold detalleDeLote. simpl.
      destruct (Qmin_cases q (ld_cantidadDisponible x)) as [[H1 H2] | [H1 H2]];
        repeat split; try rewrite H2; lra.
Qed.


(** The scenario of the specification: the sale of 15 units is reported as
    10 units of lot 1 at cost 5 and then 5 units of lot 2 at cost 8. *)
Example salida_FIFO_escenario :
  List.map (fun fila => (List.map dsc_idLote (km_detallesSalida fila),
                         km_cantidad fila, km_costoUnitario fila, km_cantidadSaldo fila))
    (replicarMovimientos (bd estadoVenta) [ventaEj] FIFO
       {| s_cantidad := 20; s_costoUnitario := 6.5; s_valorTotal := 130 |} mapaEj)
  = [([1%Z], 10, 5, 10); ([2%Z], 5, 8, 5)].
Proof. vm_compute. reflexivity. Qed.

(** ** Lines of a voucher that is not a purchase *)

Lemma calcularCostoUnitarioVenta_estado id q metodo fecha st :
  snd (calcularCostoUnitarioVenta id q metodo fecha st)
  = snd (calcularStockInventario id fecha st).
Proof.
  destruct metodo; simpl.
  - unfold elevar, calcularCostoPromedio.
    destruct (calcularStockInventario id fecha st) as [[r |] st1]; reflexivity.
  - unfold ligar. rewrite calcularConsumoFIFO_eq.
    unfold obtenerLotesDisponiblesFIFO.
    destruct (calcularStockInventario id fecha st) as [[r |] st1]; simpl.
    + match goal with
      | |- context [consumirLotes ?l [] q] =>
          destruct (consumirLotes l [] q) as [consumo restante]
      end.
      destruct (Qgtb restante 0); reflexivity.
    + destruct (Qgtb q 0); reflexivity.
Qed.

Lemma procesarDetalles_cons_venta ahora detalle resto op metodo fecha costos
    usados idInv st :
  String.eqb op "COMPRA" = false ->
  cd_inventario detalle = Some idInv ->
  procesarDetalles ahora (detalle :: resto) op metodo fecha costos usados st
  = match calcularCostoUnitarioVenta idInv (cd_cantidad detalle) metodo fecha st with
    | (Exito costo, st1) =>
        match calcularConsumoFIFO idInv (cd_cantidad detalle) fecha st1 with
        | (Exito consumo, st2) =>
            procesarDetalles ahora resto op metodo fecha (costos ++ [costo])
              (usados ++ List.map loteUsadoDeConsumo consumo)
              (conCache st2 (invalidateInventario (cache st2) idInv))
        | (Fallo e, st2) => (Fallo e, st2)
        end
    | (Fallo e, st1) => (Fallo e, st1)
    end.
Proof.
  intros Hop Hinv. simpl. rewrite Hop, Hinv. unfold ligar.
  destruct (calcularCostoUnitarioVenta idInv (cd_cantidad detalle) metodo fecha st)
    as [[costo | e] st1]; [| reflexivity].
  destruct (calcularConsumoFIFO idInv (cd_cantidad detalle) fecha st1)
    as [[consumo | e] st2]; reflexivity.
Qed.

Lemma procesarDetalles_sin_inventario ahora detalle resto op metodo fecha costos
    usados st :
  String.eqb op "COMPRA" = false ->
  cd_inventario detalle = None ->
  fallo (fst (procesarDetalles ahora (detalle :: resto) op metodo fecha costos
                usados st)).
Proof.
  intros Hop Hinv. simpl. rewrite Hop, Hinv. exact I.
Qed.

Lemma procesarDetalles_venta ahora detalles op metodo fecha costos usados st res st' :
  String.eqb op "COMPRA" = false ->
  procesarDetalles ahora detalles op metodo fecha costos usados st = (Exito res, st') ->
  exists costos' usados',
    lp_costoUnitario res = costos ++ costos'
    /\ lp_lotes res = usados ++ usados'
    /\ lineasVenta metodo fecha st detalles costos' usados' st'.
Proof.
  intros Hop. revert costos usados st.
  induction detalles as [| detalle resto IH]; intros costos usados st.
  - simpl. unfold retornar. intros [= <- <-]. exists [], []. simpl.
    rewrite !app_nil_r. repeat split. constructor.
  - destruct (cd_inventario detalle) as [idInv |] eqn:Hinv.
    + rewrite (procesarDetalles_cons_venta _ _ _ _ _ _ _ _ _ _ Hop Hinv).
      destruct (calcularCostoUnitarioVenta idInv (cd_cantidad detalle) metodo fecha st)
        as [[costo | e] st1] eqn:Hcosto; [| discriminate].
      destruct (calcularConsumoFIFO idInv (cd_cantidad detalle) fecha st1)
        as [[consumo | e] st2] eqn:Hconsumo; [| discriminate].
      intros Hresto.
      apply IH in Hresto as (costos' & usados' & Hc & Hu & Hlineas).
      exists (costo :: costos'), (List.map loteUsadoDeConsumo consumo ++ usados').
      rewrite Hc, Hu, <- !app_assoc. repeat split.
      econstructor; eauto.
    + intros H.
      pose proof (procesarDetalles_sin_inventario ahora detalle resto op metodo
                    fecha costos usados st Hop Hinv) as Hf.
      rewrite H in Hf. destruct Hf.
Qed.


(** The scenarios of the specification: the sale of 15 units costs 6.5 per
    unit under PROMEDIO and 6 under FIFO, and under both it takes 10 units
    of lot 1 and 5 units of lot 2; a sale of 25 units throws. *)
Example procesarLotesComprobante_escenarios :
  (exists res,
     fst (procesarLotesComprobante (dia 15) [lineaVentaEj] "VENTA" PROMEDIO
            (Some (dia 15)) estadoDosLotes) = Exito res
     /\ Forall2 Qeq (lp_costoUnitario res) [6.5]
     /\ lp_lotes res
        = [{| lu_idLote := 1; lu_costoUnitarioDeLote := 5; lu_cantidad := 10 |};
           {| lu_idLote := 2; lu_costoUnitarioDeLote := 8; lu_cantidad := 5 |}])
  /\ (exists res,
        fst (procesarLotesComprobante (dia 15) [lineaVentaEj] "VENTA" FIFO
               (Some (dia 15)) estadoDosLotes) = Exito res
        /\ Forall2 Qeq (lp_costoUnitario res) [6]
        /\ lp_lotes res
           = [{| lu_idLote := 1; lu_costoUnitarioDeLote := 5; lu_cantidad := 10 |};
              {| lu_idLote := 2; lu_costoUnitarioDeLote := 8; lu_cantidad := 5 |}])
  /\ fst (procesarLotesComprobante (dia 15)
            [{| cd_inventario := Some 1%Z; cd_cantidad := 25; cd_precioUnitario := 9 |}]
            "VENTA" PROMEDIO (Some (dia 15)) estadoDosLotes)
     = Fallo mensajeStockInsuficiente.
Proof.
  split; [| split].
  - eexists. split; [vm_compute; reflexivity |].
    split; [| reflexivity]. constructor; [vm_compute; reflexivity | constructor].
  - eexists. split; [vm_compute; reflexivity |].
    split; [| reflexivity]. constructor; [vm_compute; reflexivity | constructor].
  - vm_compute. reflexivity.
Qed.

(** ** Seeding a position and reading its Kardex *)

Lemma inicioDelDia_anterior f :
  (inicioDelDia (finDelDiaAnterior f) < inicioDelDia f)%Z.
Proof.
  unfold finDelDiaAnterior, inicioDelDia, msPorDia.
  assert (H : ((f / 86400000 * 86400000 - 1) / 86400000 = f / 86400000 - 1)%Z).
  { symmetry. apply (Z.div_unique _ _ _ 86399999). { left. lia. } lia. }
  rewrite H. lia.
Qed.

Lemma finDelDiaAnterior_antes f : (finDelDiaAnterior f < f)%Z.
Proof.
  unfold finDelDiaAnterior, inicioDelDia, msPorDia.
  pose proof (Z.mul_div_le f 86400000). lia.
Qed.

Lemma conCache_mismo st : conCache st (cache st) = st.
Proof. destruct st. reflexivity. Qed.

(** A query with a cutoff date leaves the state as it was. *)
Lemma calcularStockLote_con_fecha id hasta st :
  calcularStockLote id (Some hasta) st = (stockDeLote (bd st) (Some hasta) id, st).
Proof.
  unfold calcularStockLote, stockDeLote. simpl.
  destruct (buscarLote (bd st) id); simpl; [| reflexivity].
  rewrite conCache_mismo. reflexivity.
Qed.

Lemma acumularLotes_con_fecha ls hasta acc st :
  snd (acumularLotes ls (Some hasta) acc st) = st.
Proof.
  revert acc st. induction ls as [| l ls IH]; intros acc st; simpl; [reflexivity |].
  rewrite calcularStockLote_con_fecha. apply IH.
Qed.

Lemma calcularStockInventario_con_fecha id hasta st :
  snd (calcularStockInventario id (Some hasta) st) = st.
Proof.
  unfold calcularStockInventario, calcularStockDesdeLotes. simpl.
  destruct (buscarInventario (bd st) id); [| reflexivity].
  pose proof (acumularLotes_con_fecha (lotesDeInventario (bd st) id) hasta
                {| lotesConStock := []; stockTotal := 0; valorTotal := 0 |} st) as H.
  destruct (acumularLotes _ _ _ st) as [acc st1]. simpl in H. subst st1.
  simpl. apply conCache_mismo.
Qed.

Lemma calcularStockInventario_encuentra id fechaHasta st inventario :
  buscarInventario (bd st) id = Some inventario ->
  exists r, fst (calcularStockInventario id fechaHasta st) = Some r.
Proof.
  intros Hinv. unfold calcularStockInventario, calcularStockDesdeLotes.
  destruct (getInventarioStock (cache st) id fechaHasta), fechaHasta;
    rewrite Hinv; try (eexists; reflexivity);
    destruct (acumularLotes _ _ _ st); eexists; reflexivity.
Qed.

(** The position seeded and nothing else: what the Kardex needs to know
    about the store. *)
Record SoloSemilla (b : BaseDatos) (inventario : Inventario)
    (lote : InventarioLote) (detalle : MovimientoDetalle) (f : Fecha) : Prop := {
  ss_inventario : buscarInventario b (inv_id inventario) = Some inventario;
  ss_lotes : lotesDeInventario b (inv_id inventario) = [lote];
  ss_lote : buscarLote b (lote_id lote) = Some lote;
  ss_lote_no_cero : lote_id lote <> 0%Z;
  ss_sin_movimientos :
    sinMovimientosHasta b (lote_id lote) (finDelDiaAnterior f);
  ss_inv_init : buscarInvInit b (lote_id lote) = Some detalle;
  ss_fecha : mov_fecha (md_movimiento detalle) = f;
  ss_sin_salidas :
    salidasSinLote b (inv_id inventario) (Some (finDelDiaAnterior f)) = 0;
  ss_movimientos :
    obtenerMovimientosInventario b (inv_id inventario) f f = [detalle];
  ss_detalle_lote : md_idLote detalle = Some (lote_id lote);
  ss_entrada :
    esMovimientoEntrada (mov_tipo (md_movimiento detalle))
      (mov_tipoOperacion (md_movimiento detalle)) = true
}.

Lemma semilla_sin_stock_antes b inventario lote detalle f :
  SoloSemilla b inventario lote detalle f ->
  lotesConSaldo b (inv_id inventario) (Some (finDelDiaAnterior f)) = [].
Proof.
  intros H. unfold lotesConSaldo. rewrite (ss_lotes _ _ _ _ _ H).
  unfold stocksDeLotes, stockDeLote. simpl. rewrite (ss_lote _ _ _ _ _ H). simpl.
  unfold cantidadSinPiso.
  rewrite !sinMovimientos_detalles, sinMovimientos_salidas
    by apply (ss_sin_movimientos _ _ _ _ _ H).
  change (tieneMovimientos 0 0 0) with false. cbv iota.
  rewrite (ss_inv_init _ _ _ _ _ H), (ss_fecha _ _ _ _ _ H).
  pose proof (inicioDelDia_anterior f) as Hdia.
  destruct (inicioDelDia f <=? inicioDelDia (finDelDiaAnterior f))%Z eqn:Hle.
  - apply Z.leb_le in Hle. lia.
  - reflexivity.
Qed.

Lemma semilla_stock_antes st inventario lote detalle f r :
  SoloSemilla (bd st) inventario lote detalle f ->
  fst (calcularStockInventario (inv_id inventario) (Some (finDelDiaAnterior f)) st)
  = Some r ->
  lotes r = [] /\ stockActual r <= 0.
Proof.
  intros H Hr.
  pose proof (calcularStockInventario_con_fecha (inv_id inventario)
                (finDelDiaAnterior f) st) as Hst.
  destruct (calcularStockInventario (inv_id inventario)
              (Some (finDelDiaAnterior f)) st) as [r' st'] eqn:Hcall.
  simpl in Hr, Hst. subst r' st'.
  assert (Hpre : Some (finDelDiaAnterior f) = None -> cacheCoherente st)
    by discriminate.
  unfold calcularStockInventario in Hcall. simpl in Hcall.
  destruct (calcularStockDesdeLotes_puro _ _ _ _ _ Hpre Hcall) as (Hl & Hs & _).
  rewrite (semilla_sin_stock_antes _ _ _ _ _ H) in Hl.
  rewrite Hl in Hs. rewrite (ss_sin_salidas _ _ _ _ _ H) in Hs.
  split; [exact Hl |]. rewrite Hs. vm_compute. discriminate.
Qed.

Lemma semilla_saldo_inicial st inventario lote detalle f :
  SoloSemilla (bd st) inventario lote detalle f ->
  calcularSaldoInicial (inv_id inventario) f st = (saldoCero, st).
Proof.
  intros H. unfold calcularSaldoInicial.
  pose proof (calcularStockInventario_con_fecha (inv_id inventario)
                (finDelDiaAnterior f) st) as Hst.
  pose proof (semilla_stock_antes st inventario lote detalle f) as Hr.
  destruct (calcularStockInventario (inv_id inventario)
              (Some (finDelDiaAnterior f)) st) as [[r |] st'].
  - simpl in Hst. subst st'. destruct (Hr r H eq_refl) as [_ Hle].
    apply Qleb_true in Hle. rewrite Hle. reflexivity.
  - simpl in Hst. subst st'. reflexivity.
Qed.

Lemma semilla_lotes_temporales st inventario lote detalle f :
  SoloSemilla (bd st) inventario lote detalle f ->
  inicializarLotesTemporales (inv_id inventario) f st = ([], st).
Proof.
  intros H. unfold inicializarLotesTemporales, obtenerLotesDisponiblesFIFO.
  pose proof (calcularStockInventario_con_fecha (inv_id inventario)
                (finDelDiaAnterior f) st) as Hst.
  pose proof (semilla_stock_antes st inventario lote detalle f) as Hr.
  destruct (calcularStockInventario (inv_id inventario)
              (Some (finDelDiaAnterior f)) st) as [[r |] st'].
  - simpl in Hst. subst st'. destruct (Hr r H eq_refl) as [Hl _].
    rewrite Hl. reflexivity.
  - simpl in Hst. subst st'. reflexivity.
Qed.

(** The Kardex of a position that holds only its seed, read for the day of
    the seeding: no opening balance and the seeding entry as only line. *)
Lemma generarKardex_de_semilla st inventario lote detalle f metodo :
  SoloSemilla (bd st) inventario lote detalle f ->
  exists k,
    generarKardex (inv_id inventario) f f metodo st = (Some k, st)
    /\ kr_saldoInicial k = saldoCero
    /\ kr_movimientos k = [procesarEntrada (bd st) detalle saldoCero].
Proof.
  intros H. unfold generarKardex.
  rewrite (ss_inventario _ _ _ _ _ H), (ss_movimientos _ _ _ _ _ H).
  rewrite (semilla_saldo_inicial _ _ _ _ _ H).
  unfold procesarMovimientos.
  assert (Hm : (match metodo with
                | PROMEDIO => ([], st)
                | FIFO => inicializarLotesTemporales (inv_id inventario) f st
                end) = ([], st)).
  { destruct metodo; [reflexivity | apply (semilla_lotes_temporales _ _ _ _ _ H)]. }
  rewrite Hm. simpl. rewrite (ss_entrada _ _ _ _ _ H).
  eexists. split; [reflexivity |]. split; reflexivity.
Qed.

Lemma nuevoId_mayor ids x : In x ids -> (x < nuevoId ids)%Z.
Proof.
  unfold nuevoId. induction ids as [| y ids IH]; simpl; [intros [] |].
  intros [-> | H]; [lia |]. specialize (IH H). lia.
Qed.

Lemma nuevoId_positivo ids : (0 < nuevoId ids)%Z.
Proof.
  unfold nuevoId. induction ids as [| y ids IH]; simpl; lia.
Qed.

Lemma find_al_final {A} (f : A -> bool) l y :
  (forall x, In x l -> f x = false) -> f y = true ->
  List.find f (l ++ [y]) = Some y.
Proof.
  intros Hl Hy. induction l as [| x l IH]; simpl.
  - rewrite Hy. reflexivity.
  - rewrite (Hl x (or_introl eq_refl)). apply IH.
    intros z Hz. apply Hl. right. exact Hz.
Qed.

Lemma filter_al_final {A} (f : A -> bool) l y :
  (forall x, In x l -> f x = false) ->
  List.filter f (l ++ [y]) = if f y then [y] else [].
Proof.
  intros Hl. rewrite List.filter_app, (filter_todo_falso f l Hl). reflexivity.
Qed.

Lemma soloSemilla_tras_guardar b inventario lote detalle f :
  integridadReferencial b ->
  inv_id inventario = nuevoId (List.map inv_id (bd_inventarios b)) ->
  lote_id lote = nuevoId (List.map lote_id (bd_lotes b)) ->
  lote_idInventario lote = inv_id inventario ->
  md_idInventario detalle = inv_id inventario ->
  md_idLote detalle = Some (lote_id lote) ->
  md_movimiento detalle
  = {| mov_id := mov_id (md_movimiento detalle); mov_tipo := ENTRADA;
       mov_fecha := f; mov_numeroDocumento := Some "INV-INIT"%string;
       mov_estado := PROCESADO; mov_tipoOperacion := None |} ->
  SoloSemilla
    (guardarDetalle (guardarLote (guardarInventario b inventario) lote) detalle)
    inventario lote detalle f.
Proof.
  intros [Hlotes Hdetalles] Hinv Hlote HloteInv HdetInv HdetLote Hmov.
  rewrite List.Forall_forall in Hlotes, Hdetalles.
  assert (HinvViejo : forall i, In i (bd_inventarios b) ->
                                (inv_id i =? inv_id inventario)%Z = false).
  { intros i Hi. apply Z.eqb_neq. rewrite Hinv.
    pose proof (nuevoId_mayor _ _ (in_map inv_id _ _ Hi)). lia. }
  assert (HloteViejo : forall l, In l (bd_lotes b) ->
                                 (lote_id l =? lote_id lote)%Z = false
                                 /\ (lote_idInventario l =? inv_id inventario)%Z = false).
  { intros l Hl. split; apply Z.eqb_neq.
    - rewrite Hlote. pose proof (nuevoId_mayor _ _ (in_map lote_id _ _ Hl)). lia.
    - rewrite Hinv. pose proof (nuevoId_mayor _ _ (Hlotes l Hl)). lia. }
  assert (HdetViejo : forall d, In d (bd_detalles b) ->
                                (md_idInventario d =? inv_id inventario)%Z = false
                                /\ referenciaLote (lote_id lote) d = false).
  { intros d Hd. destruct (Hdetalles d Hd) as (H1 & H2 & H3). split.
    - apply Z.eqb_neq. rewrite Hinv. pose proof (nuevoId_mayor _ _ H1). lia.
    - unfold referenciaLote, esDelLote. apply orb_false_iff. split.
      + destruct (md_idLote d) as [l |] eqn:Hl; [| reflexivity].
        apply Z.eqb_neq. rewrite Hlote.
        pose proof (nuevoId_mayor _ _ (H2 l eq_refl)). lia.
      + rewrite <- not_true_iff_false, existsb_exists.
        intros (ds & Hds & Heq). apply Z.eqb_eq in Heq.
        rewrite List.Forall_forall in H3.
        pose proof (nuevoId_positivo (List.map lote_id (bd_lotes b))).
        destruct (H3 ds Hds) as [H0 | Hin]; [lia |].
        pose proof (nuevoId_mayor _ _ Hin). lia. }
  assert (HesDelLote : esDelLote (lote_id lote) detalle = true).
  { unfold esDelLote. rewrite HdetLote. apply Z.eqb_refl. }
  constructor.
  - unfold buscarInventario. simpl. apply find_al_final; [exact HinvViejo |].
    apply Z.eqb_refl.
  - unfold lotesDeInventario. simpl. rewrite filter_al_final.
    + rewrite HloteInv, Z.eqb_refl. reflexivity.
    + intros l Hl. apply (HloteViejo l Hl).
  - unfold buscarLote. simpl. apply find_al_final; [| apply Z.eqb_refl].
    intros l Hl. apply (HloteViejo l Hl).
  - rewrite Hlote. pose proof (nuevoId_positivo (List.map lote_id (bd_lotes b))). lia.
  - intros d Hd Hp Hf. simpl in Hd. apply in_app_or in Hd as [Hd | [<- | []]].
    + apply (HdetViejo d Hd).
    + rewrite Hmov in Hf. simpl in Hf.
      pose proof (finDelDiaAnterior_antes f). lia.
  - unfold buscarInvInit. simpl. apply find_al_final.
    + intros d Hd. destruct (HdetViejo d Hd) as [_ Href].
      unfold referenciaLote in Href. apply orb_false_iff in Href as [-> _].
      reflexivity.
    + rewrite HesDelLote, Hmov. reflexivity.
  - rewrite Hmov. reflexivity.
  - unfold salidasSinLote. simpl. rewrite filter_al_final.
    + unfold movimientoCuenta. rewrite Hmov. simpl.
      rewrite andb_false_r. reflexivity.
    + intros d Hd. destruct (HdetViejo d Hd) as [-> _]. reflexivity.
  - unfold obtenerMovimientosInventario. simpl. rewrite filter_al_final.
    + rewrite HdetInv, Z.eqb_refl, Hmov. simpl. rewrite Z.leb_refl. reflexivity.
    + intros d Hd. destruct (HdetViejo d Hd) as [-> _]. reflexivity.
  - exact HdetLote.
  - rewrite Hmov. reflexivity.
Qed.

Lemma procesarEntrada_desde_cero b detalle lote :
  md_idLote detalle = Some (lote_id lote) ->
  lote_id lote <> 0%Z ->
  buscarLote b (lote_id lote) = Some lote ->
  0 < md_cantidad detalle ->
  let fila := procesarEntrada b detalle saldoCero in
  km_cantidad fila = md_cantidad detalle
  /\ km_costoUnitario fila = lote_costoUnitario lote
  /\ km_cantidadSaldo fila == md_cantidad detalle
  /\ km_costoUnitarioSaldo fila == lote_costoUnitario lote
  /\ km_valorTotalSaldo fila == md_cantidad detalle * lote_costoUnitario lote.
Proof.
  intros Hd Hno Hl Hq. unfold procesarEntrada, obtenerCostoUnitarioEntrada.
  rewrite Hd. simpl. apply Z.eqb_neq in Hno. rewrite Hno, Hl.
  repeat split; try (simpl; lra).
  assert (Hpos : Qgtb (0 + md_cantidad detalle) 0 = true) by (apply Qgtb_true; lra).
  rewrite Hpos. field. lra.
Qed.

(** C9. Seeding a position with one lot of [cantidad] units at [costo] and
    then reading its Kardex from the date of the seeding to that same date,
    under either method, gives a zero opening balance and one line, the
    entry of [cantidad] units at [costo], with a balance of [cantidad]
    units at [costo]. *)
Theorem siembra_y_kardex ahora inicioPeriodo idAlmacen idProducto cantidad costo
    metodo st :
  integridadReferencial (bd st) ->
  contiene (bd_almacenes (bd st)) idAlmacen = true ->
  contiene (bd_productos (bd st)) idProducto = true ->
  List.existsb
    (fun i => (inv_idAlmacen i =? idAlmacen)%Z && (inv_idProducto i =? idProducto)%Z)
    (bd_inventarios (bd st)) = false ->
  0 < cantidad ->
  0 < costo ->
  exists inventario st1 k fila,
    create ahora inicioPeriodo (dtoSemilla idAlmacen idProducto cantidad costo) st
    = (Exito inventario, st1)
    /\ generarKardex (inv_id inventario) (fechaSiembra ahora inicioPeriodo)
         (fechaSiembra ahora inicioPeriodo) metodo st1 = (Some k, st1)
    /\ kr_saldoInicial k = saldoCero
    /\ kr_movimientos k = [fila]
    /\ km_cantidad fila = cantidad
    /\ km_costoUnitario fila = costo
    /\ km_cantidadSaldo fila == cantidad
    /\ km_costoUnitarioSaldo fila == costo
    /\ km_valorTotalSaldo fila == cantidad * costo.
Proof.
  intros Hint Halm Hprod Hnuevo Hq Hc.
  unfold create, dtoSemilla. simpl. rewrite Halm, Hprod, Hnuevo. simpl.
  unfold semillaValida. simpl.
  apply Qgtb_true in Hq as Hq'. apply Qgtb_true in Hc as Hc'.
  rewrite Hq', Hc'. simpl.
  unfold crearLote.
  match goal with
  | |- context [guardarInventario _ ?i] => set (inventario := i)
  end.
  match goal with
  | |- context [guardarLote _ ?l] => set (lote := l)
  end.
  match goal with
  | |- context [guardarDetalle _ ?d] => set (detalle := d)
  end.
  set (b3 := guardarDetalle _ detalle).
  assert (Hsolo : SoloSemilla b3 inventario lote detalle
                    (fechaSiembra ahora inicioPeriodo)).
  { apply soloSemilla_tras_guardar; try reflexivity. exact Hint. }
  destruct (generarKardex_de_semilla (conBd st b3) inventario lote detalle
              (fechaSiembra ahora inicioPeriodo) metodo Hsolo)
    as (k & Hk & Hsaldo & Hfilas).
  exists inventario, (conBd st b3), k, (procesarEntrada b3 detalle saldoCero).
  split; [reflexivity |]. split; [exact Hk |]. split; [exact Hsaldo |].
  split; [exact Hfilas |].
  apply (procesarEntrada_desde_cero b3 detalle lote).
  - reflexivity.
  - apply (ss_lote_no_cero _ _ _ _ _ Hsolo).
  - apply (ss_lote _ _ _ _ _ Hsolo).
  - exact Hq.
Qed.

Lemma siembra_y_kardex_witness :
  integridadReferencial (bd estadoInicial)
  /\ 0 < 10 /\ 0 < 5
  /\ exists inventario st1 k fila,
       create (dia 3) None (dtoSemilla 1 1 10 5) estadoInicial = (Exito inventario, st1)
       /\ generarKardex (inv_id inventario) (fechaSiembra (dia 3) None)
            (fechaSiembra (dia 3) None) FIFO st1 = (Some k, st1)
       /\ kr_saldoInicial k = saldoCero
       /\ kr_movimientos k = [fila]
       /\ km_cantidad fila = 10
       /\ km_costoUnitario fila = 5
       /\ km_cantidadSaldo fila == 10
       /\ km_costoUnitarioSaldo fila == 5
       /\ km_valorTotalSaldo fila == 10 * 5.
Proof.
  assert (Hint : integridadReferencial (bd estadoInicial))
    by (split; constructor).
  assert (Hq : 0 < 10) by lra.
  assert (Hc : 0 < 5) by lra.
  split; [exact Hint |]. split; [exact Hq |]. split; [exact Hc |].
  exact (siembra_y_kardex (dia 3) None 1 1 10 5 FIFO estadoInicial Hint
           eq_refl eq_refl eq_refl Hq Hc).
Defined.

(** * Further properties of the engine *)

(** ** What a successful FIFO consumption returns *)

Lemma consumirLotes_reparte l consumo q :
  Forall (fun x => 0 < ld_cantidadDisponible x) l ->
  exists n nuevos,
    fst (consumirLotes l consumo q) = consumo ++ nuevos
    /\ Forall2 consumoDeLote (firstn n l) nuevos
    /\ snd (consumirLotes l consumo q) == q - cantidadConsumida nuevos
    /\ (0 <= q -> 0 <= snd (consumirLotes l consumo q))
    /\ (q <= 0 -> nuevos = []).
Proof.
  intros Hl. revert consumo q.
  induction Hl as [| x l Hx Hl IH]; intros consumo q; simpl.
  - exists 0%nat, []. rewrite app_nil_r. unfold cantidadConsumida. simpl.
    repeat split; auto; try lra; constructor.
  - destruct (Qleb q 0) eqn:Hq.
    + exists 0%nat, []. rewrite app_nil_r. unfold cantidadConsumida. simpl.
      repeat split; auto; try lra; constructor.
    + apply Qleb_false in Hq.
      match goal with
      | |- context [consumirLotes l (consumo ++ [?c]) ?q1] =>
          destruct (IH (consumo ++ [c]) q1) as (n & nuevos & Hc & Hf & Hr & Hnn & _);
          exists (S n), (c :: nuevos)
      end.
      rewrite Hc, <- app_assoc. simpl.
      split; [reflexivity |]. split; [| split; [| split]].
      * constructor; [| exact Hf]. unfold consumoDeLote. simpl.
        destruct (Qmin_cases q (ld_cantidadDisponible x)) as [[H1 H2] | [H1 H2]];
          rewrite H2; repeat split; lra.
      * rewrite Hr. unfold cantidadConsumida. simpl. lra.
      * intros _. apply Hnn.
        destruct (Qmin_cases q (ld_cantidadDisponible x)) as [[H1 H2] | [H1 H2]];
          rewrite H2; lra.
      * intros H. lra.
Qed.

Lemma calcularConsumoFIFO_exito id q fechaHasta st consumo st' :
  calcularConsumoFIFO id q fechaHasta st = (Exito consumo, st') ->
  (exists n,
     Forall2 consumoDeLote
       (firstn n (fst (obtenerLotesDisponiblesFIFO id fechaHasta st))) consumo)
  /\ (0 < q -> cantidadConsumida consumo == q)
  /\ (q <= 0 -> consumo = []).
Proof.
  rewrite calcularConsumoFIFO_eq.
  pose proof (obtenerLotesDisponiblesFIFO_positivos id fechaHasta st) as Hpos.
  destruct (obtenerLotesDisponiblesFIFO id fechaHasta st) as [l st1].
  simpl in Hpos |- *.
  destruct (consumirLotes_reparte l [] q Hpos) as (n & nuevos & Hc & Hf & Hr & Hnn & Hnil).
  destruct (consumirLotes l [] q) as [c restante]. simpl in Hc, Hr, Hnn.
  destruct (Qgtb restante 0) eqn:Hg; [discriminate |].
  apply Qgtb_false in Hg. intros [= <- <-]. subst c. simpl.
  split; [exists n; exact Hf |]. split.
  - intros Hq. assert (0 <= restante) by (apply Hnn; lra). lra.
  - exact Hnil.
Qed.

(** X1. When [calcularConsumoFIFO] succeeds, the allocations it returns
    are drawn, one per lot and in order, from an initial segment of the
    lots listed by [obtenerLotesDisponiblesFIFO]; each is positive, within
    what its lot offers and at the unit cost of its lot; for a positive
    quantity asked they add up to that quantity, and for a quantity that
    is not positive there is none. *)
Theorem calcularConsumoFIFO_reparte id q fechaHasta st consumo st' :
  calcularConsumoFIFO id q fechaHasta st = (Exito consumo, st') ->
  (exists n,
     Forall2 consumoDeLote
       (firstn n (fst (obtenerLotesDisponiblesFIFO id fechaHasta st))) consumo)
  /\ (0 < q -> cantidadConsumida consumo == q)
  /\ (q <= 0 -> consumo = []).
Proof. apply calcularConsumoFIFO_exito. Qed.

Lemma calcularConsumoFIFO_reparte_witness :
  exists consumo st',
    calcularConsumoFIFO 1 15 (Some (dia 15)) estadoDosLotes = (Exito consumo, st')
    /\ List.map cl_idLote consumo = [1%Z; 2%Z]
    /\ (0 < 15 -> cantidadConsumida consumo == 15).
Proof.
  destruct (calcularConsumoFIFO 1 15 (Some (dia 15)) estadoDosLotes)
    as [r st'] eqn:Hcall.
  destruct r as [consumo | e]; [| vm_compute in Hcall; discriminate Hcall].
  exists consumo, st'. split; [reflexivity |]. split.
  - vm_compute in Hcall. injection Hcall as <- _. reflexivity.
  - apply (calcularConsumoFIFO_reparte 1 15 (Some (dia 15)) estadoDosLotes
             consumo st' Hcall).
Defined.

(** ** The FIFO sale cost is a weighted average *)

Lemma fold_left_suma {A} (f : A -> Q) l a :
  fold_left (fun acc x => acc + f x) l a == a + sumaQ f l.
Proof.
  revert a. unfold sumaQ. induction l as [| x l IH]; intros a; simpl.
  - lra.
  - rewrite IH. lra.
Qed.

Lemma Forall_firstn {A} (P : A -> Prop) n l :
  Forall P l -> Forall P (firstn n l).
Proof.
  intros H. revert n. induction H as [| x l Hx Hl IH]; intros [| n]; simpl;
    constructor; auto.
Qed.

Lemma consumo_entre_costos (lotes : list LoteDisponible) consumo lo hi :
  Forall2 consumoDeLote lotes consumo ->
  Forall (fun l => lo <= ld_costoUnitario l <= hi) lotes ->
  lo * cantidadConsumida consumo <= costoConsumido consumo
  /\ costoConsumido consumo <= hi * cantidadConsumida consumo.
Proof.
  unfold cantidadConsumida, costoConsumido.
  induction 1 as [| lote c lotes consumo (H1 & H2 & H3 & H4) Hresto IH];
    intros Hcostos; simpl.
  - lra.
  - inversion Hcostos as [| ? ? [Hlo Hhi] Hcostos']; subst.
    destruct (IH Hcostos') as [IH1 IH2]. rewrite H2. split; nra.
Qed.

(** X2. Under FIFO, for a positive quantity, the unit cost returned by
    [calcularCostoUnitarioVenta] times the quantity sold is the total cost
    of the allocations that [calcularConsumoFIFO] returns for the same
    call, and it lies between the lowest and the highest unit cost of the
    available lots. *)
Theorem calcularCostoUnitarioVenta_FIFO_promedio id q fechaHasta st c st' :
  0 < q ->
  calcularCostoUnitarioVenta id q FIFO fechaHasta st = (Exito c, st') ->
  exists consumo,
    calcularConsumoFIFO id q fechaHasta st = (Exito consumo, st')
    /\ c * q == costoConsumido consumo
    /\ forall lo hi,
         Forall (fun l => lo <= ld_costoUnitario l <= hi)
           (fst (obtenerLotesDisponiblesFIFO id fechaHasta st)) ->
         lo <= c <= hi.
Proof.
  intros Hq. simpl. unfold ligar.
  destruct (calcularConsumoFIFO id q fechaHasta st) as [[consumo | e] st1] eqn:Hcall;
    [| discriminate].
  unfold retornar. intros [= <- <-]. exists consumo. split; [reflexivity |].
  destruct (calcularConsumoFIFO_exito id q fechaHasta st consumo st1 Hcall)
    as ([n Hf] & Hsuma & _).
  specialize (Hsuma Hq).
  assert (Hcosto : costoDeConsumo consumo * q == costoConsumido consumo).
  { unfold costoDeConsumo.
    pose proof (fold_left_suma (fun item => cl_cantidad item * cl_costoUnitario item)
                  consumo 0) as HT.
    pose proof (fold_left_suma cl_cantidad consumo 0) as HN.
    fold (cantidadConsumida consumo) in HN.
    fold (costoConsumido consumo) in HT.
    destruct (Qgtb _ 0) eqn:Hpos.
    - rewrite HT, HN, Hsuma. field. lra.
    - apply Qgtb_false in Hpos. lra. }
  split; [exact Hcosto |].
  intros lo hi Hcostos.
  assert (Hseg : Forall (fun l => lo <= ld_costoUnitario l <= hi)
                   (firstn n (fst (obtenerLotesDisponiblesFIFO id fechaHasta st)))).
  { apply Forall_firstn, Hcostos. }
  destruct (consumo_entre_costos _ _ lo hi Hf Hseg) as [H1 H2].
  rewrite Hsuma in H1, H2. rewrite <- Hcosto in H1, H2. split; nra.
Qed.

Lemma calcularCostoUnitarioVenta_FIFO_promedio_witness :
  0 < 15
  /\ exists c st',
       calcularCostoUnitarioVenta 1 15 FIFO (Some (dia 15)) estadoDosLotes
       = (Exito c, st')
       /\ c == 6
       /\ exists consumo,
            calcularConsumoFIFO 1 15 (Some (dia 15)) estadoDosLotes
            = (Exito consumo, st')
            /\ c * 15 == costoConsumido consumo.
Proof.
  assert (Hq : 0 < 15) by lra. split; [exact Hq |].
  destruct (calcularCostoUnitarioVenta 1 15 FIFO (Some (dia 15)) estadoDosLotes)
    as [r st'] eqn:Hcall.
  destruct r as [c | e]; [| vm_compute in Hcall; discriminate Hcall].
  exists c, st'. split; [reflexivity |]. split.
  - vm_compute in Hcall. injection Hcall as <- _. reflexivity.
  - destruct (calcularCostoUnitarioVenta_FIFO_promedio 1 15 (Some (dia 15))
                estadoDosLotes c st' Hq Hcall) as (consumo & H1 & H2 & _).
    exists consumo. split; assumption.
Defined.

(** ** A position that is not in the store *)

(** X3. For an inventory id that the store does not hold, every query of
    the stock service answers without touching the state: the stock is
    absent, no lot is available, the average cost is 0, the stock is never
    sufficient, the PROMEDIO sale cost is 0 without any error, and the
    FIFO consumption throws for a positive quantity and returns no
    allocation otherwise; the Kardex is absent. *)
Theorem inventario_inexistente id fechaHasta st :
  buscarInventario (bd st) id = None ->
  calcularStockInventario id fechaHasta st = (None, st)
  /\ obtenerLotesDisponiblesFIFO id fechaHasta st = ([], st)
  /\ calcularCostoPromedio id fechaHasta st = (0, st)
  /\ (forall q, verificarStockSuficiente id q fechaHasta st = (false, st))
  /\ (forall q, calcularCostoUnitarioVenta id q PROMEDIO fechaHasta st = (Exito 0, st))
  /\ (forall q, 0 < q ->
        calcularConsumoFIFO id q fechaHasta st = (Fallo mensajeStockInsuficiente, st))
  /\ (forall q, q <= 0 -> calcularConsumoFIFO id q fechaHasta st = (Exito [], st))
  /\ (forall desde hasta metodo, generarKardex id desde hasta metodo st = (None, st)).
Proof.
  intros Hinv.
  assert (Hstock : calcularStockInventario id fechaHasta st = (None, st)).
  { unfold calcularStockInventario, calcularStockDesdeLotes.
    destruct (getInventarioStock (cache st) id fechaHasta), fechaHasta;
      rewrite Hinv; reflexivity. }
  assert (Hlotes : obtenerLotesDisponiblesFIFO id fechaHasta st = ([], st)).
  { unfold obtenerLotesDisponiblesFIFO. rewrite Hstock. reflexivity. }
  split; [exact Hstock |]. split; [exact Hlotes |].
  split; [unfold calcularCostoPromedio; rewrite Hstock; reflexivity |].
  split; [intros q; unfold verificarStockSuficiente; rewrite Hstock; reflexivity |].
  split.
  { intros q. simpl. unfold elevar, calcularCostoPromedio. rewrite Hstock.
    reflexivity. }
  split.
  { intros q Hq. rewrite calcularConsumoFIFO_eq, Hlotes. simpl.
    apply Qgtb_true in Hq. rewrite Hq. reflexivity. }
  split.
  { intros q Hq. rewrite calcularConsumoFIFO_eq, Hlotes. simpl.
    apply Qgtb_false in Hq. rewrite Hq. reflexivity. }
  intros desde hasta metodo. unfold generarKardex. rewrite Hinv. reflexivity.
Qed.

Lemma inventario_inexistente_witness :
  buscarInventario (bd estadoDosLotes) 7 = None
  /\ calcularCostoUnitarioVenta 7 15 PROMEDIO None estadoDosLotes
     = (Exito 0, estadoDosLotes).
Proof.
  split; [reflexivity |].
  apply (inventario_inexistente 7 None estadoDosLotes eq_refl).
Defined.

(** ** A sufficient stock can be consumed *)

Section SumaOrdenar.
Context {A : Type} (cmp : A -> A -> Z) (col : A -> Q).

Lemma sumaQ_insertar x l : sumaQ col (insertar cmp x l) == col x + sumaQ col l.
Proof.
  unfold sumaQ. induction l as [| y l IH]; simpl; [lra |].
  destruct (cmp x y <=? 0)%Z; simpl; [lra | rewrite IH; lra].
Qed.

Lemma sumaQ_ordenar l : sumaQ col (ordenar cmp l) == sumaQ col l.
Proof.
  induction l as [| x l IH]; simpl; [reflexivity |].
  rewrite sumaQ_insertar. unfold sumaQ in *. simpl. rewrite IH. reflexivity.
Qed.
End SumaOrdenar.

Lemma sumaQ_map {A B} (f : A -> B) (col : B -> Q) l :
  sumaQ col (List.map f l) = sumaQ (fun x => col (f x)) l.
Proof.
  unfold sumaQ. induction l as [| x l IH]; simpl; [reflexivity |].
  rewrite IH. reflexivity.
Qed.

Lemma filter_filter_mismo {A} (f : A -> bool) l :
  List.filter f (List.filter f l) = List.filter f l.
Proof.
  induction l as [| x l IH]; simpl; [reflexivity |].
  destruct (f x) eqn:Hx; simpl; [rewrite Hx, IH; reflexivity | exact IH].
Qed.

(** With a cutoff date, what the lots offer to the FIFO consumption is the
    total of the lots with a positive quantity. *)
Lemma totalDisponible_con_fecha id hasta st :
  totalDisponible (fst (obtenerLotesDisponiblesFIFO id (Some hasta) st))
  == cantidadTotal (lotesConSaldo (bd st) id (Some hasta))
  \/ buscarInventario (bd st) id = None.
Proof.
  destruct (buscarInventario (bd st) id) as [inventario |] eqn:Hinv; [left | right; auto].
  unfold obtenerLotesDisponiblesFIFO, calcularStockInventario. simpl.
  destruct (calcularStockDesdeLotes id (Some hasta) st) as [[r |] st1] eqn:Hcall.
  - assert (Hpre : Some hasta = None -> cacheCoherente st) by discriminate.
    destruct (calcularStockDesdeLotes_puro _ _ _ _ _ Hpre Hcall) as (Hl & _).
    simpl. unfold totalDisponible. rewrite sumaQ_ordenar, sumaQ_map. simpl.
    rewrite Hl. unfold lotesConSaldo, stocksDeLotes.
    rewrite filter_filter_mismo. reflexivity.
  - unfold calcularStockDesdeLotes in Hcall. rewrite Hinv in Hcall.
    destruct (acumularLotes _ _ _ st). discriminate.
Qed.

(** ** A lot with exits and no entries *)

(** X5. For a lot found in the store, with a cutoff date: once an exit is
    allocated to the lot while the totals of its entries and of its
    adjustments are not positive, the quantity returned is zero, whatever
    the stored initial quantity of the lot. *)
Theorem calcularStockLote_sin_entradas id hasta st lote :
  buscarLote (bd st) id = Some lote ->
  sumaDetallesLote (bd st) id ENTRADA (Some hasta) <= 0 ->
  sumaDetallesLote (bd st) id AJUSTE (Some hasta) <= 0 ->
  0 < sumaSalidasLote (bd st) id (Some hasta) ->
  exists r,
    fst (calcularStockLote id (Some hasta) st) = Some r
    /\ cantidadActual r == 0.
Proof.
  intros Hlote He Ha Hs. pose proof (buscarLote_id _ _ _ Hlote) as Hid.
  unfold calcularStockLote. simpl. rewrite Hlote. simpl.
  eexists. split; [reflexivity |]. simpl. unfold cantidadSinPiso. rewrite Hid.
  assert (Htiene : tieneMovimientos (sumaDetallesLote (bd st) id ENTRADA (Some hasta))
                     (sumaSalidasLote (bd st) id (Some hasta))
                     (sumaDetallesLote (bd st) id AJUSTE (Some hasta)) = true).
  { unfold tieneMovimientos. apply Qgtb_true in Hs. rewrite Hs.
    rewrite orb_true_r. reflexivity. }
  rewrite Htiene. apply Q.max_l. lra.
Qed.

Lemma calcularStockLote_sin_entradas_witness :
  buscarLote (bd estadoLoteVirgen) 1 = Some (loteEj 1 10 5 (dia 1))
  /\ lote_cantidadInicial (loteEj 1 10 5 (dia 1)) == 10
  /\ 0 < sumaSalidasLote (bd estadoLoteVirgen) 1 (Some (dia 3))
  /\ exists r,
       fst (calcularStockLote 1 (Some (dia 3)) estadoLoteVirgen) = Some r
       /\ cantidadActual r == 0.
Proof.
  assert (H1 : buscarLote (bd estadoLoteVirgen) 1 = Some (loteEj 1 10 5 (dia 1)))
    by reflexivity.
  assert (H2 : 0 < sumaSalidasLote (bd estadoLoteVirgen) 1 (Some (dia 3)))
    by (vm_compute; reflexivity).
  split; [exact H1 |]. split; [reflexivity |]. split; [exact H2 |].
  apply (calcularStockLote_sin_entradas 1 (dia 3) estadoLoteVirgen
           (loteEj 1 10 5 (dia 1)) H1).
  - vm_compute. discriminate.
  - vm_compute. discriminate.
  - exact H2.
Defined.

(** ** Balances of the Kardex *)

Section OrdenarPertenencia.
Context {A : Type} (cmp : A -> A -> Z).

Lemma insertar_In x y l : In y (insertar cmp x l) <-> y = x \/ In y l.
Proof.
  induction l as [| z l IH]; simpl.
  - intuition.
  - destruct (cmp x z <=? 0)%Z; simpl; [intuition | rewrite IH; intuition].
Qed.

Lemma ordenar_In y l : In y (ordenar cmp l) <-> In y l.
Proof.
  induction l as [| x l IH]; simpl; [reflexivity |].
  rewrite insertar_In, IH. intuition.
Qed.
End OrdenarPertenencia.

Lemma Qdiv_nonneg a b : 0 <= a -> 0 < b -> 0 <= a / b.
Proof.
  intros Ha Hb. unfold Qdiv. apply Qmult_le_0_compat; [exact Ha |].
  apply Qlt_le_weak, Qinv_lt_0_compat, Hb.
Qed.

Lemma saldo_recalculado cantidad valor :
  0 <= cantidad -> 0 <= valor ->
  saldoBienFormado
    {| s_cantidad := cantidad;
       s_costoUnitario := if Qgtb cantidad 0 then valor / cantidad else 0;
       s_valorTotal := valor |}
  \/ (cantidad == 0 /\ 0 < valor).
Proof.
  intros Hc Hv. unfold saldoBienFormado. simpl.
  destruct (Qgtb cantidad 0) eqn:Hg.
  - apply Qgtb_true in Hg. left. repeat split; auto.
    + apply Qdiv_nonneg; assumption.
    + field. lra.
  - apply Qgtb_false in Hg.
    destruct (Qlt_le_dec 0 valor) as [Hpos | Hcero].
    + right. split; lra.
    + left. repeat split; auto; lra.
Qed.

Lemma obtenerCostoUnitarioEntrada_nonneg b idLote :
  sinNegativos b -> 0 <= obtenerCostoUnitarioEntrada b idLote.
Proof.
  intros [_ Hl]. unfold obtenerCostoUnitarioEntrada.
  destruct (loteReferido idLote) as [l |]; [| lra].
  destruct (buscarLote b l) as [lote |] eqn:Hb; [| lra].
  unfold buscarLote in Hb. apply find_some in Hb as [Hin _].
  rewrite List.Forall_forall in Hl. apply Hl, Hin.
Qed.

Lemma costo_recalculado_nonneg cantidad valor :
  0 <= valor -> 0 <= (if Qgtb cantidad 0 then valor / cantidad else 0).
Proof.
  intros Hv. destruct (Qgtb cantidad 0) eqn:Hg; [| lra].
  apply Qgtb_true in Hg. apply Qdiv_nonneg; assumption.
Qed.

Lemma procesarEntrada_no_negativa b mov antes :
  sinNegativos b -> 0 <= md_cantidad mov ->
  0 <= s_cantidad antes -> 0 <= s_valorTotal antes ->
  saldoNoNegativo (procesarEntrada b mov antes).
Proof.
  intros Hb Hq Hc Hv.
  pose proof (obtenerCostoUnitarioEntrada_nonneg b (md_idLote mov) Hb) as Hcosto.
  unfold saldoNoNegativo, procesarEntrada. simpl.
  assert (Hvalor : 0 <= s_valorTotal antes
                        + md_cantidad mov * obtenerCostoUnitarioEntrada b (md_idLote mov))
    by nra.
  split; [lra |]. split; [apply costo_recalculado_nonneg, Hvalor | exact Hvalor].
Qed.

Lemma filaSalida_no_negativa mov antes cantidad costo costoTotal detalles :
  saldoNoNegativo
    (filaSalida mov cantidad costo costoTotal
       (saldoTrasSalida antes cantidad costoTotal) detalles).
Proof.
  unfold saldoNoNegativo, filaSalida, saldoTrasSalida. simpl.
  split; [apply Qmax_0_nonneg |].
  split; [apply costo_recalculado_nonneg |]; apply Qmax_0_nonneg.
Qed.

Lemma movimientosPorLote_no_negativos mov detalles antes :
  Forall saldoNoNegativo (movimientosPorLote mov detalles antes).
Proof.
  revert antes. induction detalles as [| d resto IH]; intros antes; simpl.
  - constructor.
  - constructor; [apply filaSalida_no_negativa | apply IH].
Qed.

Lemma saldoFinal_no_negativo antes filas :
  Forall saldoNoNegativo filas ->
  0 <= s_cantidad antes -> 0 <= s_valorTotal antes ->
  0 <= s_cantidad (saldoFinal antes filas)
  /\ 0 <= s_valorTotal (saldoFinal antes filas).
Proof.
  intros Hf. revert antes. induction Hf as [| fila filas (H1 & H2 & H3) Hf IH];
    intros antes Hc Hv.
  - unfold saldoFinal. simpl. auto.
  - rewrite saldoFinal_cons. apply IH; simpl; assumption.
Qed.

Lemma replicarMovimientos_no_negativos b movimientos metodo antes m :
  sinNegativos b ->
  Forall (fun d => 0 <= md_cantidad d) movimientos ->
  0 <= s_cantidad antes -> 0 <= s_valorTotal antes ->
  Forall saldoNoNegativo (replicarMovimientos b movimientos metodo antes m).
Proof.
  intros Hb Hmovs. revert antes m.
  induction Hmovs as [| mov resto Hq Hresto IH]; intros antes m Hc Hv; simpl.
  - constructor.
  - destruct (esMovimientoEntrada _ _).
    + pose proof (procesarEntrada_no_negativa b mov antes Hb Hq Hc Hv) as Hfila.
      constructor; [exact Hfila |].
      destruct Hfila as (H1 & _ & H3). apply IH; simpl; assumption.
    + destruct metodo; simpl.
      * constructor; [apply filaSalida_no_negativa |].
        apply IH; simpl; apply Qmax_0_nonneg.
      * destruct (calcularCostoFIFO m (md_cantidad mov)) as [resultadoFIFO m'].
        pose proof (movimientosPorLote_no_negativos mov
                      (detallesSalida resultadoFIFO) antes) as Hfilas.
        apply Forall_app. split; [exact Hfilas |].
        destruct (saldoFinal_no_negativo antes _ Hfilas Hc Hv) as [H1 H2].
        apply IH; assumption.
Qed.

(** Under PROMEDIO the value of the balance stays its quantity at its unit
    cost. *)
Lemma procesarEntrada_bien_formada b mov antes :
  sinNegativos b -> 0 <= md_cantidad mov ->
  saldoBienFormado antes ->
  saldoBienFormado (saldoDeFila (procesarEntrada b mov antes)).
Proof.
  intros Hb Hq (Hc & Hcu & Hv & Hid).
  pose proof (obtenerCostoUnitarioEntrada_nonneg b (md_idLote mov) Hb) as Hcosto.
  unfold saldoDeFila, procesarEntrada. simpl.
  set (costo := obtenerCostoUnitarioEntrada b (md_idLote mov)) in *.
  assert (Hvalor : 0 <= s_valorTotal antes + md_cantidad mov * costo) by nra.
  destruct (saldo_recalculado (s_cantidad antes + md_cantidad mov)
              (s_valorTotal antes + md_cantidad mov * costo)) as [Hok | [H0 Hpos]];
    [lra | exact Hvalor | exact Hok |].
  exfalso. assert (s_cantidad antes == 0) by lra.
  assert (md_cantidad mov == 0) by lra. nra.
Qed.

Lemma salida_PROMEDIO_bien_formada antes cantidad :
  saldoBienFormado antes ->
  saldoBienFormado
    (saldoTrasSalida antes cantidad (cantidad * s_costoUnitario antes)).
Proof.
  intros (Hc & Hcu & Hv & Hid). unfold saldoTrasSalida.
  destruct (saldo_recalculado
              (Qmax 0 (s_cantidad antes - cantidad))
              (Qmax 0 (s_valorTotal antes - cantidad * s_costoUnitario antes)))
    as [Hok | [H0 Hpos]]; try apply Qmax_0_nonneg; [exact Hok |].
  exfalso.
  destruct (Qmax_0_cases (s_cantidad antes - cantidad)) as [[H1 H2] | [H1 H2]];
    destruct (Qmax_0_cases (s_valorTotal antes - cantidad * s_costoUnitario antes))
      as [[H3 H4] | [H3 H4]]; rewrite H2 in H0; rewrite H4 in Hpos; try lra.
  assert (s_valorTotal antes - cantidad * s_costoUnitario antes
          == (s_cantidad antes - cantidad) * s_costoUnitario antes)
    by (rewrite Hid; ring).
  nra.
Qed.

Lemma replicarMovimientos_bien_formados b movimientos antes m :
  sinNegativos b ->
  Forall (fun d => 0 <= md_cantidad d) movimientos ->
  saldoBienFormado antes ->
  Forall (fun fila => saldoBienFormado (saldoDeFila fila))
    (replicarMovimientos b movimientos PROMEDIO antes m).
Proof.
  intros Hb Hmovs. revert antes m.
  induction Hmovs as [| mov resto Hq Hresto IH]; intros antes m Hs; simpl.
  - constructor.
  - destruct (esMovimientoEntrada _ _).
    + pose proof (procesarEntrada_bien_formada b mov antes Hb Hq Hs) as Hfila.
      constructor; [exact Hfila | apply IH, Hfila].
    + pose proof (salida_PROMEDIO_bien_formada antes (md_cantidad mov) Hs) as Hfila.
      constructor; [exact Hfila | apply IH, Hfila].
Qed.

Lemma lotesConSaldo_positivos b id fechaHasta :
  sinNegativos b ->
  Forall (fun sl => 0 < cantidadActual sl /\ 0 <= costoUnitario sl)
    (lotesConSaldo b id fechaHasta).
Proof.
  intros [_ Hl]. unfold lotesConSaldo, stocksDeLotes.
  apply List.Forall_forall. intros sl Hsl.
  apply filter_In in Hsl as [Hsl Hpos]. apply Qgtb_true in Hpos.
  split; [exact Hpos |].
  apply in_flat_map in Hsl as (lote & _ & Hsl).
  unfold stockDeLote in Hsl.
  destruct (buscarLote b (lote_id lote)) as [encontrado |] eqn:Hb; simpl in Hsl;
    [| destruct Hsl].
  destruct Hsl as [<- | []]. simpl.
  unfold buscarLote in Hb. apply find_some in Hb as [Hin _].
  rewrite List.Forall_forall in Hl. apply Hl, Hin.
Qed.

Lemma valorTotalLotes_nonneg ls :
  Forall (fun sl => 0 < cantidadActual sl /\ 0 <= costoUnitario sl) ls ->
  0 <= valorTotalLotes ls.
Proof.
  unfold valorTotalLotes, sumaQ.
  induction 1 as [| sl ls [H1 H2] Hls IH]; simpl; [lra | nra].
Qed.

Lemma calcularSaldoInicial_bien_formado id fechaDesde st :
  sinNegativos (bd st) ->
  saldoBienFormado (fst (calcularSaldoInicial id fechaDesde st)).
Proof.
  intros Hb. unfold calcularSaldoInicial, calcularStockInventario. simpl.
  assert (Hcero : saldoBienFormado saldoCero)
    by (unfold saldoBienFormado; simpl; repeat split; lra).
  destruct (calcularStockDesdeLotes id (Some (finDelDiaAnterior fechaDesde)) st)
    as [[r |] st1] eqn:Hcall; [| exact Hcero].
  assert (Hpre : Some (finDelDiaAnterior fechaDesde) = None -> cacheCoherente st)
    by discriminate.
  destruct (calcularStockDesdeLotes_puro _ _ _ _ _ Hpre Hcall) as (Hl & _ & Hc).
  destruct (Qleb (stockActual r) 0) eqn:Hs; [exact Hcero |].
  apply Qleb_false in Hs. simpl.
  assert (Hg : Qgtb (stockActual r) 0 = true) by (apply Qgtb_true, Hs).
  rewrite Hg in Hc.
  pose proof (valorTotalLotes_nonneg (lotes r)) as Hv.
  rewrite Hl in Hv. specialize (Hv (lotesConSaldo_positivos _ _ _ Hb)).
  rewrite <- Hl in Hv.
  assert (Hcosto : 0 <= costoPromedioActual r)
    by (rewrite Hc; apply Qdiv_nonneg; assumption).
  unfold saldoBienFormado. simpl. repeat split; try lra; nra.
Qed.

Lemma obtenerMovimientosInventario_no_negativos b id fechaDesde fechaHasta :
  sinNegativos b ->
  Forall (fun d => 0 <= md_cantidad d)
    (obtenerMovimientosInventario b id fechaDesde fechaHasta).
Proof.
  intros [Hd _]. unfold obtenerMovimientosInventario. apply ordenar_Forall.
  rewrite List.Forall_forall in *. intros d Hin.
  apply filter_In in Hin as [Hin _]. apply Hd, Hin.
Qed.

(** X6. When no line item of the store has a negative quantity and no lot
    a negative unit cost, every Kardex has a well-formed opening balance
    (no negative component, value equal to quantity times unit cost) and
    no line with a negative balance quantity, unit cost or value, under
    both methods; under PROMEDIO the balance of every line keeps its value
    equal to its quantity times its unit cost. *)
Theorem generarKardex_saldos_bien_formados id fechaDesde fechaHasta metodo st k st' :
  sinNegativos (bd st) ->
  generarKardex id fechaDesde fechaHasta metodo st = (Some k, st') ->
  saldoBienFormado (kr_saldoInicial k)
  /\ Forall saldoNoNegativo (kr_movimientos k)
  /\ (metodo = PROMEDIO ->
      Forall (fun fila => saldoBienFormado (saldoDeFila fila)) (kr_movimientos k)).
Proof.
  intros Hb. unfold generarKardex.
  destruct (buscarInventario (bd st) id) as [inventario |]; [| discriminate].
  pose proof (calcularSaldoInicial_bien_formado id fechaDesde st Hb) as Hsaldo.
  pose proof (calcularStockInventario_bd id (Some (finDelDiaAnterior fechaDesde)) st)
    as Hbd1.
  assert (Hbd : bd (snd (calcularSaldoInicial id fechaDesde st)) = bd st).
  { unfold calcularSaldoInicial.
    destruct (calcularStockInventario id (Some (finDelDiaAnterior fechaDesde)) st)
      as [[r |] st1]; simpl in *; [| exact Hbd1].
    destruct (Qleb (stockActual r) 0); exact Hbd1. }
  destruct (calcularSaldoInicial id fechaDesde st) as [saldoInicial st1].
  simpl in Hsaldo, Hbd. unfold procesarMovimientos.
  assert (Hbd2 : bd (snd (match metodo with
                          | PROMEDIO => ([], st1)
                          | FIFO => inicializarLotesTemporales id fechaDesde st1
                          end)) = bd st).
  { destruct metodo; simpl; [exact Hbd |].
    unfold inicializarLotesTemporales.
    pose proof (obtenerLotesDisponiblesFIFO_bd id
                  (Some (finDelDiaAnterior fechaDesde)) st1) as H.
    destruct (obtenerLotesDisponiblesFIFO id _ st1) as [l st2]. simpl in *.
    congruence. }
  destruct (match metodo with
            | PROMEDIO => ([], st1)
            | FIFO => inicializarLotesTemporales id fechaDesde st1
            end) as [m st2].
  simpl in Hbd2. intros [= <- <-]. simpl. rewrite Hbd2.
  pose proof (obtenerMovimientosInventario_no_negativos (bd st) id fechaDesde
                fechaHasta Hb) as Hmovs.
  destruct Hsaldo as (Hc & Hcu & Hv & Hid).
  split; [repeat split; assumption |]. split.
  - apply replicarMovimientos_no_negativos; assumption.
  - intros ->. apply replicarMovimientos_bien_formados; try assumption.
    repeat split; assumption.
Qed.

Lemma generarKardex_saldos_bien_formados_witness :
  sinNegativos (bd estadoVenta)
  /\ exists k st',
       generarKardex 1 (dia 1) (dia 20) PROMEDIO estadoVenta = (Some k, st')
       /\ Forall saldoNoNegativo (kr_movimientos k).
Proof.
  assert (Hb : sinNegativos (bd estadoVenta)).
  { split; repeat constructor; simpl; vm_compute; discriminate. }
  split; [exact Hb |].
  destruct (generarKardex 1 (dia 1) (dia 20) PROMEDIO estadoVenta)
    as [k st'] eqn:Hk.
  destruct k as [k |]; [| vm_compute in Hk; discriminate Hk].
  exists k, st'. split; [reflexivity |].
  apply (generarKardex_saldos_bien_formados 1 (dia 1) (dia 20) PROMEDIO
           estadoVenta k st' Hb Hk).
Defined.

(** X7. Under PROMEDIO, an exit is costed at the unit cost of the balance
    before it and leaves the working set alone. From a well-formed
    balance, an exit below the balance quantity leaves the unit cost of
    the balance unchanged and lowers quantity and value accordingly; an
    exit of the whole balance quantity or more leaves a balance of zero
    quantity, zero unit cost and zero value. *)
Theorem salida_PROMEDIO_costo mov antes m :
  saldoBienFormado antes ->
  exists fila,
    procesarSalida mov antes PROMEDIO m = (inl fila, m)
    /\ km_cantidad fila = md_cantidad mov
    /\ km_costoUnitario fila = s_costoUnitario antes
    /\ (md_cantidad mov < s_cantidad antes ->
        km_cantidadSaldo fila == s_cantidad antes - md_cantidad mov
        /\ km_costoUnitarioSaldo fila == s_costoUnitario antes
        /\ km_valorTotalSaldo fila
           == (s_cantidad antes - md_cantidad mov) * s_costoUnitario antes)
    /\ (s_cantidad antes <= md_cantidad mov ->
        km_cantidadSaldo fila == 0
        /\ km_costoUnitarioSaldo fila == 0
        /\ km_valorTotalSaldo fila == 0).
Proof.
  intros (Hc & Hcu & Hv & Hid). simpl. eexists. split; [reflexivity |].
  simpl. split; [reflexivity |]. split; [reflexivity |].
  set (q := md_cantidad mov).
  assert (Hvalor : s_valorTotal antes - q * s_costoUnitario antes
                   == (s_cantidad antes - q) * s_costoUnitario antes)
    by (rewrite Hid; ring).
  split.
  - intros Hq.
    assert (H1 : Qmax 0 (s_cantidad antes - q) == s_cantidad antes - q)
      by (apply Q.max_r; lra).
    assert (H2 : Qmax 0 (s_valorTotal antes - q * s_costoUnitario antes)
                 == (s_cantidad antes - q) * s_costoUnitario antes)
      by (rewrite <- Hvalor; apply Q.max_r; nra).
    split; [exact H1 |]. split; [| exact H2].
    assert (Hg : Qgtb (Qmax 0 (s_cantidad antes - q)) 0 = true)
      by (apply Qgtb_true; lra).
    rewrite Hg, H1, H2. field. lra.
  - intros Hq.
    assert (H1 : Qmax 0 (s_cantidad antes - q) == 0) by (apply Q.max_l; lra).
    assert (H2 : Qmax 0 (s_valorTotal antes - q * s_costoUnitario antes) == 0)
      by (apply Q.max_l; nra).
    split; [exact H1 |]. split; [| exact H2].
    assert (Hg : Qgtb (Qmax 0 (s_cantidad antes - q)) 0 = false)
      by (apply Qgtb_false; lra).
    rewrite Hg. reflexivity.
Qed.

Lemma salida_PROMEDIO_costo_witness :
  saldoBienFormado saldoEj
  /\ exists fila,
       procesarSalida ventaEj saldoEj PROMEDIO mapaEj = (inl fila, mapaEj)
       /\ km_costoUnitario fila = 6.5
       /\ km_costoUnitarioSaldo fila == 6.5.
Proof.
  assert (Hs : saldoBienFormado saldoEj).
  { unfold saldoBienFormado. simpl. repeat split; lra. }
  split; [exact Hs |].
  destruct (salida_PROMEDIO_costo ventaEj saldoEj mapaEj Hs)
    as (fila & Heq & _ & Hcosto & Hbajo & _).
  exists fila. split; [exact Heq |]. split; [exact Hcosto |].
  apply Hbajo. simpl. lra.
Defined.

(** ** The rows of the ledger that a Kardex replays *)

(** X8. [obtenerMovimientosInventario] returns exactly the line items of
    the position whose movement is processed and dated within the window,
    bounds included, ordered by movement date and then by movement id. *)
Theorem obtenerMovimientosInventario_filas b id fechaDesde fechaHasta :
  StronglySorted antesEnLibro
    (obtenerMovimientosInventario b id fechaDesde fechaHasta)
  /\ forall d,
       In d (obtenerMovimientosInventario b id fechaDesde fechaHasta)
       <-> In d (bd_detalles b)
           /\ md_idInventario d = id
           /\ (fechaDesde <= mov_fecha (md_movimiento d) <= fechaHasta)%Z
           /\ mov_estado (md_movimiento d) = PROCESADO.
Proof.
  unfold obtenerMovimientosInventario. split.
  - apply ordenar_ordenada; unfold antesEnLibro.
    + intros x y H. apply compararFechaLuegoId_le in H. exact H.
    + intros x y H. rewrite compararFechaLuegoId_le in H. lia.
    + intros x y z H1 H2. lia.
  - intros d. rewrite ordenar_In, filter_In, !andb_true_iff, Z.eqb_eq, !Z.leb_le.
    destruct (mov_estado (md_movimiento d)); simpl; intuition; discriminate.
Qed.

(** ** How much a FIFO exit of the Kardex reports *)

Lemma consumirTemporales_total l m detalles q costo :
  Forall (fun x => 0 < ld_cantidadDisponible x) l ->
  0 <= q ->
  exists nuevos,
    fst (fst (consumirTemporales l m detalles q costo)) = detalles ++ nuevos
    /\ sumaQ dsc_cantidad nuevos == Qmin q (totalDisponible l).
Proof.
  intros Hl. revert m detalles q costo.
  induction Hl as [| x l Hx Hl IH]; intros m detalles q costo Hq; simpl.
  - exists []. rewrite app_nil_r. split; [reflexivity |].
    unfold totalDisponible, sumaQ. simpl. symmetry. apply Q.min_r. exact Hq.
  - pose proof (totalDisponible_nonneg l Hl) as Hnn.
    destruct (Qleb q 0) eqn:Hq0.
    + apply Qleb_true in Hq0. exists []. rewrite app_nil_r. split; [reflexivity |].
      unfold totalDisponible, sumaQ in *. simpl. symmetry.
      rewrite Q.min_l; lra.
    + apply Qleb_false in Hq0.
      set (tomado := Qmin q (ld_cantidadDisponible x)).
      assert (Hresto : 0 <= q - tomado).
      { unfold tomado.
        destruct (Qmin_cases q (ld_cantidadDisponible x)) as [[H1 H2] | [H1 H2]];
          rewrite H2; lra. }
      match goal with
      | |- context [consumirTemporales l ?m1 (detalles ++ [?d]) ?q1 ?c1] =>
          destruct (IH m1 (detalles ++ [d]) q1 c1 Hresto) as (nuevos & Hd & Hs);
          exists (d :: nuevos)
      end.
      rewrite Hd, <- app_assoc. split; [reflexivity |].
      unfold sumaQ in *. simpl. rewrite Hs. fold tomado.
      unfold totalDisponible, sumaQ in *. simpl.
      set (resto := fold_right (fun fila acc => ld_cantidadDisponible fila + acc) 0 l) in *.
      unfold tomado.
      destruct (Qmin_cases q (ld_cantidadDisponible x)) as [[H1 H2] | [H1 H2]];
        destruct (Qmin_cases (q - Qmin q (ld_cantidadDisponible x)) resto)
          as [[H3 H4] | [H3 H4]];
        destruct (Qmin_cases q (ld_cantidadDisponible x + resto))
          as [[H5 H6] | [H5 H6]]; lra.
Qed.

Lemma movimientosPorLote_cantidades mov detalles antes :
  List.map km_cantidad (movimientosPorLote mov detalles antes)
  = List.map dsc_cantidad detalles.
Proof.
  revert antes. induction detalles as [| d resto IH]; intros antes; simpl.
  - reflexivity.
  - rewrite IH. reflexivity.
Qed.

(** X9. Under FIFO, the lines that replace an exit row add up, in
    quantity, to the smaller of the quantity of the row and the total
    that the working set offers: what the working set cannot cover is
    left out of the report without any error. *)
Theorem salida_FIFO_total mov antes m :
  0 <= md_cantidad mov ->
  exists filas,
    fst (procesarSalida mov antes FIFO m) = inr filas
    /\ sumaQ km_cantidad filas
       == Qmin (md_cantidad mov) (totalDisponible (lotesTemporalesOrdenados m)).
Proof.
  intros Hq. simpl. unfold calcularCostoFIFO.
  assert (Hpos : Forall (fun x => 0 < ld_cantidadDisponible x)
                   (lotesTemporalesOrdenados m)).
  { eapply List.Forall_impl; [| apply lotesTemporalesOrdenados_del_mapa].
    simpl. intros x [_ H]. exact H. }
  destruct (consumirTemporales_total (lotesTemporalesOrdenados m) m []
              (md_cantidad mov) 0 Hpos Hq) as (nuevos & Hd & Hs).
  destruct (consumirTemporales (lotesTemporalesOrdenados m) m [] (md_cantidad mov) 0)
    as [[detalles costoTotal] m'].
  simpl in Hd. subst detalles. simpl. eexists. split; [reflexivity |].
  rewrite <- Hs. rewrite <- (sumaQ_map km_cantidad (fun x => x)).
  rewrite movimientosPorLote_cantidades.
  rewrite (sumaQ_map dsc_cantidad (fun x => x)). reflexivity.
Qed.

Lemma salida_FIFO_total_witness :
  0 <= md_cantidad ventaEj
  /\ exists filas,
       fst (procesarSalida ventaEj saldoEj FIFO mapaEj) = inr filas
       /\ sumaQ km_cantidad filas
          == Qmin (md_cantidad ventaEj)
               (totalDisponible (lotesTemporalesOrdenados mapaEj)).
Proof.
  assert (Hq : 0 <= md_cantidad ventaEj) by (simpl; lra).
  split; [exact Hq |]. exact (salida_FIFO_total ventaEj saldoEj mapaEj Hq).
Defined.

(** ** The lots of a purchase *)

Lemma registrarLoteCompra_exito ahora d fechaEmision st lote st' :
  registrarLoteCompra ahora d fechaEmision st = (Exito lote, st') ->
  lineaDeCompraValida (bd st) d
  /\ loteDeCompra (match fechaEmision with Some f => f | None => ahora end) d lote
  /\ lote_id lote = nuevoId (List.map lote_id (bd_lotes (bd st)))
  /\ bd st' = guardarLote (bd st) lote.
Proof.
  unfold registrarLoteCompra, lineaDeCompraValida, loteDeCompra.
  destruct (cd_inventario d) as [idInv |]; [| discriminate].
  destruct (idInv =? 0)%Z eqn:Hcero; [discriminate |].
  destruct (buscarInventario (bd st) idInv) as [inventario |] eqn:Hinv;
    [| discriminate].
  destruct (negb (contiene (bd_productos (bd st)) (inv_idProducto inventario)));
    [discriminate |].
  destruct (negb (contiene (bd_almacenes (bd st)) (inv_idAlmacen inventario)));
    [discriminate |].
  destruct (Qleb (cd_cantidad d) 0) eqn:Hq; [discriminate |].
  destruct (negb (Qleb 0 (cd_precioUnitario d))) eqn:Hp; [discriminate |].
  apply Qleb_false in Hq. apply negb_false_iff, Qleb_true in Hp.
  apply Z.eqb_neq in Hcero.
  unfold buscarInventario in Hinv. apply find_some in Hinv as [Hin Hid].
  apply Z.eqb_eq in Hid.
  intros H. injection H as Hl Hs. subst lote st'. simpl.
  repeat split; auto.
  - exists idInv. repeat split; auto. rewrite <- Hid. apply in_map, Hin.
  - rewrite Hid. reflexivity.
Qed.

Lemma procesarDetalles_compra ahora detalles metodo fechaEmision cs ls st res st' :
  procesarDetalles ahora detalles "COMPRA" metodo fechaEmision cs ls st
  = (Exito res, st') ->
  exists nuevos,
    bd st' = {| bd_almacenes := bd_almacenes (bd st);
                bd_productos := bd_productos (bd st);
                bd_inventarios := bd_inventarios (bd st);
                bd_lotes := bd_lotes (bd st) ++ nuevos;
                bd_detalles := bd_detalles (bd st) |}
    /\ Forall2
         (loteDeCompra (match fechaEmision with Some f => f | None => ahora end))
         detalles nuevos
    /\ Forall (lineaDeCompraValida (bd st)) detalles
    /\ lp_costoUnitario res = cs ++ List.map cd_precioUnitario detalles
    /\ lp_lotes res = ls ++ List.map usoDeCompra (List.combine detalles nuevos)
    /\ Forall (fun l => (0 < lote_id l)%Z
                         /\ forall x, In x (bd_lotes (bd st)) ->
                                      (lote_id x < lote_id l)%Z) nuevos
    /\ StronglySorted (fun x y => (lote_id x < lote_id y)%Z) nuevos.
Proof.
  revert cs ls st. induction detalles as [| d resto IH]; intros cs ls st; simpl.
  - unfold retornar. intros H. injection H as Hr Hs. subst res st'.
    exists []. simpl. rewrite !app_nil_r. destruct (bd st).
    repeat split; constructor.
  - unfold ligar.
    destruct (registrarLoteCompra ahora d fechaEmision st) as [[lote | e] st1] eqn:Hreg;
      [| discriminate].
    apply registrarLoteCompra_exito in Hreg as (Hval & Hlote & Hid & Hbd).
    intros Hproc. apply IH in Hproc as (nuevos & Hbd' & Hf2 & Hvals & Hcs & Hls & Hfresh & Hsort).
    rewrite Hbd in Hbd', Hvals, Hfresh. simpl in Hbd', Hfresh.
    exists (lote :: nuevos). rewrite <- app_assoc in Hbd'. simpl in Hbd'.
    assert (Hmay : Forall (fun l => (lote_id lote < lote_id l)%Z) nuevos).
    { eapply List.Forall_impl; [| exact Hfresh]. simpl. intros l [_ Hl].
      apply Hl. apply in_or_app. right. left. reflexivity. }
    split; [exact Hbd' |]. split; [constructor; assumption |].
    split; [constructor; [exact Hval | exact Hvals] |].
    split; [rewrite Hcs, <- app_assoc; reflexivity |].
    split; [rewrite Hls, <- app_assoc; reflexivity |].
    split.
    + constructor.
      * split; [rewrite Hid; apply nuevoId_positivo |].
        intros x Hx. rewrite Hid. apply nuevoId_mayor, in_map, Hx.
      * eapply List.Forall_impl; [| exact Hfresh]. simpl. intros l [Hp Hl].
        split; [exact Hp |]. intros x Hx.
        apply Hl. apply in_or_app. left. exact Hx.
    + constructor; assumption.
Qed.

(** X10. A purchase that [procesarLotesComprobante] accepts creates one
    lot per line, in the order of the lines and after the lots the store
    already holds: the lot of a line belongs to the position of the line,
    stores no initial quantity, has the price of the line as unit cost and
    the date of the voucher (the clock without one) as ingress date; the
    ids of the new lots are positive, above every id in use and increase
    along the lines. The unit costs returned are the prices of the lines and the
    lots returned name, line by line, the new lot with the quantity and
    the price of the line. Every line has a positive quantity, a price
    that is not negative and a position of the store with a non-zero id.
    No other table changes. *)
Theorem procesarLotesComprobante_compra ahora detalles metodo fechaEmision st res st' :
  procesarLotesComprobante ahora detalles "COMPRA" metodo fechaEmision st
  = (Exito res, st') ->
  exists nuevos,
    bd st' = {| bd_almacenes := bd_almacenes (bd st);
                bd_productos := bd_productos (bd st);
                bd_inventarios := bd_inventarios (bd st);
                bd_lotes := bd_lotes (bd st) ++ nuevos;
                bd_detalles := bd_detalles (bd st) |}
    /\ Forall2
         (loteDeCompra (match fechaEmision with Some f => f | None => ahora end))
         detalles nuevos
    /\ Forall (lineaDeCompraValida (bd st)) detalles
    /\ lp_costoUnitario res = List.map cd_precioUnitario detalles
    /\ lp_lotes res = List.map usoDeCompra (List.combine detalles nuevos)
    /\ Forall (fun l => (0 < lote_id l)%Z
                         /\ forall x, In x (bd_lotes (bd st)) ->
                                      (lote_id x < lote_id l)%Z) nuevos
    /\ StronglySorted (fun x y => (lote_id x < lote_id y)%Z) nuevos.
Proof.
  unfold procesarLotesComprobante. intros H.
  apply procesarDetalles_compra in H. exact H.
Qed.

Lemma procesarLotesComprobante_compra_witness :
  exists res st',
    procesarLotesComprobante (dia 20) [lineaCompraEj 4 7; lineaCompraEj 6 9]
      "COMPRA" FIFO (Some (dia 20)) estadoDosLotes = (Exito res, st')
    /\ exists nuevos,
         bd_lotes (bd st') = bd_lotes (bd estadoDosLotes) ++ nuevos
         /\ Forall2 (loteDeCompra (dia 20))
              [lineaCompraEj 4 7; lineaCompraEj 6 9] nuevos
         /\ lp_lotes res
            = List.map usoDeCompra
                (List.combine [lineaCompraEj 4 7; lineaCompraEj 6 9] nuevos).
Proof.
  destruct (procesarLotesComprobante (dia 20) [lineaCompraEj 4 7; lineaCompraEj 6 9]
              "COMPRA" FIFO (Some (dia 20)) estadoDosLotes) as [res st'] eqn:Hproc.
  destruct res as [res | e]; [| vm_compute in Hproc; discriminate Hproc].
  exists res, st'. split; [reflexivity |].
  destruct (procesarLotesComprobante_compra _ _ _ _ _ _ _ Hproc)
    as (nuevos & Hbd & Hf2 & Hval & Hcs & Hls & Hfresh & Hsort).
  exists nuevos. rewrite Hbd. simpl. auto.
Defined.

(** ** Lots without movements add no stock *)

Section FiltrarOrdenado.
Context {A : Type} (cmp : A -> A -> Z) (p : A -> bool).
Hypothesis cmp_trans :
  forall a b c, (cmp a b <= 0)%Z -> (cmp b c <= 0)%Z -> (cmp a c <= 0)%Z.

Lemma insertar_primero x l :
  Forall (fun z => (cmp x z <= 0)%Z) l -> insertar cmp x l = x :: l.
Proof.
  destruct 1 as [| y l Hy Hl]; simpl; [reflexivity |].
  apply Z.leb_le in Hy. rewrite Hy. reflexivity.
Qed.

Lemma filter_insertar x l :
  StronglySorted (fun a b => (cmp a b <= 0)%Z) l ->
  List.filter p (insertar cmp x l)
  = if p x then insertar cmp x (List.filter p l) else List.filter p l.
Proof.
  induction 1 as [| y l Hl IH Hy]; simpl.
  - destruct (p x); reflexivity.
  - destruct (cmp x y <=? 0)%Z eqn:Hc; simpl.
    + apply Z.leb_le in Hc.
      destruct (p x) eqn:Hx; [| reflexivity].
      destruct (p y) eqn:Hpy; simpl.
      * apply Z.leb_le in Hc. rewrite Hc. reflexivity.
      * symmetry. apply insertar_primero.
        apply List.Forall_forall. intros z Hz.
        apply List.filter_In in Hz as [Hz _].
        rewrite List.Forall_forall in Hy.
        eapply cmp_trans; [exact Hc | apply Hy, Hz].
    + rewrite IH. destruct (p y) eqn:Hpy, (p x) eqn:Hx; simpl;
        try rewrite Hc; reflexivity.
Qed.

Hypothesis cmp_total : forall a b, ~ (cmp a b <= 0)%Z -> (cmp b a <= 0)%Z.

Lemma filter_ordenar l :
  List.filter p (ordenar cmp l) = ordenar cmp (List.filter p l).
Proof.
  induction l as [| x l IH]; simpl; [reflexivity |].
  rewrite filter_insertar.
  - destruct (p x); simpl; rewrite IH; reflexivity.
  - apply ordenar_ordenada; auto.
Qed.
End FiltrarOrdenado.

Lemma find_app_ {A} (f : A -> bool) l1 l2 :
  List.find f (l1 ++ l2)
  = match List.find f l1 with Some x => Some x | None => List.find f l2 end.
Proof.
  induction l1 as [| x l1 IH]; simpl; [reflexivity |].
  destruct (f x); [reflexivity | exact IH].
Qed.

Lemma filter_conmuta {A} (f g : A -> bool) l :
  List.filter f (List.filter g l) = List.filter g (List.filter f l).
Proof.
  induction l as [| x l IH]; simpl; [reflexivity |].
  destruct (f x) eqn:Hf, (g x) eqn:Hg; simpl;
    rewrite ?Hf, ?Hg, IH; reflexivity.
Qed.

Lemma filter_todo_cierto {A} (f : A -> bool) l :
  (forall x, In x l -> f x = true) -> List.filter f l = l.
Proof.
  induction l as [| x l IH]; intros H; simpl; [reflexivity |].
  rewrite (H x (or_introl eq_refl)). f_equal. apply IH.
  intros y Hy. apply H. right. exact Hy.
Qed.

Lemma contiene_In ids id : contiene ids id = true <-> In id ids.
Proof.
  unfold contiene. rewrite List.existsb_exists. split.
  - intros (x & Hx & He). apply Z.eqb_eq in He. subst. exact Hx.
  - intros H. exists id. split; [exact H | apply Z.eqb_refl].
Qed.

(** The result computed for a lot reads the line items only. *)
Lemma resultadoLote_detalles b b' fechaHasta lote :
  bd_detalles b' = bd_detalles b ->
  resultadoLote b' fechaHasta lote = resultadoLote b fechaHasta lote.
Proof.
  intros H. unfold resultadoLote, cantidadSinPiso, sumaDetallesLote,
    sumaSalidasLote, buscarInvInit. rewrite H. reflexivity.
Qed.

(** A lot that no line item and no exit allocation names, and that stores
    no initial quantity, has no stock. *)
Lemma resultadoLote_sin_referencias b fechaHasta lote :
  lote_cantidadInicial lote = 0 ->
  (forall d, In d (bd_detalles b) ->
     md_idLote d <> Some (lote_id lote)
     /\ Forall (fun ds => ds_idLote ds <> lote_id lote) (md_detallesSalida d)) ->
  Qgtb (cantidadActual (resultadoLote b fechaHasta lote)) 0 = false.
Proof.
  intros Hini Href.
  assert (Hdet : forall tipo,
             sumaDetallesLote b (lote_id lote) tipo fechaHasta = 0).
  { intros tipo. unfold sumaDetallesLote. rewrite filter_todo_falso; [reflexivity |].
    intros d Hd. destruct (Href d Hd) as [Hl _].
    unfold esDelLote. destruct (md_idLote d) as [l |]; [| reflexivity].
    destruct (l =? lote_id lote)%Z eqn:He; [| reflexivity].
    apply Z.eqb_eq in He. subst l. contradiction. }
  assert (Hsal : sumaSalidasLote b (lote_id lote) fechaHasta = 0).
  { unfold sumaSalidasLote. rewrite flat_map_todo_nil; [reflexivity |].
    intros d Hd. apply List.filter_In in Hd as [Hd _].
    destruct (Href d Hd) as [_ Hds]. apply filter_todo_falso.
    intros ds Hin. rewrite List.Forall_forall in Hds.
    apply Z.eqb_neq, Hds, Hin. }
  unfold resultadoLote, cantidadSinPiso. simpl.
  rewrite !Hdet, Hsal, Hini. simpl.
  destruct fechaHasta as [hasta |]; [| reflexivity].
  destruct (buscarInvInit b (lote_id lote)) as [invInit |].
  - destruct (_ <=? _)%Z; reflexivity.
  - destruct (_ <=? _)%Z; reflexivity.
Qed.

Lemma stocksDeLotes_con_nuevos b b' viejos nuevos fechaHasta ls :
  bd_lotes b = viejos ->
  bd_lotes b' = viejos ++ nuevos ->
  bd_detalles b' = bd_detalles b ->
  Forall (fun l => lote_cantidadInicial l = 0 /\ (0 < lote_id l)%Z) nuevos ->
  integridadReferencial b ->
  stocksDeLotes b' fechaHasta ls
  = stocksDeLotes b fechaHasta
      (List.filter (esLoteDe (List.map lote_id viejos)) ls).
Proof.
  intros Hv Hn Hd Hnuevos [_ Hint].
  induction ls as [| l ls IH]; [reflexivity |].
  rewrite stocksDeLotes_cons, IH. simpl.
  unfold stockDeLote at 1, buscarLote. rewrite Hn, find_app_.
  destruct (esLoteDe (List.map lote_id viejos) l) eqn:Hes.
  - rewrite stocksDeLotes_cons. unfold stockDeLote, buscarLote. rewrite Hv.
    unfold esLoteDe in Hes. apply contiene_In, in_map_iff in Hes as (x & Hx & Hin).
    destruct (List.find (fun l0 => (lote_id l0 =? lote_id l)%Z) viejos) as [y |] eqn:Hf.
    + cbn [option_map]. rewrite (resultadoLote_detalles _ _ _ _ Hd). reflexivity.
    + exfalso. apply (find_none _ _ Hf) in Hin. rewrite Hx, Z.eqb_refl in Hin.
      discriminate.
  - assert (Hno : ~ In (lote_id l) (List.map lote_id viejos)).
    { intros H. apply contiene_In in H. unfold esLoteDe in Hes. congruence. }
    destruct (List.find (fun l0 => (lote_id l0 =? lote_id l)%Z) viejos) as [y |] eqn:Hf.
    { exfalso. apply find_some in Hf as [Hin He]. apply Z.eqb_eq in He.
      apply Hno. rewrite <- He. apply in_map, Hin. }
    destruct (List.find (fun l0 => (lote_id l0 =? lote_id l)%Z) nuevos) as [y |] eqn:Hf2;
      [| reflexivity].
    apply find_some in Hf2 as [Hin He]. apply Z.eqb_eq in He.
    rewrite List.Forall_forall in Hnuevos. destruct (Hnuevos y Hin) as [Hini Hpos].
    cbn [option_map]. rewrite resultadoLote_sin_referencias; [reflexivity | exact Hini |].
    intros d Hdin. rewrite Hd in Hdin.
    rewrite List.Forall_forall in Hint.
    destruct (Hint d Hdin) as (_ & Hl & Hds). split.
    + intros H. apply Hl in H. rewrite Hv, He in H. contradiction.
    + eapply List.Forall_impl; [| exact Hds]. simpl. intros ds [H0 | Hi] Heq.
      * lia.
      * rewrite Hv, Heq, He in Hi. contradiction.
Qed.

Lemma lotesDeInventario_con_nuevos b b' viejos nuevos id :
  bd_lotes b = viejos ->
  bd_lotes b' = viejos ++ nuevos ->
  Forall (fun l => forall x, In x viejos -> (lote_id x < lote_id l)%Z) nuevos ->
  List.filter (esLoteDe (List.map lote_id viejos)) (lotesDeInventario b' id)
  = lotesDeInventario b id.
Proof.
  intros Hv Hn Hfresh. unfold lotesDeInventario.
  rewrite filter_ordenar; [| intros; lia | intros; lia].
  rewrite filter_conmuta, Hn, Hv, List.filter_app.
  rewrite (filter_todo_falso _ nuevos).
  - rewrite app_nil_r. f_equal. f_equal. apply filter_todo_cierto.
    intros x Hx. apply contiene_In, in_map, Hx.
  - intros y Hy. rewrite List.Forall_forall in Hfresh.
    destruct (esLoteDe (List.map lote_id viejos) y) eqn:He; [| reflexivity].
    apply contiene_In, in_map_iff in He as (x & Hx & Hin).
    specialize (Hfresh y Hy x Hin). lia.
Qed.

Lemma acumularLotes_fold ls hasta acc st :
  fst (acumularLotes ls (Some hasta) acc st)
  = fold_left acumularLote (stocksDeLotes (bd st) (Some hasta) ls) acc.
Proof.
  revert acc. induction ls as [| l ls IH]; intros acc; [reflexivity |].
  cbn [acumularLotes]. rewrite calcularStockLote_con_fecha, stocksDeLotes_cons.
  rewrite fold_left_app, IH.
  destruct (stockDeLote (bd st) (Some hasta) (lote_id l)) as [sl |]; [| reflexivity].
  destruct (Qgtb (cantidadActual sl) 0); reflexivity.
Qed.

(** With a cutoff date, the stock of a position is a function of its lots
    with a positive quantity and of the exits recorded against lot id
    zero. *)
Lemma calcularStockInventario_por_lotes id hasta st :
  fst (calcularStockInventario id (Some hasta) st)
  = match buscarInventario (bd st) id with
    | None => None
    | Some _ =>
        let acc :=
          fold_left acumularLote (lotesConSaldo (bd st) id (Some hasta))
            {| lotesConStock := []; stockTotal := 0; valorTotal := 0 |} in
        let stockTotalAjustado :=
          Qmax 0 (stockTotal acc - salidasSinLote (bd st) id (Some hasta)) in
        Some {| idInventario := id;
                stockActual := stockTotalAjustado;
                costoPromedioActual :=
                  if Qgtb stockTotalAjustado 0
                  then valorTotal acc / stockTotalAjustado else 0;
                lotes := lotesConStock acc |}
    end.
Proof.
  unfold calcularStockInventario, calcularStockDesdeLotes. cbn [getInventarioStock].
  destruct (buscarInventario (bd st) id) as [inventario |]; [| reflexivity].
  pose proof (acumularLotes_fold (lotesDeInventario (bd st) id) hasta
                {| lotesConStock := []; stockTotal := 0; valorTotal := 0 |} st) as Hf.
  pose proof (acumularLotes_con_fecha (lotesDeInventario (bd st) id) hasta
                {| lotesConStock := []; stockTotal := 0; valorTotal := 0 |} st) as Hs.
  destruct (acumularLotes _ _ _ st) as [acc st1]. simpl in Hf, Hs. subst acc st1.
  reflexivity.
Qed.

(** X11. The lots that a purchase registers add no stock by themselves:
    in a store whose foreign keys hold, after [procesarLotesComprobante]
    has accepted a purchase and before any movement is written, every
    query of the stock of a position with a cutoff date returns what it
    returned before the purchase, lot by lot. *)
Theorem compra_sin_movimiento_no_cambia_stock ahora detalles metodo fechaEmision
    st res st' id hasta :
  integridadReferencial (bd st) ->
  procesarLotesComprobante ahora detalles "COMPRA" metodo fechaEmision st
  = (Exito res, st') ->
  fst (calcularStockInventario id (Some hasta) st')
  = fst (calcularStockInventario id (Some hasta) st).
Proof.
  intros Hint Hproc. unfold procesarLotesComprobante in Hproc.
  apply procesarDetalles_compra in Hproc
    as (nuevos & Hbd & Hf2 & _ & _ & _ & Hfresh & _).
  rewrite !calcularStockInventario_por_lotes.
  assert (Hlotes : lotesConSaldo (bd st') id (Some hasta)
                   = lotesConSaldo (bd st) id (Some hasta)).
  { unfold lotesConSaldo.
    rewrite (stocksDeLotes_con_nuevos (bd st) (bd st') (bd_lotes (bd st)) nuevos);
      try (rewrite Hbd; reflexivity); auto.
    - rewrite (lotesDeInventario_con_nuevos (bd st) (bd st') (bd_lotes (bd st)) nuevos);
        try (rewrite Hbd; reflexivity); auto.
      eapply List.Forall_impl; [| exact Hfresh]. simpl. intros l [_ H]. exact H.
    - clear - Hf2 Hfresh. induction Hf2 as [| d l ds ls Hdl Hf2 IH]; [constructor |].
      inversion Hfresh as [| ? ? [Hpos _] Hfresh']; subst.
      constructor; [| apply IH, Hfresh'].
      destruct Hdl as (_ & Hini & _). auto. }
  rewrite Hlotes.
  unfold buscarInventario, salidasSinLote. rewrite Hbd. reflexivity.
Qed.

Lemma compra_sin_movimiento_no_cambia_stock_witness :
  integridadReferencial (bd estadoDosLotes)
  /\ exists res st',
       procesarLotesComprobante (dia 20) [lineaCompraEj 4 7; lineaCompraEj 6 9]
         "COMPRA" FIFO (Some (dia 20)) estadoDosLotes = (Exito res, st')
       /\ fst (calcularStockInventario 1 (Some (dia 25)) st')
          = fst (calcularStockInventario 1 (Some (dia 25)) estadoDosLotes).
Proof.
  assert (Hint : integridadReferencial (bd estadoDosLotes)).
  { split.
    - apply List.Forall_forall. intros l Hl. simpl in Hl.
      destruct Hl as [<- | [<- | []]]; simpl; auto.
    - apply List.Forall_forall. intros d Hd. simpl in Hd.
      destruct Hd as [<- | [<- | []]]; simpl;
        (split; [auto | split; [intros l [= <-]; auto | constructor]]). }
  split; [exact Hint |].
  destruct (procesarLotesComprobante (dia 20) [lineaCompraEj 4 7; lineaCompraEj 6 9]
              "COMPRA" FIFO (Some (dia 20)) estadoDosLotes) as [res st'] eqn:Hproc.
  destruct res as [res | e]; [| vm_compute in Hproc; discriminate Hproc].
  exists res, st'. split; [reflexivity |].
  apply (compra_sin_movimiento_no_cambia_stock _ _ _ _ _ _ _ 1%Z (dia 25) Hint Hproc).
Defined.

(** ** Validation of the lots of a purchase *)

Lemma ordenar_mayor_al_final (F : list InventarioLote) l :
  (forall x, In x F -> (lote_id x < lote_id l)%Z) ->
  ordenar (fun x y => (lote_id y - lote_id x)%Z) (F ++ [l])
  = l :: ordenar (fun x y => (lote_id y - lote_id x)%Z) F.
Proof.
  induction F as [| a F IH]; intros H; [reflexivity |].
  simpl. rewrite IH by (intros x Hx; apply H; right; exact Hx). simpl.
  specialize (H a (or_introl eq_refl)).
  destruct (lote_id l - lote_id a <=? 0)%Z eqn:Hc; [| reflexivity].
  apply Z.leb_le in Hc. lia.
Qed.

Lemma loteMasReciente_guardarLote b l idInv :
  (forall x, In x (bd_lotes b) -> (lote_id x < lote_id l)%Z) ->
  loteMasReciente (guardarLote b l) idInv
  = if (lote_idInventario l =? idInv)%Z then Some l else loteMasReciente b idInv.
Proof.
  intros H. unfold loteMasReciente, guardarLote. simpl.
  rewrite List.filter_app. simpl.
  destruct (lote_idInventario l =? idInv)%Z.
  - rewrite ordenar_mayor_al_final; [reflexivity |].
    intros x Hx. apply List.filter_In in Hx as [Hx _]. apply H, Hx.
  - rewrite app_nil_r. reflexivity.
Qed.

Lemma procesarDetalles_compra_reciente ahora detalles metodo fechaEmision cs ls
    st res st' idInv :
  procesarDetalles ahora detalles "COMPRA" metodo fechaEmision cs ls st
  = (Exito res, st') ->
  match ultimoPrecio detalles idInv with
  | Some p => exists l, loteMasReciente (bd st') idInv = Some l
                        /\ lote_costoUnitario l = p
                        /\ lote_cantidadInicial l = 0
  | None => loteMasReciente (bd st') idInv = loteMasReciente (bd st) idInv
  end.
Proof.
  revert cs ls st. induction detalles as [| d resto IH]; intros cs ls st; simpl.
  - unfold retornar. intros H. injection H as Hr Hs. subst. reflexivity.
  - unfold ligar.
    destruct (registrarLoteCompra ahora d fechaEmision st) as [[lote | e] st1] eqn:Hreg;
      [| discriminate].
    apply registrarLoteCompra_exito in Hreg as (Hval & Hlote & Hid & Hbd).
    intros Hproc. apply IH in Hproc.
    destruct (ultimoPrecio resto idInv) as [p |]; [exact Hproc |].
    rewrite Hproc, Hbd.
    rewrite loteMasReciente_guardarLote
      by (intros x Hx; rewrite Hid; apply nuevoId_mayor, in_map, Hx).
    destruct Hlote as (Hinv & Hini & Hcosto & _). rewrite Hinv.
    destruct (lote_idInventario lote =? idInv)%Z; [| reflexivity].
    exists lote. auto.
Qed.

Lemma ultimoPrecio_de_linea detalles d idInv :
  In d detalles -> cd_inventario d = Some idInv ->
  exists p, ultimoPrecio detalles idInv = Some p.
Proof.
  induction detalles as [| x resto IH]; [intros [] |].
  intros [-> | Hin] Hinv; simpl.
  - destruct (ultimoPrecio resto idInv) as [p |]; [exists p; reflexivity |].
    rewrite Hinv, Z.eqb_refl. eexists. reflexivity.
  - destruct (IH Hin Hinv) as [p Hp]. rewrite Hp. exists p. reflexivity.
Qed.

Lemma ultimoPrecio_es_de_linea detalles idInv p :
  ultimoPrecio detalles idInv = Some p ->
  exists d, In d detalles /\ cd_inventario d = Some idInv
            /\ cd_precioUnitario d = p.
Proof.
  induction detalles as [| x resto IH]; [discriminate |]. simpl.
  destruct (ultimoPrecio resto idInv) as [p' |].
  - intros [= <-]. destruct (IH eq_refl) as (d & Hin & Hd). exists d. split; auto.
  - destruct (cd_inventario x) as [j |] eqn:Hj; [| discriminate].
    destruct (j =? idInv)%Z eqn:He; [| discriminate].
    apply Z.eqb_eq in He. subst j. intros [= <-]. exists x. auto.
Qed.

(** What [validarLotesCompra] checks, line by line. *)
Lemma validarDetalles_true b detalles :
  validarDetalles b detalles = true
  <-> Forall
        (fun d =>
           exists idInv l,
             cd_inventario d = Some idInv
             /\ loteMasReciente b idInv = Some l
             /\ (lote_cantidadInicial l == cd_cantidad d
                 \/ lote_cantidadInicial l == 0)
             /\ lote_costoUnitario l == cd_precioUnitario d)
        detalles.
Proof.
  induction detalles as [| d resto IH]; simpl.
  - split; [constructor | reflexivity].
  - rewrite List.Forall_cons_iff, <- IH.
    destruct (cd_inventario d) as [idInv |].
    2:{ split; [discriminate | intros [(i & l & Hi & _) _]; discriminate]. }
    destruct (loteMasReciente b idInv) as [l |] eqn:Hl.
    2:{ split; [discriminate |]. intros [(i & l & Hi & Hl' & _) _].
        injection Hi as Hi. subst i. congruence. }
    split.
    + intros H.
      destruct (negb (Qeq_bool (lote_cantidadInicial l) (cd_cantidad d)
                      || Qeq_bool (lote_cantidadInicial l) 0)
                || negb (Qeq_bool (lote_costoUnitario l) (cd_precioUnitario d)))
        eqn:Hc; [discriminate |].
      apply orb_false_iff in Hc as [Hq Hp].
      apply negb_false_iff in Hq, Hp.
      apply orb_true_iff in Hq. apply Qeq_bool_iff in Hp.
      split; [| exact H]. exists idInv, l. repeat split; auto.
      destruct Hq as [Hq | Hq]; apply Qeq_bool_iff in Hq; auto.
    + intros [(i & l' & Hi & Hl' & Hq & Hp) Hresto].
      injection Hi as Hi. subst i. rewrite Hl in Hl'.
      injection Hl' as Hl'. subst l'.
      apply Qeq_bool_iff in Hp. rewrite Hp.
      assert (Hq' : Qeq_bool (lote_cantidadInicial l) (cd_cantidad d)
                    || Qeq_bool (lote_cantidadInicial l) 0 = true).
      { apply orb_true_iff.
        destruct Hq as [Hq | Hq]; apply Qeq_bool_iff in Hq; auto. }
      rewrite Hq'. simpl. exact Hresto.
Qed.

(** X12. After [procesarLotesComprobante] has accepted a purchase,
    [validarLotesCompra] accepts its lines exactly when any two lines for
    the same inventory position carry the same unit price: each line is
    checked against the lot with the highest id of its position, which is
    the lot of the last line for that position. The validation leaves the
    state as it is. *)
Theorem validarLotesCompra_tras_compra ahora detalles metodo fechaEmision st res st' :
  procesarLotesComprobante ahora detalles "COMPRA" metodo fechaEmision st
  = (Exito res, st') ->
  snd (validarLotesCompra detalles st') = st'
  /\ (fst (validarLotesCompra detalles st') = true
      <-> forall d1 d2, In d1 detalles -> In d2 detalles ->
            cd_inventario d1 = cd_inventario d2 ->
            cd_precioUnitario d1 == cd_precioUnitario d2).
Proof.
  intros Hproc. split; [reflexivity |]. unfold procesarLotesComprobante in Hproc.
  pose proof (procesarDetalles_compra _ _ _ _ _ _ _ _ _ Hproc)
    as (nuevos & _ & _ & Hval & _).
  assert (Hrec := fun idInv =>
            procesarDetalles_compra_reciente _ _ _ _ _ _ _ _ _ idInv Hproc).
  unfold validarLotesCompra. simpl. rewrite validarDetalles_true.
  rewrite List.Forall_forall in Hval. split.
  - intros Hok d1 d2 H1 H2 Hinv. rewrite List.Forall_forall in Hok.
    destruct (Hok d1 H1) as (i1 & l1 & Hi1 & Hl1 & _ & Hc1).
    destruct (Hok d2 H2) as (i2 & l2 & Hi2 & Hl2 & _ & Hc2).
    assert (i2 = i1) by congruence. subst i2.
    assert (l2 = l1) by congruence. subst l2.
    rewrite <- Hc1, <- Hc2. reflexivity.
  - intros Hmismo. apply List.Forall_forall. intros d Hd.
    destruct (Hval d Hd) as (_ & _ & idInv & Hinv & _).
    destruct (ultimoPrecio_de_linea _ _ _ Hd Hinv) as [p Hp].
    specialize (Hrec idInv). rewrite Hp in Hrec.
    destruct Hrec as (l & Hl & Hcosto & Hini).
    destruct (ultimoPrecio_es_de_linea _ _ _ Hp) as (d' & Hd' & Hinv' & Hp').
    exists idInv, l. repeat split; auto.
    + right. rewrite Hini. reflexivity.
    + rewrite Hcosto, <- Hp'. apply Hmismo; auto. congruence.
Qed.

Lemma validarLotesCompra_tras_compra_witness :
  exists res st',
    procesarLotesComprobante (dia 20) [lineaCompraEj 4 7; lineaCompraEj 6 9]
      "COMPRA" FIFO (Some (dia 20)) estadoDosLotes = (Exito res, st')
    /\ fst (validarLotesCompra [lineaCompraEj 4 7; lineaCompraEj 6 9] st') = false.
Proof.
  destruct (procesarLotesComprobante (dia 20) [lineaCompraEj 4 7; lineaCompraEj 6 9]
              "COMPRA" FIFO (Some (dia 20)) estadoDosLotes) as [res st'] eqn:Hproc.
  destruct res as [res | e]; [| vm_compute in Hproc; discriminate Hproc].
  exists res, st'. split; [reflexivity |].
  destruct (validarLotesCompra_tras_compra _ _ _ _ _ _ _ Hproc) as [_ [Hsi _]].
  destruct (fst (validarLotesCompra [lineaCompraEj 4 7; lineaCompraEj 6 9] st'));
    [| reflexivity].
  specialize (Hsi eq_refl (lineaCompraEj 4 7) (lineaCompraEj 6 9)
                (or_introl eq_refl) (or_intror (or_introl eq_refl)) eq_refl).
  vm_compute in Hsi. discriminate Hsi.
Defined.

(** * From the lines of a voucher to the lines of its movement *)

(** ** The loop over the lots of a sale line *)

Lemma tomarDeLotes_sin_cantidad turnos lotes q acc :
  q <= 0 -> tomarDeLotes turnos lotes q acc = (acc, lotes).
Proof.
  intros Hq. destruct turnos as [| t]; [reflexivity |].
  destruct lotes as [| l r]; [reflexivity |]. simpl.
  destruct (Qgtb q 0) eqn:H; [| reflexivity].
  apply Qgtb_true in H. lra.
Qed.

Lemma tomarDeLotes_grupo (g : list ConsumoLote) resto q acc turnos :
  Forall (fun c => 0 < cl_cantidad c) g ->
  q == cantidadConsumida g ->
  (length g < turnos)%nat ->
  exists salidas,
    tomarDeLotes turnos (List.map loteUsadoDeConsumo g ++ resto) q acc
    = (acc ++ salidas, resto)
    /\ Forall2 salidaDeConsumo g salidas.
Proof.
  intros Hg. revert q acc turnos.
  induction Hg as [| c g Hc Hg IH]; intros q acc turnos Hq Ht.
  - unfold cantidadConsumida, sumaQ in Hq. simpl in Hq.
    exists []. rewrite app_nil_r. split; [| constructor].
    apply tomarDeLotes_sin_cantidad. lra.
  - destruct turnos as [| t]; [simpl in Ht; lia |]. simpl in Ht.
    assert (Hsum : 0 <= cantidadConsumida g).
    { clear - Hg. unfold cantidadConsumida, sumaQ.
      induction Hg as [| x l Hx Hl IHl]; simpl; lra. }
    assert (Hq' : q == cl_cantidad c + cantidadConsumida g).
    { rewrite Hq. unfold cantidadConsumida, sumaQ. simpl. reflexivity. }
    simpl.
    assert (Hpos : Qgtb q 0 = true).
    { destruct (Qgtb q 0) eqn:H; [reflexivity |]. apply Qgtb_false in H. lra. }
    rewrite Hpos.
    assert (Hmin : Qmin q (cl_cantidad c) == cl_cantidad c).
    { apply Q.min_r. lra. }
    assert (Heq : Qeq_bool (Qmin q (cl_cantidad c)) (cl_cantidad c) = true)
      by (apply Qeq_bool_iff, Hmin).
    rewrite Heq.
    destruct (IH (q - Qmin q (cl_cantidad c))
                (acc ++ [{| ds_idLote := cl_idLote c;
                            ds_costoUnitarioDeLote := cl_costoUnitario c;
                            ds_cantidad := Qmin q (cl_cantidad c) |}]) t)
      as (salidas & Hs & Hf2); [lra | lia |].
    eexists (_ :: salidas). rewrite Hs, <- app_assoc. simpl.
    split; [reflexivity |]. constructor; [| exact Hf2].
    unfold salidaDeConsumo. simpl. auto.
Qed.

(** The loop ends on its own: past one turn for each lot left, more turns
    change nothing. *)
Lemma tomarDeLotes_turnos lotes q acc t1 t2 :
  (length lotes < t1)%nat -> (length lotes < t2)%nat ->
  tomarDeLotes t1 lotes q acc = tomarDeLotes t2 lotes q acc.
Proof.
  revert q acc t1 t2. induction lotes as [| l r IH]; intros q acc t1 t2 H1 H2.
  - destruct t1, t2; reflexivity.
  - destruct t1 as [| a]; [simpl in H1; lia |].
    destruct t2 as [| b]; [simpl in H2; lia |].
    simpl in H1, H2. simpl.
    destruct (Qgtb q 0) eqn:Hq; [| reflexivity].
    destruct (Qeq_bool (Qmin q (lu_cantidad l)) (lu_cantidad l)) eqn:He.
    + apply IH; lia.
    + apply Qeq_bool_neq in He.
      assert (Hcero : q - Qmin q (lu_cantidad l) <= 0).
      { destruct (Qmin_cases q (lu_cantidad l)) as [[_ Hm] | [_ Hm]];
          [rewrite Hm; lra | contradiction]. }
      rewrite !(tomarDeLotes_sin_cantidad _ _ _ _ Hcero). reflexivity.
Qed.

(** ** The lines of a sale *)

Lemma crearDetallesDesde_venta d resto lotes acc idInv :
  cd_inventario d = Some idInv -> idInv <> 0%Z ->
  crearDetallesDesde (d :: resto) "VENTA" lotes acc
  = let '(lotesParaEsteDetalle, lotes') :=
      tomarDeLotes (turnosDe lotes) lotes (cd_cantidad d) [] in
    crearDetallesDesde resto "VENTA" lotes'
      (acc ++ [{| cmd_idInventario := idInv;
                  cmd_cantidad := cd_cantidad d;
                  cmd_idLote := None;
                  cmd_detallesSalida :=
                    match lotesParaEsteDetalle with
                    | [] => None
                    | _ :: _ => Some lotesParaEsteDetalle
                    end |}]).
Proof.
  intros Hinv Hcero. cbn [crearDetallesDesde]. rewrite Hinv.
  apply Z.eqb_neq in Hcero. rewrite Hcero.
  change (toUpperCase "VENTA") with "VENTA"%string.
  change (String.eqb "VENTA" "COMPRA") with false.
  change (includes "VENTA" "ENTRADA") with false.
  change (includes "VENTA" "INGRESO") with false.
  cbn [orb negb].
  destruct (tomarDeLotes (turnosDe lotes) lotes (cd_cantidad d) []) as [para lotes'].
  reflexivity.
Qed.

Lemma calcularConsumoFIFO_bd id q fechaHasta st :
  bd (snd (calcularConsumoFIFO id q fechaHasta st)) = bd st.
Proof.
  rewrite calcularConsumoFIFO_eq.
  pose proof (obtenerLotesDisponiblesFIFO_bd id fechaHasta st) as Hbd.
  destruct (obtenerLotesDisponiblesFIFO id fechaHasta st) as [l st1].
  destruct (consumirLotes l [] q) as [c r].
  destruct (Qgtb r 0); exact Hbd.
Qed.

(** With a cutoff date, the FIFO consumption reads the store only. *)
Lemma calcularConsumoFIFO_con_fecha id q hasta st1 st2 :
  bd st1 = bd st2 ->
  fst (calcularConsumoFIFO id q (Some hasta) st1)
  = fst (calcularConsumoFIFO id q (Some hasta) st2).
Proof.
  intros Hbd. rewrite !calcularConsumoFIFO_eq. unfold obtenerLotesDisponiblesFIFO.
  pose proof (calcularStockInventario_por_lotes id hasta st1) as H1.
  pose proof (calcularStockInventario_por_lotes id hasta st2) as H2.
  rewrite Hbd in H1. rewrite <- H2 in H1.
  destruct (calcularStockInventario id (Some hasta) st1) as [r1 s1].
  destruct (calcularStockInventario id (Some hasta) st2) as [r2 s2].
  simpl in H1. subst r2.
  destruct r1 as [r |].
  - match goal with
    | |- context [consumirLotes ?l [] q] =>
        destruct (consumirLotes l [] q) as [c rest]
    end.
    destruct (Qgtb rest 0); reflexivity.
  - simpl. destruct (Qgtb q 0); reflexivity.
Qed.

Lemma calcularCostoUnitarioVenta_bd id q metodo fecha st :
  bd (snd (calcularCostoUnitarioVenta id q metodo fecha st)) = bd st.
Proof.
  rewrite calcularCostoUnitarioVenta_estado. apply calcularStockInventario_bd.
Qed.

Lemma lineasVenta_grupos metodo fecha st detalles costos usados st' :
  lineasVenta metodo (Some fecha) st detalles costos usados st' ->
  forall st0, bd st0 = bd st ->
  exists grupos,
    usados = List.map loteUsadoDeConsumo (List.concat grupos)
    /\ Forall2
         (fun d g =>
            exists idInv,
              cd_inventario d = Some idInv
              /\ fst (calcularConsumoFIFO idInv (cd_cantidad d) (Some fecha) st0)
                 = Exito g)
         detalles grupos.
Proof.
  remember (Some fecha) as f eqn:Hf.
  induction 1 as [st | st detalle resto idInv costo st1 consumo st2 costos usados st'
                         Hinv Hcosto Hconsumo Hresto IH]; intros st0 Hbd.
  - exists []. split; [reflexivity | constructor].
  - subst f.
    assert (Hbd1 : bd st1 = bd st).
    { pose proof (calcularCostoUnitarioVenta_bd idInv (cd_cantidad detalle) metodo
                    (Some fecha) st) as H. rewrite Hcosto in H. exact H. }
    assert (Hbd2 : bd st2 = bd st1).
    { pose proof (calcularConsumoFIFO_bd idInv (cd_cantidad detalle)
                    (Some fecha) st1) as H. rewrite Hconsumo in H. exact H. }
    destruct (IH st0) as (grupos & Hu & Hf2).
    { simpl. congruence. }
    exists (consumo :: grupos). split.
    + simpl. rewrite List.map_app, Hu. reflexivity.
    + constructor; [| exact Hf2]. exists idInv. split; [exact Hinv |].
      rewrite (calcularConsumoFIFO_con_fecha idInv _ fecha st0 st1) by congruence.
      rewrite Hconsumo. reflexivity.
Qed.

Lemma crearDetallesDesde_grupos fecha st detalles grupos resto acc :
  Forall (fun d => cd_inventario d <> Some 0%Z) detalles ->
  Forall2
    (fun d g =>
       exists idInv,
         cd_inventario d = Some idInv
         /\ fst (calcularConsumoFIFO idInv (cd_cantidad d) (Some fecha) st)
            = Exito g)
    detalles grupos ->
  exists dtos,
    crearDetallesDesde detalles "VENTA"
      (List.map loteUsadoDeConsumo (List.concat grupos) ++ resto) acc
    = acc ++ dtos
    /\ Forall2 (detalleDeVenta fecha st) detalles dtos.
Proof.
  intros Hno Hf2. revert acc Hno.
  induction Hf2 as [| d g detalles grupos (idInv & Hinv & Hg) Hf2 IH]; intros acc Hno.
  - exists []. simpl. rewrite app_nil_r. split; [reflexivity | constructor].
  - inversion Hno as [| ? ? Hd Hno']; subst.
    assert (Hcero : idInv <> 0%Z) by (intros ->; contradiction).
    rewrite (crearDetallesDesde_venta _ _ _ _ _ Hinv Hcero).
    simpl List.concat. rewrite List.map_app, <- app_assoc.
    destruct (calcularConsumoFIFO idInv (cd_cantidad d) (Some fecha) st)
      as [r s] eqn:Hcons.
    simpl in Hg. subst r.
    destruct (calcularConsumoFIFO_exito _ _ _ _ _ _ Hcons) as ((n & Hlotes) & Hsum & Hnil).
    assert (Hpos : Forall (fun c => 0 < cl_cantidad c) g).
    { clear - Hlotes. revert Hlotes. generalize (firstn n (fst (obtenerLotesDisponiblesFIFO idInv (Some fecha) st))).
      intros l H. induction H as [| x c l g (_ & _ & Hp & _) H IH]; constructor; auto. }
    assert (Htoma : exists salidas,
               tomarDeLotes
                 (turnosDe (List.map loteUsadoDeConsumo g
                            ++ List.map loteUsadoDeConsumo (List.concat grupos) ++ resto))
                 (List.map loteUsadoDeConsumo g
                  ++ List.map loteUsadoDeConsumo (List.concat grupos) ++ resto)
                 (cd_cantidad d) []
               = (salidas, List.map loteUsadoDeConsumo (List.concat grupos) ++ resto)
               /\ Forall2 salidaDeConsumo g salidas).
    { destruct (Qlt_le_dec 0 (cd_cantidad d)) as [Hq | Hq].
      - destruct (tomarDeLotes_grupo g
                    (List.map loteUsadoDeConsumo (List.concat grupos) ++ resto)
                    (cd_cantidad d) []
                    (turnosDe (List.map loteUsadoDeConsumo g
                               ++ List.map loteUsadoDeConsumo (List.concat grupos)
                               ++ resto)))
          as (salidas & Hs & Hsal); auto.
        + symmetry. apply Hsum, Hq.
        + unfold turnosDe. rewrite length_app, length_map. lia.
        + exists salidas. split; [exact Hs | exact Hsal].
      - rewrite (Hnil Hq). exists []. split; [| constructor].
        cbn [List.map app]. apply tomarDeLotes_sin_cantidad, Hq. }
    destruct Htoma as (salidas & Hs & Hsal). rewrite Hs.
    destruct (IH (acc ++ [{| cmd_idInventario := idInv;
                             cmd_cantidad := cd_cantidad d;
                             cmd_idLote := None;
                             cmd_detallesSalida :=
                               match salidas with
                               | [] => None
                               | _ :: _ => Some salidas
                               end |}]) Hno') as (dtos & Hdtos & Hrel).
    eexists (_ :: dtos). rewrite Hdtos, <- app_assoc. simpl.
    split; [reflexivity |]. constructor; [| exact Hrel].
    unfold detalleDeVenta. simpl. repeat split; auto.
    exists g. rewrite Hcons. split; [reflexivity |].
    destruct Hsal as [| c sal g' salidas' Hcs Hsal]; [reflexivity |].
    split; [discriminate | constructor; assumption].
Qed.

(** The lines that the factory builds for an accepted sale. *)
Lemma procesarLotesComprobante_detalles_venta ahora detalles op metodo fecha st res st' :
  Forall (fun d => cd_inventario d <> Some 0%Z) detalles ->
  String.eqb op "COMPRA" = false ->
  procesarLotesComprobante ahora detalles op metodo (Some fecha) st
  = (Exito res, st') ->
  Forall2 (detalleDeVenta fecha st) detalles
    (createMovimientosDetallesFromDetallesComprobante detalles "VENTA"
       (lp_costoUnitario res) (lp_lotes res)).
Proof.
  intros Hno Hop Hproc. unfold procesarLotesComprobante in Hproc.
  apply (procesarDetalles_venta _ _ _ _ _ _ _ _ _ _ Hop) in Hproc
    as (costos & usados & _ & Hu & Hlineas).
  destruct (lineasVenta_grupos _ _ _ _ _ _ _ Hlineas st eq_refl) as (grupos & Husados & Hf2).
  simpl in Hu. rewrite Hu, Husados.
  unfold createMovimientosDetallesFromDetallesComprobante.
  destruct (crearDetallesDesde_grupos fecha st detalles grupos [] [] Hno Hf2)
    as (dtos & Hd & Hrel).
  rewrite app_nil_r in Hd. rewrite Hd. exact Hrel.
Qed.

(** X13. The lines of the movement of a sale. When
    [procesarLotesComprobante] has accepted, for a date, the lines of a
    voucher that is not a purchase, none of them for position id zero,
    [createMovimientosDetallesFromDetallesComprobante] in mode VENTA turns
    the lots it returned into one movement line per voucher line, in
    order: the line names the position and the quantity of the voucher
    line and no lot of its own, and its exit allocations are, lot by lot,
    those that [calcularConsumoFIFO] computes for the voucher line in the
    state before the call; a line whose consumption is empty gets none. *)
Theorem venta_detalles_de_movimiento ahora detalles op metodo fecha st res st' :
  Forall (fun d => cd_inventario d <> Some 0%Z) detalles ->
  String.eqb op "COMPRA" = false ->
  procesarLotesComprobante ahora detalles op metodo (Some fecha) st
  = (Exito res, st') ->
  Forall2 (detalleDeVenta fecha st) detalles
    (createMovimientosDetallesFromDetallesComprobante detalles "VENTA"
       (lp_costoUnitario res) (lp_lotes res)).
Proof.
  intros Hno Hop Hproc.
  exact (procesarLotesComprobante_detalles_venta _ _ _ _ _ _ _ _ Hno Hop Hproc).
Qed.

Lemma venta_detalles_de_movimiento_witness :
  exists res st',
    procesarLotesComprobante (dia 15) [lineaVentaEj] "VENTA" PROMEDIO
      (Some (dia 15)) estadoDosLotes = (Exito res, st')
    /\ Forall2 (detalleDeVenta (dia 15) estadoDosLotes) [lineaVentaEj]
         (createMovimientosDetallesFromDetallesComprobante [lineaVentaEj] "VENTA"
            (lp_costoUnitario res) (lp_lotes res)).
Proof.
  destruct (procesarLotesComprobante (dia 15) [lineaVentaEj] "VENTA" PROMEDIO
              (Some (dia 15)) estadoDosLotes) as [res st'] eqn:Hproc.
  destruct res as [res | e]; [| vm_compute in Hproc; discriminate Hproc].
  exists res, st'. split; [reflexivity |].
  apply (venta_detalles_de_movimiento (dia 15) [lineaVentaEj] "VENTA" PROMEDIO
           (dia 15) estadoDosLotes res st').
  - constructor; [discriminate | constructor].
  - reflexivity.
  - exact Hproc.
Defined.

(** ** The lines of a purchase *)

Lemma crearDetallesDesde_compra d resto lote lotes acc idInv :
  cd_inventario d = Some idInv -> idInv <> 0%Z ->
  crearDetallesDesde (d :: resto) "COMPRA" (lote :: lotes) acc
  = crearDetallesDesde resto "COMPRA" lotes
      (acc ++ [{| cmd_idInventario := idInv;
                  cmd_cantidad := cd_cantidad d;
                  cmd_idLote := Some (lu_idLote lote);
                  cmd_detallesSalida := None |}]).
Proof.
  intros Hinv Hcero. cbn [crearDetallesDesde]. rewrite Hinv.
  apply Z.eqb_neq in Hcero. rewrite Hcero. reflexivity.
Qed.

Lemma crearDetallesDesde_lotes_de_compra fecha b detalles nuevos acc :
  Forall2 (loteDeCompra fecha) detalles nuevos ->
  Forall (lineaDeCompraValida b) detalles ->
  crearDetallesDesde detalles "COMPRA"
    (List.map usoDeCompra (List.combine detalles nuevos)) acc
  = acc ++ List.map detalleDeCompra (List.combine detalles nuevos).
Proof.
  intros Hf2. revert acc.
  induction Hf2 as [| d l detalles nuevos Hdl Hf2 IH]; intros acc Hval.
  - simpl. rewrite app_nil_r. reflexivity.
  - inversion Hval as [| ? ? (_ & _ & idInv & Hinv & Hcero & _) Hval']; subst.
    simpl List.combine. simpl List.map.
    rewrite (crearDetallesDesde_compra _ _ _ _ _ _ Hinv Hcero), IH by exact Hval'.
    rewrite <- app_assoc. simpl. do 3 f_equal.
    destruct Hdl as (Hi & _). unfold detalleDeCompra. simpl.
    f_equal. congruence.
Qed.

(** X14. The lines of the movement of a purchase. When
    [procesarLotesComprobante] has accepted a purchase,
    [createMovimientosDetallesFromDetallesComprobante] in mode COMPRA turns
    the lots it returned into one movement line per voucher line, in
    order: the line names the position and the quantity of the voucher
    line and the lot created for that line, and it has no exit
    allocation. *)
Theorem compra_detalles_de_movimiento ahora detalles metodo fechaEmision st res st' :
  procesarLotesComprobante ahora detalles "COMPRA" metodo fechaEmision st
  = (Exito res, st') ->
  exists nuevos,
    bd_lotes (bd st') = bd_lotes (bd st) ++ nuevos
    /\ Forall2
         (loteDeCompra (match fechaEmision with Some f => f | None => ahora end))
         detalles nuevos
    /\ createMovimientosDetallesFromDetallesComprobante detalles "COMPRA"
         (lp_costoUnitario res) (lp_lotes res)
       = List.map detalleDeCompra (List.combine detalles nuevos).
Proof.
  intros Hproc. unfold procesarLotesComprobante in Hproc.
  apply procesarDetalles_compra in Hproc
    as (nuevos & Hbd & Hf2 & Hval & _ & Hls & _).
  exists nuevos. rewrite Hbd. split; [reflexivity |]. split; [exact Hf2 |].
  simpl in Hls. rewrite Hls.
  unfold createMovimientosDetallesFromDetallesComprobante.
  rewrite (crearDetallesDesde_lotes_de_compra _ _ _ _ _ Hf2 Hval). reflexivity.
Qed.

Lemma compra_detalles_de_movimiento_witness :
  exists res st' nuevos,
    procesarLotesComprobante (dia 20) [lineaCompraEj 4 7; lineaCompraEj 6 9]
      "COMPRA" FIFO (Some (dia 20)) estadoDosLotes = (Exito res, st')
    /\ bd_lotes (bd st') = bd_lotes (bd estadoDosLotes) ++ nuevos
    /\ createMovimientosDetallesFromDetallesComprobante
         [lineaCompraEj 4 7; lineaCompraEj 6 9] "COMPRA"
         (lp_costoUnitario res) (lp_lotes res)
       = List.map detalleDeCompra
           (List.combine [lineaCompraEj 4 7; lineaCompraEj 6 9] nuevos).
Proof.
  destruct (procesarLotesComprobante (dia 20) [lineaCompraEj 4 7; lineaCompraEj 6 9]
              "COMPRA" FIFO (Some (dia 20)) estadoDosLotes) as [res st'] eqn:Hproc.
  destruct res as [res | e]; [| vm_compute in Hproc; discriminate Hproc].
  destruct (compra_detalles_de_movimiento _ _ _ _ _ _ _ Hproc)
    as (nuevos & Hbd & _ & Hdet).
  exists res, st', nuevos. auto.
Defined.

(** * Writing a movement *)

Lemma sumaQ_app {A} (col : A -> Q) l1 l2 :
  sumaQ col (l1 ++ l2) == sumaQ col l1 + sumaQ col l2.
Proof.
  unfold sumaQ. induction l1 as [| x l1 IH]; simpl; [lra | rewrite IH; lra].
Qed.

Lemma guardarDetalles_filas mov dtos b :
  exists filas,
    guardarDetalles mov dtos b
    = {| bd_almacenes := bd_almacenes b;
         bd_productos := bd_productos b;
         bd_inventarios := bd_inventarios b;
         bd_lotes := bd_lotes b;
         bd_detalles := bd_detalles b ++ filas |}
    /\ Forall2 (filaEscrita mov) dtos filas.
Proof.
  revert b. induction dtos as [| dto dtos IH]; intros b; simpl.
  - exists []. rewrite app_nil_r. destruct b. split; [reflexivity | constructor].
  - match goal with
    | |- context [guardarDetalle b ?f] =>
        destruct (IH (guardarDetalle b f)) as (filas & Hg & Hf2);
        exists (f :: filas)
    end.
    rewrite Hg. simpl. rewrite <- app_assoc. simpl.
    split; [reflexivity |]. constructor; [| exact Hf2].
    unfold filaEscrita. simpl. auto.
Qed.

Lemma createWithManager_filas dto comprobante st mov st' :
  createWithManager dto comprobante st = (Exito mov, st') ->
  mov_tipo mov = cm_tipo dto
  /\ mov_fecha mov = cm_fecha dto
  /\ mov_estado mov = cm_estado dto
  /\ cache st' = cache st
  /\ exists filas,
       bd st' = {| bd_almacenes := bd_almacenes (bd st);
                   bd_productos := bd_productos (bd st);
                   bd_inventarios := bd_inventarios (bd st);
                   bd_lotes := bd_lotes (bd st);
                   bd_detalles := bd_detalles (bd st) ++ filas |}
       /\ Forall2 (filaEscrita mov) (cm_detalles dto) filas.
Proof.
  unfold createWithManager. intros H. injection H as Hm Hs. subst mov st'. simpl.
  repeat split.
  match goal with
  | |- context [guardarDetalles ?m _ _] =>
      destruct (guardarDetalles_filas m (cm_detalles dto) (bd st)) as (filas & Hg & Hf2)
  end.
  exists filas. split; [exact Hg | exact Hf2].
Qed.

(** A lot that stores no initial quantity, from which nothing was drawn
    and that no adjustment names, holds what entered it. *)
Lemma resultadoLote_solo_entradas b fechaHasta lote E :
  lote_cantidadInicial lote = 0 ->
  0 <= E ->
  sumaDetallesLote b (lote_id lote) ENTRADA fechaHasta == E ->
  sumaSalidasLote b (lote_id lote) fechaHasta == 0 ->
  sumaDetallesLote b (lote_id lote) AJUSTE fechaHasta == 0 ->
  cantidadActual (resultadoLote b fechaHasta lote) == E.
Proof.
  intros Hini HE He Hs Ha. unfold resultadoLote, cantidadSinPiso. simpl.
  destruct (tieneMovimientos _ _ _) eqn:Ht.
  - destruct (Qmax_0_cases
                (sumaDetallesLote b (lote_id lote) ENTRADA fechaHasta
                 - sumaSalidasLote b (lote_id lote) fechaHasta
                 + sumaDetallesLote b (lote_id lote) AJUSTE fechaHasta))
      as [[H1 H2] | [H1 H2]]; rewrite H2; lra.
  - unfold tieneMovimientos in Ht.
    apply orb_false_iff in Ht as [Ht _]. apply orb_false_iff in Ht as [Ht _].
    apply Qgtb_false in Ht.
    assert (HE0 : E == 0) by lra.
    rewrite Hini.
    destruct fechaHasta as [hasta |]; [| rewrite HE0; reflexivity].
    destruct (buscarInvInit b (lote_id lote)) as [invInit |];
      destruct (_ <=? _)%Z; rewrite HE0; reflexivity.
Qed.

(** ** The stock that a purchase brings *)

Lemma filas_de_otros_lotes mov (P : MovimientoDetalle -> bool) n ds ls filas :
  Forall2 (filaEscrita mov) (List.map detalleDeCompra (List.combine ds ls)) filas ->
  Forall (fun l => lote_id l <> n) ls ->
  List.filter (fun f => esDelLote n f && P f) filas = [].
Proof.
  intros Hf2 Hno. apply filter_todo_falso. intros f Hf.
  assert (Hex : exists l, In l ls /\ md_idLote f = Some (lote_id l)).
  { clear Hno. revert ls filas Hf2 Hf.
    induction ds as [| d ds IH]; intros ls filas Hf2 Hf.
    - inversion Hf2; subst. destruct Hf.
    - destruct ls as [| l ls]; [inversion Hf2; subst; destruct Hf |].
      simpl in Hf2. inversion Hf2 as [| ? f0 ? filas' Hf0 Hf2']; subst.
      destruct Hf as [<- | Hf].
      + exists l. split; [left; reflexivity |]. apply Hf0.
      + destruct (IH ls filas' Hf2' Hf) as (l' & Hl' & Hid).
        exists l'. split; [right; exact Hl' | exact Hid]. }
  destruct Hex as (l & Hl & Hid). rewrite List.Forall_forall in Hno.
  unfold esDelLote. rewrite Hid.
  destruct (lote_id l =? n)%Z eqn:He; [| reflexivity].
  apply Z.eqb_eq in He. exfalso. apply (Hno l Hl He).
Qed.

Lemma entradas_de_compra mov hasta ds ls filas :
  mov_tipo mov = ENTRADA -> mov_estado mov = PROCESADO ->
  StronglySorted (fun x y => (lote_id x < lote_id y)%Z) ls ->
  Forall2 (filaEscrita mov) (List.map detalleDeCompra (List.combine ds ls)) filas ->
  forall d l, In (d, l) (List.combine ds ls) ->
    sumaQ md_cantidad
      (List.filter (fun f => esDelLote (lote_id l) f
                             && movimientoCuenta ENTRADA (Some hasta) f) filas)
    == if (mov_fecha mov <=? hasta)%Z then cd_cantidad d else 0.
Proof.
  intros Ht He. revert ls filas.
  induction ds as [| d0 ds IH]; intros ls filas Hs Hf2 d l Hin; [destruct Hin |].
  destruct ls as [| l0 ls]; [destruct Hin |].
  simpl in Hf2. inversion Hf2 as [| ? f0 ? filas' Hf0 Hf2']; subst.
  inversion Hs as [| ? ? Hs' Hmay]; subst.
  destruct Hf0 as (Hmov & _ & Hlote & Hq & _). simpl in Hlote, Hq.
  simpl. unfold esDelLote at 1. rewrite Hlote.
  unfold movimientoCuenta at 1. rewrite Hmov, Ht, He. simpl.
  destruct Hin as [Heq | Hin].
  - injection Heq as <- <-. rewrite Z.eqb_refl. simpl.
    rewrite (filas_de_otros_lotes mov _ (lote_id l0) ds ls filas' Hf2').
    + destruct (mov_fecha mov <=? hasta)%Z; unfold sumaQ; simpl; rewrite ?Hq; lra.
    + eapply List.Forall_impl; [| exact Hmay]. simpl. intros x Hx. lia.
  - assert (Hne : (lote_id l0 =? lote_id l)%Z = false).
    { apply Z.eqb_neq. rewrite List.Forall_forall in Hmay.
      apply in_combine_r in Hin. specialize (Hmay l Hin). lia. }
    rewrite Hne. simpl. apply (IH ls filas' Hs' Hf2' d l Hin).
Qed.

Lemma ordenados_mismo_id (ls : list InventarioLote) x y :
  StronglySorted (fun a b => (lote_id a < lote_id b)%Z) ls ->
  In x ls -> In y ls -> lote_id x = lote_id y -> x = y.
Proof.
  induction 1 as [| a ls Hs IH Hmay]; intros Hx Hy Hid; [destruct Hx |].
  rewrite List.Forall_forall in Hmay.
  destruct Hx as [<- | Hx], Hy as [<- | Hy]; auto.
  - specialize (Hmay y Hy). lia.
  - specialize (Hmay x Hx). lia.
Qed.

Lemma Forall2_combine_In {A B} (R : A -> B -> Prop) l1 l2 a b :
  Forall2 R l1 l2 -> In (a, b) (List.combine l1 l2) -> R a b.
Proof.
  induction 1 as [| x y l1 l2 Hxy _ IH]; intros Hin; [destruct Hin |].
  destruct Hin as [Heq | Hin]; [injection Heq as <- <-; exact Hxy | auto].
Qed.

(** The lots of the store after the entry of a purchase has been written. *)
Lemma compra_registrada_lotes ahora detalles metodo fechaEmision st res st1
    dto comprobante mov st2 :
  integridadReferencial (bd st) ->
  procesarLotesComprobante ahora detalles "COMPRA" metodo fechaEmision st
  = (Exito res, st1) ->
  cm_tipo dto = ENTRADA ->
  cm_estado dto = PROCESADO ->
  cm_detalles dto
  = createMovimientosDetallesFromDetallesComprobante detalles "COMPRA"
      (lp_costoUnitario res) (lp_lotes res) ->
  createWithManager dto comprobante st1 = (Exito mov, st2) ->
  exists nuevos,
    bd_lotes (bd st2) = bd_lotes (bd st) ++ nuevos
    /\ Forall2
         (loteDeCompra (match fechaEmision with Some f => f | None => ahora end))
         detalles nuevos
    /\ (forall d l hasta, In (d, l) (List.combine detalles nuevos) ->
          exists r,
            fst (calcularStockLote (lote_id l) (Some hasta) st2) = Some r
            /\ costoUnitario r = cd_precioUnitario d
            /\ cantidadActual r
               == if (cm_fecha dto <=? hasta)%Z then cd_cantidad d else 0)
    /\ (forall l hasta, In l (bd_lotes (bd st)) ->
          fst (calcularStockLote (lote_id l) (Some hasta) st2)
          = fst (calcularStockLote (lote_id l) (Some hasta) st)).
Proof.
  intros Hint Hproc Htipo Hestado Hdet Hcrea.
  unfold procesarLotesComprobante in Hproc.
  pose proof (procesarDetalles_compra _ _ _ _ _ _ _ _ _ Hproc)
    as (nuevos & Hbd1 & Hf2 & Hval & _ & Hls & Hfresh & Hsort).
  simpl in Hls. rewrite Hls in Hdet.
  unfold createMovimientosDetallesFromDetallesComprobante in Hdet.
  rewrite (crearDetallesDesde_lotes_de_compra _ _ _ _ _ Hf2 Hval) in Hdet.
  simpl in Hdet.
  apply createWithManager_filas in Hcrea
    as (Hmt & Hmf & Hme & _ & filas & Hbd2 & Hfilas).
  rewrite Hdet in Hfilas. rewrite Htipo in Hmt. rewrite Hestado in Hme.
  rewrite Hbd1 in Hbd2. simpl in Hbd2.
  exists nuevos. rewrite Hbd2. simpl.
  split; [reflexivity |]. split; [exact Hf2 |].
  destruct Hint as [_ Hint]. rewrite List.Forall_forall in Hint.
  rewrite List.Forall_forall in Hfresh.
  assert (Hsin : forall f, In f filas -> md_detallesSalida f = []).
  { clear - Hfilas. intros f Hf.
    remember (List.map detalleDeCompra (List.combine detalles nuevos)) as dtos eqn:Hd.
    assert (Hnone : Forall (fun x => cmd_detallesSalida x = None) dtos).
    { subst dtos. apply List.Forall_forall. intros x Hx.
      apply in_map_iff in Hx as (dl & <- & _). reflexivity. }
    clear Hd. induction Hfilas as [| x f0 dtos filas (_ & _ & _ & _ & Hs) H IH];
      [destruct Hf |].
    inversion Hnone as [| ? ? Hx Hnone']; subst.
    destruct Hf as [<- | Hf]; [rewrite Hs, Hx; reflexivity | apply IH; auto]. }
  assert (Hviejas : forall n (P : MovimientoDetalle -> bool),
             ~ In n (List.map lote_id (bd_lotes (bd st))) ->
             List.filter (fun f => esDelLote n f && P f) (bd_detalles (bd st)) = []).
  { intros n P Hn. apply filter_todo_falso. intros f Hf.
    destruct (Hint f Hf) as (_ & Hl & _). unfold esDelLote.
    destruct (md_idLote f) as [x |] eqn:Hx; [| reflexivity].
    destruct (x =? n)%Z eqn:He; [| reflexivity].
    apply Z.eqb_eq in He. subst x. exfalso. apply Hn, Hl. reflexivity. }
  split.
  - intros d l hasta Hin.
    assert (Hl : In l nuevos) by (apply in_combine_r in Hin; exact Hin).
    destruct (Hfresh l Hl) as [Hpos Hmayor].
    assert (Hnuevo : ~ In (lote_id l) (List.map lote_id (bd_lotes (bd st)))).
    { intros H. apply in_map_iff in H as (x & Hx & Hxin).
      specialize (Hmayor x Hxin). lia. }
    rewrite calcularStockLote_con_fecha. unfold stockDeLote, buscarLote.
    rewrite Hbd2. simpl. rewrite find_app_.
    destruct (List.find (fun l0 => (lote_id l0 =? lote_id l)%Z) (bd_lotes (bd st)))
      as [y |] eqn:Hf.
    { exfalso. apply find_some in Hf as [Hy He]. apply Z.eqb_eq in He.
      apply Hnuevo. rewrite <- He. apply in_map, Hy. }
    destruct (List.find (fun l0 => (lote_id l0 =? lote_id l)%Z) nuevos) as [y |] eqn:Hf';
      [| exfalso; apply (find_none _ _ Hf') in Hl; rewrite Z.eqb_refl in Hl;
         discriminate].
    apply find_some in Hf' as [Hy He]. apply Z.eqb_eq in He.
    assert (Hyl : y = l).
    { apply (ordenados_mismo_id nuevos y l Hsort Hy Hl He). }
    subst y.
    destruct (Forall2_combine_In _ _ _ _ _ Hf2 Hin) as (_ & Hini & Hcosto & _).
    eexists. split; [reflexivity |]. split; [exact Hcosto |].
    apply resultadoLote_solo_entradas; [exact Hini | | | |].
    + destruct (cm_fecha dto <=? hasta)%Z; [| lra].
      apply in_combine_l in Hin. rewrite List.Forall_forall in Hval.
      destruct (Hval d Hin) as (Hq & _). lra.
    + unfold sumaDetallesLote. simpl. rewrite List.filter_app, sumaQ_app.
      rewrite Hviejas by exact Hnuevo.
      rewrite (entradas_de_compra mov hasta detalles nuevos filas Hmt Hme Hsort
                 Hfilas d l Hin), Hmf.
      unfold sumaQ at 1. simpl. lra.
    + unfold sumaSalidasLote. simpl. rewrite flat_map_todo_nil; [reflexivity |].
      intros f Hfi. apply List.filter_In in Hfi as [Hfi _].
      apply in_app_or in Hfi as [Hfi | Hfi].
      * destruct (Hint f Hfi) as (_ & _ & Hds). apply filter_todo_falso.
        intros ds Hin'. rewrite List.Forall_forall in Hds.
        apply Z.eqb_neq. intros Heq.
        destruct (Hds ds Hin') as [H0 | Hi]; [lia |].
        apply Hnuevo. rewrite <- Heq. exact Hi.
      * rewrite (Hsin f Hfi). reflexivity.
    + unfold sumaDetallesLote. simpl. rewrite List.filter_app, sumaQ_app.
      rewrite Hviejas by exact Hnuevo.
      rewrite (filter_todo_falso _ filas); [unfold sumaQ; simpl; lra |].
      intros f Hfi.
      assert (Hmovf : md_movimiento f = mov).
      { clear - Hfilas Hfi. induction Hfilas as [| x f0 dtos filas (H & _) _ IH];
          [destruct Hfi |]. destruct Hfi as [<- | Hfi]; auto. }
      unfold movimientoCuenta. rewrite Hmovf, Hmt. simpl.
      rewrite andb_false_r. simpl. apply andb_false_r.
  - intros l hasta Hl. rewrite !calcularStockLote_con_fecha.
    unfold stockDeLote, buscarLote. rewrite Hbd2. simpl. rewrite find_app_.
    destruct (List.find (fun l0 => (lote_id l0 =? lote_id l)%Z) (bd_lotes (bd st)))
      as [y |] eqn:Hf;
      [| exfalso; apply (find_none _ _ Hf) in Hl; rewrite Z.eqb_refl in Hl;
         discriminate].
    simpl. f_equal.
    apply find_some in Hf as [Hy He]. apply Z.eqb_eq in He.
    assert (Hotros : forall (P : MovimientoDetalle -> bool),
               List.filter (fun f => esDelLote (lote_id y) f && P f) filas = []).
    { intros P. apply (filas_de_otros_lotes mov P (lote_id y) detalles nuevos filas Hfilas).
      apply List.Forall_forall. intros x Hx. destruct (Hfresh x Hx) as [_ Hm].
      specialize (Hm y Hy). lia. }
    unfold resultadoLote, cantidadSinPiso, sumaDetallesLote, sumaSalidasLote,
      buscarInvInit. simpl.
    rewrite !List.filter_app, !Hotros, !app_nil_r.
    rewrite List.flat_map_app.
    rewrite (flat_map_todo_nil _ (List.filter _ filas)).
    2:{ intros f Hfi. apply List.filter_In in Hfi as [Hfi _].
        rewrite (Hsin f Hfi). reflexivity. }
    rewrite app_nil_r, find_app_.
    assert (Hfind : List.find
                      (fun d => esDelLote (lote_id y) d
                                && esProcesado (mov_estado (md_movimiento d))
                                && match mov_numeroDocumento (md_movimiento d) with
                                   | Some doc => String.eqb doc "INV-INIT"
                                   | None => false
                                   end) filas = None).
    { destruct (List.find _ filas) as [f |] eqn:Hff; [| reflexivity].
      apply find_some in Hff as [Hfin Hb].
      assert (Hfil : In f (List.filter
                             (fun f => esDelLote (lote_id y) f && true) filas)).
      { apply List.filter_In. split; [exact Hfin |].
        apply andb_true_iff in Hb as [Hb _]. apply andb_true_iff in Hb as [Hb _].
        rewrite Hb. reflexivity. }
      rewrite Hotros in Hfil. destruct Hfil. }
    rewrite Hfind.
    destruct (List.find _ (bd_detalles (bd st))); reflexivity.
Qed.


(** X15. The stock that a purchase brings. In a store whose foreign keys
    hold, let [procesarLotesComprobante] accept a purchase, the factory
    build the lines of its movement in mode COMPRA, and
    [createWithManager] write them in a processed entry: then the lot
    created for a line holds, for every cutoff date from the date of the
    movement on, exactly the quantity of the line, at the price of the
    line as unit cost, and nothing for an earlier cutoff; and the lots that the store held before answer as
    before. *)
Theorem compra_registrada_da_stock ahora detalles metodo fechaEmision st res st1
    dto comprobante mov st2 :
  integridadReferencial (bd st) ->
  procesarLotesComprobante ahora detalles "COMPRA" metodo fechaEmision st
  = (Exito res, st1) ->
  cm_tipo dto = ENTRADA ->
  cm_estado dto = PROCESADO ->
  cm_detalles dto
  = createMovimientosDetallesFromDetallesComprobante detalles "COMPRA"
      (lp_costoUnitario res) (lp_lotes res) ->
  createWithManager dto comprobante st1 = (Exito mov, st2) ->
  exists nuevos,
    bd_lotes (bd st2) = bd_lotes (bd st) ++ nuevos
    /\ Forall2
         (loteDeCompra (match fechaEmision with Some f => f | None => ahora end))
         detalles nuevos
    /\ (forall d l hasta, In (d, l) (List.combine detalles nuevos) ->
          exists r,
            fst (calcularStockLote (lote_id l) (Some hasta) st2) = Some r
            /\ costoUnitario r = cd_precioUnitario d
            /\ cantidadActual r
               == if (cm_fecha dto <=? hasta)%Z then cd_cantidad d else 0)
    /\ (forall l hasta, In l (bd_lotes (bd st)) ->
          fst (calcularStockLote (lote_id l) (Some hasta) st2)
          = fst (calcularStockLote (lote_id l) (Some hasta) st)).
Proof.
  intros Hint Hproc Htipo Hestado Hdet Hcrea.
  destruct (compra_registrada_lotes _ _ _ _ _ _ _ _ _ _ _ Hint Hproc Htipo Hestado
              Hdet Hcrea) as (nuevos & Hlotes & Hf2 & Hnuevos & Hviejos).
  exists nuevos. split; [exact Hlotes |]. split; [exact Hf2 |].
  split; [exact Hnuevos | exact Hviejos].
Qed.

Lemma compra_registrada_da_stock_witness :
  integridadReferencial (bd estadoDosLotes)
  /\ exists res st1 mov st2 nuevos,
       procesarLotesComprobante (dia 20) [lineaCompraEj 4 7; lineaCompraEj 6 9]
         "COMPRA" FIFO (Some (dia 20)) estadoDosLotes = (Exito res, st1)
       /\ createWithManager
            (movimientoDe ENTRADA (dia 20)
               (createMovimientosDetallesFromDetallesComprobante
                  [lineaCompraEj 4 7; lineaCompraEj 6 9] "COMPRA"
                  (lp_costoUnitario res) (lp_lotes res)))
            None st1 = (Exito mov, st2)
       /\ bd_lotes (bd st2) = bd_lotes (bd estadoDosLotes) ++ nuevos
       /\ forall d l hasta,
            In (d, l) (List.combine [lineaCompraEj 4 7; lineaCompraEj 6 9] nuevos) ->
            exists r,
              fst (calcularStockLote (lote_id l) (Some hasta) st2) = Some r
              /\ costoUnitario r = cd_precioUnitario d
              /\ cantidadActual r
                 == if (dia 20 <=? hasta)%Z then cd_cantidad d else 0.
Proof.
  assert (Hint : integridadReferencial (bd estadoDosLotes)).
  { split.
    - apply List.Forall_forall. intros l Hl. simpl in Hl.
      destruct Hl as [<- | [<- | []]]; simpl; auto.
    - apply List.Forall_forall. intros d Hd. simpl in Hd.
      destruct Hd as [<- | [<- | []]]; simpl;
        (split; [auto | split; [intros l [= <-]; auto | constructor]]). }
  split; [exact Hint |].
  destruct (procesarLotesComprobante (dia 20) [lineaCompraEj 4 7; lineaCompraEj 6 9]
              "COMPRA" FIFO (Some (dia 20)) estadoDosLotes) as [res st1] eqn:Hproc.
  destruct res as [res | e]; [| vm_compute in Hproc; discriminate Hproc].
  destruct (createWithManager
              (movimientoDe ENTRADA (dia 20)
                 (createMovimientosDetallesFromDetallesComprobante
                    [lineaCompraEj 4 7; lineaCompraEj 6 9] "COMPRA"
                    (lp_costoUnitario res) (lp_lotes res)))
              None st1) as [[mov | e] st2] eqn:Hcrea;
    [| unfold createWithManager in Hcrea; discriminate Hcrea].
  destruct (compra_registrada_da_stock (dia 20) [lineaCompraEj 4 7; lineaCompraEj 6 9]
              FIFO (Some (dia 20)) estadoDosLotes res st1
              (movimientoDe ENTRADA (dia 20)
                 (createMovimientosDetallesFromDetallesComprobante
                    [lineaCompraEj 4 7; lineaCompraEj 6 9] "COMPRA"
                    (lp_costoUnitario res) (lp_lotes res)))
              None mov st2 Hint Hproc eq_refl eq_refl eq_refl Hcrea)
    as (nuevos & Hlotes & _ & Hnuevos & _).
  exists res, st1, mov, st2, nuevos. repeat split; auto.
Defined.

(** ** What an exit takes from a lot *)

Lemma filas_de_movimiento mov dtos filas :
  Forall2 (filaEscrita mov) dtos filas ->
  Forall (fun f => md_movimiento f = mov) filas.
Proof.
  induction 1 as [| d f dtos filas (H & _) _ IH]; constructor; auto.
Qed.

Lemma filter_movimiento_no_cuenta mov tipo hasta (P : MovimientoDetalle -> bool) filas :
  Forall (fun f => md_movimiento f = mov) filas ->
  mov_tipo mov <> tipo ->
  List.filter (fun f => P f && movimientoCuenta tipo hasta f) filas = [].
Proof.
  intros Hf Ht. apply filter_todo_falso. intros f Hin.
  rewrite List.Forall_forall in Hf. unfold movimientoCuenta. rewrite (Hf f Hin).
  destruct (mov_tipo mov), tipo; try contradiction; simpl;
    rewrite ?andb_false_r; reflexivity.
Qed.

Lemma filter_movimiento_cuenta mov hasta filas :
  Forall (fun f => md_movimiento f = mov) filas ->
  mov_estado mov = PROCESADO ->
  List.filter (movimientoCuenta (mov_tipo mov) (Some hasta)) filas
  = if (mov_fecha mov <=? hasta)%Z then filas else [].
Proof.
  intros Hf He.
  destruct (mov_fecha mov <=? hasta)%Z eqn:Hh.
  - apply filter_todo_cierto. intros f Hin. rewrite List.Forall_forall in Hf.
    unfold movimientoCuenta. rewrite (Hf f Hin), He. simpl. rewrite Hh.
    destruct (mov_tipo mov); reflexivity.
  - apply filter_todo_falso. intros f Hin. rewrite List.Forall_forall in Hf.
    unfold movimientoCuenta. rewrite (Hf f Hin), He. simpl. rewrite Hh.
    apply andb_false_r.
Qed.

Lemma salidas_de_filas mov idLote dtos filas :
  Forall2 (filaEscrita mov) dtos filas ->
  List.flat_map
    (fun d => List.filter (fun ds => (ds_idLote ds =? idLote)%Z)
                (md_detallesSalida d)) filas
  = List.flat_map
      (fun d => List.filter (fun ds => (ds_idLote ds =? idLote)%Z)
                  match cmd_detallesSalida d with
                  | Some salidas => salidas
                  | None => []
                  end) dtos.
Proof.
  induction 1 as [| d f dtos filas (_ & _ & _ & _ & Hs) _ IH]; [reflexivity |].
  simpl. rewrite Hs, IH. reflexivity.
Qed.

(** The quantity of a lot before and after an exit is written. *)
Lemma salida_registrada_lote dto comprobante st mov st' idLote lote hasta :
  cm_tipo dto = SALIDA ->
  cm_estado dto = PROCESADO ->
  createWithManager dto comprobante st = (Exito mov, st') ->
  buscarLote (bd st) idLote = Some lote ->
  0 < sumaDetallesLote (bd st) idLote ENTRADA (Some hasta) ->
  0 <= asignadoALote idLote (cm_detalles dto) ->
  exists r r',
    fst (calcularStockLote idLote (Some hasta) st) = Some r
    /\ fst (calcularStockLote idLote (Some hasta) st') = Some r'
    /\ cantidadActual r'
       == if (cm_fecha dto <=? hasta)%Z
          then Qmax 0 (cantidadActual r - asignadoALote idLote (cm_detalles dto))
          else cantidadActual r.
Proof.
  intros Htipo Hestado Hcrea Hlote Hent Hasig.
  apply createWithManager_filas in Hcrea
    as (Hmt & Hmf & Hme & _ & filas & Hbd & Hfilas).
  rewrite Htipo in Hmt. rewrite Hestado in Hme.
  pose proof (filas_de_movimiento _ _ _ Hfilas) as Hmov.
  rewrite !calcularStockLote_con_fecha. unfold stockDeLote.
  assert (Hlote' : buscarLote (bd st') idLote = Some lote).
  { unfold buscarLote in *. rewrite Hbd. exact Hlote. }
  rewrite Hlote, Hlote'. simpl option_map.
  eexists. eexists. split; [reflexivity |]. split; [reflexivity |].
  pose proof (buscarLote_id _ _ _ Hlote) as Hid.
  assert (Hdet : forall tipo, tipo <> SALIDA ->
             sumaDetallesLote (bd st') (lote_id lote) tipo (Some hasta)
             = sumaDetallesLote (bd st) (lote_id lote) tipo (Some hasta)).
  { intros tipo Hne. unfold sumaDetallesLote. rewrite Hbd. simpl.
    rewrite List.filter_app.
    rewrite (filter_movimiento_no_cuenta mov tipo (Some hasta) _ filas Hmov)
      by (rewrite Hmt; congruence).
    rewrite app_nil_r. reflexivity. }
  assert (Hsal : sumaSalidasLote (bd st') (lote_id lote) (Some hasta)
                 == sumaSalidasLote (bd st) (lote_id lote) (Some hasta)
                    + if (cm_fecha dto <=? hasta)%Z
                      then asignadoALote idLote (cm_detalles dto) else 0).
  { unfold sumaSalidasLote. rewrite Hbd. simpl.
    rewrite List.filter_app, List.flat_map_app, sumaQ_app.
    rewrite <- Hmt at 2.
    rewrite (filter_movimiento_cuenta mov hasta filas Hmov Hme), Hmf.
    destruct (cm_fecha dto <=? hasta)%Z.
    - rewrite (salidas_de_filas mov (lote_id lote) _ _ Hfilas), Hid. reflexivity.
    - reflexivity. }
  unfold resultadoLote, cantidadSinPiso. simpl.
  rewrite !Hdet by discriminate. rewrite Hid in *.
  assert (Htiene : forall s,
             tieneMovimientos (sumaDetallesLote (bd st) idLote ENTRADA (Some hasta)) s
               (sumaDetallesLote (bd st) idLote AJUSTE (Some hasta)) = true).
  { intros s. unfold tieneMovimientos.
    apply Qgtb_true in Hent. rewrite Hent. reflexivity. }
  rewrite !Htiene.
  set (e := sumaDetallesLote (bd st) idLote ENTRADA (Some hasta)) in *.
  set (a := sumaDetallesLote (bd st) idLote AJUSTE (Some hasta)) in *.
  set (s := sumaSalidasLote (bd st) idLote (Some hasta)) in *.
  set (s' := sumaSalidasLote (bd st') idLote (Some hasta)) in *.
  set (A := asignadoALote idLote (cm_detalles dto)) in *.
  destruct (cm_fecha dto <=? hasta)%Z.
  - destruct (Qmax_0_cases (e - s' + a)) as [[H1 H2] | [H1 H2]];
      destruct (Qmax_0_cases (e - s + a)) as [[H3 H4] | [H3 H4]];
      destruct (Qmax_0_cases (Qmax 0 (e - s + a) - A)) as [[H5 H6] | [H5 H6]];
      lra.
  - destruct (Qmax_0_cases (e - s' + a)) as [[H1 H2] | [H1 H2]];
      destruct (Qmax_0_cases (e - s + a)) as [[H3 H4] | [H3 H4]];
      lra.
Qed.


(** X16. What an exit takes from a lot. Let [createWithManager] write a
    processed exit whose allocations to a lot of the store add up to a
    quantity that is not negative. For a cutoff date by which an entry
    has been recorded for the lot, the quantity that [calcularStockLote]
    returns after the write is the quantity it returned before, less what
    the movement allocates to the lot, floored at zero, when the cutoff is
    on or after the date of the movement; for an earlier cutoff it is the
    quantity returned before. *)
Theorem salida_registrada_descuenta dto comprobante st mov st' idLote lote hasta :
  cm_tipo dto = SALIDA ->
  cm_estado dto = PROCESADO ->
  createWithManager dto comprobante st = (Exito mov, st') ->
  buscarLote (bd st) idLote = Some lote ->
  0 < sumaDetallesLote (bd st) idLote ENTRADA (Some hasta) ->
  0 <= asignadoALote idLote (cm_detalles dto) ->
  exists r r',
    fst (calcularStockLote idLote (Some hasta) st) = Some r
    /\ fst (calcularStockLote idLote (Some hasta) st') = Some r'
    /\ cantidadActual r'
       == if (cm_fecha dto <=? hasta)%Z
          then Qmax 0 (cantidadActual r - asignadoALote idLote (cm_detalles dto))
          else cantidadActual r.
Proof.
  intros Htipo Hestado Hcrea Hlote Hent Hasig.
  destruct (salida_registrada_lote _ _ _ _ _ _ _ hasta Htipo Hestado Hcrea Hlote
              Hent Hasig) as (r & r' & Hr & Hr' & Hq).
  exists r, r'. split; [exact Hr |]. split; [exact Hr' | exact Hq].
Qed.

Lemma salida_registrada_descuenta_witness :
  exists mov st' r r',
    createWithManager (movimientoDe SALIDA (dia 15) [salidaEj]) None estadoDosLotes
    = (Exito mov, st')
    /\ fst (calcularStockLote 2 (Some (dia 16)) estadoDosLotes) = Some r
    /\ fst (calcularStockLote 2 (Some (dia 16)) st') = Some r'
    /\ cantidadActual r'
       == Qmax 0 (cantidadActual r - asignadoALote 2 [salidaEj]).
Proof.
  destruct (createWithManager (movimientoDe SALIDA (dia 15) [salidaEj]) None
              estadoDosLotes) as [[mov | e] st'] eqn:Hcrea;
    [| unfold createWithManager in Hcrea; discriminate Hcrea].
  assert (Hent : 0 < sumaDetallesLote (bd estadoDosLotes) 2 ENTRADA (Some (dia 16)))
    by (vm_compute; reflexivity).
  assert (Hasig : 0 <= asignadoALote 2 (cm_detalles (movimientoDe SALIDA (dia 15) [salidaEj])))
    by (vm_compute; discriminate).
  destruct (salida_registrada_descuenta (movimientoDe SALIDA (dia 15) [salidaEj])
              None estadoDosLotes mov st' 2 (loteEj 2 0 8 (dia 10)) (dia 16)
              eq_refl eq_refl Hcrea eq_refl Hent Hasig)
    as (r & r' & Hr & Hr' & Hq).
  exists mov, st', r, r'. repeat split; auto.
Defined.

(** ** The stock of the position after a purchase *)

Lemma sumaQ_ext_in {A} (f g : A -> Q) l :
  (forall x, In x l -> f x == g x) -> sumaQ f l == sumaQ g l.
Proof.
  unfold sumaQ. induction l as [| x l IH]; intros H; simpl; [reflexivity |].
  rewrite (H x (or_introl eq_refl)), IH; [reflexivity |].
  intros y Hy. apply H. right. exact Hy.
Qed.

Lemma sumaQ_stocksDeLotes col b fechaHasta ls :
  sumaQ col (stocksDeLotes b fechaHasta ls)
  == sumaQ (aporteDeLote col b fechaHasta) ls.
Proof.
  induction ls as [| l ls IH]; [reflexivity |].
  assert (Hcons : sumaQ (aporteDeLote col b fechaHasta) (l :: ls)
                  = aporteDeLote col b fechaHasta l
                    + sumaQ (aporteDeLote col b fechaHasta) ls) by reflexivity.
  rewrite Hcons, stocksDeLotes_cons, sumaQ_app, IH.
  apply Qplus_comp; [| reflexivity].
  unfold aporteDeLote.
  destruct (stockDeLote b fechaHasta (lote_id l)) as [sl |]; [| reflexivity].
  destruct (Qgtb (cantidadActual sl) 0); unfold sumaQ; simpl; lra.
Qed.

Lemma sumaQ_lotesConSaldo col b id fechaHasta :
  sumaQ col (lotesConSaldo b id fechaHasta)
  == sumaQ (aporteDeLote col b fechaHasta)
       (List.filter (fun l => (lote_idInventario l =? id)%Z) (bd_lotes b)).
Proof.
  unfold lotesConSaldo, lotesDeInventario.
  rewrite sumaQ_stocksDeLotes. apply sumaQ_ordenar.
Qed.

Lemma sumaQ_parejas {A B} (R : A -> B -> Prop) (pa : A -> bool) (pb : B -> bool)
    (f : A -> Q) (g : B -> Q) la lb :
  Forall2 R la lb ->
  (forall a b, In (a, b) (List.combine la lb) -> pa a = pb b /\ f a == g b) ->
  sumaQ f (List.filter pa la) == sumaQ g (List.filter pb lb).
Proof.
  induction 1 as [| a b la lb _ _ IH]; intros H; [reflexivity |].
  destruct (H a b (or_introl eq_refl)) as [Hp Hfg]. simpl. rewrite <- Hp.
  assert (IH' := IH (fun x y Hin => H x y (or_intror Hin))).
  destruct (pa a); [| exact IH'].
  unfold sumaQ in *. simpl. rewrite Hfg, IH'. reflexivity.
Qed.

Lemma compra_registrada_bd ahora detalles metodo fechaEmision st res st1
    dto comprobante mov st2 :
  procesarLotesComprobante ahora detalles "COMPRA" metodo fechaEmision st
  = (Exito res, st1) ->
  cm_detalles dto
  = createMovimientosDetallesFromDetallesComprobante detalles "COMPRA"
      (lp_costoUnitario res) (lp_lotes res) ->
  createWithManager dto comprobante st1 = (Exito mov, st2) ->
  bd_inventarios (bd st2) = bd_inventarios (bd st)
  /\ exists filas,
       bd_detalles (bd st2) = bd_detalles (bd st) ++ filas
       /\ Forall (fun f => md_detallesSalida f = []) filas.
Proof.
  intros Hproc Hdet Hcrea. unfold procesarLotesComprobante in Hproc.
  pose proof (procesarDetalles_compra _ _ _ _ _ _ _ _ _ Hproc)
    as (nuevos & Hbd1 & Hf2 & Hval & _ & Hls & _).
  simpl in Hls. rewrite Hls in Hdet.
  unfold createMovimientosDetallesFromDetallesComprobante in Hdet.
  rewrite (crearDetallesDesde_lotes_de_compra _ _ _ _ _ Hf2 Hval) in Hdet.
  simpl in Hdet.
  apply createWithManager_filas in Hcrea as (_ & _ & _ & _ & filas & Hbd2 & Hfilas).
  rewrite Hbd2, Hbd1. simpl. split; [reflexivity |].
  exists filas. split; [reflexivity |].
  rewrite Hdet in Hfilas. clear - Hfilas.
  remember (List.map detalleDeCompra (List.combine detalles nuevos)) as dtos eqn:Hd.
  assert (Hnone : Forall (fun x => cmd_detallesSalida x = None) dtos).
  { subst dtos. apply List.Forall_forall. intros x Hx.
    apply in_map_iff in Hx as (dl & <- & _). reflexivity. }
  clear Hd. induction Hfilas as [| x f0 dtos filas (_ & _ & _ & _ & Hs) H IH];
    [constructor |].
  inversion Hnone as [| ? ? Hx Hnone']; subst.
  constructor; [rewrite Hs, Hx; reflexivity | apply IH, Hnone'].
Qed.

(** X17. The stock of a position after a purchase. In a store whose
    foreign keys hold, let [procesarLotesComprobante] accept a purchase,
    the factory build the lines of its movement in mode COMPRA, and
    [createWithManager] write them in a processed entry. For a cutoff date
    on or after the date of the movement, the lots that
    [calcularStockInventario] lists for a position hold, in total, what
    they held before plus the quantities of the lines of the voucher for
    that position, and are worth what they were worth before plus the
    quantities of those lines at their prices; and when the exits
    recorded against lot id zero did not exceed the lots before, the
    stock of the position rises by the quantities of those lines. *)
Theorem compra_registrada_sube_stock ahora detalles metodo fechaEmision st res st1
    dto comprobante mov st2 id hasta r :
  integridadReferencial (bd st) ->
  procesarLotesComprobante ahora detalles "COMPRA" metodo fechaEmision st
  = (Exito res, st1) ->
  cm_tipo dto = ENTRADA ->
  cm_estado dto = PROCESADO ->
  cm_detalles dto
  = createMovimientosDetallesFromDetallesComprobante detalles "COMPRA"
      (lp_costoUnitario res) (lp_lotes res) ->
  createWithManager dto comprobante st1 = (Exito mov, st2) ->
  (cm_fecha dto <= hasta)%Z ->
  fst (calcularStockInventario id (Some hasta) st) = Some r ->
  exists r',
    fst (calcularStockInventario id (Some hasta) st2) = Some r'
    /\ cantidadTotal (lotes r')
       == cantidadTotal (lotes r)
          + sumaQ cd_cantidad (List.filter (lineaDe id) detalles)
    /\ valorTotalLotes (lotes r')
       == valorTotalLotes (lotes r)
          + sumaQ (fun d => cd_cantidad d * cd_precioUnitario d)
              (List.filter (lineaDe id) detalles)
    /\ (salidasSinLote (bd st) id (Some hasta) <= cantidadTotal (lotes r) ->
        stockActual r'
        == stockActual r + sumaQ cd_cantidad (List.filter (lineaDe id) detalles)).
Proof.
  intros Hint Hproc Htipo Hestado Hdet Hcrea Hfecha Hr.
  destruct (compra_registrada_lotes _ _ _ _ _ _ _ _ _ _ _ Hint Hproc Htipo Hestado
              Hdet Hcrea) as (nuevos & Hlotes & Hf2 & Hnuevos & Hviejos).
  destruct (compra_registrada_bd _ _ _ _ _ _ _ _ _ _ _ Hproc Hdet Hcrea)
    as (Hinv & filas & Hdets & Hsin).
  assert (Hval : Forall (lineaDeCompraValida (bd st)) detalles).
  { unfold procesarLotesComprobante in Hproc.
    apply procesarDetalles_compra in Hproc as (? & _ & _ & H & _). exact H. }
  (* the result before *)
  destruct (calcularStockInventario id (Some hasta) st) as [r0 s0] eqn:Hantes.
  simpl in Hr. subst r0.
  assert (Hantes' : calcularStockDesdeLotes id (Some hasta) st = (Some r, s0))
    by exact Hantes.
  assert (Hcoh : forall s : Estado, Some hasta = None -> cacheCoherente s)
    by discriminate.
  destruct (calcularStockDesdeLotes_puro _ _ _ _ _ (Hcoh st) Hantes')
    as (Hl & Hs & _).
  (* the result after *)
  assert (Hexiste : exists inventario, buscarInventario (bd st2) id = Some inventario).
  { unfold buscarInventario. rewrite Hinv.
    unfold calcularStockDesdeLotes in Hantes'.
    destruct (buscarInventario (bd st) id) as [inventario |] eqn:Hb;
      [| discriminate]. exists inventario. exact Hb. }
  destruct Hexiste as (inventario & Hb2).
  destruct (calcularStockInventario_encuentra id (Some hasta) st2 inventario Hb2)
    as (r' & Hr').
  exists r'. split; [exact Hr' |].
  destruct (calcularStockInventario id (Some hasta) st2) as [r1 s1] eqn:Hdespues.
  simpl in Hr'. subst r1.
  assert (Hdespues' : calcularStockDesdeLotes id (Some hasta) st2 = (Some r', s1))
    by exact Hdespues.
  destruct (calcularStockDesdeLotes_puro _ _ _ _ _ (Hcoh st2) Hdespues')
    as (Hl' & Hs' & _).
  (* totals over the lots *)
  assert (Htot : forall (col : LoteStockResult -> Q) (g : ComprobanteDetalle -> Q),
             (forall d l sl, In (d, l) (List.combine detalles nuevos) ->
                stockDeLote (bd st2) (Some hasta) (lote_id l) = Some sl ->
                costoUnitario sl = cd_precioUnitario d ->
                cantidadActual sl == cd_cantidad d ->
                col sl == g d) ->
             sumaQ col (lotes r')
             == sumaQ col (lotes r) + sumaQ g (List.filter (lineaDe id) detalles)).
  { intros col g Hcol. rewrite Hl, Hl', !sumaQ_lotesConSaldo, Hlotes.
    rewrite List.filter_app, sumaQ_app.
    apply Qplus_comp.
    - apply sumaQ_ext_in. intros l Hin. apply List.filter_In in Hin as [Hin _].
      unfold aporteDeLote.
      specialize (Hviejos l hasta Hin).
      rewrite !calcularStockLote_con_fecha in Hviejos. simpl in Hviejos.
      change (@Some Z hasta) with (@Some Fecha hasta).
      rewrite Hviejos. reflexivity.
    - symmetry.
      apply (sumaQ_parejas (loteDeCompra
                              (match fechaEmision with Some f => f | None => ahora end)));
        [exact Hf2 |].
      intros d l Hin.
      destruct (Forall2_combine_In _ _ _ _ _ Hf2 Hin) as (Hi & _).
      split; [unfold lineaDe; rewrite Hi; reflexivity |].
      destruct (Hnuevos d l hasta Hin) as (sl & Hsl & Hcosto & Hq).
      rewrite calcularStockLote_con_fecha in Hsl. simpl in Hsl.
      apply Z.leb_le in Hfecha. rewrite Hfecha in Hq.
      unfold aporteDeLote. change (@Some Z hasta) with (@Some Fecha hasta).
      rewrite Hsl.
      assert (Hpos : Qgtb (cantidadActual sl) 0 = true).
      { apply Qgtb_true. rewrite Hq. apply in_combine_l in Hin.
        rewrite List.Forall_forall in Hval. destruct (Hval d Hin) as (H & _). exact H. }
      rewrite Hpos. symmetry. apply (Hcol d l sl Hin Hsl Hcosto Hq). }
  assert (Hcant : cantidadTotal (lotes r')
                  == cantidadTotal (lotes r)
                     + sumaQ cd_cantidad (List.filter (lineaDe id) detalles)).
  { apply Htot. intros d l sl _ _ _ Hq. exact Hq. }
  split; [exact Hcant |]. split.
  - apply Htot. intros d l sl _ _ Hc Hq. rewrite Hc, Hq. reflexivity.
  - intros Hfict.
    assert (Hsal : salidasSinLote (bd st2) id (Some hasta)
                   = salidasSinLote (bd st) id (Some hasta)).
    { unfold salidasSinLote. rewrite Hdets, List.filter_app, List.flat_map_app.
      rewrite (flat_map_todo_nil _ (List.filter _ filas)); [rewrite app_nil_r; reflexivity |].
      intros f Hf. apply List.filter_In in Hf as [Hf _].
      rewrite List.Forall_forall in Hsin. rewrite (Hsin f Hf). reflexivity. }
    rewrite Hs, Hs', Hsal, Hcant.
    assert (Hnn : 0 <= sumaQ cd_cantidad (List.filter (lineaDe id) detalles)).
    { clear - Hval. induction Hval as [| d ds (Hq & _) _ IH]; simpl; [unfold sumaQ; simpl; lra |].
      destruct (lineaDe id d); [| exact IH]. unfold sumaQ in *. simpl. lra. }
    set (T := cantidadTotal (lotes r)) in *.
    set (F := salidasSinLote (bd st) id (Some hasta)) in *.
    set (S := sumaQ cd_cantidad (List.filter (lineaDe id) detalles)) in *.
    destruct (Qmax_0_cases (T + S - F)) as [[H1 H2] | [H1 H2]];
      destruct (Qmax_0_cases (T - F)) as [[H3 H4] | [H3 H4]]; lra.
Qed.

Lemma compra_registrada_sube_stock_witness :
  integridadReferencial (bd estadoDosLotes)
  /\ exists res st1 mov st2 r r',
       procesarLotesComprobante (dia 20) [lineaCompraEj 4 7; lineaCompraEj 6 9]
         "COMPRA" FIFO (Some (dia 20)) estadoDosLotes = (Exito res, st1)
       /\ createWithManager
            (movimientoDe ENTRADA (dia 20)
               (createMovimientosDetallesFromDetallesComprobante
                  [lineaCompraEj 4 7; lineaCompraEj 6 9] "COMPRA"
                  (lp_costoUnitario res) (lp_lotes res)))
            None st1 = (Exito mov, st2)
       /\ fst (calcularStockInventario 1 (Some (dia 21)) estadoDosLotes) = Some r
       /\ fst (calcularStockInventario 1 (Some (dia 21)) st2) = Some r'
       /\ stockActual r' == stockActual r + (4 + 6).
Proof.
  assert (Hint : integridadReferencial (bd estadoDosLotes)).
  { split.
    - apply List.Forall_forall. intros l Hl. simpl in Hl.
      destruct Hl as [<- | [<- | []]]; simpl; auto.
    - apply List.Forall_forall. intros d Hd. simpl in Hd.
      destruct Hd as [<- | [<- | []]]; simpl;
        (split; [auto | split; [intros l [= <-]; auto | constructor]]). }
  split; [exact Hint |].
  destruct (procesarLotesComprobante (dia 20) [lineaCompraEj 4 7; lineaCompraEj 6 9]
              "COMPRA" FIFO (Some (dia 20)) estadoDosLotes) as [res st1] eqn:Hproc.
  destruct res as [res | e]; [| vm_compute in Hproc; discriminate Hproc].
  destruct (createWithManager
              (movimientoDe ENTRADA (dia 20)
                 (createMovimientosDetallesFromDetallesComprobante
                    [lineaCompraEj 4 7; lineaCompraEj 6 9] "COMPRA"
                    (lp_costoUnitario res) (lp_lotes res)))
              None st1) as [[mov | e] st2] eqn:Hcrea;
    [| unfold createWithManager in Hcrea; discriminate Hcrea].
  destruct (fst (calcularStockInventario 1 (Some (dia 21)) estadoDosLotes))
    as [r |] eqn:Hr; [| vm_compute in Hr; discriminate Hr].
  assert (Hf : (cm_fecha (movimientoDe ENTRADA (dia 20)
                  (createMovimientosDetallesFromDetallesComprobante
                     [lineaCompraEj 4 7; lineaCompraEj 6 9] "COMPRA"
                     (lp_costoUnitario res) (lp_lotes res))) <= dia 21)%Z)
    by (vm_compute; discriminate).
  destruct (compra_registrada_sube_stock (dia 20) [lineaCompraEj 4 7; lineaCompraEj 6 9]
              FIFO (Some (dia 20)) estadoDosLotes res st1
              (movimientoDe ENTRADA (dia 20)
                 (createMovimientosDetallesFromDetallesComprobante
                    [lineaCompraEj 4 7; lineaCompraEj 6 9] "COMPRA"
                    (lp_costoUnitario res) (lp_lotes res)))
              None mov st2 1 (dia 21) r Hint Hproc eq_refl eq_refl eq_refl Hcrea Hf Hr)
    as (r' & Hr' & _ & _ & Hstock).
  exists res, st1, mov, st2, r, r'. repeat split; auto.
  assert (Hfict : salidasSinLote (bd estadoDosLotes) 1 (Some (dia 21))
                  <= cantidadTotal (lotes r)).
  { vm_compute in Hr. injection Hr as <-. vm_compute. discriminate. }
  rewrite (Hstock Hfict). vm_compute. reflexivity.
Defined.

(** * Creating an inventory position *)

Lemma NoDup_al_final {A} (l : list A) x :
  List.NoDup l -> ~ In x l -> List.NoDup (l ++ [x]).
Proof.
  induction 1 as [| y l Hy Hl IH]; intros Hx; simpl.
  - apply List.NoDup_cons; [intros [] | apply List.NoDup_nil].
  - apply List.NoDup_cons.
    + intros H. apply in_app_or in H as [H | [H | []]]; [contradiction |].
      subst. apply Hx. left. reflexivity.
    + apply IH. intros H. apply Hx. right. exact H.
Qed.

Lemma create_exito ahora inicioPeriodo dto st inventario st' :
  create ahora inicioPeriodo dto st = (Exito inventario, st') ->
  bd_inventarios (bd st') = bd_inventarios (bd st) ++ [inventario]
  /\ inv_id inventario = nuevoId (List.map inv_id (bd_inventarios (bd st)))
  /\ inv_idAlmacen inventario = dto_idAlmacen dto
  /\ inv_idProducto inventario = dto_idProducto dto
  /\ bd_almacenes (bd st') = bd_almacenes (bd st)
  /\ bd_productos (bd st') = bd_productos (bd st)
  /\ List.existsb
       (fun i => (inv_idAlmacen i =? dto_idAlmacen dto)%Z
                 && (inv_idProducto i =? dto_idProducto dto)%Z)
       (bd_inventarios (bd st)) = false
  /\ contiene (bd_almacenes (bd st)) (dto_idAlmacen dto) = true
  /\ contiene (bd_productos (bd st)) (dto_idProducto dto) = true.
Proof.
  unfold create.
  destruct (contiene (bd_almacenes (bd st)) (dto_idAlmacen dto)); [| discriminate].
  destruct (contiene (bd_productos (bd st)) (dto_idProducto dto)); [| discriminate].
  destruct (List.existsb _ (bd_inventarios (bd st))) eqn:Hex; [discriminate |].
  simpl.
  destruct (semillaValida dto) as [[stockInicial precioUnitario] |].
  - simpl. intros H. injection H as Hi Hs. subst inventario st'. simpl.
    repeat split; reflexivity.
  - intros H. injection H as Hi Hs. subst inventario st'. simpl.
    repeat split; reflexivity.
Qed.

(** X22. One position per product and warehouse. After [create] has
    succeeded, the new position can be looked up by its id, a store
    without two positions for the same product in the same warehouse is
    still such a store, and every further [create] for the same warehouse
    and product throws and leaves the state as it is, whatever the seed
    it asks for. *)
Theorem create_una_posicion_por_par ahora inicioPeriodo dto st inventario st' :
  create ahora inicioPeriodo dto st = (Exito inventario, st') ->
  buscarInventario (bd st') (inv_id inventario) = Some inventario
  /\ (sinPosicionesRepetidas (bd st) -> sinPosicionesRepetidas (bd st'))
  /\ forall ahora' inicioPeriodo' dto',
       dto_idAlmacen dto' = dto_idAlmacen dto ->
       dto_idProducto dto' = dto_idProducto dto ->
       exists e, create ahora' inicioPeriodo' dto' st' = (Fallo e, st').
Proof.
  intros Hc. apply create_exito in Hc
    as (Hinv & Hid & Ha & Hp & Hal & Hpr & Hex & Hca & Hcp).
  split; [| split].
  - unfold buscarInventario. rewrite Hinv. apply find_al_final.
    + intros x Hx. apply Z.eqb_neq. rewrite Hid.
      pose proof (nuevoId_mayor (List.map inv_id (bd_inventarios (bd st)))
                    (inv_id x) (in_map _ _ _ Hx)). lia.
    + apply Z.eqb_refl.
  - unfold sinPosicionesRepetidas. rewrite Hinv, List.map_app. simpl.
    intros Hnd. apply NoDup_al_final; [exact Hnd |].
    intros Hin. apply in_map_iff in Hin as (x & Hx & Hxin).
    injection Hx as Hxa Hxp.
    assert (Hcontra : List.existsb
              (fun i => (inv_idAlmacen i =? dto_idAlmacen dto)%Z
                        && (inv_idProducto i =? dto_idProducto dto)%Z)
              (bd_inventarios (bd st)) = true).
    { apply List.existsb_exists. exists x. split; [exact Hxin |].
      rewrite Hxa, Hxp, Ha, Hp, !Z.eqb_refl. reflexivity. }
    congruence.
  - intros ahora' inicioPeriodo' dto' Hda Hdp. unfold create.
    rewrite Hal, Hpr, Hda, Hdp, Hca, Hcp. simpl.
    assert (Hya : List.existsb
              (fun i => (inv_idAlmacen i =? dto_idAlmacen dto)%Z
                        && (inv_idProducto i =? dto_idProducto dto)%Z)
              (bd_inventarios (bd st')) = true).
    { apply List.existsb_exists. exists inventario. split.
      - rewrite Hinv. apply in_or_app. right. left. reflexivity.
      - rewrite Ha, Hp, !Z.eqb_refl. reflexivity. }
    rewrite Hya. eexists. reflexivity.
Qed.

Lemma create_una_posicion_por_par_witness :
  exists inventario st',
    create (dia 3) None (dtoSemilla 1 1 10 5) estadoInicial = (Exito inventario, st')
    /\ sinPosicionesRepetidas (bd st')
    /\ exists e,
         create (dia 4) None (dtoSemilla 1 1 20 7) st' = (Fallo e, st').
Proof.
  destruct (create (dia 3) None (dtoSemilla 1 1 10 5) estadoInicial)
    as [[inventario | e] st'] eqn:Hc; [| vm_compute in Hc; discriminate Hc].
  exists inventario, st'. split; [reflexivity |].
  destruct (create_una_posicion_por_par _ _ _ _ _ _ Hc) as (_ & Hnd & Hotra).
  split.
  - apply Hnd. constructor.
  - apply (Hotra (dia 4) None (dtoSemilla 1 1 20 7)); reflexivity.
Defined.

(** * Closing and opening figures of the Kardex *)

Lemma generarKardex_partes id fechaDesde fechaHasta metodo st k st' :
  generarKardex id fechaDesde fechaHasta metodo st = (Some k, st') ->
  exists saldoInicial movimientosKardex,
    kr_saldoInicial k = saldoInicial
    /\ kr_movimientos k = movimientosKardex
    /\ saldoContinuo saldoInicial movimientosKardex
    /\ kr_stockFinal k
       = match last movimientosKardex with
         | Some u => oNumero (km_cantidadSaldo u) (s_cantidad saldoInicial)
         | None => s_cantidad saldoInicial
         end
    /\ kr_costoUnitarioFinal k
       = match last movimientosKardex with
         | Some u => oNumero (km_costoUnitarioSaldo u) (s_costoUnitario saldoInicial)
         | None => s_costoUnitario saldoInicial
         end
    /\ kr_valorTotalFinal k = kr_stockFinal k * kr_costoUnitarioFinal k.
Proof.
  unfold generarKardex.
  destruct (buscarInventario (bd st) id) as [inventario |]; [| discriminate].
  destruct (calcularSaldoInicial id fechaDesde st) as [saldoInicial st1].
  unfold procesarMovimientos.
  destruct (match metodo with
            | PROMEDIO => ([], st1)
            | FIFO => inicializarLotesTemporales id fechaDesde st1
            end) as [m st2].
  intros H. injection H as Hk Hs. subst k. simpl.
  eexists. eexists. repeat split. apply replicarMovimientos_continuo.
Qed.

(** X18. The closing figures of a Kardex. The final stock that
    [generarKardex] reports is the balance quantity of its last line when
    that quantity is not zero; when the last line leaves a balance of zero
    quantity, and when there is no line, it is the quantity of the opening
    balance. The final unit cost follows the same rule on the unit costs,
    and the final value is the product of the two. *)
Theorem generarKardex_cierre id fechaDesde fechaHasta metodo st k st' :
  generarKardex id fechaDesde fechaHasta metodo st = (Some k, st') ->
  let cierre := saldoFinal (kr_saldoInicial k) (kr_movimientos k) in
  (~ s_cantidad cierre == 0 -> kr_stockFinal k = s_cantidad cierre)
  /\ (s_cantidad cierre == 0 ->
      kr_stockFinal k = s_cantidad (kr_saldoInicial k))
  /\ (~ s_costoUnitario cierre == 0 ->
      kr_costoUnitarioFinal k = s_costoUnitario cierre)
  /\ (s_costoUnitario cierre == 0 ->
      kr_costoUnitarioFinal k = s_costoUnitario (kr_saldoInicial k))
  /\ kr_valorTotalFinal k = kr_stockFinal k * kr_costoUnitarioFinal k.
Proof.
  intros Hk. apply generarKardex_partes in Hk
    as (si & ms & Hsi & Hms & _ & Hstock & Hcosto & Hvalor).
  rewrite Hsi, Hms, Hstock, Hcosto. unfold saldoFinal.
  split; [| split; [| split; [| split]]].
  - destruct (last ms) as [u |]; simpl; intros H.
    + unfold oNumero. destruct (Qeq_bool (km_cantidadSaldo u) 0) eqn:He;
        [apply Qeq_bool_iff in He; contradiction | reflexivity].
    + reflexivity.
  - destruct (last ms) as [u |]; simpl; intros H.
    + unfold oNumero. apply Qeq_bool_iff in H. rewrite H. reflexivity.
    + reflexivity.
  - destruct (last ms) as [u |]; simpl; intros H.
    + unfold oNumero. destruct (Qeq_bool (km_costoUnitarioSaldo u) 0) eqn:He;
        [apply Qeq_bool_iff in He; contradiction | reflexivity].
    + reflexivity.
  - destruct (last ms) as [u |]; simpl; intros H.
    + unfold oNumero. apply Qeq_bool_iff in H. rewrite H. reflexivity.
    + reflexivity.
  - rewrite Hvalor, Hstock, Hcosto. reflexivity.
Qed.

Lemma generarKardex_cierre_witness :
  exists k st',
    generarKardex 1 (dia 12) (dia 20) PROMEDIO estadoAgotado = (Some k, st')
    /\ s_cantidad (saldoFinal (kr_saldoInicial k) (kr_movimientos k)) == 0
    /\ kr_stockFinal k = s_cantidad (kr_saldoInicial k)
    /\ kr_stockFinal k == 20.
Proof.
  destruct (generarKardex 1 (dia 12) (dia 20) PROMEDIO estadoAgotado)
    as [k st'] eqn:Hk.
  destruct k as [k |]; [| vm_compute in Hk; discriminate Hk].
  exists k, st'. split; [reflexivity |].
  assert (Hcero : s_cantidad (saldoFinal (kr_saldoInicial k) (kr_movimientos k)) == 0).
  { vm_compute in Hk. injection Hk as <- _. vm_compute. reflexivity. }
  split; [exact Hcero |].
  destruct (generarKardex_cierre 1 (dia 12) (dia 20) PROMEDIO estadoAgotado k st' Hk)
    as (_ & Hcierre & _).
  split; [apply Hcierre, Hcero |].
  vm_compute in Hk. injection Hk as <- _. vm_compute. reflexivity.
Defined.

(** X19. The opening balance of the report. The opening quantity and
    value that [generateKardexReport] derives from the first line of a
    Kardex are those of the opening balance of [generarKardex] when the
    first line is of type ENTRADA, and when it is an exit, not marked as a
    purchase, whose quantity and total cost the opening balance covers.
    When the window has no line the report shows zero. *)
Theorem saldoInicialDelReporte_es_el_del_kardex id fechaDesde fechaHasta metodo
    st k st' :
  generarKardex id fechaDesde fechaHasta metodo st = (Some k, st') ->
  match kr_movimientos k with
  | [] => saldoInicialDelReporte (kr_movimientos k) = (0, 0)
  | fila :: _ =>
      (km_tipoMovimiento fila = ENTRADA
       \/ (km_tipoOperacion fila <> Some "COMPRA"%string
           /\ km_cantidad fila <= s_cantidad (kr_saldoInicial k)
           /\ km_costoTotal fila <= s_valorTotal (kr_saldoInicial k))) ->
      fst (saldoInicialDelReporte (kr_movimientos k))
      == s_cantidad (kr_saldoInicial k)
      /\ snd (saldoInicialDelReporte (kr_movimientos k))
         == s_valorTotal (kr_saldoInicial k)
  end.
Proof.
  intros Hk. apply generarKardex_partes in Hk
    as (si & ms & Hsi & Hms & Hcont & _).
  rewrite Hsi, Hms. destruct ms as [| fila resto]; [reflexivity |].
  destruct Hcont as [[Hfila _] _]. simpl.
  intros [Hent | (Hop & Hq & Hv)].
  - rewrite Hent in *. simpl.
    assert (He : esMovimientoEntrada ENTRADA (km_tipoOperacion fila) = true).
    { unfold esMovimientoEntrada. destruct (km_tipoOperacion fila) as [op |];
        [destruct (String.eqb op "COMPRA") |]; reflexivity. }
    rewrite He in Hfila. destruct Hfila as [Hc Hvt]. rewrite Hc, Hvt. split; lra.
  - destruct (TipoMovimiento_eqb (km_tipoMovimiento fila) ENTRADA) eqn:Ht.
    + assert (He : esMovimientoEntrada (km_tipoMovimiento fila)
                     (km_tipoOperacion fila) = true).
      { unfold esMovimientoEntrada. rewrite Ht.
        destruct (km_tipoOperacion fila) as [op |];
          [destruct (String.eqb op "COMPRA") |]; reflexivity. }
      rewrite He in Hfila. destruct Hfila as [Hc Hvt]. simpl.
      rewrite Hc, Hvt. split; lra.
    + assert (He : esMovimientoEntrada (km_tipoMovimiento fila)
                     (km_tipoOperacion fila) = false).
      { unfold esMovimientoEntrada. rewrite Ht.
        destruct (km_tipoOperacion fila) as [op |]; [| reflexivity].
        destruct (String.eqb op "COMPRA") eqn:Hc; [| reflexivity].
        apply String.eqb_eq in Hc. subst op. contradiction. }
      rewrite He in Hfila. destruct Hfila as [Hc Hvt]. simpl.
      rewrite Hc, Hvt.
      destruct (Qmax_0_cases (s_cantidad si - km_cantidad fila)) as [[H1 H2] | [H1 H2]];
        destruct (Qmax_0_cases (s_valorTotal si - km_costoTotal fila))
          as [[H3 H4] | [H3 H4]];
        rewrite H2, H4; split; lra.
Qed.

Lemma saldoInicialDelReporte_es_el_del_kardex_witness :
  exists k st',
    generarKardex 1 (dia 12) (dia 20) PROMEDIO estadoAgotado = (Some k, st')
    /\ fst (saldoInicialDelReporte (kr_movimientos k))
       == s_cantidad (kr_saldoInicial k)
    /\ snd (saldoInicialDelReporte (kr_movimientos k))
       == s_valorTotal (kr_saldoInicial k).
Proof.
  destruct (generarKardex 1 (dia 12) (dia 20) PROMEDIO estadoAgotado)
    as [k st'] eqn:Hk.
  destruct k as [k |]; [| vm_compute in Hk; discriminate Hk].
  exists k, st'. split; [reflexivity |].
  pose proof (saldoInicialDelReporte_es_el_del_kardex 1 (dia 12) (dia 20) PROMEDIO
                estadoAgotado k st' Hk) as H.
  vm_compute in Hk. injection Hk as <- _.
  apply H. right. split; [discriminate |]. split; vm_compute; discriminate.
Defined.

(** * Queries over several positions *)

Lemma obtenerLotesDisponiblesFIFO_con_fecha id hasta st :
  snd (obtenerLotesDisponiblesFIFO id (Some hasta) st) = st.
Proof.
  unfold obtenerLotesDisponiblesFIFO.
  pose proof (calcularStockInventario_con_fecha id hasta st) as H.
  destruct (calcularStockInventario id (Some hasta) st) as [[r |] st1]; exact H.
Qed.

(** A Kardex is computed without any change of the state. *)
Lemma generarKardex_estado id fechaDesde fechaHasta metodo st :
  snd (generarKardex id fechaDesde fechaHasta metodo st) = st.
Proof.
  unfold generarKardex.
  destruct (buscarInventario (bd st) id) as [inventario |]; [| reflexivity].
  unfold calcularSaldoInicial.
  pose proof (calcularStockInventario_con_fecha id (finDelDiaAnterior fechaDesde) st)
    as H1.
  destruct (calcularStockInventario id (Some (finDelDiaAnterior fechaDesde)) st)
    as [[r |] st1]; simpl in H1; subst st1.
  - destruct (Qleb (stockActual r) 0); unfold procesarMovimientos;
      destruct metodo; simpl; try reflexivity;
      unfold inicializarLotesTemporales;
      pose proof (obtenerLotesDisponiblesFIFO_con_fecha id
                    (finDelDiaAnterior fechaDesde) st) as H2;
      destruct (obtenerLotesDisponiblesFIFO id (Some (finDelDiaAnterior fechaDesde)) st)
        as [l st2]; simpl in H2; subst st2; reflexivity.
  - unfold procesarMovimientos; destruct metodo; simpl; try reflexivity.
    unfold inicializarLotesTemporales.
    pose proof (obtenerLotesDisponiblesFIFO_con_fecha id
                  (finDelDiaAnterior fechaDesde) st) as H2.
    destruct (obtenerLotesDisponiblesFIFO id (Some (finDelDiaAnterior fechaDesde)) st)
      as [l st2]. simpl in H2. subst st2. reflexivity.
Qed.

Lemma generarKardexDesde_eq ids fechaDesde fechaHasta metodo resultados st :
  generarKardexDesde ids fechaDesde fechaHasta metodo resultados st
  = (resultados
     ++ List.flat_map
          (fun id => match fst (generarKardex id fechaDesde fechaHasta metodo st) with
                     | Some k => [k]
                     | None => []
                     end) ids, st).
Proof.
  revert resultados. induction ids as [| id ids IH]; intros resultados; simpl.
  - rewrite app_nil_r. reflexivity.
  - pose proof (generarKardex_estado id fechaDesde fechaHasta metodo st) as Hs.
    destruct (generarKardex id fechaDesde fechaHasta metodo st) as [k st1].
    simpl in Hs. subst st1. rewrite IH. simpl.
    destruct k as [k |]; [rewrite <- app_assoc |]; reflexivity.
Qed.

Lemma resumirStockDesde_eq ids hasta resumen st :
  resumirStockDesde ids (Some hasta) resumen st
  = (resumen
     ++ List.flat_map
          (fun id => match fst (calcularStockInventario id (Some hasta) st) with
                     | Some s => [resumenDe id s]
                     | None => []
                     end) ids, st).
Proof.
  revert resumen. induction ids as [| id ids IH]; intros resumen.
  - simpl. rewrite app_nil_r. reflexivity.
  - cbn [resumirStockDesde].
    pose proof (calcularStockInventario_con_fecha id hasta st) as Hs.
    destruct (calcularStockInventario id (Some hasta) st) as [s st1] eqn:Hc.
    simpl in Hs. subst st1. rewrite IH. cbn [List.flat_map]. rewrite Hc. simpl fst.
    destruct s as [s |]; [rewrite <- app_assoc |]; reflexivity.
Qed.

(** X20. Queries over several positions. [generarKardexMultiple] returns,
    in the order of the ids asked, the Kardex of every id that the store
    holds, each one what [generarKardex] returns for that id alone, and
    skips the ids that the store does not hold; with a cutoff date,
    [obtenerResumenStock] returns in the same way the stock and the
    average cost that [calcularStockInventario] returns for each id, and
    their product as value. Neither changes the state: an id asked twice
    gets the same answer twice. *)
Theorem consultas_por_varias_posiciones ids fechaDesde fechaHasta metodo hasta st :
  generarKardexMultiple ids fechaDesde fechaHasta metodo st
  = (List.flat_map
       (fun id => match fst (generarKardex id fechaDesde fechaHasta metodo st) with
                  | Some k => [k]
                  | None => []
                  end) ids, st)
  /\ obtenerResumenStock ids (Some hasta) st
     = (List.flat_map
          (fun id => match fst (calcularStockInventario id (Some hasta) st) with
                     | Some s => [resumenDe id s]
                     | None => []
                     end) ids, st)
  /\ Forall (fun k => In (kr_idInventario k) ids
                      /\ buscarInventario (bd st) (kr_idInventario k) <> None)
       (fst (generarKardexMultiple ids fechaDesde fechaHasta metodo st))
  /\ (length (fst (generarKardexMultiple ids fechaDesde fechaHasta metodo st))
      = length (List.filter
                  (fun id => match buscarInventario (bd st) id with
                             | Some _ => true
                             | None => false
                             end) ids)).
Proof.
  unfold generarKardexMultiple, obtenerResumenStock.
  rewrite generarKardexDesde_eq, resumirStockDesde_eq. simpl.
  split; [reflexivity |]. split; [reflexivity |]. split.
  - apply List.Forall_forall. intros k Hk.
    apply in_flat_map in Hk as (id & Hid & Hk).
    unfold generarKardex in Hk.
    destruct (buscarInventario (bd st) id) as [inventario |] eqn:Hb;
      [| destruct Hk].
    destruct (calcularSaldoInicial id fechaDesde st) as [saldoInicial st1].
    destruct (procesarMovimientos _ _ _ _ _ st1) as [ms st2].
    simpl in Hk. destruct Hk as [<- | []]. simpl.
    split; [exact Hid | rewrite Hb; discriminate].
  - induction ids as [| id ids IH]; [reflexivity |]. simpl.
    rewrite length_app, IH. unfold generarKardex.
    destruct (buscarInventario (bd st) id) as [inventario |]; [| reflexivity].
    destruct (calcularSaldoInicial id fechaDesde st) as [saldoInicial st1].
    destruct (procesarMovimientos _ _ _ _ _ st1) as [ms st2]. reflexivity.
Qed.

(** * The working set of lots of the FIFO Kardex *)

Lemma ofrecido_suma m : ofrecido m == sumaQ parteOfrecida m.
Proof.
  unfold ofrecido, totalDisponible, lotesTemporalesOrdenados.
  rewrite sumaQ_ordenar, sumaQ_map. simpl.
  unfold sumaQ, parteOfrecida. induction m as [| e m IH]; simpl; [reflexivity |].
  destruct (Qgtb (lt_cantidadDisponible (snd e)) 0) eqn:Hp; simpl; rewrite IH.
  - apply Qgtb_true in Hp.
    destruct (Qmax_0_cases (lt_cantidadDisponible (snd e))) as [[H1 H2] | [H1 H2]];
      rewrite H2; lra.
  - apply Qgtb_false in Hp.
    destruct (Qmax_0_cases (lt_cantidadDisponible (snd e))) as [[H1 H2] | [H1 H2]];
      rewrite H2; lra.
Qed.

Lemma mapaGet_In m k v : clavesUnicas m -> In (k, v) m -> mapaGet m k = Some v.
Proof.
  unfold clavesUnicas. induction m as [| [k' v'] m IH]; intros Hnd Hin; [destruct Hin |].
  simpl in *. inversion Hnd as [| ? ? Hno Hnd']; subst.
  destruct Hin as [Heq | Hin].
  - injection Heq as -> ->. rewrite Z.eqb_refl. reflexivity.
  - destruct (k' =? k)%Z eqn:He; [| apply IH; assumption].
    apply Z.eqb_eq in He. subst k'. exfalso. apply Hno.
    apply in_map_iff. exists (k, v). split; [reflexivity | exact Hin].
Qed.

Lemma mapaSet_claves m k v v' :
  mapaGet m k = Some v -> List.map fst (mapaSet m k v') = List.map fst m.
Proof.
  induction m as [| [k0 v0] m IH]; [discriminate |]. simpl.
  destruct (k0 =? k)%Z eqn:He.
  - apply Z.eqb_eq in He. subst k0. reflexivity.
  - intros H. simpl. rewrite (IH H). reflexivity.
Qed.

Lemma mapaSet_suma (f : Z * LoteTemporal -> Q) m k v v' :
  mapaGet m k = Some v ->
  sumaQ f (mapaSet m k v') == sumaQ f m - f (k, v) + f (k, v').
Proof.
  unfold sumaQ. induction m as [| [k0 v0] m IH]; [discriminate |]. simpl.
  destruct (k0 =? k)%Z eqn:He.
  - apply Z.eqb_eq in He. subst k0. intros [= <-]. simpl. lra.
  - intros H. simpl. rewrite (IH H). lra.
Qed.

Lemma mapaGet_mapaSet_otro m k k' v' :
  k <> k' -> mapaGet (mapaSet m k v') k' = mapaGet m k'.
Proof.
  intros Hne. induction m as [| [k0 v0] m IH]; simpl.
  - apply Z.eqb_neq in Hne. rewrite Hne. reflexivity.
  - destruct (k0 =? k)%Z eqn:He; simpl.
    + apply Z.eqb_eq in He. subst k0. apply Z.eqb_neq in Hne. rewrite Hne. reflexivity.
    + destruct (k0 =? k')%Z; [reflexivity | exact IH].
Qed.

Lemma mapaSet_Forall (P : Z * LoteTemporal -> Prop) m k v' :
  Forall P m -> P (k, v') -> Forall P (mapaSet m k v').
Proof.
  intros Hm Hp. induction Hm as [| [k0 v0] m H0 Hm IH]; simpl.
  - constructor; [exact Hp | constructor].
  - destruct (k0 =? k)%Z; constructor; auto.
Qed.

(** The loop of [calcularCostoFIFO] takes from the working set what it
    allocates. *)
Lemma consumirTemporales_conserva l m detalles q costo :
  List.NoDup (List.map ld_idLote l) ->
  Forall (fun lote =>
            0 < ld_cantidadDisponible lote
            /\ exists v, mapaGet m (ld_idLote lote) = Some v
                         /\ lt_cantidadDisponible v = ld_cantidadDisponible lote) l ->
  exists nuevos,
    fst (fst (consumirTemporales l m detalles q costo)) = detalles ++ nuevos
    /\ List.map fst (snd (consumirTemporales l m detalles q costo)) = List.map fst m
    /\ sumaQ parteOfrecida (snd (consumirTemporales l m detalles q costo))
       == sumaQ parteOfrecida m - sumaQ dsc_cantidad nuevos
    /\ (sinFaltantes m -> sinFaltantes (snd (consumirTemporales l m detalles q costo))).
Proof.
  revert m detalles q costo.
  induction l as [| lote l IH]; intros m detalles q costo Hnd Hl; simpl.
  - exists []. rewrite app_nil_r. unfold sumaQ at 3. simpl.
    repeat split; auto. lra.
  - destruct (Qleb q 0) eqn:Hq.
    { exists []. rewrite app_nil_r. unfold sumaQ at 3. simpl.
      repeat split; auto. lra. }
    inversion Hnd as [| ? ? Hno Hnd']; subst.
    inversion Hl as [| ? ? (Hpos & v & Hget & Hv) Hl']; subst.
    apply Qleb_false in Hq.
    set (tomado := Qmin q (ld_cantidadDisponible lote)) in *.
    assert (Htom : 0 < tomado /\ tomado <= ld_cantidadDisponible lote).
    { unfold tomado.
      destruct (Qmin_cases q (ld_cantidadDisponible lote)) as [[H1 H2] | [H1 H2]];
        rewrite H2; split; lra. }
    unfold mapaCambiarCantidad. rewrite Hget.
    set (v' := {| lt_cantidadDisponible := lt_cantidadDisponible v - tomado;
                  lt_costoUnitario := lt_costoUnitario v;
                  lt_fechaIngreso := lt_fechaIngreso v |}).
    match goal with
    | |- context [consumirTemporales l ?m1 (detalles ++ [?d]) ?q1 ?c1] =>
        destruct (IH m1 (detalles ++ [d]) q1 c1 Hnd') as (nuevos & Hd & Hk & Hs & Hf);
        [| exists (d :: nuevos)]
    end.
    + apply List.Forall_forall. intros x Hx.
      rewrite List.Forall_forall in Hl'. destruct (Hl' x Hx) as (Hxp & vx & Hgx & Hvx).
      split; [exact Hxp |]. exists vx. split; [| exact Hvx].
      rewrite mapaGet_mapaSet_otro; [exact Hgx |].
      intros Heq. apply Hno. rewrite Heq. apply in_map, Hx.
    + rewrite Hd, <- app_assoc. simpl. split; [reflexivity |].
      split; [rewrite Hk; apply (mapaSet_claves _ _ _ _ Hget) |].
      split.
      * rewrite Hs, (mapaSet_suma parteOfrecida _ _ _ _ Hget).
        unfold parteOfrecida, v'.
        cbn [dsc_cantidad snd lt_cantidadDisponible]. rewrite Hv.
        destruct (Qmax_0_cases (ld_cantidadDisponible lote)) as [[H1 H2] | [H1 H2]];
          destruct (Qmax_0_cases (ld_cantidadDisponible lote - tomado))
            as [[H3 H4] | [H3 H4]]; rewrite H2, H4; lra.
      * intros Hsin. apply Hf. apply mapaSet_Forall; [exact Hsin |].
        unfold v'. simpl. rewrite Hv. lra.
Qed.

Lemma insertar_NoDup {A B} (cmp : A -> A -> Z) (f : A -> B) x l :
  ~ In (f x) (List.map f l) -> List.NoDup (List.map f l) ->
  List.NoDup (List.map f (insertar cmp x l)).
Proof.
  induction l as [| y l IH]; intros Hx Hnd; simpl.
  - constructor; [exact Hx | constructor].
  - destruct (cmp x y <=? 0)%Z; simpl.
    + constructor; assumption.
    + simpl in Hx, Hnd. inversion Hnd as [| ? ? Hy Hnd']; subst.
      constructor.
      * intros Hin. apply in_map_iff in Hin as (z & Hz & Hzin).
        apply insertar_In in Hzin as [-> | Hzin].
        -- apply Hx. left. symmetry. exact Hz.
        -- apply Hy. rewrite <- Hz. apply in_map, Hzin.
      * apply IH; [| exact Hnd']. intros Hin. apply Hx. right. exact Hin.
Qed.

Lemma ordenar_NoDup {A B} (cmp : A -> A -> Z) (f : A -> B) l :
  List.NoDup (List.map f l) -> List.NoDup (List.map f (ordenar cmp l)).
Proof.
  induction l as [| x l IH]; intros Hnd; simpl; [constructor |].
  simpl in Hnd. inversion Hnd as [| ? ? Hx Hnd']; subst.
  apply insertar_NoDup; [| apply IH, Hnd'].
  intros Hin. apply Hx. apply in_map_iff in Hin as (z & Hz & Hzin).
  apply ordenar_In in Hzin. rewrite <- Hz. apply in_map, Hzin.
Qed.

Lemma lotesTemporalesOrdenados_unicos m :
  clavesUnicas m -> List.NoDup (List.map ld_idLote (lotesTemporalesOrdenados m)).
Proof.
  unfold clavesUnicas, lotesTemporalesOrdenados. intros Hnd.
  apply ordenar_NoDup. rewrite List.map_map. simpl.
  induction m as [| e m IH]; simpl; [constructor |].
  simpl in Hnd. inversion Hnd as [| ? ? He Hnd']; subst.
  destruct (Qgtb (lt_cantidadDisponible (snd e)) 0); simpl; [| apply IH, Hnd'].
  constructor; [| apply IH, Hnd'].
  intros Hin. apply He. apply in_map_iff in Hin as (z & Hz & Hzin).
  apply List.filter_In in Hzin as [Hzin _]. rewrite <- Hz. apply in_map, Hzin.
Qed.

Lemma calcularCostoFIFO_conserva m q :
  clavesUnicas m ->
  List.map fst (snd (calcularCostoFIFO m q)) = List.map fst m
  /\ ofrecido (snd (calcularCostoFIFO m q))
     == ofrecido m - sumaQ dsc_cantidad (detallesSalida (fst (calcularCostoFIFO m q)))
  /\ (sinFaltantes m -> sinFaltantes (snd (calcularCostoFIFO m q))).
Proof.
  intros Hnd. unfold calcularCostoFIFO.
  destruct (consumirTemporales_conserva (lotesTemporalesOrdenados m) m [] q 0)
    as (nuevos & Hd & Hk & Hs & Hf).
  - apply lotesTemporalesOrdenados_unicos, Hnd.
  - pose proof (lotesTemporalesOrdenados_del_mapa m) as H.
    eapply List.Forall_impl; [| exact H]. simpl.
    intros lote [(v & Hin & Hq & _) Hpos]. split; [exact Hpos |].
    exists v. split; [apply mapaGet_In; assumption | symmetry; exact Hq].
  - destruct (consumirTemporales (lotesTemporalesOrdenados m) m [] q 0)
      as [[ds c] m'].
    simpl in *. subst ds. split; [exact Hk |]. split; [| exact Hf].
    rewrite !ofrecido_suma. exact Hs.
Qed.

Lemma mapaGet_None_claves m k :
  mapaGet m k = None <-> ~ In k (List.map fst m).
Proof.
  induction m as [| [k0 v0] m IH]; simpl.
  - split; [intros _ [] | reflexivity].
  - destruct (k0 =? k)%Z eqn:He.
    + apply Z.eqb_eq in He. split; [discriminate | intros H; exfalso; apply H; auto].
    + apply Z.eqb_neq in He. rewrite IH. split.
      * intros H [Heq | Hin]; [contradiction | apply H, Hin].
      * intros H Hin. apply H. right. exact Hin.
Qed.

Lemma mapaGet_Some_In m k v : mapaGet m k = Some v -> In (k, v) m.
Proof.
  induction m as [| [k0 v0] m IH]; [discriminate |]. simpl.
  destruct (k0 =? k)%Z eqn:He.
  - apply Z.eqb_eq in He. subst k0. intros [= <-]. left. reflexivity.
  - intros H. right. apply IH, H.
Qed.

Lemma mapaSet_nuevo (f : Z * LoteTemporal -> Q) m k v' :
  mapaGet m k = None ->
  mapaSet m k v' = m ++ [(k, v')].
Proof.
  induction m as [| [k0 v0] m IH]; [reflexivity |]. simpl.
  destruct (k0 =? k)%Z; [discriminate |]. intros H. rewrite (IH H). reflexivity.
Qed.

Lemma mapaSet_clavesUnicas m k v' :
  clavesUnicas m -> clavesUnicas (mapaSet m k v').
Proof.
  unfold clavesUnicas. intros Hnd.
  destruct (mapaGet m k) as [v |] eqn:Hg.
  - rewrite (mapaSet_claves _ _ _ _ Hg). exact Hnd.
  - rewrite (mapaSet_nuevo parteOfrecida _ _ _ Hg), List.map_app. simpl.
    apply NoDup_al_final; [exact Hnd |]. apply mapaGet_None_claves, Hg.
Qed.

Lemma actualizarLoteTemporalEntrada_suma m idLote cantidad costo fechaIngreso :
  sinFaltantes m -> 0 <= cantidad ->
  clavesUnicas m ->
  clavesUnicas (actualizarLoteTemporalEntrada m idLote cantidad costo fechaIngreso)
  /\ sinFaltantes (actualizarLoteTemporalEntrada m idLote cantidad costo fechaIngreso)
  /\ ofrecido (actualizarLoteTemporalEntrada m idLote cantidad costo fechaIngreso)
     == ofrecido m + cantidad.
Proof.
  intros Hsin Hq Hnd. unfold actualizarLoteTemporalEntrada, mapaCambiarCantidad.
  destruct (mapaGet m idLote) as [v |] eqn:Hg.
  - assert (Hv : 0 <= lt_cantidadDisponible v).
    { apply mapaGet_Some_In in Hg. unfold sinFaltantes in Hsin.
      rewrite List.Forall_forall in Hsin. apply (Hsin _ Hg). }
    split; [apply mapaSet_clavesUnicas, Hnd |]. split.
    + apply mapaSet_Forall; [exact Hsin | simpl; lra].
    + rewrite !ofrecido_suma, (mapaSet_suma parteOfrecida _ _ _ _ Hg).
      unfold parteOfrecida. cbn [snd lt_cantidadDisponible].
      destruct (Qmax_0_cases (lt_cantidadDisponible v)) as [[H1 H2] | [H1 H2]];
        destruct (Qmax_0_cases (lt_cantidadDisponible v + cantidad))
          as [[H3 H4] | [H3 H4]]; rewrite H2, H4; lra.
  - split; [apply mapaSet_clavesUnicas, Hnd |]. split.
    + apply mapaSet_Forall; [exact Hsin | simpl; lra].
    + rewrite !ofrecido_suma, (mapaSet_nuevo parteOfrecida _ _ _ Hg), sumaQ_app.
      unfold sumaQ at 2, parteOfrecida. cbn [fold_right snd lt_cantidadDisponible].
      destruct (Qmax_0_cases cantidad) as [[H1 H2] | [H1 H2]]; rewrite H2; lra.
Qed.

Lemma inicializarLotesTemporales_bien_formado id fechaInicio st :
  clavesUnicas (fst (inicializarLotesTemporales id fechaInicio st))
  /\ sinFaltantes (fst (inicializarLotesTemporales id fechaInicio st)).
Proof.
  unfold inicializarLotesTemporales.
  pose proof (obtenerLotesDisponiblesFIFO_positivos id
                (Some (finDelDiaAnterior fechaInicio)) st) as Hpos.
  destruct (obtenerLotesDisponiblesFIFO id (Some (finDelDiaAnterior fechaInicio)) st)
    as [l st1]. simpl in *.
  assert (Hgen : forall m, clavesUnicas m -> sinFaltantes m ->
            clavesUnicas
              (fold_left
                 (fun m lote =>
                    mapaSet m (ld_idLote lote)
                      {| lt_cantidadDisponible := ld_cantidadDisponible lote;
                         lt_costoUnitario := ld_costoUnitario lote;
                         lt_fechaIngreso := ld_fechaIngreso lote |}) l m)
            /\ sinFaltantes
                 (fold_left
                    (fun m lote =>
                       mapaSet m (ld_idLote lote)
                         {| lt_cantidadDisponible := ld_cantidadDisponible lote;
                            lt_costoUnitario := ld_costoUnitario lote;
                            lt_fechaIngreso := ld_fechaIngreso lote |}) l m)).
  { induction Hpos as [| x l Hx Hl IH]; intros m Hnd Hsin; simpl; [auto |].
    apply IH.
    - apply mapaSet_clavesUnicas, Hnd.
    - apply mapaSet_Forall; [exact Hsin | simpl; lra]. }
  apply Hgen; constructor.
Qed.

(** X21. The working set of lots of the FIFO Kardex keeps its accounts.
    The set that [inicializarLotesTemporales] builds has one entry for
    each lot id and no negative quantity, and both steps of the replay
    keep it so: an entry of a quantity that is not negative raises what
    the set offers by that quantity, and an exit of a quantity that is
    not negative lowers it by what its lines report, leaving the offer
    less the quantity of the exit, floored at zero; an exit adds and
    removes no lot id. *)
Theorem lotes_temporales_llevan_la_cuenta m mov antes idLote cantidad costo
    fechaIngreso :
  clavesUnicas m -> sinFaltantes m ->
  (forall id fechaInicio st,
     clavesUnicas (fst (inicializarLotesTemporales id fechaInicio st))
     /\ sinFaltantes (fst (inicializarLotesTemporales id fechaInicio st)))
  /\ (0 <= cantidad ->
      clavesUnicas (actualizarLoteTemporalEntrada m idLote cantidad costo fechaIngreso)
      /\ sinFaltantes (actualizarLoteTemporalEntrada m idLote cantidad costo fechaIngreso)
      /\ ofrecido (actualizarLoteTemporalEntrada m idLote cantidad costo fechaIngreso)
         == ofrecido m + cantidad)
  /\ (0 <= md_cantidad mov ->
      exists filas m',
        procesarSalida mov antes FIFO m = (inr filas, m')
        /\ List.map fst m' = List.map fst m
        /\ sinFaltantes m'
        /\ ofrecido m' == ofrecido m - sumaQ km_cantidad filas
        /\ ofrecido m' == Qmax 0 (ofrecido m - md_cantidad mov)).
Proof.
  intros Hnd Hsin. split; [| split].
  - intros id fechaInicio st. apply inicializarLotesTemporales_bien_formado.
  - intros Hq. apply actualizarLoteTemporalEntrada_suma; assumption.
  - intros Hq. simpl.
    destruct (calcularCostoFIFO_conserva m (md_cantidad mov) Hnd) as (Hk & Hs & Hf).
    pose proof (lotesTemporalesOrdenados_del_mapa m) as Hdel.
    assert (Hpos : Forall (fun x => 0 < ld_cantidadDisponible x)
                     (lotesTemporalesOrdenados m)).
    { eapply List.Forall_impl; [| exact Hdel]. simpl. intros x [_ H]. exact H. }
    destruct (consumirTemporales_total (lotesTemporalesOrdenados m) m []
                (md_cantidad mov) 0 Hpos Hq) as (nuevos & Hd & Htot).
    unfold calcularCostoFIFO in *.
    destruct (consumirTemporales (lotesTemporalesOrdenados m) m [] (md_cantidad mov) 0)
      as [[ds c] m'].
    simpl in *. subst ds.
    eexists. eexists. split; [reflexivity |].
    assert (Hfilas : sumaQ km_cantidad (movimientosPorLote mov nuevos antes)
                     = sumaQ dsc_cantidad nuevos).
    { rewrite <- (sumaQ_map km_cantidad (fun x => x)),
        movimientosPorLote_cantidades, (sumaQ_map dsc_cantidad (fun x => x)).
      reflexivity. }
    split; [exact Hk |]. split; [apply Hf, Hsin |]. split.
    + rewrite Hfilas. exact Hs.
    + rewrite Hs, Htot. fold (ofrecido m).
      pose proof (totalDisponible_nonneg _ Hpos) as Hnn. fold (ofrecido m) in Hnn.
      destruct (Qmin_cases (md_cantidad mov) (ofrecido m)) as [[H1 H2] | [H1 H2]];
        destruct (Qmax_0_cases (ofrecido m - md_cantidad mov)) as [[H3 H4] | [H3 H4]];
        rewrite H2, H4; lra.
Qed.

Lemma lotes_temporales_llevan_la_cuenta_witness :
  clavesUnicas mapaEj /\ sinFaltantes mapaEj
  /\ exists filas m',
       procesarSalida ventaEj saldoEj FIFO mapaEj = (inr filas, m')
       /\ ofrecido m' == Qmax 0 (ofrecido mapaEj - 15).
Proof.
  assert (Hnd : clavesUnicas mapaEj).
  { unfold clavesUnicas. simpl. constructor; [intros [H | []]; discriminate H |].
    constructor; [intros [] | constructor]. }
  assert (Hsin : sinFaltantes mapaEj).
  { unfold sinFaltantes, mapaEj.
    apply List.Forall_forall. intros e He. simpl in He.
    destruct He as [<- | [<- | []]]; simpl; lra. }
  split; [exact Hnd |]. split; [exact Hsin |].
  destruct (lotes_temporales_llevan_la_cuenta mapaEj ventaEj saldoEj 1 0 0 (dia 1) Hnd Hsin)
    as (_ & _ & Hsalida).
  destruct Hsalida as (filas & m' & Hp & _ & _ & _ & Hof);
    [simpl; lra |].
  exists filas, m'. split; [exact Hp | exact Hof].
Defined.

(** * Which vouchers are accepted *)

Lemma registrarLoteCompra_casos ahora d fechaEmision st :
  (lineaDeCompraAceptable (bd st) d
   /\ exists lote st', registrarLoteCompra ahora d fechaEmision st = (Exito lote, st'))
  \/ (~ lineaDeCompraAceptable (bd st) d
      /\ exists e, registrarLoteCompra ahora d fechaEmision st = (Fallo e, st)).
Proof.
  unfold registrarLoteCompra, lineaDeCompraAceptable.
  destruct (cd_inventario d) as [idInv |] eqn:Hi.
  2:{ right. split; [intros (_ & _ & i & inv & H & _); discriminate | eauto]. }
  destruct (idInv =? 0)%Z eqn:Hcero.
  { apply Z.eqb_eq in Hcero. right. split; [| eauto].
    intros (_ & _ & i & inv & H & Hne & _). injection H as <-. contradiction. }
  apply Z.eqb_neq in Hcero.
  destruct (buscarInventario (bd st) idInv) as [inventario |] eqn:Hinv.
  2:{ right. split; [| eauto].
      intros (_ & _ & i & inv & H & _ & Hb & _). injection H as <-. congruence. }
  destruct (contiene (bd_productos (bd st)) (inv_idProducto inventario)) eqn:Hp; simpl.
  2:{ right. split; [| eauto].
      intros (_ & _ & i & inv & H & _ & Hb & Hpr & _). injection H as <-.
      rewrite Hinv in Hb. injection Hb as <-.
      apply contiene_In in Hpr. congruence. }
  destruct (contiene (bd_almacenes (bd st)) (inv_idAlmacen inventario)) eqn:Ha; simpl.
  2:{ right. split; [| eauto].
      intros (_ & _ & i & inv & H & _ & Hb & _ & Hal). injection H as <-.
      rewrite Hinv in Hb. injection Hb as <-.
      apply contiene_In in Hal. congruence. }
  destruct (Qleb (cd_cantidad d) 0) eqn:Hq.
  { apply Qleb_true in Hq. right. split; [intros (H & _); lra | eauto]. }
  apply Qleb_false in Hq.
  destruct (Qleb 0 (cd_precioUnitario d)) eqn:Hpr; simpl.
  2:{ apply Qleb_false in Hpr. right. split; [intros (_ & H & _); lra | eauto]. }
  apply Qleb_true in Hpr. left. split.
  - split; [exact Hq |]. split; [exact Hpr |].
    exists idInv, inventario. repeat split; auto; apply contiene_In; assumption.
  - eauto.
Qed.

Lemma lineaDeCompraAceptable_tablas b b' d :
  bd_inventarios b' = bd_inventarios b ->
  bd_productos b' = bd_productos b ->
  bd_almacenes b' = bd_almacenes b ->
  lineaDeCompraAceptable b' d <-> lineaDeCompraAceptable b d.
Proof.
  intros Hi Hp Ha. unfold lineaDeCompraAceptable, buscarInventario.
  rewrite Hi, Hp, Ha. reflexivity.
Qed.

Lemma procesarDetalles_compra_casos ahora detalles metodo fechaEmision cs ls st :
  (Forall (lineaDeCompraAceptable (bd st)) detalles
   /\ exists res st',
        procesarDetalles ahora detalles "COMPRA" metodo fechaEmision cs ls st
        = (Exito res, st'))
  \/ (exists e st' antes d despues nuevos,
        procesarDetalles ahora detalles "COMPRA" metodo fechaEmision cs ls st
        = (Fallo e, st')
        /\ detalles = antes ++ d :: despues
        /\ Forall (lineaDeCompraAceptable (bd st)) antes
        /\ ~ lineaDeCompraAceptable (bd st) d
        /\ bd_lotes (bd st') = bd_lotes (bd st) ++ nuevos
        /\ length nuevos = length antes).
Proof.
  revert cs ls st. induction detalles as [| d resto IH]; intros cs ls st.
  - left. split; [constructor |]. simpl. unfold retornar. eauto.
  - simpl. unfold ligar.
    destruct (registrarLoteCompra_casos ahora d fechaEmision st)
      as [(Hok & lote & st1 & Hreg) | (Hno & e & Hreg)]; rewrite Hreg.
    + pose proof (registrarLoteCompra_exito _ _ _ _ _ _ Hreg) as (_ & _ & _ & Hbd).
      assert (Hmismo : forall x, lineaDeCompraAceptable (bd st1) x
                                 <-> lineaDeCompraAceptable (bd st) x).
      { intros x. apply lineaDeCompraAceptable_tablas; rewrite Hbd; reflexivity. }
      match goal with
      | |- context [procesarDetalles ahora resto _ metodo fechaEmision ?c ?l st1] =>
          destruct (IH c l st1)
            as [(Hresto & res & st' & Hp)
               | (e & st' & antes & x & despues & nuevos & Hp & Hd & Ha & Hx & Hl & Hlen)];
          rewrite Hp
      end.
      * left. split; [| eauto]. constructor; [exact Hok |].
        eapply List.Forall_impl; [| exact Hresto]. intros x. apply Hmismo.
      * right. exists e, st', (d :: antes), x, despues, (lote :: nuevos).
        split; [reflexivity |]. split; [rewrite Hd; reflexivity |].
        split; [constructor; [exact Hok |];
                eapply List.Forall_impl; [| exact Ha]; intros y; apply Hmismo |].
        split; [intros H; apply Hx, Hmismo, H |].
        split; [rewrite Hl, Hbd; simpl; rewrite <- app_assoc; reflexivity |].
        simpl. rewrite Hlen. reflexivity.
    + right. exists e, st, [], d, resto, []. simpl. rewrite app_nil_r.
      repeat split; auto.
Qed.

(** X23. Which purchases are accepted. [procesarLotesComprobante] accepts
    a purchase exactly when each of its lines names, by a non-zero id, a
    position of the store whose product and warehouse the store holds,
    with a positive quantity and a price that is not negative. Otherwise
    it throws at the first line that fails this, and the lots created for
    the lines before it are left in the store: the function undoes
    nothing by itself. *)
Theorem procesarLotesComprobante_compra_acepta ahora detalles metodo fechaEmision st :
  (Forall (lineaDeCompraAceptable (bd st)) detalles
   <-> exists res,
         fst (procesarLotesComprobante ahora detalles "COMPRA" metodo fechaEmision st)
         = Exito res)
  /\ (forall e,
        fst (procesarLotesComprobante ahora detalles "COMPRA" metodo fechaEmision st)
        = Fallo e ->
        exists antes d despues nuevos,
          detalles = antes ++ d :: despues
          /\ Forall (lineaDeCompraAceptable (bd st)) antes
          /\ ~ lineaDeCompraAceptable (bd st) d
          /\ bd_lotes (bd (snd (procesarLotesComprobante ahora detalles "COMPRA"
                                  metodo fechaEmision st)))
             = bd_lotes (bd st) ++ nuevos
          /\ length nuevos = length antes).
Proof.
  unfold procesarLotesComprobante.
  destruct (procesarDetalles_compra_casos ahora detalles metodo fechaEmision [] [] st)
    as [(Hok & res & st' & Hp)
       | (e & st' & antes & d & despues & nuevos & Hp & Hd & Ha & Hx & Hl & Hlen)];
    rewrite Hp; simpl.
  - split; [split; [eauto | intros _; exact Hok] | discriminate].
  - split.
    + split; [| intros (res & H); discriminate].
      intros Hall. exfalso. apply Hx. rewrite Hd in Hall.
      rewrite List.Forall_forall in Hall. apply Hall.
      apply in_or_app. right. left. reflexivity.
    + intros e' _. exists antes, d, despues, nuevos. auto.
Qed.

(** ** Sales *)

Lemma obtenerLotesDisponiblesFIFO_con_fecha_bd id hasta st1 st2 :
  bd st1 = bd st2 ->
  fst (obtenerLotesDisponiblesFIFO id (Some hasta) st1)
  = fst (obtenerLotesDisponiblesFIFO id (Some hasta) st2).
Proof.
  intros Hbd. unfold obtenerLotesDisponiblesFIFO.
  pose proof (calcularStockInventario_por_lotes id hasta st1) as H1.
  pose proof (calcularStockInventario_por_lotes id hasta st2) as H2.
  rewrite Hbd in H1. rewrite <- H2 in H1.
  destruct (calcularStockInventario id (Some hasta) st1) as [r1 s1].
  destruct (calcularStockInventario id (Some hasta) st2) as [r2 s2].
  simpl in H1. subst r2. destruct r1; reflexivity.
Qed.

Lemma calcularConsumoFIFO_casos id q fechaHasta st :
  (~ totalDisponible (fst (obtenerLotesDisponiblesFIFO id fechaHasta st)) < q
   /\ exists consumo, fst (calcularConsumoFIFO id q fechaHasta st) = Exito consumo)
  \/ (totalDisponible (fst (obtenerLotesDisponiblesFIFO id fechaHasta st)) < q
      /\ exists e, fst (calcularConsumoFIFO id q fechaHasta st) = Fallo e).
Proof.
  rewrite calcularConsumoFIFO_eq.
  pose proof (obtenerLotesDisponiblesFIFO_positivos id fechaHasta st) as Hpos.
  destruct (obtenerLotesDisponiblesFIFO id fechaHasta st) as [l st1]. simpl in *.
  pose proof (consumirLotes_restante l [] q Hpos) as Hr.
  destruct (consumirLotes l [] q) as [c r]. simpl in Hr.
  destruct (Qgtb r 0) eqn:Hg; simpl.
  - apply Qgtb_true in Hg. right. split; [apply Hr, Hg | eauto].
  - apply Qgtb_false in Hg. left. split; [| eauto].
    intros H. apply Hr in H. lra.
Qed.

Lemma procesarDetalles_venta_casos ahora detalles op metodo fecha cs ls st :
  String.eqb op "COMPRA" = false ->
  forall st0, bd st0 = bd st ->
  (Forall (lineaCubierta fecha st0) detalles
   /\ exists res, fst (procesarDetalles ahora detalles op metodo (Some fecha) cs ls st)
                  = Exito res)
  \/ (~ Forall (lineaCubierta fecha st0) detalles
      /\ exists e, fst (procesarDetalles ahora detalles op metodo (Some fecha) cs ls st)
                   = Fallo e).
Proof.
  intros Hop. revert cs ls st.
  induction detalles as [| d resto IH]; intros cs ls st st0 Hbd.
  - left. split; [constructor |]. simpl. eauto.
  - destruct (cd_inventario d) as [idInv |] eqn:Hinv.
    2:{ right. split.
        - intros H. inversion H as [| ? ? (i & Hi & _) _]. congruence.
        - simpl. rewrite Hop, Hinv. simpl. eauto. }
    rewrite (procesarDetalles_cons_venta _ _ _ _ _ _ _ _ _ _ Hop Hinv).
    pose proof (calcularCostoUnitarioVenta_bd idInv (cd_cantidad d) metodo
                  (Some fecha) st) as Hbd1.
    assert (Hcub : forall s, bd s = bd st ->
               (lineaCubierta fecha st0 d
                <-> ~ totalDisponible
                        (fst (obtenerLotesDisponiblesFIFO idInv (Some fecha) s))
                      < cd_cantidad d)).
    { intros s Hs. unfold lineaCubierta.
      rewrite (obtenerLotesDisponiblesFIFO_con_fecha_bd idInv fecha s st0)
        by congruence.
      split.
      - intros (i & Hi & H). rewrite Hinv in Hi. injection Hi as <-. exact H.
      - intros H. exists idInv. auto. }
    destruct (calcularCostoUnitarioVenta idInv (cd_cantidad d) metodo (Some fecha) st)
      as [[costo | e] st1] eqn:Hcosto.
    + simpl in Hbd1.
      pose proof (calcularConsumoFIFO_bd idInv (cd_cantidad d) (Some fecha) st1) as Hbd2.
      destruct (calcularConsumoFIFO_casos idInv (cd_cantidad d) (Some fecha) st1)
        as [(Hsi & consumo & Hc) | (Hno & e & Hc)].
      * destruct (calcularConsumoFIFO idInv (cd_cantidad d) (Some fecha) st1)
          as [r st2]. simpl in Hc, Hbd2. subst r.
        match goal with
        | |- context [procesarDetalles ahora resto op metodo (Some fecha) ?c ?l ?s] =>
            destruct (IH c l s st0) as [(Hresto & Hex) | (Hresto & Hex)];
            [simpl; congruence | left | right]
        end.
        -- split; [| exact Hex]. constructor; [| exact Hresto].
           apply (Hcub st1 Hbd1), Hsi.
        -- split; [| exact Hex]. intros H. inversion H; subst. contradiction.
      * destruct (calcularConsumoFIFO idInv (cd_cantidad d) (Some fecha) st1)
          as [r st2]. simpl in Hc. subst r. right. split; [| simpl; eauto].
        intros H. inversion H as [| ? ? Hd _]; subst.
        apply (Hcub st1 Hbd1) in Hd. contradiction.
    + right. split; [| simpl; eauto].
      destruct metodo; simpl in Hcosto.
      * unfold elevar in Hcosto.
        destruct (calcularCostoPromedio idInv (Some fecha) st); discriminate.
      * unfold ligar in Hcosto.
        destruct (calcularConsumoFIFO_casos idInv (cd_cantidad d) (Some fecha) st)
          as [(Hsi & consumo & Hc) | (Hno & e' & Hc)].
        -- destruct (calcularConsumoFIFO idInv (cd_cantidad d) (Some fecha) st)
             as [r s]. simpl in Hc. subst r. discriminate.
        -- intros H. inversion H as [| ? ? Hd _]; subst.
           apply (Hcub st eq_refl) in Hd. contradiction.
Qed.

Lemma procesarDetalles_venta_bd ahora detalles op metodo fecha cs ls st :
  String.eqb op "COMPRA" = false ->
  bd (snd (procesarDetalles ahora detalles op metodo fecha cs ls st)) = bd st.
Proof.
  intros Hop. revert cs ls st.
  induction detalles as [| d resto IH]; intros cs ls st; [reflexivity |].
  destruct (cd_inventario d) as [idInv |] eqn:Hinv.
  2:{ simpl. rewrite Hop, Hinv. reflexivity. }
  rewrite (procesarDetalles_cons_venta _ _ _ _ _ _ _ _ _ _ Hop Hinv).
  pose proof (calcularCostoUnitarioVenta_bd idInv (cd_cantidad d) metodo fecha st)
    as Hbd1.
  destruct (calcularCostoUnitarioVenta idInv (cd_cantidad d) metodo fecha st)
    as [[costo | e] st1]; simpl in Hbd1; [| exact Hbd1].
  pose proof (calcularConsumoFIFO_bd idInv (cd_cantidad d) fecha st1) as Hbd2.
  destruct (calcularConsumoFIFO idInv (cd_cantidad d) fecha st1)
    as [[consumo | e] st2]; simpl in Hbd2; [| simpl; congruence].
  rewrite IH. simpl. congruence.
Qed.

Lemma lineaAceptada_cubierta fecha st d :
  lineaAceptada fecha st d <-> lineaCubierta fecha st d.
Proof.
  unfold lineaAceptada, lineaCubierta. split.
  - intros (idInv & consumo & Hinv & Hc). exists idInv. split; [exact Hinv |].
    destruct (calcularConsumoFIFO_casos idInv (cd_cantidad d) (Some fecha) st)
      as [(Hsi & _) | (_ & e & He)]; [exact Hsi | congruence].
  - intros (idInv & Hinv & Hsi).
    destruct (calcularConsumoFIFO_casos idInv (cd_cantidad d) (Some fecha) st)
      as [(_ & consumo & Hc) | (Hno & _)]; [| contradiction].
    exists idInv, consumo. auto.
Qed.

Lemma lineasAceptadas_cubiertas fecha st detalles :
  Forall (lineaAceptada fecha st) detalles
  <-> Forall (lineaCubierta fecha st) detalles.
Proof.
  rewrite !List.Forall_forall.
  split; intros H d Hd; apply lineaAceptada_cubierta, H, Hd.
Qed.

(** X24. Which sales are accepted. For a voucher that is not a purchase
    and a date, [procesarLotesComprobante] succeeds exactly when every
    line names a position and [calcularConsumoFIFO], called for that line
    alone in the state before the call, succeeds; otherwise it throws,
    under PROMEDIO as under FIFO. Each line is checked alone against that
    state: the lines of one voucher are not set off against each other.
    Whether it succeeds or throws, the store is left as it was. *)
Theorem procesarLotesComprobante_venta_acepta ahora detalles op metodo fecha st :
  String.eqb op "COMPRA" = false ->
  (Forall (lineaAceptada fecha st) detalles
   <-> exists res,
         fst (procesarLotesComprobante ahora detalles op metodo (Some fecha) st)
         = Exito res)
  /\ (~ Forall (lineaAceptada fecha st) detalles
      <-> exists e,
            fst (procesarLotesComprobante ahora detalles op metodo (Some fecha) st)
            = Fallo e)
  /\ bd (snd (procesarLotesComprobante ahora detalles op metodo (Some fecha) st))
     = bd st.
Proof.
  intros Hop. rewrite lineasAceptadas_cubiertas.
  unfold procesarLotesComprobante.
  assert (Hbd := procesarDetalles_venta_bd ahora detalles op metodo (Some fecha)
                   [] [] st Hop).
  destruct (procesarDetalles_venta_casos ahora detalles op metodo fecha [] [] st
              Hop st eq_refl) as [(Hsi & res & Hr) | (Hno & e & He)].
  - rewrite Hr. split; [| split; [| exact Hbd]]; split.
    + intros _. exists res. reflexivity.
    + intros _. exact Hsi.
    + intros H. contradiction.
    + intros (e & H). discriminate.
  - rewrite He. split; [| split; [| exact Hbd]]; split.
    + intros H. contradiction.
    + intros (res & H). discriminate.
    + intros _. exists e. reflexivity.
    + intros _. exact Hno.
Qed.

Lemma procesarLotesComprobante_venta_acepta_witness :
  String.eqb "VENTA" "COMPRA" = false
  /\ totalDisponible
       (fst (obtenerLotesDisponiblesFIFO 1 (Some (dia 15)) estadoDosLotes)) == 20
  /\ (exists res,
        fst (procesarLotesComprobante (dia 15) [lineaVentaEj; lineaVentaEj] "VENTA"
               PROMEDIO (Some (dia 15)) estadoDosLotes) = Exito res)
  /\ Forall (lineaAceptada (dia 15) estadoDosLotes) [lineaVentaEj; lineaVentaEj].
Proof.
  split; [reflexivity |]. split; [vm_compute; reflexivity |].
  assert (Hex : exists res,
             fst (procesarLotesComprobante (dia 15) [lineaVentaEj; lineaVentaEj] "VENTA"
                    PROMEDIO (Some (dia 15)) estadoDosLotes) = Exito res).
  { destruct (fst (procesarLotesComprobante (dia 15) [lineaVentaEj; lineaVentaEj]
                     "VENTA" PROMEDIO (Some (dia 15)) estadoDosLotes))
      as [res | e] eqn:H; [eauto | vm_compute in H; discriminate H]. }
  split; [exact Hex |].
  apply (procesarLotesComprobante_venta_acepta (dia 15) [lineaVentaEj; lineaVentaEj]
           "VENTA" PROMEDIO (dia 15) estadoDosLotes eq_refl).
  exact Hex.
Defined.

(** * A purchase in the Kardex *)

Lemma replicarMovimientos_entrada b movimientos metodo antes m mov :
  In mov movimientos ->
  esMovimientoEntrada (mov_tipo (md_movimiento mov))
    (mov_tipoOperacion (md_movimiento mov)) = true ->
  exists saldo,
    In (procesarEntrada b mov saldo)
      (replicarMovimientos b movimientos metodo antes m).
Proof.
  revert antes m. induction movimientos as [| x resto IH]; intros antes m Hin He;
    [destruct Hin |].
  simpl. destruct Hin as [-> | Hin].
  - rewrite He. exists antes. left. reflexivity.
  - destruct (esMovimientoEntrada (mov_tipo (md_movimiento x))
                (mov_tipoOperacion (md_movimiento x))).
    + match goal with
      | |- context [replicarMovimientos b resto metodo ?s ?m1] =>
          destruct (IH s m1 Hin He) as (saldo & Hs)
      end.
      exists saldo. right. exact Hs.
    + destruct (procesarSalida x antes metodo m) as [[fila | filas] m'].
      * match goal with
        | |- context [replicarMovimientos b resto metodo ?s ?m1] =>
            destruct (IH s m1 Hin He) as (saldo & Hs)
        end.
        exists saldo. right. exact Hs.
      * match goal with
        | |- context [replicarMovimientos b resto metodo ?s ?m1] =>
            destruct (IH s m1 Hin He) as (saldo & Hs)
        end.
        exists saldo. apply in_or_app. right. exact Hs.
Qed.

Lemma Forall2_In_izquierda {A B} (R : A -> B -> Prop) la lb a :
  Forall2 R la lb -> In a la -> exists b, In (a, b) (List.combine la lb).
Proof.
  induction 1 as [| x y la lb _ _ IH]; intros Hin; [destruct Hin |].
  destruct Hin as [-> | Hin].
  - exists y. left. reflexivity.
  - destruct (IH Hin) as (b & Hb). exists b. right. exact Hb.
Qed.

Lemma filas_de_parejas {A} (R : A -> MovimientoDetalle -> Prop)
    (f : ComprobanteDetalle * InventarioLote -> A) parejas filas dl :
  Forall2 R (List.map f parejas) filas ->
  In dl parejas ->
  exists fila, In fila filas /\ R (f dl) fila.
Proof.
  revert filas. induction parejas as [| p parejas IH]; intros filas Hf2 Hin;
    [destruct Hin |].
  simpl in Hf2. inversion Hf2 as [| ? fila ? filas' Hp Hf2']; subst.
  destruct Hin as [-> | Hin].
  - exists fila. split; [left; reflexivity | exact Hp].
  - destruct (IH filas' Hf2' Hin) as (x & Hx & Hr). exists x. split; [right |]; auto.
Qed.

(** X25. A purchase in the Kardex. In a store whose foreign keys hold, let
    [procesarLotesComprobante] accept a purchase, the factory build the
    lines of its movement in mode COMPRA, and [createWithManager] write
    them in a processed entry. Then, under both methods, the Kardex of a
    position over a window that holds the date of the movement has, for
    each line of the voucher for that position, an entry line with the
    date of the movement, the quantity of the voucher line, its price as
    unit cost and their product as total cost. *)
Theorem compra_registrada_en_kardex ahora detalles metodo fechaEmision st res st1
    dto comprobante mov st2 id fechaDesde fechaHasta metodoKardex d :
  integridadReferencial (bd st) ->
  procesarLotesComprobante ahora detalles "COMPRA" metodo fechaEmision st
  = (Exito res, st1) ->
  cm_tipo dto = ENTRADA ->
  cm_estado dto = PROCESADO ->
  cm_detalles dto
  = createMovimientosDetallesFromDetallesComprobante detalles "COMPRA"
      (lp_costoUnitario res) (lp_lotes res) ->
  createWithManager dto comprobante st1 = (Exito mov, st2) ->
  (fechaDesde <= cm_fecha dto <= fechaHasta)%Z ->
  In d detalles ->
  cd_inventario d = Some id ->
  exists k fila,
    fst (generarKardex id fechaDesde fechaHasta metodoKardex st2) = Some k
    /\ In fila (kr_movimientos k)
    /\ km_tipoMovimiento fila = ENTRADA
    /\ km_fecha fila = cm_fecha dto
    /\ km_cantidad fila = cd_cantidad d
    /\ km_costoUnitario fila = cd_precioUnitario d
    /\ km_costoTotal fila = cd_cantidad d * cd_precioUnitario d.
Proof.
  intros Hint Hproc Htipo Hestado Hdet Hcrea Hventana Hd Hinv.
  destruct (compra_registrada_lotes _ _ _ _ _ _ _ _ _ _ _ Hint Hproc Htipo Hestado
              Hdet Hcrea) as (nuevos & Hlotes & Hf2 & Hnuevos & _).
  destruct (Forall2_In_izquierda _ _ _ _ Hf2 Hd) as (l & Hdl).
  destruct (Forall2_combine_In _ _ _ _ _ Hf2 Hdl) as (Hil & _).
  (* the row written for the line *)
  pose proof Hproc as Hproc'. unfold procesarLotesComprobante in Hproc'.
  apply procesarDetalles_compra in Hproc'
    as (nuevos' & Hbd1 & Hf2' & Hval & _ & Hls & Hfresh & _).
  assert (nuevos' = nuevos).
  { pose proof (createWithManager_filas _ _ _ _ _ Hcrea) as (_ & _ & _ & _ & fs & Hb & _).
    rewrite Hb, Hbd1 in Hlotes. simpl in Hlotes.
    apply app_inv_head in Hlotes. exact Hlotes. }
  subst nuevos'.
  simpl in Hls. rewrite Hls in Hdet.
  unfold createMovimientosDetallesFromDetallesComprobante in Hdet.
  rewrite (crearDetallesDesde_lotes_de_compra _ _ _ _ _ Hf2 Hval) in Hdet.
  simpl in Hdet.
  apply createWithManager_filas in Hcrea
    as (Hmt & Hmf & Hme & _ & filas & Hbd2 & Hfilas).
  rewrite Hdet in Hfilas.
  destruct (filas_de_parejas _ _ _ _ _ Hfilas Hdl)
    as (f & Hf & Hfm & Hfi & Hfl & Hfq & _).
  simpl in Hfi, Hfl, Hfq.
  (* the position exists *)
  rewrite List.Forall_forall in Hval.
  destruct (Hval d Hd) as (_ & _ & i & Hi & Hcero & Hen). rewrite Hinv in Hi.
  injection Hi as <-.
  assert (Hex : exists inventario, buscarInventario (bd st2) id = Some inventario).
  { unfold buscarInventario. rewrite Hbd2, Hbd1. simpl.
    apply in_map_iff in Hen as (x & Hx & Hxin).
    destruct (List.find (fun i => (inv_id i =? id)%Z) (bd_inventarios (bd st)))
      as [y |] eqn:Hfind; [eauto |].
    apply (find_none _ _ Hfind) in Hxin. rewrite Hx, Z.eqb_refl in Hxin.
    discriminate. }
  destruct Hex as (inventario & Hbi).
  (* the Kardex *)
  pose proof (generarKardex_estado id fechaDesde fechaHasta metodoKardex st2) as Hest.
  unfold generarKardex in *. rewrite Hbi in *.
  destruct (calcularSaldoInicial id fechaDesde st2) as [saldoInicial s1].
  unfold procesarMovimientos in *.
  destruct (match metodoKardex with
            | PROMEDIO => ([], s1)
            | FIFO => inicializarLotesTemporales id fechaDesde s1
            end) as [m s2].
  simpl in Hest. subst s2. simpl.
  assert (Hentrada : esMovimientoEntrada (mov_tipo (md_movimiento f))
                       (mov_tipoOperacion (md_movimiento f)) = true).
  { rewrite Hfm, Hmt, Htipo. unfold esMovimientoEntrada.
    destruct (mov_tipoOperacion mov) as [o |]; [destruct (String.eqb o "COMPRA") |];
      reflexivity. }
  assert (Hmovs : In f (obtenerMovimientosInventario (bd st2) id fechaDesde fechaHasta)).
  { unfold obtenerMovimientosInventario. apply ordenar_In, List.filter_In. split.
    - rewrite Hbd2. simpl. apply in_or_app. right. exact Hf.
    - rewrite Hfi, Hfm, Hmf, Hme.
      rewrite Hinv in Hil. injection Hil as Hil. rewrite <- Hil, Z.eqb_refl. simpl.
      destruct Hventana as [H1 H2]. apply Z.leb_le in H1, H2. rewrite H1, H2, Hestado.
      reflexivity. }
  destruct (replicarMovimientos_entrada (bd st2) _ metodoKardex saldoInicial m f
              Hmovs Hentrada) as (saldo & Hfila).
  eexists. exists (procesarEntrada (bd st2) f saldo).
  split; [reflexivity |]. split; [exact Hfila |]. simpl.
  assert (Hcosto : obtenerCostoUnitarioEntrada (bd st2) (md_idLote f)
                   = cd_precioUnitario d).
  { rewrite Hfl. unfold obtenerCostoUnitarioEntrada, loteReferido.
    rewrite List.Forall_forall in Hfresh.
    destruct (Hfresh l (in_combine_r _ _ _ _ Hdl)) as [Hpos _].
    assert (Hne : (lote_id l =? 0)%Z = false) by (apply Z.eqb_neq; lia).
    rewrite Hne.
    destruct (Hnuevos d l (cm_fecha dto) Hdl) as (r & Hr & Hc & _).
    rewrite calcularStockLote_con_fecha in Hr. simpl in Hr. unfold stockDeLote in Hr.
    destruct (buscarLote (bd st2) (lote_id l)) as [y |]; [| discriminate].
    simpl in Hr. injection Hr as <-. exact Hc. }
  rewrite Hcosto, Hfm, Hmt, Hmf, Htipo, Hfq. repeat split; reflexivity.
Qed.

Lemma compra_registrada_en_kardex_witness :
  integridadReferencial (bd estadoDosLotes)
  /\ exists res st1 mov st2 k fila,
       procesarLotesComprobante (dia 20) [lineaCompraEj 4 7; lineaCompraEj 6 9]
         "COMPRA" FIFO (Some (dia 20)) estadoDosLotes = (Exito res, st1)
       /\ createWithManager
            (movimientoDe ENTRADA (dia 20)
               (createMovimientosDetallesFromDetallesComprobante
                  [lineaCompraEj 4 7; lineaCompraEj 6 9] "COMPRA"
                  (lp_costoUnitario res) (lp_lotes res)))
            None st1 = (Exito mov, st2)
       /\ fst (generarKardex 1 (dia 12) (dia 25) FIFO st2) = Some k
       /\ In fila (kr_movimientos k)
       /\ km_cantidad fila = 6
       /\ km_costoUnitario fila = 9.
Proof.
  assert (Hint : integridadReferencial (bd estadoDosLotes)).
  { split.
    - apply List.Forall_forall. intros l Hl. simpl in Hl.
      destruct Hl as [<- | [<- | []]]; simpl; auto.
    - apply List.Forall_forall. intros d Hd. simpl in Hd.
      destruct Hd as [<- | [<- | []]]; simpl;
        (split; [auto | split; [intros l [= <-]; auto | constructor]]). }
  split; [exact Hint |].
  destruct (procesarLotesComprobante (dia 20) [lineaCompraEj 4 7; lineaCompraEj 6 9]
              "COMPRA" FIFO (Some (dia 20)) estadoDosLotes) as [res st1] eqn:Hproc.
  destruct res as [res | e]; [| vm_compute in Hproc; discriminate Hproc].
  destruct (createWithManager
              (movimientoDe ENTRADA (dia 20)
                 (createMovimientosDetallesFromDetallesComprobante
                    [lineaCompraEj 4 7; lineaCompraEj 6 9] "COMPRA"
                    (lp_costoUnitario res) (lp_lotes res)))
              None st1) as [[mov | e] st2] eqn:Hcrea;
    [| unfold createWithManager in Hcrea; discriminate Hcrea].
  assert (Hv : (dia 12 <= cm_fecha (movimientoDe ENTRADA (dia 20)
                  (createMovimientosDetallesFromDetallesComprobante
                     [lineaCompraEj 4 7; lineaCompraEj 6 9] "COMPRA"
                     (lp_costoUnitario res) (lp_lotes res))) <= dia 25)%Z)
    by (split; vm_compute; discriminate).
  destruct (compra_registrada_en_kardex (dia 20) [lineaCompraEj 4 7; lineaCompraEj 6 9]
              FIFO (Some (dia 20)) estadoDosLotes res st1
              (movimientoDe ENTRADA (dia 20)
                 (createMovimientosDetallesFromDetallesComprobante
                    [lineaCompraEj 4 7; lineaCompraEj 6 9] "COMPRA"
                    (lp_costoUnitario res) (lp_lotes res)))
              None mov st2 1 (dia 12) (dia 25) FIFO (lineaCompraEj 6 9)
              Hint Hproc eq_refl eq_refl eq_refl Hcrea Hv
              (or_intror (or_introl eq_refl)) eq_refl)
    as (k & fila & Hk & Hin & _ & _ & Hq & Hc & _).
  exists res, st1, mov, st2, k, fila. repeat split; auto.
Defined.

(** * Shape of the Kardex *)

Lemma movimientosPorLote_de_fila mov detalles antes :
  Forall (fun fila => km_fecha fila = mov_fecha (md_movimiento mov)
                      /\ km_idInventario fila = md_idInventario mov)
    (movimientosPorLote mov detalles antes).
Proof.
  revert antes. induction detalles as [| d resto IH]; intros antes; simpl;
    constructor; [split; reflexivity | apply IH].
Qed.

(** The lines that the replay emits for one row of the ledger. *)
Lemma replicarMovimientos_cons b mov resto metodo antes m :
  exists filas antes' m',
    replicarMovimientos b (mov :: resto) metodo antes m
    = filas ++ replicarMovimientos b resto metodo antes' m'
    /\ Forall (fun fila => km_fecha fila = mov_fecha (md_movimiento mov)
                           /\ km_idInventario fila = md_idInventario mov) filas.
Proof.
  simpl.
  destruct (esMovimientoEntrada (mov_tipo (md_movimiento mov))
              (mov_tipoOperacion (md_movimiento mov))).
  - eexists [_], _, _. split; [reflexivity |].
    constructor; [split; reflexivity | constructor].
  - destruct metodo; simpl.
    + eexists [_], _, _. split; [reflexivity |].
      constructor; [split; reflexivity | constructor].
    + destruct (calcularCostoFIFO m (md_cantidad mov)) as [res m'].
      eexists _, _, _. split; [reflexivity |]. apply movimientosPorLote_de_fila.
Qed.

Lemma replicarMovimientos_origen b movimientos metodo antes m :
  Forall (fun fila => exists mov,
            In mov movimientos
            /\ km_fecha fila = mov_fecha (md_movimiento mov)
            /\ km_idInventario fila = md_idInventario mov)
    (replicarMovimientos b movimientos metodo antes m).
Proof.
  revert antes m. induction movimientos as [| mov resto IH]; intros antes m.
  - constructor.
  - destruct (replicarMovimientos_cons b mov resto metodo antes m)
      as (filas & antes' & m' & -> & Hf).
    apply List.Forall_app. split.
    + eapply List.Forall_impl; [| exact Hf]. simpl. intros fila [H1 H2].
      exists mov. split; [left; reflexivity | auto].
    + eapply List.Forall_impl; [| apply IH]. simpl. intros fila (x & Hx & H).
      exists x. split; [right; exact Hx | exact H].
Qed.

Lemma StronglySorted_app_ {A} (R : A -> A -> Prop) l1 l2 :
  StronglySorted R l1 -> StronglySorted R l2 ->
  (forall x y, In x l1 -> In y l2 -> R x y) ->
  StronglySorted R (l1 ++ l2).
Proof.
  induction 1 as [| a l1 Hs IH Ha]; intros H2 Hx; simpl; [exact H2 |].
  constructor.
  - apply IH; [exact H2 |]. intros x y Hin1 Hin2. apply Hx; [right |]; assumption.
  - apply List.Forall_app. split; [exact Ha |].
    apply List.Forall_forall. intros y Hy. apply Hx; [left; reflexivity | exact Hy].
Qed.

Lemma misma_fecha_ordenadas f (filas : list KardexMovement) :
  Forall (fun fila => km_fecha fila = f) filas ->
  StronglySorted (fun x y => (km_fecha x <= km_fecha y)%Z) filas.
Proof.
  induction 1 as [| a l Ha Hl IH]; constructor; [exact IH |].
  eapply List.Forall_impl; [| exact Hl]. simpl. intros y Hy. lia.
Qed.

Lemma replicarMovimientos_en_orden b movimientos metodo antes m :
  StronglySorted antesEnLibro movimientos ->
  StronglySorted (fun x y => (km_fecha x <= km_fecha y)%Z)
    (replicarMovimientos b movimientos metodo antes m).
Proof.
  intros Hs. revert antes m.
  induction Hs as [| mov resto Hs IH Hmay]; intros antes m; [constructor |].
  destruct (replicarMovimientos_cons b mov resto metodo antes m)
    as (filas & antes' & m' & -> & Hf).
  apply StronglySorted_app_.
  - apply (misma_fecha_ordenadas (mov_fecha (md_movimiento mov))).
    eapply List.Forall_impl; [| exact Hf]. simpl. intros x [H _]. exact H.
  - apply IH.
  - intros x y Hx Hy. rewrite List.Forall_forall in Hf.
    destruct (Hf x Hx) as [Hfx _].
    pose proof (replicarMovimientos_origen b resto metodo antes' m') as Ho.
    rewrite List.Forall_forall in Ho. destruct (Ho y Hy) as (z & Hz & Hfy & _).
    rewrite List.Forall_forall in Hmay. specialize (Hmay z Hz).
    rewrite Hfx, Hfy. unfold antesEnLibro in Hmay. lia.
Qed.

(** X26. Shape of the Kardex. Under both methods, the lines of a Kardex
    are in the order of their dates, and every line reports a row of the
    ledger of the position asked, dated within the window asked, bounds
    included. *)
Theorem generarKardex_en_orden id fechaDesde fechaHasta metodo st k st' :
  generarKardex id fechaDesde fechaHasta metodo st = (Some k, st') ->
  StronglySorted (fun x y => (km_fecha x <= km_fecha y)%Z) (kr_movimientos k)
  /\ Forall (filaDeLaVentana id fechaDesde fechaHasta) (kr_movimientos k).
Proof.
  unfold generarKardex.
  destruct (buscarInventario (bd st) id) as [inventario |]; [| discriminate].
  destruct (calcularSaldoInicial id fechaDesde st) as [saldoInicial st1].
  unfold procesarMovimientos.
  destruct (match metodo with
            | PROMEDIO => ([], st1)
            | FIFO => inicializarLotesTemporales id fechaDesde st1
            end) as [m st2].
  intros H. injection H as Hk Hs. subst k. simpl. split.
  - apply replicarMovimientos_en_orden.
    unfold obtenerMovimientosInventario. apply ordenar_ordenada; unfold antesEnLibro.
    + intros a c Hc. apply compararFechaLuegoId_le in Hc. exact Hc.
    + intros a c Hc. rewrite compararFechaLuegoId_le in Hc. lia.
    + intros a c e H1 H2. lia.
  - pose proof (replicarMovimientos_origen (bd st2)
                  (obtenerMovimientosInventario (bd st) id fechaDesde fechaHasta)
                  metodo saldoInicial m) as Ho.
    eapply List.Forall_impl; [| exact Ho]. simpl.
    intros fila (mov & Hin & Hf & Hi).
    unfold obtenerMovimientosInventario in Hin.
    apply ordenar_In, List.filter_In in Hin as [_ Hb].
    apply andb_true_iff in Hb as [Hb _]. apply andb_true_iff in Hb as [Hb H3].
    apply andb_true_iff in Hb as [H1 H2].
    apply Z.eqb_eq in H1. apply Z.leb_le in H2, H3.
    unfold filaDeLaVentana. rewrite Hf, Hi. auto.
Qed.

Lemma generarKardex_en_orden_witness :
  exists k st',
    generarKardex 1 (dia 1) (dia 20) FIFO estadoVenta = (Some k, st')
    /\ List.map km_fecha (kr_movimientos k) = [dia 1; dia 10; dia 15; dia 15]
    /\ StronglySorted (fun x y => (km_fecha x <= km_fecha y)%Z) (kr_movimientos k).
Proof.
  destruct (generarKardex 1 (dia 1) (dia 20) FIFO estadoVenta) as [k st'] eqn:Hk.
  destruct k as [k |]; [| vm_compute in Hk; discriminate Hk].
  exists k, st'. split; [reflexivity |]. split.
  - vm_compute in Hk. injection Hk as <- _. reflexivity.
  - apply (generarKardex_en_orden 1 (dia 1) (dia 20) FIFO estadoVenta k st' Hk).
Defined.

(** X27. The unit cost of the balance after an entry. With no negative
    unit cost among the lots, an entry of a quantity that is not negative
    into a well-formed balance leaves a well-formed balance; when the new
    balance quantity is positive, its unit cost lies between the unit cost
    of the balance before and the unit cost of the entry, and when the
    balance before was empty it is the unit cost of the entry. *)
Theorem entrada_costo_ponderado b mov antes :
  sinNegativos b ->
  0 <= md_cantidad mov ->
  saldoBienFormado antes ->
  let fila := procesarEntrada b mov antes in
  saldoBienFormado (saldoDeFila fila)
  /\ (0 < km_cantidadSaldo fila ->
      Qmin (s_costoUnitario antes) (km_costoUnitario fila)
      <= km_costoUnitarioSaldo fila
      <= Qmax (s_costoUnitario antes) (km_costoUnitario fila))
  /\ (s_cantidad antes == 0 -> 0 < md_cantidad mov ->
      km_costoUnitarioSaldo fila == km_costoUnitario fila).
Proof.
  intros Hb Hq Hbf. pose proof Hbf as (Hc & Hcu & Hv & Hid).
  split; [apply procesarEntrada_bien_formada; assumption |].
  pose proof (obtenerCostoUnitarioEntrada_nonneg b (md_idLote mov) Hb) as Hcosto.
  unfold procesarEntrada. simpl.
  set (c := obtenerCostoUnitarioEntrada b (md_idLote mov)) in *.
  set (q := md_cantidad mov) in *.
  set (Q0 := s_cantidad antes) in *.
  set (u := s_costoUnitario antes) in *.
  set (V := s_valorTotal antes) in *.
  split.
  - intros Hpos.
    assert (Hg : Qgtb (Q0 + q) 0 = true) by (apply Qgtb_true; exact Hpos).
    rewrite Hg.
    assert (Hx : (V + q * c) / (Q0 + q) * (Q0 + q) == V + q * c) by (field; lra).
    set (x := (V + q * c) / (Q0 + q)) in *.
    assert (Hlo : Qmin u c <= u /\ Qmin u c <= c)
      by (split; [apply Q.le_min_l | apply Q.le_min_r]).
    assert (Hhi : u <= Qmax u c /\ c <= Qmax u c)
      by (split; [apply Q.le_max_l | apply Q.le_max_r]).
    set (lo := Qmin u c) in *. set (hi := Qmax u c) in *.
    split.
    + destruct (Qlt_le_dec x lo) as [Hlt | Hge]; [| exact Hge].
      exfalso. assert (x * (Q0 + q) < lo * (Q0 + q)) by nra. nra.
    + destruct (Qlt_le_dec hi x) as [Hlt | Hge]; [| exact Hge].
      exfalso. assert (hi * (Q0 + q) < x * (Q0 + q)) by nra. nra.
  - intros H0 Hqpos.
    assert (Hg : Qgtb (Q0 + q) 0 = true) by (apply Qgtb_true; lra).
    rewrite Hg. assert (HV : V == 0) by nra.
    rewrite HV, H0. field. lra.
Qed.

Lemma entrada_costo_ponderado_witness :
  sinNegativos (bd estadoDosLotes)
  /\ saldoBienFormado saldoEj
  /\ Qmin 6.5 8 <= km_costoUnitarioSaldo
                     (procesarEntrada (bd estadoDosLotes) (entradaEj 2 2 10 (dia 10)) saldoEj)
     <= Qmax 6.5 8.
Proof.
  assert (Hb : sinNegativos (bd estadoDosLotes)).
  { split; apply List.Forall_forall; intros x Hx; simpl in Hx;
      destruct Hx as [<- | [<- | []]]; simpl; lra. }
  assert (Hs : saldoBienFormado saldoEj).
  { unfold saldoBienFormado, saldoEj. simpl. repeat split; lra. }
  split; [exact Hb |]. split; [exact Hs |].
  destruct (entrada_costo_ponderado (bd estadoDosLotes) (entradaEj 2 2 10 (dia 10))
              saldoEj Hb) as (_ & Hentre & _); [simpl; lra | exact Hs |].
  apply Hentre. vm_compute. reflexivity.
Defined.

(** * The stock of a position after a sale *)

Lemma NoDup_map_filter {A B} (f : A -> B) (p : A -> bool) l :
  List.NoDup (List.map f l) -> List.NoDup (List.map f (List.filter p l)).
Proof.
  induction l as [| x l IH]; intros Hnd; simpl; [constructor |].
  simpl in Hnd. inversion Hnd as [| ? ? Hx Hnd']; subst.
  destruct (p x); simpl; [| apply IH, Hnd'].
  constructor; [| apply IH, Hnd'].
  intros Hin. apply Hx. apply in_map_iff in Hin as (y & Hy & Hyin).
  apply List.filter_In in Hyin as [Hyin _]. rewrite <- Hy. apply in_map, Hyin.
Qed.

Lemma buscarLote_unico b l :
  List.NoDup (List.map lote_id (bd_lotes b)) ->
  In l (bd_lotes b) -> buscarLote b (lote_id l) = Some l.
Proof.
  unfold buscarLote. induction (bd_lotes b) as [| x ls IH]; intros Hnd Hin;
    [destruct Hin |].
  simpl in *. inversion Hnd as [| ? ? Hx Hnd']; subst.
  destruct Hin as [-> | Hin]; [rewrite Z.eqb_refl; reflexivity |].
  destruct (lote_id x =? lote_id l)%Z eqn:He; [| apply IH; assumption].
  apply Z.eqb_eq in He. exfalso. apply Hx. rewrite He. apply in_map, Hin.
Qed.

(** With lot ids that are unique, the lots of a position with a positive
    quantity are the results computed for its lots. *)
Lemma stocksDeLotes_unicos b fechaHasta ls :
  List.NoDup (List.map lote_id (bd_lotes b)) ->
  (forall l, In l ls -> In l (bd_lotes b)) ->
  stocksDeLotes b fechaHasta ls
  = List.map (resultadoLote b fechaHasta)
      (List.filter
         (fun l => Qgtb (cantidadActual (resultadoLote b fechaHasta l)) 0) ls).
Proof.
  intros Hnd. induction ls as [| l ls IH]; intros Hin; [reflexivity |].
  rewrite stocksDeLotes_cons, IH by (intros x Hx; apply Hin; right; exact Hx).
  unfold stockDeLote. rewrite (buscarLote_unico b l Hnd (Hin l (or_introl eq_refl))).
  cbn [option_map List.filter].
  destruct (Qgtb (cantidadActual (resultadoLote b fechaHasta l)) 0); reflexivity.
Qed.

Lemma lotesDeInventario_In b id l :
  In l (lotesDeInventario b id) <-> In l (bd_lotes b) /\ lote_idInventario l = id.
Proof.
  unfold lotesDeInventario. rewrite ordenar_In, List.filter_In, Z.eqb_eq. reflexivity.
Qed.

Lemma lotesDeInventario_unicos b id :
  List.NoDup (List.map lote_id (bd_lotes b)) ->
  List.NoDup (List.map lote_id (lotesDeInventario b id)).
Proof.
  intros Hnd. unfold lotesDeInventario. apply ordenar_NoDup, NoDup_map_filter, Hnd.
Qed.

(** The lots offered to the FIFO consumption, with lot ids that are
    unique: one for each lot of the position with a positive quantity. *)
Lemma lotesFIFO_unicos id hasta st :
  List.NoDup (List.map lote_id (bd_lotes (bd st))) ->
  List.NoDup (List.map ld_idLote
                (fst (obtenerLotesDisponiblesFIFO id (Some hasta) st)))
  /\ Forall (fun x =>
               exists l, In l (bd_lotes (bd st))
                         /\ lote_idInventario l = id
                         /\ ld_idLote x = lote_id l
                         /\ ld_cantidadDisponible x
                            = cantidadActual (resultadoLote (bd st) (Some hasta) l)
                         /\ ld_costoUnitario x = lote_costoUnitario l)
       (fst (obtenerLotesDisponiblesFIFO id (Some hasta) st)).
Proof.
  intros Hnd. unfold obtenerLotesDisponiblesFIFO.
  pose proof (calcularStockInventario_por_lotes id hasta st) as Hr.
  destruct (calcularStockInventario id (Some hasta) st) as [r st1]. simpl in Hr.
  destruct (buscarInventario (bd st) id) as [inventario |]; subst r; simpl;
    [| split; constructor].
  assert (Hl : forall l acc,
             lotesConStock (fold_left acumularLote l acc) = lotesConStock acc ++ l).
  { induction l as [| x l IH]; intros acc; simpl; [rewrite app_nil_r; reflexivity |].
    rewrite IH. simpl. rewrite <- app_assoc. reflexivity. }
  rewrite Hl. simpl. unfold lotesConSaldo.
  rewrite (stocksDeLotes_unicos (bd st) (Some hasta) _ Hnd)
    by (intros l H; apply lotesDeInventario_In in H; apply H).
  split.
  - apply ordenar_NoDup. rewrite List.map_map. simpl.
    apply NoDup_map_filter. rewrite List.map_map. simpl.
    apply NoDup_map_filter, lotesDeInventario_unicos, Hnd.
  - apply ordenar_Forall. apply List.Forall_forall. intros x Hx.
    apply in_map_iff in Hx as (sl & <- & Hsl).
    apply List.filter_In in Hsl as [Hsl _].
    apply in_map_iff in Hsl as (l & <- & Hlin).
    apply List.filter_In in Hlin as [Hlin _].
    apply lotesDeInventario_In in Hlin as [Hlin Hinv].
    exists l. simpl. repeat split; auto.
Qed.

Lemma consumidoDe_cons k c g :
  consumidoDe k (c :: g)
  == (if (cl_idLote c =? k)%Z then cl_cantidad c else 0) + consumidoDe k g.
Proof.
  unfold consumidoDe. simpl.
  destruct (cl_idLote c =? k)%Z; unfold sumaQ; simpl; lra.
Qed.

Lemma consumidoDe_ajeno L g k :
  Forall2 consumoDeLote L g -> ~ In k (List.map ld_idLote L) ->
  consumidoDe k g == 0.
Proof.
  induction 1 as [| x c L g Hxc _ IH]; intros Hk; [reflexivity |].
  rewrite consumidoDe_cons. destruct Hxc as (Hid & _).
  destruct (cl_idLote c =? k)%Z eqn:He.
  - apply Z.eqb_eq in He. exfalso. apply Hk. left. congruence.
  - rewrite IH; [lra | intros H; apply Hk; right; exact H].
Qed.

(** With lot ids that are unique, a consumption draws from a lot no more
    than the lot offers. *)
Lemma consumidoDe_cota L g k cap :
  Forall2 consumoDeLote L g ->
  List.NoDup (List.map ld_idLote L) ->
  0 <= cap ->
  (forall x, In x L -> ld_idLote x = k -> ld_cantidadDisponible x <= cap) ->
  0 <= consumidoDe k g /\ consumidoDe k g <= cap.
Proof.
  induction 1 as [| x c L g Hxc Hf2 IH]; intros Hnd Hcap Hx.
  - unfold consumidoDe, sumaQ; simpl. lra.
  - simpl in Hnd. inversion Hnd as [| ? ? Hnotin Hnd']; subst.
    rewrite consumidoDe_cons.
    destruct Hxc as (Hid & _ & Hpos & Hle).
    destruct (cl_idLote c =? k)%Z eqn:He.
    + apply Z.eqb_eq in He.
      rewrite (consumidoDe_ajeno L g k Hf2) by (rewrite <- He, Hid; exact Hnotin).
      assert (Hk : ld_idLote x = k) by congruence.
      specialize (Hx x (or_introl eq_refl) Hk). lra.
    + destruct (IH Hnd' Hcap) as [H1 H2];
        [intros y Hy; apply Hx; right; exact Hy | lra].
Qed.

Lemma sumaQ_suma {A} (f g : A -> Q) l :
  sumaQ (fun x => f x + g x) l == sumaQ f l + sumaQ g l.
Proof.
  unfold sumaQ. induction l as [| x l IH]; simpl; [lra | rewrite IH; lra].
Qed.

Lemma sumaQ_resta {A} (f g : A -> Q) l :
  sumaQ (fun x => f x - g x) l == sumaQ f l - sumaQ g l.
Proof.
  unfold sumaQ. induction l as [| x l IH]; simpl; [lra | rewrite IH; lra].
Qed.

Lemma sumaQ_ceros {A} (f : A -> Q) l :
  (forall x, In x l -> f x == 0) -> sumaQ f l == 0.
Proof.
  unfold sumaQ. induction l as [| x l IH]; intros H; simpl; [reflexivity |].
  rewrite (H x (or_introl eq_refl)), IH; [lra |].
  intros y Hy. apply H. right. exact Hy.
Qed.

Lemma sumaQ_intercambio {A B} (f : A -> B -> Q) la lb :
  sumaQ (fun a => sumaQ (f a) lb) la
  == sumaQ (fun b => sumaQ (fun a => f a b) la) lb.
Proof.
  induction la as [| a la IH].
  - symmetry. apply sumaQ_ceros. reflexivity.
  - change (sumaQ (fun a0 => sumaQ (f a0) lb) (a :: la))
      with (sumaQ (f a) lb + sumaQ (fun a0 => sumaQ (f a0) lb) la).
    rewrite IH, <- sumaQ_suma. apply sumaQ_ext_in. intros b _. reflexivity.
Qed.

Lemma sumaQ_filtrado {A} (p : A -> bool) (f : A -> Q) l :
  (forall x, In x l -> p x = false -> f x == 0) ->
  sumaQ f l == sumaQ f (List.filter p l).
Proof.
  induction l as [| x l IH]; intros H; [reflexivity |].
  assert (IH' : sumaQ f l == sumaQ f (List.filter p l))
    by (apply IH; intros y Hy; apply H; right; exact Hy).
  simpl. destruct (p x) eqn:Hp; unfold sumaQ in *; simpl.
  - rewrite IH'. reflexivity.
  - rewrite (H x (or_introl eq_refl) Hp), IH'. lra.
Qed.

Lemma sumaQ_indicador (ks : list Z) a v :
  List.NoDup ks -> In a ks ->
  sumaQ (fun k => if (a =? k)%Z then v else 0) ks == v.
Proof.
  induction 1 as [| k ks Hk Hnd IH]; intros Hin; [destruct Hin |].
  unfold sumaQ in *. simpl. destruct Hin as [-> | Hin].
  - rewrite Z.eqb_refl.
    rewrite (sumaQ_ceros (fun k => if (a =? k)%Z then v else 0) ks); [lra |].
    intros y Hy. destruct (a =? y)%Z eqn:He; [| reflexivity].
    apply Z.eqb_eq in He. subst y. contradiction.
  - destruct (a =? k)%Z eqn:He.
    + apply Z.eqb_eq in He. subst k. contradiction.
    + rewrite (IH Hin). lra.
Qed.

(** Summed over lot ids that are unique and cover it, a consumption gives
    its whole quantity. *)
Lemma consumidoDe_total ks g :
  List.NoDup ks ->
  Forall (fun c => In (cl_idLote c) ks) g ->
  sumaQ (fun k => consumidoDe k g) ks == cantidadConsumida g.
Proof.
  intros Hnd. induction 1 as [| c g Hc _ IH].
  - apply sumaQ_ceros. reflexivity.
  - rewrite (sumaQ_ext_in _
               (fun k => (if (cl_idLote c =? k)%Z then cl_cantidad c else 0)
                         + consumidoDe k g))
      by (intros k _; apply consumidoDe_cons).
    rewrite sumaQ_suma, IH, (sumaQ_indicador _ _ _ Hnd Hc).
    unfold cantidadConsumida, sumaQ. simpl. reflexivity.
Qed.

Lemma In_firstn_ {A} n (l : list A) x : In x (firstn n l) -> In x l.
Proof.
  intros H. rewrite <- (firstn_skipn n l). apply in_or_app. left. exact H.
Qed.

Lemma NoDup_firstn_ {A} n (l : list A) : List.NoDup l -> List.NoDup (firstn n l).
Proof.
  intros H. rewrite <- (firstn_skipn n l) in H.
  apply NoDup_app_remove_r in H. exact H.
Qed.

Lemma lote_unico b l l' :
  List.NoDup (List.map lote_id (bd_lotes b)) ->
  In l (bd_lotes b) -> In l' (bd_lotes b) -> lote_id l = lote_id l' -> l = l'.
Proof.
  intros Hnd Hl Hl' He.
  pose proof (buscarLote_unico b l Hnd Hl) as H1.
  pose proof (buscarLote_unico b l' Hnd Hl') as H2.
  rewrite He in H1. congruence.
Qed.

(** What a successful FIFO consumption draws: from lots of the position,
    each at most once. *)
Lemma consumo_de_posicion idInv q fecha st g :
  List.NoDup (List.map lote_id (bd_lotes (bd st))) ->
  fst (calcularConsumoFIFO idInv q (Some fecha) st) = Exito g ->
  (exists L,
     Forall2 consumoDeLote L g
     /\ List.NoDup (List.map ld_idLote L)
     /\ Forall (fun x =>
                  exists l, In l (bd_lotes (bd st))
                            /\ lote_idInventario l = idInv
                            /\ ld_idLote x = lote_id l
                            /\ ld_cantidadDisponible x
                               = cantidadActual
                                   (resultadoLote (bd st) (Some fecha) l)
                            /\ ld_costoUnitario x = lote_costoUnitario l) L)
  /\ (0 < q -> cantidadConsumida g == q)
  /\ (q <= 0 -> g = []).
Proof.
  intros Hnd Hg.
  destruct (calcularConsumoFIFO idInv q (Some fecha) st) as [res st'] eqn:Hc.
  simpl in Hg. subst res.
  destruct (calcularConsumoFIFO_exito _ _ _ _ _ _ Hc) as ((n & Hf2) & Hq & H0).
  destruct (lotesFIFO_unicos idInv fecha st Hnd) as (HndL & HL).
  split; [| split; assumption].
  exists (firstn n (fst (obtenerLotesDisponiblesFIFO idInv (Some fecha) st))).
  split; [exact Hf2 |]. split.
  - rewrite <- List.firstn_map. apply NoDup_firstn_, HndL.
  - apply List.Forall_forall. intros x Hx. apply In_firstn_ in Hx.
    rewrite List.Forall_forall in HL. apply HL, Hx.
Qed.

Lemma consumidoDe_lote idInv q fecha st g l :
  List.NoDup (List.map lote_id (bd_lotes (bd st))) ->
  fst (calcularConsumoFIFO idInv q (Some fecha) st) = Exito g ->
  In l (bd_lotes (bd st)) ->
  (lote_idInventario l <> idInv -> consumidoDe (lote_id l) g == 0)
  /\ 0 <= consumidoDe (lote_id l) g
  /\ consumidoDe (lote_id l) g
     <= cantidadActual (resultadoLote (bd st) (Some fecha) l).
Proof.
  intros Hnd Hg Hl.
  destruct (consumo_de_posicion _ _ _ _ _ Hnd Hg) as ((L & Hf2 & HndL & HL) & _).
  rewrite List.Forall_forall in HL. split.
  - intros Hne. apply (consumidoDe_ajeno L g _ Hf2). intros Hin.
    apply in_map_iff in Hin as (x & Hx & HxL).
    destruct (HL x HxL) as (l' & Hl' & Hinv & Hid & _).
    assert (l' = l) by (apply (lote_unico (bd st)); auto; congruence).
    subst l'. contradiction.
  - apply (consumidoDe_cota L g _ _ Hf2 HndL).
    + simpl. apply Q.le_max_l.
    + intros x HxL Hk.
      destruct (HL x HxL) as (l' & Hl' & _ & Hid & Hq & _).
      assert (l' = l) by (apply (lote_unico (bd st)); auto; congruence).
      subst l'. rewrite Hq. apply Qle_refl.
Qed.

Lemma consumidoDe_posicion idInv q fecha st g :
  List.NoDup (List.map lote_id (bd_lotes (bd st))) ->
  fst (calcularConsumoFIFO idInv q (Some fecha) st) = Exito g ->
  0 <= q ->
  sumaQ (fun l => consumidoDe (lote_id l) g)
    (List.filter (fun l => (lote_idInventario l =? idInv)%Z) (bd_lotes (bd st)))
  == q.
Proof.
  intros Hnd Hg Hq.
  destruct (consumo_de_posicion _ _ _ _ _ Hnd Hg) as ((L & Hf2 & _ & HL) & Hpos & Hcero).
  rewrite <- (sumaQ_map lote_id (fun k => consumidoDe k g)).
  rewrite consumidoDe_total.
  - destruct (Qlt_le_dec 0 q) as [H | H]; [apply Hpos, H |].
    rewrite (Hcero H). unfold cantidadConsumida, sumaQ. simpl. lra.
  - apply NoDup_map_filter, Hnd.
  - clear - Hf2 HL. induction Hf2 as [| x c L g Hxc _ IH]; constructor.
    + inversion HL as [| ? ? (l & Hl & Hinv & Hid & _) _]; subst.
      destruct Hxc as (Hc & _). rewrite Hc, Hid. apply in_map.
      apply List.filter_In. split; [exact Hl | apply Z.eqb_eq; reflexivity].
    + apply IH. inversion HL; assumption.
Qed.

Lemma asignadoALote_cons k dto dtos :
  asignadoALote k (dto :: dtos)
  == sumaQ ds_cantidad
       (List.filter (fun ds => (ds_idLote ds =? k)%Z)
          match cmd_detallesSalida dto with
          | Some salidas => salidas
          | None => []
          end)
     + asignadoALote k dtos.
Proof. unfold asignadoALote. simpl. apply sumaQ_app. Qed.

(** The allocations written for the lines of a sale are the consumptions
    computed for them. *)
Lemma asignado_es_consumido fecha st detalles dtos k :
  Forall2 (detalleDeVenta fecha st) detalles dtos ->
  asignadoALote k dtos
  == sumaQ (fun d => consumidoDe k (consumoDeLinea fecha st d)) detalles.
Proof.
  induction 1 as [| d dto detalles dtos Hd _ IH]; [reflexivity |].
  rewrite asignadoALote_cons, IH.
  change (sumaQ (fun d0 => consumidoDe k (consumoDeLinea fecha st d0)) (d :: detalles))
    with (consumidoDe k (consumoDeLinea fecha st d)
          + sumaQ (fun d0 => consumidoDe k (consumoDeLinea fecha st d0)) detalles).
  apply Qplus_comp; [| reflexivity].
  destruct Hd as (Hinv & _ & _ & g & Hg & Hs).
  unfold consumoDeLinea. rewrite Hinv, Hg.
  destruct (cmd_detallesSalida dto) as [salidas |].
  - destruct Hs as [_ Hf2]. symmetry. unfold consumidoDe.
    apply (sumaQ_parejas salidaDeConsumo); [exact Hf2 |].
    intros c s Hin.
    destruct (Forall2_combine_In _ _ _ _ _ Hf2 Hin) as (Hid & _ & Hq).
    split; [rewrite Hid; reflexivity | symmetry; exact Hq].
  - subst g. reflexivity.
Qed.

Lemma consumoDeLinea_lote fecha st d l id :
  List.NoDup (List.map lote_id (bd_lotes (bd st))) ->
  In l (bd_lotes (bd st)) -> lote_idInventario l = id ->
  (lineaDe id d = false -> consumidoDe (lote_id l) (consumoDeLinea fecha st d) == 0)
  /\ 0 <= consumidoDe (lote_id l) (consumoDeLinea fecha st d)
  /\ consumidoDe (lote_id l) (consumoDeLinea fecha st d)
     <= cantidadActual (resultadoLote (bd st) (Some fecha) l).
Proof.
  intros Hnd Hl Hinv.
  assert (Hnada : forall P : Prop,
                    (P -> consumidoDe (lote_id l) [] == 0)
                  /\ 0 <= consumidoDe (lote_id l) []
                  /\ consumidoDe (lote_id l) []
                     <= cantidadActual (resultadoLote (bd st) (Some fecha) l)).
  { intros P. unfold consumidoDe, sumaQ. simpl. split; [reflexivity |].
    split; [lra | apply Q.le_max_l]. }
  unfold consumoDeLinea, lineaDe.
  destruct (cd_inventario d) as [idInv |]; [| apply Hnada].
  destruct (fst (calcularConsumoFIFO idInv (cd_cantidad d) (Some fecha) st))
    as [g | e] eqn:Hg; [| apply Hnada].
  destruct (consumidoDe_lote _ _ _ _ _ l Hnd Hg Hl) as (H0 & H1 & H2).
  split; [| split; assumption].
  intros Hne. apply H0. apply Z.eqb_neq in Hne. congruence.
Qed.

(** With at most one line for the position, a sale draws from each lot of
    the position no more than the lot holds. *)
Lemma asignado_cota fecha st detalles dtos id l :
  Forall2 (detalleDeVenta fecha st) detalles dtos ->
  List.NoDup (List.map lote_id (bd_lotes (bd st))) ->
  (length (List.filter (lineaDe id) detalles) <= 1)%nat ->
  In l (bd_lotes (bd st)) -> lote_idInventario l = id ->
  0 <= asignadoALote (lote_id l) dtos
  /\ asignadoALote (lote_id l) dtos
     <= cantidadActual (resultadoLote (bd st) (Some fecha) l).
Proof.
  intros Hf2 Hnd Huna Hl Hinv.
  rewrite (asignado_es_consumido _ _ _ _ _ Hf2).
  rewrite (sumaQ_filtrado (lineaDe id))
    by (intros d _ Hd; apply (consumoDeLinea_lote fecha st d l id Hnd Hl Hinv), Hd).
  destruct (List.filter (lineaDe id) detalles) as [| d [| d' resto]].
  - unfold sumaQ. cbn [fold_right]. split; [lra | apply Q.le_max_l].
  - destruct (consumoDeLinea_lote fecha st d l id Hnd Hl Hinv) as (_ & H1 & H2).
    unfold sumaQ. cbn [fold_right]. split; lra.
  - simpl in Huna. lia.
Qed.

(** Over the lots of a position, a sale draws the quantities of its lines
    for that position. *)
Lemma asignado_posicion fecha st detalles dtos id :
  Forall2 (detalleDeVenta fecha st) detalles dtos ->
  List.NoDup (List.map lote_id (bd_lotes (bd st))) ->
  Forall (fun d => 0 <= cd_cantidad d) detalles ->
  sumaQ (fun l => asignadoALote (lote_id l) dtos)
    (List.filter (fun l => (lote_idInventario l =? id)%Z) (bd_lotes (bd st)))
  == sumaQ cd_cantidad (List.filter (lineaDe id) detalles).
Proof.
  intros Hf2 Hnd Hnn.
  rewrite (sumaQ_ext_in _
             (fun l => sumaQ (fun d => consumidoDe (lote_id l) (consumoDeLinea fecha st d))
                         (List.filter (lineaDe id) detalles))).
  2:{ intros l Hl. apply List.filter_In in Hl as [Hl Hinv]. apply Z.eqb_eq in Hinv.
      rewrite (asignado_es_consumido _ _ _ _ _ Hf2).
      apply sumaQ_filtrado. intros d _ Hd.
      apply (consumoDeLinea_lote fecha st d l id Hnd Hl Hinv), Hd. }
  rewrite sumaQ_intercambio. apply sumaQ_ext_in. intros d Hd.
  apply List.filter_In in Hd as [Hd Hlinea].
  destruct (Forall2_In_izquierda _ _ _ _ Hf2 Hd) as (dto & Hpar).
  destruct (Forall2_combine_In _ _ _ _ _ Hf2 Hpar) as (Hinv & _ & _ & g & Hg & _).
  unfold lineaDe in Hlinea. rewrite Hinv in Hlinea. apply Z.eqb_eq in Hlinea.
  rewrite Hlinea in Hg.
  unfold consumoDeLinea. rewrite Hinv, Hlinea, Hg.
  apply (consumidoDe_posicion _ _ _ _ _ Hnd Hg).
  rewrite List.Forall_forall in Hnn. apply Hnn, Hd.
Qed.

Lemma sumaQ_escala {A} (f : A -> Q) (c : Q) l :
  sumaQ f l * c == sumaQ (fun x => f x * c) l.
Proof.
  unfold sumaQ. induction l as [| x l IH]; simpl; [lra | rewrite <- IH; lra].
Qed.

Lemma sumaQ_indicador_lote (ls : list InventarioLote) k (f : InventarioLote -> Q) l0 :
  List.NoDup (List.map lote_id ls) -> In l0 ls -> lote_id l0 = k ->
  sumaQ (fun l => if (k =? lote_id l)%Z then f l else 0) ls == f l0.
Proof.
  intros Hnd Hin Hk. induction ls as [| l ls IH]; [destruct Hin |].
  simpl in Hnd. inversion Hnd as [| ? ? Hl Hnd']; subst.
  change (sumaQ (fun l1 => if (lote_id l0 =? lote_id l1)%Z then f l1 else 0) (l :: ls))
    with ((if (lote_id l0 =? lote_id l)%Z then f l else 0)
          + sumaQ (fun l1 => if (lote_id l0 =? lote_id l1)%Z then f l1 else 0) ls).
  destruct Hin as [-> | Hin].
  - rewrite Z.eqb_refl.
    rewrite (sumaQ_ceros (fun l1 => if (lote_id l0 =? lote_id l1)%Z then f l1 else 0) ls);
      [lra |].
    intros y Hy. destruct (lote_id l0 =? lote_id y)%Z eqn:He; [| reflexivity].
    apply Z.eqb_eq in He. exfalso. apply Hl. rewrite He. apply in_map, Hy.
  - destruct (lote_id l0 =? lote_id l)%Z eqn:He.
    + apply Z.eqb_eq in He. exfalso. apply Hl. rewrite <- He. apply in_map, Hin.
    + rewrite (IH Hnd' Hin). lra.
Qed.

(** Valued lot by lot at the unit costs of the lots, a consumption gives
    its cost. *)
Lemma consumidoDe_valor ls g :
  List.NoDup (List.map lote_id ls) ->
  Forall (fun c => exists l, In l ls /\ lote_id l = cl_idLote c
                             /\ lote_costoUnitario l = cl_costoUnitario c) g ->
  sumaQ (fun l => consumidoDe (lote_id l) g * lote_costoUnitario l) ls
  == costoConsumido g.
Proof.
  intros Hnd. induction 1 as [| c g (l0 & Hl0 & Hid & Hcosto) _ IH].
  - apply sumaQ_ceros. intros l _. unfold consumidoDe, sumaQ. simpl. lra.
  - rewrite (sumaQ_ext_in _
               (fun l => (if (cl_idLote c =? lote_id l)%Z
                          then cl_cantidad c * lote_costoUnitario l else 0)
                         + consumidoDe (lote_id l) g * lote_costoUnitario l)).
    2:{ intros l _. rewrite consumidoDe_cons.
        destruct (cl_idLote c =? lote_id l)%Z; lra. }
    rewrite sumaQ_suma, IH.
    rewrite (sumaQ_indicador_lote ls (cl_idLote c)
               (fun l => cl_cantidad c * lote_costoUnitario l) l0 Hnd Hl0 Hid).
    rewrite Hcosto. unfold costoConsumido, sumaQ. simpl. reflexivity.
Qed.

Lemma consumidoDe_valor_posicion idInv q fecha st g :
  List.NoDup (List.map lote_id (bd_lotes (bd st))) ->
  fst (calcularConsumoFIFO idInv q (Some fecha) st) = Exito g ->
  sumaQ (fun l => consumidoDe (lote_id l) g * lote_costoUnitario l)
    (List.filter (fun l => (lote_idInventario l =? idInv)%Z) (bd_lotes (bd st)))
  == costoConsumido g.
Proof.
  intros Hnd Hg.
  destruct (consumo_de_posicion _ _ _ _ _ Hnd Hg) as ((L & Hf2 & _ & HL) & _).
  apply consumidoDe_valor; [apply NoDup_map_filter, Hnd |].
  clear - Hf2 HL. induction Hf2 as [| x c L g Hxc _ IH]; constructor.
  - inversion HL as [| ? ? (l & Hl & Hinv & Hid & _ & Hcosto) _]; subst.
    destruct Hxc as (Hc & Hcu & _). exists l. split; [| split; congruence].
    apply List.filter_In. split; [exact Hl | apply Z.eqb_eq; reflexivity].
  - apply IH. inversion HL; assumption.
Qed.

(** Valued at the unit costs of the lots, what a sale draws from the lots
    of a position is the cost of the consumptions computed for its lines
    for that position. *)
Lemma asignado_valor fecha st detalles dtos id :
  Forall2 (detalleDeVenta fecha st) detalles dtos ->
  List.NoDup (List.map lote_id (bd_lotes (bd st))) ->
  sumaQ (fun l => asignadoALote (lote_id l) dtos * lote_costoUnitario l)
    (List.filter (fun l => (lote_idInventario l =? id)%Z) (bd_lotes (bd st)))
  == sumaQ (fun d => costoConsumido (consumoDeLinea fecha st d))
       (List.filter (lineaDe id) detalles).
Proof.
  intros Hf2 Hnd.
  rewrite (sumaQ_ext_in _
             (fun l => sumaQ (fun d => consumidoDe (lote_id l) (consumoDeLinea fecha st d)
                                       * lote_costoUnitario l)
                         (List.filter (lineaDe id) detalles))).
  2:{ intros l Hl. apply List.filter_In in Hl as [Hl Hinv]. apply Z.eqb_eq in Hinv.
      rewrite (asignado_es_consumido _ _ _ _ _ Hf2).
      rewrite (sumaQ_filtrado (lineaDe id))
        by (intros d _ Hd; apply (consumoDeLinea_lote fecha st d l id Hnd Hl Hinv), Hd).
      apply sumaQ_escala. }
  rewrite sumaQ_intercambio. apply sumaQ_ext_in. intros d Hd.
  apply List.filter_In in Hd as [Hd Hlinea].
  destruct (Forall2_In_izquierda _ _ _ _ Hf2 Hd) as (dto & Hpar).
  destruct (Forall2_combine_In _ _ _ _ _ Hf2 Hpar) as (Hinv & _ & _ & g & Hg & _).
  unfold lineaDe in Hlinea. rewrite Hinv in Hlinea. apply Z.eqb_eq in Hlinea.
  rewrite Hlinea in Hg.
  unfold consumoDeLinea. rewrite Hinv, Hlinea, Hg.
  apply (consumidoDe_valor_posicion _ _ _ _ _ Hnd Hg).
Qed.

(** The lots of a position after the exit of a sale has been written. *)
Lemma venta_registrada_lotes ahora detalles op metodo fecha st res st1
    dto comprobante mov st2 id r :
  List.NoDup (List.map lote_id (bd_lotes (bd st))) ->
  lotesConEntrada (bd st) id fecha ->
  Forall (fun d => cd_inventario d <> Some 0%Z) detalles ->
  Forall (fun d => 0 <= cd_cantidad d) detalles ->
  (length (List.filter (lineaDe id) detalles) <= 1)%nat ->
  String.eqb op "COMPRA" = false ->
  procesarLotesComprobante ahora detalles op metodo (Some fecha) st
  = (Exito res, st1) ->
  cm_tipo dto = SALIDA ->
  cm_estado dto = PROCESADO ->
  cm_detalles dto
  = createMovimientosDetallesFromDetallesComprobante detalles "VENTA"
      (lp_costoUnitario res) (lp_lotes res) ->
  createWithManager dto comprobante st1 = (Exito mov, st2) ->
  (cm_fecha dto <= fecha)%Z ->
  fst (calcularStockInventario id (Some fecha) st) = Some r ->
  exists r',
    fst (calcularStockInventario id (Some fecha) st2) = Some r'
    /\ cantidadTotal (lotes r')
       == cantidadTotal (lotes r)
          - sumaQ cd_cantidad (List.filter (lineaDe id) detalles)
    /\ valorTotalLotes (lotes r')
       == valorTotalLotes (lotes r)
          - sumaQ (fun d => costoConsumido (consumoDeLinea fecha st d))
              (List.filter (lineaDe id) detalles).
Proof.
  intros Hnd Hent Hno Hnn Huna Hop Hproc Htipo Hestado Hdet Hcrea Hfecha Hr.
  assert (Hbd1 : bd st1 = bd st).
  { pose proof (procesarDetalles_venta_bd ahora detalles op metodo (Some fecha)
                  [] [] st Hop) as H.
    unfold procesarLotesComprobante in Hproc. rewrite Hproc in H. exact H. }
  pose proof (procesarLotesComprobante_detalles_venta _ _ _ _ _ _ _ _ Hno Hop Hproc)
    as Hf2.
  rewrite <- Hdet in Hf2.
  destruct (createWithManager_filas _ _ _ _ _ Hcrea)
    as (_ & _ & _ & _ & filas & Hbd2 & _).
  assert (Hlotes2 : bd_lotes (bd st2) = bd_lotes (bd st))
    by (rewrite Hbd2; simpl; rewrite Hbd1; reflexivity).
  assert (Hinv2 : bd_inventarios (bd st2) = bd_inventarios (bd st))
    by (rewrite Hbd2; simpl; rewrite Hbd1; reflexivity).
  (* the result before *)
  destruct (calcularStockInventario id (Some fecha) st) as [r0 s0] eqn:Hantes.
  simpl in Hr. subst r0.
  assert (Hantes' : calcularStockDesdeLotes id (Some fecha) st = (Some r, s0))
    by exact Hantes.
  assert (Hcoh : forall s : Estado, Some fecha = None -> cacheCoherente s)
    by discriminate.
  destruct (calcularStockDesdeLotes_puro _ _ _ _ _ (Hcoh st) Hantes') as (Hl & _).
  (* the result after *)
  assert (Hexiste : exists inventario, buscarInventario (bd st2) id = Some inventario).
  { unfold buscarInventario. rewrite Hinv2.
    unfold calcularStockDesdeLotes in Hantes'.
    destruct (buscarInventario (bd st) id) as [inventario |] eqn:Hb;
      [| discriminate]. exists inventario. exact Hb. }
  destruct Hexiste as (inventario & Hb2).
  destruct (calcularStockInventario_encuentra id (Some fecha) st2 inventario Hb2)
    as (r' & Hr').
  exists r'. split; [exact Hr' |].
  destruct (calcularStockInventario id (Some fecha) st2) as [r1 s1] eqn:Hdespues.
  simpl in Hr'. subst r1.
  assert (Hdespues' : calcularStockDesdeLotes id (Some fecha) st2 = (Some r', s1))
    by exact Hdespues.
  destruct (calcularStockDesdeLotes_puro _ _ _ _ _ (Hcoh st2) Hdespues') as (Hl' & _).
  (* lot by lot *)
  assert (Hlote : forall l,
             In l (List.filter (fun l => (lote_idInventario l =? id)%Z)
                     (bd_lotes (bd st))) ->
             aporteDeLote cantidadActual (bd st2) (Some fecha) l
             == aporteDeLote cantidadActual (bd st) (Some fecha) l
                - asignadoALote (lote_id l) (cm_detalles dto)
             /\ aporteDeLote (fun sl => cantidadActual sl * costoUnitario sl)
                  (bd st2) (Some fecha) l
                == aporteDeLote (fun sl => cantidadActual sl * costoUnitario sl)
                     (bd st) (Some fecha) l
                   - asignadoALote (lote_id l) (cm_detalles dto)
                     * lote_costoUnitario l).
  { intros l Hin.
    apply List.filter_In in Hin as [Hin Hinv]. apply Z.eqb_eq in Hinv.
    destruct (asignado_cota fecha st detalles (cm_detalles dto) id l Hf2 Hnd Huna
                Hin Hinv) as (Ha0 & Ha1).
    assert (Hb : buscarLote (bd st1) (lote_id l) = Some l)
      by (rewrite Hbd1; apply buscarLote_unico; assumption).
    assert (Hb' : buscarLote (bd st2) (lote_id l) = Some l)
      by (unfold buscarLote in *; rewrite Hlotes2, <- Hbd1; exact Hb).
    assert (Hentl : 0 < sumaDetallesLote (bd st1) (lote_id l) ENTRADA (Some fecha)).
    { rewrite Hbd1. unfold lotesConEntrada in Hent.
      rewrite List.Forall_forall in Hent. apply (Hent l Hin Hinv). }
    destruct (salida_registrada_lote _ _ _ _ _ _ _ fecha Htipo Hestado Hcrea Hb
                Hentl Ha0) as (q & q' & Hq & Hq' & Hdespuesl).
    rewrite calcularStockLote_con_fecha in Hq, Hq'. simpl in Hq, Hq'.
    apply Z.leb_le in Hfecha. rewrite Hfecha in Hdespuesl.
    unfold aporteDeLote. change (@Some Z fecha) with (@Some Fecha fecha).
    rewrite Hq'. rewrite <- Hbd1. rewrite Hq.
    assert (Hqr : q = resultadoLote (bd st) (Some fecha) l).
    { unfold stockDeLote in Hq. rewrite Hb in Hq. simpl in Hq. rewrite Hbd1 in Hq.
      congruence. }
    assert (Hw : costoUnitario q = lote_costoUnitario l)
      by (rewrite Hqr; reflexivity).
    assert (Hw' : costoUnitario q' = lote_costoUnitario l).
    { unfold stockDeLote in Hq'. rewrite Hb' in Hq'. simpl in Hq'.
      injection Hq' as <-. reflexivity. }
    rewrite <- Hqr in Ha1. rewrite Hw, Hw'.
    set (A := asignadoALote (lote_id l) (cm_detalles dto)) in *.
    set (w := lote_costoUnitario l).
    assert (Hc' : cantidadActual q' == cantidadActual q - A).
    { destruct (Qmax_0_cases (cantidadActual q - A)) as [[H1 H2] | [H1 H2]]; lra. }
    destruct (Qgtb (cantidadActual q') 0) eqn:Hp';
      destruct (Qgtb (cantidadActual q) 0) eqn:Hp;
      try apply Qgtb_true in Hp'; try apply Qgtb_false in Hp';
      try apply Qgtb_true in Hp; try apply Qgtb_false in Hp;
      (split; [lra |]).
    - rewrite Hc'. lra.
    - lra.
    - assert (Hca : cantidadActual q == A) by lra. rewrite Hca. lra.
    - assert (HA0 : A == 0) by lra. rewrite HA0. lra. }
  unfold cantidadTotal, valorTotalLotes.
  rewrite Hl, Hl', !sumaQ_lotesConSaldo, Hlotes2. split.
  - rewrite <- (asignado_posicion fecha st detalles (cm_detalles dto) id Hf2 Hnd Hnn).
    rewrite <- sumaQ_resta. apply sumaQ_ext_in. intros l Hin. apply (Hlote l Hin).
  - rewrite <- (asignado_valor fecha st detalles (cm_detalles dto) id Hf2 Hnd).
    rewrite <- sumaQ_resta. apply sumaQ_ext_in. intros l Hin. apply (Hlote l Hin).
Qed.

(** X28. Stock of a position after a sale. In a store whose lot ids are
    unique and where every lot of the position has received an entry by the
    date, let procesarLotesComprobante accept a voucher that is not a
    purchase, with no negative quantity and at most one line for the
    position, the factory build the lines of the movement in mode VENTA and
    createWithManager write them in a processed exit dated on or before the
    date. Then the lots that calcularStockInventario lists for the position
    at that date, and what obtenerLotesDisponiblesFIFO offers to the next
    sale, hold in total what they held before less the quantity of the
    line. *)
Theorem venta_registrada_baja_stock ahora detalles op metodo fecha st res st1
    dto comprobante mov st2 id r :
  List.NoDup (List.map lote_id (bd_lotes (bd st))) ->
  lotesConEntrada (bd st) id fecha ->
  Forall (fun d => cd_inventario d <> Some 0%Z) detalles ->
  Forall (fun d => 0 <= cd_cantidad d) detalles ->
  (length (List.filter (lineaDe id) detalles) <= 1)%nat ->
  String.eqb op "COMPRA" = false ->
  procesarLotesComprobante ahora detalles op metodo (Some fecha) st
  = (Exito res, st1) ->
  cm_tipo dto = SALIDA ->
  cm_estado dto = PROCESADO ->
  cm_detalles dto
  = createMovimientosDetallesFromDetallesComprobante detalles "VENTA"
      (lp_costoUnitario res) (lp_lotes res) ->
  createWithManager dto comprobante st1 = (Exito mov, st2) ->
  (cm_fecha dto <= fecha)%Z ->
  fst (calcularStockInventario id (Some fecha) st) = Some r ->
  exists r',
    fst (calcularStockInventario id (Some fecha) st2) = Some r'
    /\ cantidadTotal (lotes r')
       == cantidadTotal (lotes r)
          - sumaQ cd_cantidad (List.filter (lineaDe id) detalles)
    /\ totalDisponible (fst (obtenerLotesDisponiblesFIFO id (Some fecha) st2))
       == totalDisponible (fst (obtenerLotesDisponiblesFIFO id (Some fecha) st))
          - sumaQ cd_cantidad (List.filter (lineaDe id) detalles).
Proof.
  intros Hnd Hent Hno Hnn Huna Hop Hproc Htipo Hestado Hdet Hcrea Hfecha Hr.
  destruct (venta_registrada_lotes _ _ _ _ _ _ _ _ _ _ _ _ _ _ Hnd Hent Hno Hnn Huna
              Hop Hproc Htipo Hestado Hdet Hcrea Hfecha Hr) as (r' & Hr' & Hcant & _).
  exists r'. split; [exact Hr' |]. split; [exact Hcant |].
  assert (Hcoh : forall s : Estado, Some fecha = None -> cacheCoherente s)
    by discriminate.
  assert (Hofrece : forall s x,
             fst (calcularStockInventario id (Some fecha) s) = Some x ->
             totalDisponible (fst (obtenerLotesDisponiblesFIFO id (Some fecha) s))
             == cantidadTotal (lotes x)).
  { intros s x Hx.
    destruct (calcularStockInventario id (Some fecha) s) as [x0 s0] eqn:Hcall.
    simpl in Hx. subst x0.
    assert (Hcall' : calcularStockDesdeLotes id (Some fecha) s = (Some x, s0))
      by exact Hcall.
    destruct (calcularStockDesdeLotes_puro _ _ _ _ _ (Hcoh s) Hcall') as (Hl & _).
    destruct (totalDisponible_con_fecha id fecha s) as [H | H].
    - rewrite H, Hl. reflexivity.
    - unfold calcularStockDesdeLotes in Hcall'. rewrite H in Hcall'.
      discriminate Hcall'. }
  rewrite (Hofrece st2 r' Hr'), (Hofrece st r Hr). exact Hcant.
Qed.

Lemma venta_registrada_baja_stock_witness :
  exists res st1 mov st2 r r',
    procesarLotesComprobante (dia 15) [lineaVentaEj] "VENTA" FIFO (Some (dia 15))
      estadoDosLotes = (Exito res, st1)
    /\ createWithManager
         (movimientoDe SALIDA (dia 15)
            (createMovimientosDetallesFromDetallesComprobante [lineaVentaEj] "VENTA"
               (lp_costoUnitario res) (lp_lotes res)))
         None st1 = (Exito mov, st2)
    /\ fst (calcularStockInventario 1 (Some (dia 15)) estadoDosLotes) = Some r
    /\ fst (calcularStockInventario 1 (Some (dia 15)) st2) = Some r'
    /\ cantidadTotal (lotes r) == 20
    /\ cantidadTotal (lotes r') == 5.
Proof.
  assert (Hnd : List.NoDup (List.map lote_id (bd_lotes (bd estadoDosLotes)))).
  { simpl. apply List.NoDup_cons; [intros [H | []]; discriminate H |].
    apply List.NoDup_cons; [intros [] | apply List.NoDup_nil]. }
  assert (Hent : lotesConEntrada (bd estadoDosLotes) 1 (dia 15)).
  { apply List.Forall_forall. intros l Hl. simpl in Hl.
    destruct Hl as [<- | [<- | []]]; intros _; vm_compute; reflexivity. }
  assert (Hno : Forall (fun d => cd_inventario d <> Some 0%Z) [lineaVentaEj]).
  { apply List.Forall_forall. intros d [<- | []]. discriminate. }
  assert (Hnn : Forall (fun d => 0 <= cd_cantidad d) [lineaVentaEj]).
  { apply List.Forall_forall. intros d [<- | []]. vm_compute. discriminate. }
  assert (Huna : (length (List.filter (lineaDe 1) [lineaVentaEj]) <= 1)%nat)
    by (simpl; lia).
  destruct (procesarLotesComprobante (dia 15) [lineaVentaEj] "VENTA" FIFO
              (Some (dia 15)) estadoDosLotes) as [res st1] eqn:Hproc.
  destruct res as [res | e]; [| vm_compute in Hproc; discriminate Hproc].
  destruct (createWithManager
              (movimientoDe SALIDA (dia 15)
                 (createMovimientosDetallesFromDetallesComprobante [lineaVentaEj]
                    "VENTA" (lp_costoUnitario res) (lp_lotes res)))
              None st1) as [[mov | e] st2] eqn:Hcrea;
    [| unfold createWithManager in Hcrea; discriminate Hcrea].
  destruct (fst (calcularStockInventario 1 (Some (dia 15)) estadoDosLotes))
    as [r |] eqn:Hr; [| vm_compute in Hr; discriminate Hr].
  assert (Hf : (cm_fecha (movimientoDe SALIDA (dia 15)
                  (createMovimientosDetallesFromDetallesComprobante [lineaVentaEj]
                     "VENTA" (lp_costoUnitario res) (lp_lotes res))) <= dia 15)%Z)
    by (vm_compute; discriminate).
  destruct (venta_registrada_baja_stock (dia 15) [lineaVentaEj] "VENTA" FIFO (dia 15)
              estadoDosLotes res st1
              (movimientoDe SALIDA (dia 15)
                 (createMovimientosDetallesFromDetallesComprobante [lineaVentaEj]
                    "VENTA" (lp_costoUnitario res) (lp_lotes res)))
              None mov st2 1 r Hnd Hent Hno Hnn Huna eq_refl Hproc eq_refl eq_refl
              eq_refl Hcrea Hf Hr)
    as (r' & Hr' & Hcant & _).
  exists res, st1, mov, st2, r, r'.
  assert (H20 : cantidadTotal (lotes r) == 20).
  { vm_compute in Hr. injection Hr as <-. vm_compute. reflexivity. }
  repeat split; auto.
  rewrite Hcant, H20. vm_compute. reflexivity.
Defined.

(** * The value of the lots after a sale *)

Lemma costoDeConsumo_por_cantidad g q :
  (0 < q -> cantidadConsumida g == q) ->
  (q <= 0 -> g = []) ->
  q * costoDeConsumo g == costoConsumido g.
Proof.
  intros Hpos Hcero. destruct (Qlt_le_dec 0 q) as [Hq | Hq].
  - specialize (Hpos Hq). unfold costoDeConsumo.
    pose proof (fold_left_suma (fun item => cl_cantidad item * cl_costoUnitario item)
                  g 0) as HT.
    pose proof (fold_left_suma cl_cantidad g 0) as HN.
    fold (cantidadConsumida g) in HN. fold (costoConsumido g) in HT.
    destruct (Qgtb _ 0) eqn:Hp.
    + rewrite HT, HN, Hpos. field. lra.
    + apply Qgtb_false in Hp. lra.
  - rewrite (Hcero Hq). unfold costoDeConsumo, costoConsumido, sumaQ. simpl. lra.
Qed.

(** Under FIFO, the unit cost returned for each line of a sale, at the
    quantity of the line, is the cost of the consumption computed for it. *)
Lemma lineasVenta_costos_FIFO fecha st detalles costos usados st' :
  lineasVenta FIFO (Some fecha) st detalles costos usados st' ->
  forall st0, bd st0 = bd st ->
  Forall2 (fun d c => cd_cantidad d * c
                      == costoConsumido (consumoDeLinea fecha st0 d))
    detalles costos.
Proof.
  remember (Some fecha) as f eqn:Hf. remember FIFO as metodo eqn:Hm.
  induction 1 as [st | st detalle resto idInv costo st1 consumo st2 costos usados st'
                         Hinv Hcosto Hconsumo Hresto IH]; intros st0 Hbd.
  - constructor.
  - subst f metodo.
    assert (Hbd1 : bd st1 = bd st).
    { pose proof (calcularCostoUnitarioVenta_bd idInv (cd_cantidad detalle) FIFO
                    (Some fecha) st) as H. rewrite Hcosto in H. exact H. }
    assert (Hbd2 : bd st2 = bd st1).
    { pose proof (calcularConsumoFIFO_bd idInv (cd_cantidad detalle)
                    (Some fecha) st1) as H. rewrite Hconsumo in H. exact H. }
    constructor; [| apply IH; simpl; congruence].
    simpl in Hcosto. unfold ligar in Hcosto.
    destruct (calcularConsumoFIFO idInv (cd_cantidad detalle) (Some fecha) st)
      as [[g | e] st3] eqn:Hg; [| discriminate].
    unfold retornar in Hcosto. injection Hcosto as <- _.
    unfold consumoDeLinea. rewrite Hinv.
    rewrite (calcularConsumoFIFO_con_fecha idInv _ fecha st0 st) by congruence.
    rewrite Hg. simpl.
    destruct (calcularConsumoFIFO_exito _ _ _ _ _ _ Hg) as (_ & Hpos & Hcero).
    apply costoDeConsumo_por_cantidad; assumption.
Qed.

Lemma sumaQ_combine {A B} (R : A -> B -> Prop) (p : A -> bool)
    (f : A * B -> Q) (g : A -> Q) la lb :
  Forall2 R la lb ->
  (forall a b, R a b -> f (a, b) == g a) ->
  sumaQ f (List.filter (fun x => p (fst x)) (List.combine la lb))
  == sumaQ g (List.filter p la).
Proof.
  intros Hf2 Hfg. induction Hf2 as [| a b la lb Hab _ IH]; [reflexivity |].
  simpl. destruct (p a); [| exact IH].
  unfold sumaQ in *. simpl. rewrite IH, (Hfg a b Hab). reflexivity.
Qed.

(** X29. Value of the lots after a sale. Under the conditions of the
    stock of a position after a sale, the value of the lots that
    calcularStockInventario lists for the position, each at its unit cost,
    falls by the cost of the allocations that calcularConsumoFIFO computes
    for the line, each at the unit cost of its lot, under PROMEDIO as under
    FIFO; under FIFO this is the quantity of the line at the unit cost that
    procesarLotesComprobante returned for it. *)
Theorem venta_registrada_baja_valor ahora detalles op metodo fecha st res st1
    dto comprobante mov st2 id r :
  List.NoDup (List.map lote_id (bd_lotes (bd st))) ->
  lotesConEntrada (bd st) id fecha ->
  Forall (fun d => cd_inventario d <> Some 0%Z) detalles ->
  Forall (fun d => 0 <= cd_cantidad d) detalles ->
  (length (List.filter (lineaDe id) detalles) <= 1)%nat ->
  String.eqb op "COMPRA" = false ->
  procesarLotesComprobante ahora detalles op metodo (Some fecha) st
  = (Exito res, st1) ->
  cm_tipo dto = SALIDA ->
  cm_estado dto = PROCESADO ->
  cm_detalles dto
  = createMovimientosDetallesFromDetallesComprobante detalles "VENTA"
      (lp_costoUnitario res) (lp_lotes res) ->
  createWithManager dto comprobante st1 = (Exito mov, st2) ->
  (cm_fecha dto <= fecha)%Z ->
  fst (calcularStockInventario id (Some fecha) st) = Some r ->
  exists r',
    fst (calcularStockInventario id (Some fecha) st2) = Some r'
    /\ valorTotalLotes (lotes r')
       == valorTotalLotes (lotes r)
          - sumaQ (fun d => costoConsumido (consumoDeLinea fecha st d))
              (List.filter (lineaDe id) detalles)
    /\ (metodo = FIFO ->
        valorTotalLotes (lotes r')
        == valorTotalLotes (lotes r)
           - costoDeVenta id detalles (lp_costoUnitario res)).
Proof.
  intros Hnd Hent Hno Hnn Huna Hop Hproc Htipo Hestado Hdet Hcrea Hfecha Hr.
  destruct (venta_registrada_lotes _ _ _ _ _ _ _ _ _ _ _ _ _ _ Hnd Hent Hno Hnn Huna
              Hop Hproc Htipo Hestado Hdet Hcrea Hfecha Hr) as (r' & Hr' & _ & Hval).
  exists r'. split; [exact Hr' |]. split; [exact Hval |].
  intros ->. rewrite Hval. apply Qplus_comp; [reflexivity |]. apply Qopp_comp.
  unfold procesarLotesComprobante in Hproc.
  apply (procesarDetalles_venta _ _ _ _ _ _ _ _ _ _ Hop) in Hproc
    as (costos & usados & Hc & _ & Hlineas).
  simpl in Hc. rewrite Hc. unfold costoDeVenta. symmetry.
  apply (sumaQ_combine _ (lineaDe id) _ _ _ _
           (lineasVenta_costos_FIFO _ _ _ _ _ _ Hlineas st eq_refl)).
  intros d c H. exact H.
Qed.

Lemma venta_registrada_baja_valor_witness :
  exists res st1 mov st2 r r',
    procesarLotesComprobante (dia 15) [lineaVentaEj] "VENTA" PROMEDIO (Some (dia 15))
      estadoDosLotes = (Exito res, st1)
    /\ createWithManager
         (movimientoDe SALIDA (dia 15)
            (createMovimientosDetallesFromDetallesComprobante [lineaVentaEj] "VENTA"
               (lp_costoUnitario res) (lp_lotes res)))
         None st1 = (Exito mov, st2)
    /\ fst (calcularStockInventario 1 (Some (dia 15)) estadoDosLotes) = Some r
    /\ fst (calcularStockInventario 1 (Some (dia 15)) st2) = Some r'
    /\ valorTotalLotes (lotes r) == 130
    /\ valorTotalLotes (lotes r') == 40
    /\ costoDeVenta 1 [lineaVentaEj] (lp_costoUnitario res) == 15 * (13 # 2).
Proof.
  assert (Hnd : List.NoDup (List.map lote_id (bd_lotes (bd estadoDosLotes)))).
  { simpl. apply List.NoDup_cons; [intros [H | []]; discriminate H |].
    apply List.NoDup_cons; [intros [] | apply List.NoDup_nil]. }
  assert (Hent : lotesConEntrada (bd estadoDosLotes) 1 (dia 15)).
  { apply List.Forall_forall. intros l Hl. simpl in Hl.
    destruct Hl as [<- | [<- | []]]; intros _; vm_compute; reflexivity. }
  assert (Hno : Forall (fun d => cd_inventario d <> Some 0%Z) [lineaVentaEj]).
  { apply List.Forall_forall. intros d [<- | []]. discriminate. }
  assert (Hnn : Forall (fun d => 0 <= cd_cantidad d) [lineaVentaEj]).
  { apply List.Forall_forall. intros d [<- | []]. vm_compute. discriminate. }
  assert (Huna : (length (List.filter (lineaDe 1) [lineaVentaEj]) <= 1)%nat)
    by (simpl; lia).
  destruct (procesarLotesComprobante (dia 15) [lineaVentaEj] "VENTA" PROMEDIO
              (Some (dia 15)) estadoDosLotes) as [res st1] eqn:Hproc.
  destruct res as [res | e]; [| vm_compute in Hproc; discriminate Hproc].
  destruct (createWithManager
              (movimientoDe SALIDA (dia 15)
                 (createMovimientosDetallesFromDetallesComprobante [lineaVentaEj]
                    "VENTA" (lp_costoUnitario res) (lp_lotes res)))
              None st1) as [[mov | e] st2] eqn:Hcrea;
    [| unfold createWithManager in Hcrea; discriminate Hcrea].
  destruct (fst (calcularStockInventario 1 (Some (dia 15)) estadoDosLotes))
    as [r |] eqn:Hr; [| vm_compute in Hr; discriminate Hr].
  assert (Hf : (cm_fecha (movimientoDe SALIDA (dia 15)
                  (createMovimientosDetallesFromDetallesComprobante [lineaVentaEj]
                     "VENTA" (lp_costoUnitario res) (lp_lotes res))) <= dia 15)%Z)
    by (vm_compute; discriminate).
  destruct (venta_registrada_baja_valor (dia 15) [lineaVentaEj] "VENTA" PROMEDIO
              (dia 15) estadoDosLotes res st1
              (movimientoDe SALIDA (dia 15)
                 (createMovimientosDetallesFromDetallesComprobante [lineaVentaEj]
                    "VENTA" (lp_costoUnitario res) (lp_lotes res)))
              None mov st2 1 r Hnd Hent Hno Hnn Huna eq_refl Hproc eq_refl eq_refl
              eq_refl Hcrea Hf Hr)
    as (r' & Hr' & Hval & _).
  exists res, st1, mov, st2, r, r'.
  assert (H130 : valorTotalLotes (lotes r) == 130).
  { vm_compute in Hr. injection Hr as <-. vm_compute. reflexivity. }
  repeat split; auto.
  - rewrite Hval, H130. vm_compute. reflexivity.
  - vm_compute in Hproc. injection Hproc as <- _. vm_compute. reflexivity.
Defined.

(** * The lines of a FIFO exit *)





(** * Costs and lots of the lines of a sale *)




